(* ===== verification/_CoqProject ===== *)
-Q . S2P
Prelude.v
Shell.v
Umalloc.v
Pipes.v
Dll.v
Spinlock.v
Double.v
Procdef.v
Mlfq.v
Sched.v
Proc.v
Threads.v
Trap.v
Str.v
Ulib.v
Console.v
Kbd.v
Bytes.v
Bufcache.v
Bio.v
Ide.v
Log.v
Txdisk.v
Fs.v
Fsblocks.v
Fsmap.v
Fsdata.v
Mkfs.v
Kalloc.v
Vm.v
Vmcopy.v
Fcntl.v
Grep.v
Sh.v
Shrun.v
Shmain.v
Wc.v
File.v
Kenv.v
Syscall.v
Sysfile.v
Sysproc.v
Exec.v
Execstack.v
Acct.v
Acctsys.v
Acctproc.v
Execacct.v
