(* ===== verification/Prelude.v ===== *)
(** * Verification of HYU_ELE3021: the xv6 kernel, its user library and two shells

    The repository holds the teaching kernel xv6 (src/xv6-public), extended by a
    multi-level feedback queue with stride scheduling, threads, files with three
    levels of indirect blocks and an explicit [sync], and a small shell for
    Linux (src/proj_shell).  This library translates the C code into Rocq
    functions that compute, and proves what the parts promise each other and
    their users.

    ** How C is translated

    - An integer is a [Z]; where the code can wrap, the function of its width
      ([u8], [u16], [u32], [i16], [i32]) is written out.  [double] is the binary64
      of the standard library's [SpecFloat]; the wider registers of an x87 unit
      are not modelled, and the theorems on the scheduler use only the order.
    - Stateful code is a function of the monad [M S A], from a state to an
      [outcome]: [Ok] with a result, [Sleep] on a channel, [Panic] with its
      message, [Fault] for a null dereference, an index outside of an array or
      other undefined behaviour, and [Spin] for a loop that does not end.
      A theorem that a routine is [Ok] excludes all the others.
    - A pointer into a static array is an index, a null pointer [None]; memory
      that is addressed freely (pages, user memory, strings) is a store of bytes.
    - A section under a spin lock is one step.  A routine that gives up the CPU
      is cut at the switch: what it does before and what it does when it
      is run again are two functions (Proc.v, Trap.v, Pipes.v, Ide.v), so that
      steps of other processes can come between.
    - A loop is a fixpoint on its data, or on fuel that the theorem shows to be
      enough: the length of the list, string or table it walks, the size of
      the memory for a scan that ends at a zero, the number of pages of a range,
      five calls a byte and five for the shell's parser, two times around
      the ring for the allocator of user programs.  Running out of fuel is [Spin], so
      a theorem that gives [Ok] shows that the loop ends.
    - What is not in the sources is a parameter: the symbols of the linker, the
      devices, the room [malloc] of the host grants, [sbrk] for the user allocator.
      The hypotheses on them are sections' hypotheses and have witnesses.

    ** The files

    Prelude.v: integers, record update, the monad and its tactics.  Dll.v: doubly
    linked lists in arrays.  Str.v: string.c.  Double.v: the doubles of proc.c.

    Processes (spinlock.c, sleeplock.c, proc.c, trap.c).  Spinlock.v has the locks
    on one CPU and the protocol between CPUs; Procdef.v the process table, the
    globals of the scheduler and the interface [KernelEnv] to memory and files;
    Mlfq.v the queue of nodes and its refinement to three lists; Sched.v the choice
    of the next process; Proc.v creation, termination, sleeping and threads;
    Threads.v the list of threads; Trap.v system calls, interrupts and faults.

    Disk and files (ide.c, memide.c, bio.c, log.c, fs.c, file.c, pipe.c, mkfs.c).
    Bufcache.v states what the buffer cache promises and Bio.v implements it over
    memide.c; Ide.v shows the interrupt-driven driver to have the same effect;
    Log.v is the log over the interface, with crashes as prefixes of the
    disk writes; Txdisk.v states what a transaction sees, and Fs.v is fs.c over it;
    Fsblocks.v, Fsmap.v and Fsdata.v are the theorems on allocation, [bmap]
    and the bytes of files; Mkfs.v shows the first image to satisfy their
    invariant; Pipes.v is the ring buffer, File.v the file table.

    Memory (kalloc.c, vm.c): Kalloc.v, Vm.v, Vmcopy.v.

    System calls (syscall.c, sysfile.c, sysproc.c, exec.c).  Kenv.v puts memory and
    files together as an instance of [KernelEnv]; Syscall.v, Sysfile.v, Sysproc.v
    and Exec.v are the calls; Execstack.v the first stack of a program; Acct.v,
    Acctsys.v, Acctproc.v and Execacct.v count references, locks and
    transactions through all of them.

    Console (console.c, kbd.c, uart.c): Console.v, Kbd.v.

    User programs: Ulib.v (ulib.c, printf.c), Umalloc.v (umalloc.c), Grep.v, Wc.v,
    Sh.v, Shrun.v and Shmain.v (sh.c: parser, execution, loop), Shell.v
    (proj_shell/src/shell.c).

    ** What the theorems show

    - The log: a transaction is installed completely or not at all, whatever write the
      machine stops at and however often recovery is interrupted; [commit] and
      [sync] complete; with one more log block the reservations of [begin_op] suffice.
    - Files: what is written is read back, in blocks no other file has, and [bmap]
      fills only the holes on its way; [mkfs] makes an image of this kind.
    - References to files and inodes, locks and transactions balance over every
      path of every call on files, of [fork], [exit], the thread calls and [exec].
    - Memory: [kalloc] and [kfree] are a stack of pages; address spaces are
      extended, copied and freed exactly, failures included.
    - Scheduling: the queues refine three lists; the process chosen is runnable
      and has the least path; a killed process does not return to user mode;
      the timer takes the CPU away.
    - Boundaries: system call arguments are accepted exactly when they lie in the
      memory of the process; every scan code is defined; printed numbers
      are read back.
    - Pipes, console and disk driver refine queues and a line editor; the allocator
      of user programs loses no byte; the shells parse and run what was typed.

    Some theorems and examples show a defect of the code ([sync_race],
    [exec_leaks_descriptors], [getlev_broken], [reservation_off_by_one],
    [CommandParser_overflow] and others): they are stated next to
    the definitions they are about.

    ** Not modelled

    - Interleaving inside a section under a spin lock, other than in the protocol
      of the locks themselves; weak memory.
    - The start of the machine (bootmain.c, main.c, mp.c, lapic.c, ioapic.c,
      picirq.c, the assembly files, [seginit], [tvinit], [ideinit], [uartinit],
      [consoleinit]): sequences of port and register accesses whose
      meaning is the hardware's.  [pinit], [forkret] and [getcallerpcs] as well.
    - swtch.S and trapasm.S: the cut at the switch and the trap frame stand for them.
    - [procdump] and the messages of user programs, which only print.
    - [malloc] in sh.c and [fork] in [runcmd] are taken to succeed, as sh.c takes
      the first to; the prompt of the shell.
    - The small utilities (cat.c, echo.c, kill.c, ln.c, ls.c, mkdir.c, rm.c, init.c,
      zombie.c) and the test programs (usertests.c, test_*.c, *_userapp.c and the like): they
      have no state of their own beyond the calls they make.
    - Build scripts. *)

From Stdlib Require Export Lia ZArith.
From stdpp Require Export prelude gmap strings.

#[global] Open Scope Z_scope.

(** ** Machine integers

    C integers are [Z]; every place where the code can wrap is written out
    with the function of its width. *)

Definition u8 (x : Z) : Z := x mod 2 ^ 8.
Definition u16 (x : Z) : Z := x mod 2 ^ 16.
Definition u32 (x : Z) : Z := x mod 2 ^ 32.

(** The two's complement reading of the low 16 or 32 bits. *)
Definition i16 (x : Z) : Z := (x + 2 ^ 15) mod 2 ^ 16 - 2 ^ 15.
Definition i32 (x : Z) : Z := (x + 2 ^ 31) mod 2 ^ 32 - 2 ^ 31.

(** ** Record update

    [r <| f := v |>] is [r] with the field [f] replaced, [r <| f ::= g |>]
    applies [g] to it.  A record type opts in with an [Eta] instance, from
    which the setter of every projection is computed. *)

Class Eta (R : Type) := eta : R -> R.
Class Setter {R T : Type} (proj : R -> T) := upd : (T -> T) -> R -> R.
Arguments upd {R T} proj {_} f r : simpl never.

Ltac build_setter :=
  match goal with
  | |- @Setter ?R ?T ?proj =>
      let e := eval cbv beta delta [eta] in (eta : R -> R) in
      let h := eval hnf in e in
      match (eval pattern proj in h) with
      | ?g _ =>
          let t := eval cbv beta in
            (fun f : T -> T => g (fun x => f (proj x))) in
          exact t
      end
  end.
#[global] Hint Extern 1 (@Setter _ _ _) => build_setter : typeclass_instances.

Declare Scope record_scope.
#[global] Open Scope record_scope.
Notation "r '<|' f '::=' g '|>'" := (upd f g r)
  (at level 1, f at level 0, left associativity) : record_scope.
Notation "r '<|' f ':=' v '|>'" := (upd f (fun _ => v) r)
  (at level 1, f at level 0, left associativity) : record_scope.

(** Projections of updated records are computed one at a time, which keeps
    terms small. *)
Ltac proj_law H p q :=
  tryif constr_eq p q
  then assert (forall f r, p (upd q f r) = f (p r)) as H by (intros; reflexivity)
  else assert (forall f r, p (upd q f r) = p r) as H by (intros; reflexivity).
Ltac proj_upd :=
  repeat match goal with
  | |- context [?p (upd ?q ?f ?r)] =>
      lazymatch p with
      | upd _ _ => fail
      | _ => let L := fresh in proj_law L p q; rewrite (L f r); clear L; cbv beta
      end
  end.
Tactic Notation "proj_upd" "in" ident(H) :=
  repeat match type of H with
  | context [?p (upd ?q ?f ?r)] =>
      lazymatch p with
      | upd _ _ => fail
      | _ => let L := fresh in proj_law L p q; rewrite (L f r) in H; clear L; cbv beta in H
      end
  end.

(** ** Outcomes

    A kernel routine runs from a state to one of these:
    - [Ok a s]: it returned [a] in state [s];
    - [Sleep c s]: it called [sleep(c, ...)]; the process is off the CPU and,
      once it is woken, takes the loop that called [sleep] again from its head;
    - [Panic msg]: it called [panic(msg)];
    - [Fault]: it dereferenced a null pointer or indexed outside an array;
    - [Spin]: it loops without end (a lock that is never released, a cyclic
      list, or a model's fuel used up). *)

Inductive channel : Type :=
  | ChProc (p : nat)
  | ChTicks
  | ChLog
  | ChSync
  | ChNread (p : Z)
  | ChNwrite (p : Z)
  | ChSleeplock (l : Z)
  | ChBuf (b : nat)
  | ChInput.

#[global] Instance channel_eq_dec : EqDecision channel.
Proof. solve_decision. Defined.

Inductive outcome (S A : Type) : Type :=
  | Ok (a : A) (s : S)
  | Sleep (c : channel) (s : S)
  | Panic (msg : string)
  | Fault
  | Spin.
Arguments Ok {S A} a s.
Arguments Sleep {S A} c s.
Arguments Panic {S A} msg.
Arguments Fault {S A}.
Arguments Spin {S A}.

Definition M (S A : Type) : Type := S -> outcome S A.

Definition ret {S A} (a : A) : M S A := fun s => Ok a s.
Definition bind {S A B} (m : M S A) (k : A -> M S B) : M S B := fun s =>
  match m s with
  | Ok a s' => k a s'
  | Sleep c s' => Sleep c s'
  | Panic msg => Panic msg
  | Fault => Fault
  | Spin => Spin
  end.
Definition gets {S A} (f : S -> A) : M S A := fun s => Ok (f s) s.
Definition modify {S} (f : S -> S) : M S unit := fun s => Ok tt (f s).
Definition panic {S A} (msg : string) : M S A := fun _ => Panic msg.
Definition fault {S A} : M S A := fun _ => Fault.
Definition spin {S A} : M S A := fun _ => Spin.
Definition sleepon {S A} (c : channel) : M S A := fun s => Sleep c s.
Definition when {S} (b : bool) (m : M S unit) : M S unit :=
  if b then m else ret tt.
(** Dereference: a missing value is a null or out-of-range pointer. *)
Definition deref {S A} (o : option A) : M S A :=
  match o with Some a => ret a | None => fault end.

(** Runs a routine on one component of the state. *)
Definition zoom {S T A} (proj : S -> T) `{!Setter proj} (m : M T A) : M S A :=
  fun s =>
    match m (proj s) with
    | Ok a t => Ok a (s <| proj := t |>)
    | Sleep c t => Sleep c (s <| proj := t |>)
    | Panic msg => Panic msg
    | Fault => Fault
    | Spin => Spin
    end.

Declare Scope kernel_scope.
Delimit Scope kernel_scope with kernel.
#[global] Open Scope kernel_scope.
Notation "x <- m ;; k" := (bind m (fun x => k))
  (at level 100, m at next level, k at level 200, right associativity)
  : kernel_scope.
Notation "m ;; k" := (bind m (fun _ => k))
  (at level 100, k at level 200, right associativity) : kernel_scope.

(** [for (x in l) f x], no early exit. *)
Fixpoint forM {S X} (l : list X) (f : X -> M S unit) : M S unit :=
  match l with
  | [] => ret tt
  | x :: l' => f x ;; forM l' f
  end.

(** The same with local variables [a] threaded through the iterations. *)
Fixpoint foldM {S X A} (f : A -> X -> M S A) (a : A) (l : list X) : M S A :=
  match l with
  | [] => ret a
  | x :: l' => a' <- f a x ;; foldM f a' l'
  end.

(** [for (x in l) { if (f x returns Some b) return b; }]. *)
Fixpoint forR {S X B} (l : list X) (f : X -> M S (option B)) : M S (option B) :=
  match l with
  | [] => ret None
  | x :: l' =>
      r <- f x ;;
      match r with Some b => ret (Some b) | None => forR l' f end
  end.

(** ** Reasoning about outcomes

    [wp m Q s]: from [s], [m] returns, in a result and state that satisfy [Q].
    [wlp m Q s]: the same, unless [m] sleeps, panics, faults or spins. *)

Definition wp {S A} (m : M S A) (Q : A -> S -> Prop) (s : S) : Prop :=
  match m s with Ok a s' => Q a s' | _ => False end.
Definition wlp {S A} (m : M S A) (Q : A -> S -> Prop) (s : S) : Prop :=
  match m s with Ok a s' => Q a s' | _ => True end.

Section wp_rules.
  Context {S A B : Type}.
  Implicit Types (m : M S A) (k : A -> M S B) (s : S).

Lemma wp_intro m a s' (Q : A -> S -> Prop) s :
  m s = Ok a s' -> Q a s' -> wp m Q s.
Proof. intros H ?. unfold wp. rewrite H. done. Qed.

Lemma wp_elim m (Q : A -> S -> Prop) s :
  wp m Q s -> exists a s', m s = Ok a s' /\ Q a s'.
Proof. unfold wp. destruct (m s); naive_solver. Qed.

Lemma wlp_elim m (Q : A -> S -> Prop) s a s' :
  wlp m Q s -> m s = Ok a s' -> Q a s'.
Proof. unfold wlp. intros H E. rewrite E in H. done. Qed.

Lemma wp_wlp m (Q : A -> S -> Prop) s : wp m Q s -> wlp m Q s.
Proof. unfold wp, wlp. destruct (m s); naive_solver. Qed.

Lemma wp_mono m (Q R : A -> S -> Prop) s :
  (forall a s', Q a s' -> R a s') -> wp m Q s -> wp m R s.
Proof. unfold wp. destruct (m s); naive_solver. Qed.

Lemma wlp_mono m (Q R : A -> S -> Prop) s :
  (forall a s', Q a s' -> R a s') -> wlp m Q s -> wlp m R s.
Proof. unfold wlp. destruct (m s); naive_solver. Qed.

Lemma wp_bind m k (Q : B -> S -> Prop) s :
  wp m (fun a s' => wp (k a) Q s') s -> wp (bind m k) Q s.
Proof. unfold wp, bind. destruct (m s); naive_solver. Qed.

Lemma wlp_bind m k (Q : B -> S -> Prop) s :
  wlp m (fun a s' => wlp (k a) Q s') s -> wlp (bind m k) Q s.
Proof. unfold wlp, bind. destruct (m s); naive_solver. Qed.

Lemma bind_Ok m k s a s' : m s = Ok a s' -> bind m k s = k a s'.
Proof. intros E. unfold bind. by rewrite E. Qed.

Lemma bind_inv m k s b s'' :
  bind m k s = Ok b s'' -> exists a s', m s = Ok a s' /\ k a s' = Ok b s''.
Proof. unfold bind. destruct (m s); naive_solver. Qed.
End wp_rules.

Section bind_rules.
  Context {S A B C : Type}.

Lemma bind_ret (a : A) (k : A -> M S B) s : bind (ret a) k s = k a s.
Proof. reflexivity. Qed.
Lemma bind_gets (f : S -> A) (k : A -> M S B) s : bind (gets f) k s = k (f s) s.
Proof. reflexivity. Qed.
Lemma bind_modify (f : S -> S) (k : unit -> M S B) s :
  bind (modify f) k s = k tt (f s).
Proof. reflexivity. Qed.
Lemma bind_deref (a : A) (k : A -> M S B) s : bind (deref (Some a)) k s = k a s.
Proof. reflexivity. Qed.
Lemma bind_panic msg (k : A -> M S B) s : bind (panic msg) k s = Panic msg.
Proof. reflexivity. Qed.
Lemma bind_fault (k : A -> M S B) s : bind fault k s = Fault.
Proof. reflexivity. Qed.
Lemma bind_when_true (m : M S unit) (k : unit -> M S B) s :
  bind (when true m) k s = bind m k s.
Proof. reflexivity. Qed.
Lemma bind_when_false (m : M S unit) (k : unit -> M S B) s :
  bind (when false m) k s = k tt s.
Proof. reflexivity. Qed.
Lemma bind_bind (m : M S A) (k : A -> M S B) (k' : B -> M S C) s :
  bind (bind m k) k' s = bind m (fun a => bind (k a) k') s.
Proof. unfold bind. by destruct (m s). Qed.
End bind_rules.

(** A loop keeps an invariant indexed by the part of the list still to do. *)
Lemma wp_forM {S X} (l : list X) (f : X -> M S unit) (I : list X -> S -> Prop) s :
  (forall x l' s', I (x :: l') s' -> wp (f x) (fun _ => I l') s') ->
  I l s -> wp (forM l f) (fun _ => I []) s.
Proof.
  intros Hf. revert s. induction l as [|x l IH]; intros s HI; [exact HI|].
  apply wp_bind. eapply wp_mono; [|by apply Hf]. intros [] s'. apply IH.
Qed.

Lemma wlp_forM {S X} (l : list X) (f : X -> M S unit) (I : list X -> S -> Prop) s :
  (forall x l' s', I (x :: l') s' -> wlp (f x) (fun _ => I l') s') ->
  I l s -> wlp (forM l f) (fun _ => I []) s.
Proof.
  intros Hf. revert s. induction l as [|x l IH]; intros s HI; [exact HI|].
  apply wlp_bind. eapply wlp_mono; [|by apply Hf]. intros [] s'. apply IH.
Qed.

(** ** What a routine keeps

    [keeps R m]: whenever [m] returns, the states before and after are related
    by [R].  For a preorder the rule of every construct is an instance of
    [keeps_bind]; [keeps_tac] applies them along the text of a routine and
    leaves the calls that the hint database [keeps] does not know. *)

Definition keeps {S A} (R : relation S) (m : M S A) : Prop :=
  forall s a s', m s = Ok a s' -> R s s'.

Section keeps_rules.
  Context {S : Type} (R : relation S) `{!PreOrder R}.

Lemma keeps_bind {A B} (m : M S A) (k : A -> M S B) :
  keeps R m -> (forall a, keeps R (k a)) -> keeps R (bind m k).
Proof.
  intros Hm Hk s b s'' (a&s'&E1&E2)%bind_inv. transitivity s'; [by eapply Hm|by eapply Hk].
Qed.
Lemma keeps_ret {A} (a : A) : keeps R (ret a).
Proof. by intros s ? ? [= -> ->]. Qed.
Lemma keeps_gets {A} (f : S -> A) : keeps R (gets f).
Proof. by intros s ? ? [= _ ->]. Qed.
Lemma keeps_deref {A} (o : option A) : keeps R (deref o).
Proof. destruct o; [apply keeps_ret|done]. Qed.
Lemma keeps_modify (f : S -> S) : (forall s, R s (f s)) -> keeps R (modify f).
Proof. by intros Hf s ? ? [= _ <-]. Qed.
Lemma keeps_when b (m : M S unit) : keeps R m -> keeps R (when b m).
Proof. intros. destruct b; [done|apply keeps_ret]. Qed.
Lemma keeps_panic {A} msg : keeps R (panic (A:=A) msg).
Proof. done. Qed.
Lemma keeps_fault {A} : keeps R (fault (A:=A)).
Proof. done. Qed.
Lemma keeps_spin {A} : keeps R (spin (A:=A)).
Proof. done. Qed.
Lemma keeps_zoom {T A} (proj : S -> T) `{!Setter proj} (m : M T A) :
  (forall s t, R s (s <| proj := t |>)) -> keeps R (zoom proj m).
Proof.
  intros Hp s a s'. unfold zoom. destruct (m (proj s)); intros [= <- <-]. apply Hp.
Qed.
Lemma keeps_foldM {X A} (f : A -> X -> M S A) l : forall a,
  (forall a x, keeps R (f a x)) -> keeps R (foldM f a l).
Proof.
  induction l as [|x l IH]; intros a Hf; [apply keeps_ret|].
  apply keeps_bind; [done|]. intros a'. by apply IH.
Qed.
Lemma keeps_forM {X} (f : X -> M S unit) l :
  (forall x, keeps R (f x)) -> keeps R (forM l f).
Proof.
  induction l as [|x l IH]; intros Hf; [apply keeps_ret|].
  apply keeps_bind; [done|]. intros _. by apply IH.
Qed.
End keeps_rules.

Lemma keeps_sub {S A} (R R' : relation S) (m : M S A) :
  (forall s s', R s s' -> R' s s') -> keeps R m -> keeps R' m.
Proof. intros HR Hm s a s' E. eapply HR, Hm, E. Qed.

Create HintDb keeps.
Ltac keeps_step :=
  lazymatch goal with
  | |- keeps _ (bind _ _) => apply keeps_bind; [apply _| |intros ?]
  | |- keeps _ (ret _) => apply keeps_ret; apply _
  | |- keeps _ (gets _) => apply keeps_gets; apply _
  | |- keeps _ (deref _) => apply keeps_deref; apply _
  | |- keeps _ (when _ _) => apply keeps_when; [apply _|]
  | |- keeps _ (panic _) => apply keeps_panic
  | |- keeps _ fault => apply keeps_fault
  | |- keeps _ spin => apply keeps_spin
  | |- keeps _ (foldM _ _ _) => apply keeps_foldM; [apply _|intros ? ?]
  | |- keeps _ (forM _ _) => apply keeps_forM; [apply _|intros ?]
  | |- keeps _ (match ?x with _ => _ end) => destruct x
  | |- keeps _ _ => solve [eauto with keeps]
  end.
Ltac keeps_tac := repeat keeps_step.

(** ** Automation *)

Create HintDb kernel.

(** Runs the head of a routine as far as it does not branch. *)
Ltac mstep :=
  repeat (first
    [ rewrite bind_bind | rewrite bind_ret | rewrite bind_gets
    | rewrite bind_modify | rewrite bind_deref | rewrite bind_panic
    | rewrite bind_fault | rewrite bind_when_true | rewrite bind_when_false ];
    cbv beta).

(** Case analysis on the tests of the code: [bool] tests become their
    arithmetic meaning. *)
Ltac bool_hyps :=
  repeat match goal with
  | H : (_ && _)%bool = true |- _ => apply andb_prop in H; destruct H
  | H : (_ || _)%bool = false |- _ => apply orb_false_elim in H; destruct H
  | H : negb _ = true |- _ => apply negb_true_iff in H
  | H : negb _ = false |- _ => apply negb_false_iff in H
  | H : Z.eqb _ _ = true |- _ => apply Z.eqb_eq in H
  | H : Z.eqb _ _ = false |- _ => apply Z.eqb_neq in H
  | H : Z.ltb _ _ = true |- _ => apply Z.ltb_lt in H
  | H : Z.ltb _ _ = false |- _ => apply Z.ltb_ge in H
  | H : Z.leb _ _ = true |- _ => apply Z.leb_le in H
  | H : Z.leb _ _ = false |- _ => apply Z.leb_gt in H
  | H : Z.gtb _ _ = true |- _ => rewrite Z.gtb_ltb in H
  | H : Z.gtb _ _ = false |- _ => rewrite Z.gtb_ltb in H
  | H : Z.geb _ _ = true |- _ => rewrite Z.geb_leb in H
  | H : Z.geb _ _ = false |- _ => rewrite Z.geb_leb in H
  | H : bool_decide _ = true |- _ => apply bool_decide_eq_true in H
  | H : bool_decide _ = false |- _ => apply bool_decide_eq_false in H
  end.

(** ** Generic facts on integers, lists and options *)

Lemma u32_range x : 0 <= u32 x < 2 ^ 32.
Proof. unfold u32. apply Z.mod_pos_bound. lia. Qed.

Lemma u32_small x : 0 <= x < 2 ^ 32 -> u32 x = x.
Proof. apply Z.mod_small. Qed.

Lemma u32_add_l x y : u32 (u32 x + y) = u32 (x + y).
Proof. unfold u32. by rewrite Zplus_mod_idemp_l. Qed.

Lemma u32_sub x y : u32 (u32 x - u32 y) = u32 (x - y).
Proof. unfold u32. by rewrite <- Zminus_mod. Qed.

Lemma u32_eq_near x y :
  u32 x = u32 y -> Z.abs (x - y) < 2 ^ 32 -> x = y.
Proof.
  unfold u32. intros H ?.
  assert ((x - y) mod 2 ^ 32 = 0) as Hd.
  { rewrite Zminus_mod, H, Z.sub_diag. reflexivity. }
  apply Z.mod_divide in Hd; [|lia]. destruct Hd as [k Hk]. nia.
Qed.

Lemma i32_add_l x y : i32 (i32 x + y) = i32 (x + y).
Proof.
  unfold i32. f_equal.
  replace ((x + 2 ^ 31) mod 2 ^ 32 - 2 ^ 31 + y + 2 ^ 31)
    with ((x + 2 ^ 31) mod 2 ^ 32 + y) by lia.
  rewrite Zplus_mod_idemp_l. f_equal. lia.
Qed.

Lemma i32_small x : - 2 ^ 31 <= x < 2 ^ 31 -> i32 x = x.
Proof. intros. unfold i32. rewrite Z.mod_small by lia. lia. Qed.

(** [a[i]] for an [int i]: outside the array when negative. *)
Definition zlookup {X} (l : list X) (i : Z) : option X :=
  if i <? 0 then None else l !! Z.to_nat i.

Lemma zlookup_nat {X} (l : list X) (i : nat) : zlookup l (Z.of_nat i) = l !! i.
Proof.
  unfold zlookup. destruct (Z.ltb_spec (Z.of_nat i) 0); [lia|]. by rewrite Nat2Z.id.
Qed.

Lemma list_filter_all {X} (P : X -> Prop) `{!forall x, Decision (P x)} (l : list X) :
  (forall x, x ∈ l -> P x) -> filter P l = l.
Proof.
  induction l as [|x l IH]; intros HP; [done|].
  rewrite filter_cons_True by (apply HP; by left).
  f_equal. apply IH. intros y Hy. apply HP. by right.
Qed.

Lemma lookup_insert_list {X} (l : list X) i j x :
  (i < length l)%nat ->
  <[i:=x]> l !! j = if decide (i = j) then Some x else l !! j.
Proof.
  intros Hi. case_decide; subst.
  - by apply list_lookup_insert_eq.
  - by apply list_lookup_insert_ne.
Qed.

Lemma lookup_is_Some_length {X} (l : list X) i x :
  l !! i = Some x -> (i < length l)%nat.
Proof. apply lookup_lt_Some. Qed.

#[export] Hint Resolve lookup_is_Some_length u32_range : kernel.

Lemma alter_as_insert {X} (f : X -> X) (l : list X) i x :
  l !! i = Some x -> alter f i l = <[i := f x]> l.
Proof.
  revert i. induction l as [|y l IH]; intros [|i] Hi; simplify_eq/=; [done|].
  f_equal. by apply IH.
Qed.

Lemma forallb_lookup {X} (f : X -> bool) (l : list X) i x :
  forallb f l = true -> l !! i = Some x -> f x = true.
Proof.
  intros Hf Hx. rewrite forallb_forall in Hf. apply Hf.
  apply list_elem_of_In. by eapply list_elem_of_lookup_2.
Qed.

(** ** Bits *)

Lemma land_bit x k : 0 <= k -> negb (Z.land x (Z.shiftl 1 k) =? 0) = Z.testbit x k.
Proof.
  intros Hk. rewrite Z.shiftl_1_l. destruct (Z.testbit x k) eqn:E.
  - apply negb_true_iff, Z.eqb_neq. intros H0.
    assert (Z.testbit (Z.land x (2 ^ k)) k = true) as H1
      by (rewrite Z.land_spec, E, Z.pow2_bits_true by done; done).
    by rewrite H0, Z.bits_0 in H1.
  - apply negb_false_iff, Z.eqb_eq, Z.bits_inj'. intros m Hm.
    rewrite Z.land_spec, Z.bits_0, Z.pow2_bits_eqb by done.
    destruct (Z.eqb_spec k m) as [<-|]; [by rewrite E|by rewrite andb_false_r].
Qed.

Lemma lor_small n a b : 0 <= n -> 0 <= a < 2 ^ n -> 0 <= b < 2 ^ n -> 0 <= Z.lor a b < 2 ^ n.
Proof.
  intros Hn Ha Hb. split; [apply Z.lor_nonneg; lia|].
  destruct (decide (Z.lor a b = 0)) as [->|Hne]; [lia|].
  assert (0 < Z.lor a b) by (assert (0 <= Z.lor a b) by (apply Z.lor_nonneg; lia); lia).
  apply Z.log2_lt_pow2; [done|]. rewrite Z.log2_lor by lia. apply Z.max_lub_lt.
  - destruct (decide (a = 0)) as [->|]; [|apply Z.log2_lt_pow2; lia].
    destruct (decide (n = 0)) as [->|]; [|cbn; lia]. change (2 ^ 0) with 1 in *.
    replace b with 0 in Hne by lia. done.
  - destruct (decide (b = 0)) as [->|]; [|apply Z.log2_lt_pow2; lia].
    destruct (decide (n = 0)) as [->|]; [|cbn; lia]. change (2 ^ 0) with 1 in *.
    replace a with 0 in Hne by lia. done.
Qed.

Lemma lor_aligned n x f : 0 <= n -> x mod 2 ^ n = 0 -> 0 <= f < 2 ^ n -> Z.lor x f = x + f.
Proof.
  intros Hn Hx Hf. assert (Z.land x f = 0) as H0.
  { apply Z.bits_inj_0. intros k. rewrite Z.land_spec. destruct (decide (k < n)).
    - rewrite <- (Z.mod_pow2_bits_low x n k), Hx, Z.bits_0 by lia. done.
    - rewrite <- (Z.mod_small f (2 ^ n)) by lia.
      rewrite Z.mod_pow2_bits_high by lia. apply andb_false_r. }
  by rewrite Z.add_nocarry_lxor, Z.lxor_lor.
Qed.
