(* ===== verification/Shell.v ===== *)
(** * The Linux shell of the first project (proj_shell/src/shell.c)

    A C string is the list of its bytes.  [malloc] of the C library may grant more
    than it is asked for: [grant n] is the number of cells that a block of [n] has, and a write
    behind them is [None].  The parser is shown to produce the commands of the
    line, one argument vector each, when the blocks have room for them, and to
    ask for too little room on every ordinary line. *)

From S2P Require Import Prelude.

Module Shell.

Definition str : Type := list Z.
Definition SEMI : Z := 59.

Definition isspace (c : Z) : bool := (c =? 32) || ((9 <=? c) && (c <=? 13)).
(** The delimiters of the second [strtok]. *)
Definition isdelim (c : Z) : bool := (c =? 10) || (c =? 9) || (c =? 32).
Definition issemi (c : Z) : bool := c =? SEMI.

(** ** [LeftRightTrim] *)

(** [start_index] of the loop from the left. *)
Fixpoint trim_start (s : str) : nat :=
  match s with
  | c :: s' => if isspace c then S (trim_start s') else O
  | [] => O
  end.
(** The loop from the right overwrites the spaces at the end with 0. *)
Fixpoint trim_end (rs : str) : str :=
  match rs with
  | c :: rs' => if isspace c then trim_end rs' else rs
  | [] => []
  end.
(** The string left in the buffer, and the offset that is returned. *)
Definition LeftRightTrim (input : str) : str * nat := (rev (trim_end (rev input)), trim_start input).
Definition trimmed (input : str) : str := let '(s, i) := LeftRightTrim input in drop i s.

(** ** [CommandParser] *)

(** The inner loop over spaces and semicolons: was there a semicolon, and the rest. *)
Fixpoint skip_run (s : str) (semi : bool) : bool * str :=
  match s with
  | c :: s' => if isspace c || issemi c then skip_run s' (semi || issemi c) else (semi, s)
  | [] => (semi, [])
  end.
(** [num_of_commands] and [num_of_commands_and_args]; every turn passes a character. *)
Fixpoint count_loop (fuel : nat) (s : str) (nc na : nat) : nat * nat :=
  match fuel with
  | O => (nc, na)
  | S fuel' =>
      match s with
      | [] => (nc, na)
      | c :: _ =>
          let space_or_semi := isspace c || issemi c in
          let '(semi, rest) := skip_run s false in
          let '(nc, na) := if semi then (S nc, S na) else if space_or_semi then (nc, S na) else (nc, na) in
          count_loop fuel' (tail rest) nc na
      end
  end.
Definition count (s : str) : nat * nat := count_loop (length s) s 1 1.

(** [strtok]: skips delimiters and cuts the token off; [None] at the end. *)
Fixpoint tok_skip (delim : Z -> bool) (s : str) : str :=
  match s with c :: s' => if delim c then tok_skip delim s' else s | [] => [] end.
Fixpoint tok_cut (delim : Z -> bool) (s : str) : str * str :=
  match s with
  | c :: s' => if delim c then ([], s') else let '(t, r) := tok_cut delim s' in (c :: t, r)
  | [] => ([], [])
  end.
Definition strtok (delim : Z -> bool) (s : str) : option (str * str) :=
  match tok_skip delim s with
  | [] => None
  | s' => Some (tok_cut delim s')
  end.

(** A block of cells filled from its start: [None] behind its end. *)
Definition append {A} (room : nat) (l : list A) (x : A) : option (list A) :=
  if (length l <? room)%nat then Some (l ++ [x]) else None.

(** What the parser leaves: the cells of [commands_and_arguments], the indices of
    the commands, and [g_commands_num]. *)
Record parsed := mkParsed { p_cells : list (option str); p_index : list nat; p_num : nat }.

Section parser.
Variable grant : nat -> nat.

(** The loops over [strtok] that store the tokens. *)
Fixpoint tok_loop {A} (delim : Z -> bool) (cell : str -> A) (fuel room : nat) (s : str) (l : list A) :
    option (list A) :=
  match fuel with
  | O => Some l
  | S fuel' =>
      match strtok delim s with
      | None => Some l
      | Some (t, s') =>
          match append room l (cell t) with
          | Some l => tok_loop delim cell fuel' room s' l
          | None => None
          end
      end
  end.
(** The one that fills [commands], and the one that stores the arguments of a command. *)
Definition chunk_loop : nat -> nat -> str -> list str -> option (list str) := tok_loop issemi (fun t => t).
Definition arg_loop : nat -> nat -> str -> list (option str) -> option (list (option str)) := tok_loop isdelim Some.

(** One chunk; one without a word is passed over. *)
Definition store_command (tmp rooma roomi : nat) (c : str) (st : list (option str) * list nat) :
    option (list (option str) * list nat) :=
  let '(cells, index) := st in
  if (length c <? tmp)%nat then
    match strtok isdelim c with
    | None => Some st
    | Some (t, s') =>
        match append rooma cells (Some t), append roomi index (length cells) with
        | Some cells', Some index =>
            match arg_loop (length c) rooma s' cells' with
            | Some cells' => match append rooma cells' None with
                             | Some cells' => Some (cells', index)
                             | None => None
                             end
            | None => None
            end
        | _, _ => None
        end
    end
  else None.
Fixpoint command_loop (tmp rooma roomi : nat) (cs : list str) (st : list (option str) * list nat) :
    option (list (option str) * list nat) :=
  match cs with
  | [] => Some st
  | c :: cs' => match store_command tmp rooma roomi c st with
                | Some st => command_loop tmp rooma roomi cs' st
                | None => None
                end
  end.

Definition CommandParser (input : str) : option parsed :=
  let tmp := grant (length input + 1)%nat in
  let s := trimmed input in
  let '(nc, na) := count s in
  match chunk_loop (length s) (grant nc) s [] with
  | Some commands =>
      match command_loop tmp (grant na) (grant nc) commands ([], []) with
      | Some (cells, index) => Some (mkParsed cells index (length commands))
      | None => None
      end
  | None => None
  end.

(** ** [ForkAndExec] *)

(** The vector from cell [i] up to its null. *)
Fixpoint argv_from (l : list (option str)) : option (list str) :=
  match l with
  | Some w :: l' => match argv_from l' with Some ws => Some (w :: ws) | None => None end
  | None :: _ => Some []
  | [] => None
  end.
(** The outcome of the [fork] for the command [i]. *)
Variable forks : nat -> bool.

(** The vectors that the children pass to [execvp], in the order of the forks, and whether the
    shell goes on; an index that was never stored is undefined. *)
Fixpoint fork_loop (p : parsed) (i n : nat) : option (list (list str) * bool) :=
  match n with
  | O => Some ([], true)
  | S n' =>
      if forks i then
        match p_index p !! i with
        | Some k =>
            match argv_from (drop k (p_cells p)), fork_loop p (S i) n' with
            | Some v, Some (vs, ok) => Some (v :: vs, ok)
            | _, _ => None
            end
        | None => None
        end
      else Some ([], false)
  end.
Definition ForkAndExec (p : parsed) : option (list (list str) * bool) := fork_loop p 0 (p_num p).

(** ** [main] *)

Definition quit : str := [113; 117; 105; 116].
Inductive ended := Quit | Eof | TooLarge | NoFork.

(** The vectors of one line, or the reason to stop before. *)
Definition run_line (parse : str) (done : list (list str)) (next : list (list str) -> option (list (list str) * ended)) :
    option (list (list str) * ended) :=
  match CommandParser parse with
  | Some p => match ForkAndExec p with
              | Some (vs, true) => next (done ++ vs)
              | Some (vs, false) => Some (done ++ vs, NoFork)
              | None => None
              end
  | None => None
  end.

(** The loop of the interactive mode over the lines that [fgets] gives. *)
Fixpoint interactive (lines : list str) (done : list (list str)) : option (list (list str) * ended) :=
  match lines with
  | [] => Some (done, Eof)
  | l :: lines' =>
      if negb (bool_decide (last l = Some 10)) then Some (done, TooLarge)
      else
        let '(buf, i) := LeftRightTrim l in
        if bool_decide (drop i buf = quit) then Some (done, Quit)
        else run_line buf done (interactive lines')
  end.

(** The loop of the batch mode: the line is trimmed twice. *)
Fixpoint batch (lines : list str) (done : list (list str)) : option (list (list str) * ended) :=
  match lines with
  | [] => Some (done, Eof)
  | l :: lines' =>
      let '(buf, i) := LeftRightTrim l in
      if bool_decide (drop i buf = quit) then Some (done, Quit)
      else run_line (trimmed buf) done (batch lines')
  end.
End parser.

(** ** Tokens *)

(** The parts of a string between delimiters, and those that are not empty. *)
Fixpoint fields (delim : Z -> bool) (s : str) : list str :=
  match s with
  | [] => [[]]
  | c :: s' =>
      if delim c then [] :: fields delim s'
      else match fields delim s' with f :: fs => (c :: f) :: fs | [] => [[c]] end
  end.
Definition nonempty {A} (l : list A) : bool := match l with [] => false | _ => true end.
Definition words (delim : Z -> bool) (s : str) : list str := List.filter nonempty (fields delim s).

Lemma fields_cons delim s : exists f fs, fields delim s = f :: fs.
Proof.
  destruct s as [|c s]; cbn; [eauto|]. destruct (delim c); [eauto|]. destruct (fields delim s); eauto.
Qed.

Lemma tok_skip_words delim s : words delim (tok_skip delim s) = words delim s.
Proof.
  induction s as [|c s IH]; cbn [tok_skip]; [done|]. destruct (delim c) eqn:E; [|done].
  rewrite IH. unfold words. cbn [fields]. by rewrite E.
Qed.

Lemma tok_cut_fields delim s : let '(t, r) := tok_cut delim s in
  exists fs, fields delim s = t :: fs /\ List.filter nonempty fs = words delim r /\
    (length t + length r <= length s)%nat.
Proof.
  induction s as [|c s IH]; cbn [tok_cut fields]; [by exists []|].
  destruct (delim c) eqn:E; [exists (fields delim s); cbn; split_and!; [done|done|lia]|].
  destruct (tok_cut delim s) as [t r]. destruct IH as (fs & -> & Hf & Hl). exists fs. cbn. split_and!; [done|done|lia].
Qed.

Lemma tok_skip_head delim s : (length (tok_skip delim s) <= length s)%nat /\
  match tok_skip delim s with [] => True | c :: _ => delim c = false end.
Proof.
  induction s as [|c s IH]; cbn [tok_skip]; [done|]. destruct (delim c) eqn:E; [cbn; destruct IH; split; [lia|done]|].
  by split.
Qed.

(** [strtok] gives the first word; the words of the rest are the others. *)
Lemma strtok_words delim s :
  match strtok delim s with
  | None => words delim s = []
  | Some (t, r) => words delim s = t :: words delim r /\ (length t + length r <= length s)%nat /\ t <> []
  end.
Proof.
  unfold strtok. rewrite <- (tok_skip_words delim s). destruct (tok_skip_head delim s) as [Hl Hh].
  destruct (tok_skip delim s) as [|c s'] eqn:E; [done|]. pose proof (tok_cut_fields delim (c :: s')) as H.
  cbn [tok_cut] in *. rewrite Hh in *. destruct (tok_cut delim s') as [t r]. destruct H as (fs & Hf & Hr & Hlen).
  split_and!; [|cbn in *; lia|done]. unfold words at 1. rewrite Hf. cbn. by rewrite Hr.
Qed.

Lemma tok_loop_run {A} delim (cell : str -> A) room fuel : forall s l, (length s <= fuel)%nat ->
  tok_loop delim cell fuel room s l =
  if decide (length (words delim s) = 0 \/ length l + length (words delim s) <= room)%nat
  then Some (l ++ map cell (words delim s)) else None.
Proof.
  induction fuel as [|fuel IH]; intros s l Hf; cbn [tok_loop].
  { destruct s; [|cbn in Hf; lia]. cbn. rewrite decide_True by (by left). by rewrite app_nil_r. }
  pose proof (strtok_words delim s) as Hs. destruct (strtok delim s) as [[t r]|].
  - destruct Hs as (-> & Hl & Ht). cbn [length map]. unfold append. destruct (Nat.ltb_spec (length l) room).
    + rewrite IH by (destruct t; [done|cbn in *; lia]). rewrite length_app. cbn [length].
      rewrite <- app_assoc. cbn [app]. repeat case_decide; (done || lia).
    + rewrite decide_False by lia. done.
  - rewrite Hs. cbn. rewrite decide_True by (by left). by rewrite app_nil_r.
Qed.

Lemma words_length delim s w : w ∈ words delim s -> (length w <= length s)%nat.
Proof.
  remember (length s) as n eqn:En. revert s En. induction n as [n IH] using lt_wf_ind. intros s -> Hw.
  pose proof (strtok_words delim s) as Hs. destruct (strtok delim s) as [[t r]|].
  - destruct Hs as (Hw' & Hl & Ht). rewrite Hw' in Hw. apply elem_of_cons in Hw as [->|Hw]; [lia|].
    assert (Hlt : (length r < length s)%nat) by (destruct t; [done|cbn in *; lia]).
    specialize (IH _ Hlt r eq_refl Hw). lia.
  - rewrite Hs in Hw. set_solver.
Qed.

(** ** The commands of a line *)

Definition chunks (s : str) : list str := words issemi s.
Definition commands_of (cs : list str) : list (list str) := List.filter nonempty (map (words isdelim) cs).
Definition cells_of (cmds : list (list str)) : list (option str) := concat (map (fun ws => map Some ws ++ [None]) cmds).
Fixpoint offsets (k : nat) (cmds : list (list str)) : list nat :=
  match cmds with [] => [] | ws :: cmds' => k :: offsets (k + length ws + 1) cmds' end.

Lemma cells_of_cons ws cmds : cells_of (ws :: cmds) = map Some ws ++ None :: cells_of cmds.
Proof. unfold cells_of. cbn [map concat]. by rewrite <- app_assoc. Qed.

Lemma offsets_length cmds : forall k, length (offsets k cmds) = length cmds.
Proof. induction cmds as [|ws cmds IH]; intros k; cbn; [done|]. by rewrite IH. Qed.

Lemma store_command_run tmp rooma roomi c cells index : (length c < tmp)%nat ->
  store_command tmp rooma roomi c (cells, index) =
  match words isdelim c with
  | [] => Some (cells, index)
  | ws => if decide (length cells + length ws + 1 <= rooma /\ length index + 1 <= roomi)%nat
          then Some (cells ++ map Some ws ++ [None], index ++ [length cells]) else None
  end.
Proof.
  intros Hc. unfold store_command. destruct (Nat.ltb_spec (length c) tmp); [|lia].
  pose proof (strtok_words isdelim c) as Hs. destruct (strtok isdelim c) as [[t r]|]; [|by rewrite Hs].
  destruct Hs as (-> & Hl & Ht). unfold append.
  destruct (Nat.ltb_spec (length cells) rooma); [|rewrite decide_False by (cbn; lia); done].
  destruct (Nat.ltb_spec (length index) roomi); [|rewrite decide_False by (cbn; lia); done].
  unfold arg_loop. rewrite tok_loop_run by (destruct t; [done|cbn in *; lia]).
  rewrite length_app. cbn [length]. case_decide.
  - rewrite !length_app, length_map. cbn [length].
    destruct (Nat.ltb_spec (length cells + 1 + length (words isdelim r)) rooma).
    + rewrite decide_True by lia. cbn [map]. by rewrite <- !app_assoc.
    + by rewrite decide_False by lia.
  - by rewrite decide_False by lia.
Qed.

Lemma command_loop_run tmp rooma roomi cs : forall cells index, Forall (fun c => length c < tmp)%nat cs ->
  command_loop tmp rooma roomi cs (cells, index) =
  if decide (length (commands_of cs) = 0 \/
             (length cells + length (cells_of (commands_of cs)) <= rooma /\
              length index + length (commands_of cs) <= roomi))%nat
  then Some (cells ++ cells_of (commands_of cs), index ++ offsets (length cells) (commands_of cs)) else None.
Proof.
  induction cs as [|c cs IH]; intros cells index Hcs; cbn [command_loop].
  { cbn. by rewrite !app_nil_r. }
  apply Forall_cons in Hcs as [Hc Hcs]. rewrite store_command_run by done.
  unfold commands_of. cbn [map List.filter]. destruct (words isdelim c) as [|w ws] eqn:Ew; cbn [nonempty]; [by apply IH|].
  fold (commands_of cs).
  destruct (decide (length cells + length (w :: ws) + 1 <= rooma /\ length index + 1 <= roomi)%nat) as [Hd|Hd].
  - rewrite IH by done. rewrite cells_of_cons, !length_app, !length_cons, !length_map. cbn [length offsets].
    rewrite <- !app_assoc.
    replace (length cells + (S (length ws) + 1))%nat with (length cells + length (w :: ws) + 1)%nat by (cbn; lia).
    assert (Hnil : length (commands_of cs) = 0%nat -> length (cells_of (commands_of cs)) = 0%nat) by (by destruct (commands_of cs)).
    repeat case_decide; cbn [length] in *; (done || lia).
  - rewrite decide_False; [done|]. rewrite cells_of_cons, length_app, length_map. cbn [length] in *. lia.
Qed.

(** ** Trimming *)

Lemma trim_end_spec rs : exists b, rs = b ++ trim_end rs /\ Forall (fun c => isspace c = true) b /\
  match trim_end rs with [] => True | c :: _ => isspace c = false end.
Proof.
  induction rs as [|c rs (b & E & Hb & Hh)]; cbn [trim_end]; [by exists []|].
  destruct (isspace c) eqn:Ec; [|by exists []]. exists (c :: b). cbn. split_and!; [by rewrite <- E|by constructor|done].
Qed.

Lemma trim_start_spec s : exists a, s = a ++ drop (trim_start s) s /\ length a = trim_start s /\
  Forall (fun c => isspace c = true) a /\ match drop (trim_start s) s with [] => True | c :: _ => isspace c = false end.
Proof.
  induction s as [|c s (a & E & Hl & Ha & Hh)]; cbn [trim_start]; [by exists []|].
  destruct (isspace c) eqn:Ec; [|by exists []]. exists (c :: a). cbn [drop app length].
  split_and!; [by rewrite <- E|by rewrite Hl|by constructor|done].
Qed.

(** The line without the spaces at its two ends. *)
Lemma trimmed_spec input : exists a b, input = a ++ trimmed input ++ b /\
  Forall (fun c => isspace c = true) a /\ Forall (fun c => isspace c = true) b /\
  (forall c, head (trimmed input) = Some c \/ last (trimmed input) = Some c -> isspace c = false).
Proof.
  unfold trimmed, LeftRightTrim. destruct (trim_end_spec (rev input)) as (rb & E & Hb & Hh).
  destruct (trim_start_spec input) as (a & Ea & Hl & Ha & Hs).
  assert (E' : input = rev (trim_end (rev input)) ++ rev rb).
  { rewrite <- rev_app_distr, <- E. by rewrite rev_involutive. }
  set (t := rev (trim_end (rev input))) in *.
  assert (Ht : t = [] \/ exists t' c, t = t' ++ [c] /\ isspace c = false).
  { unfold t. destruct (trim_end (rev input)) as [|c l]; [by left|right]. exists (rev l), c. by cbn. }
  clearbody t. generalize dependent (trim_start input). intros n Ea Hl Hs.
  destruct Ht as [->|(t' & c & -> & Hc)].
  - exists [], input. rewrite drop_nil. split_and!; [done|done| |by intros ? [?|?]].
    rewrite E'. by apply Forall_rev.
  - (* the first character that is not a space lies inside [t] *)
    rewrite E', <- app_assoc in Ea, Hs. assert (Hle : (n <= length t')%nat).
    { destruct (decide (n <= length t')%nat); [done|]. exfalso.
      rewrite Forall_lookup in Ha. assert (Hi : (t' ++ [c] ++ rev rb) !! length t' = Some c).
      { rewrite lookup_app_r by lia. by rewrite Nat.sub_diag. }
      rewrite Ea in Hi. rewrite lookup_app_l in Hi by lia. specialize (Ha _ _ Hi). congruence. }
    exists a, (rev rb). split_and!; [|done|by apply Forall_rev|].
    + rewrite E', <- app_assoc. rewrite Ea at 1. f_equal.
      rewrite !drop_app_le by lia. by rewrite <- app_assoc.
    + rewrite drop_app_le in Hs |- * by lia. intros d [Hd|Hd].
      * destruct (drop n t'); cbn in *; by simplify_eq.
      * rewrite last_snoc in Hd. by simplify_eq.
Qed.

(** ** The parser *)

Lemma trimmed_length input : (length (trimmed input) <= length input)%nat.
Proof.
  destruct (trimmed_spec input) as (a & b & E & _). apply (f_equal length) in E. rewrite !length_app in E. lia.
Qed.

Section correct.
Variable grant : nat -> nat.
Hypothesis Hgrant : forall n, (n <= grant n)%nat.

(** All the outcomes of the parser: the commands, or a write behind a block. *)
Lemma parser_run input (s := trimmed input) (cmds := commands_of (chunks s)) :
  CommandParser grant input =
  if decide ((length (chunks s) = 0 \/ length (chunks s) <= grant (count s).1) /\
             (length cmds = 0 \/ (length (cells_of cmds) <= grant (count s).2 /\ length cmds <= grant (count s).1)))%nat
  then Some (mkParsed (cells_of cmds) (offsets 0 cmds) (length (chunks s))) else None.
Proof using Hgrant.
  unfold CommandParser. fold s. destruct (count s) as [nc na] eqn:Ec. cbn [fst snd]. unfold chunk_loop.
  rewrite tok_loop_run by lia. cbn [length]. rewrite map_id. fold (chunks s). cbn [app].
  destruct (decide (length (chunks s) = 0 \/ 0 + length (chunks s) <= grant nc)%nat) as [Hc|Hc].
  - rewrite command_loop_run.
    + fold cmds. cbn [length app Nat.add]. repeat case_decide; (done || tauto).
    + apply Forall_forall. intros c Hin%words_length. pose proof (trimmed_length input).
      specialize (Hgrant (length input + 1)%nat). fold s in H. lia.
  - rewrite decide_False; [done|]. cbn in Hc. tauto.
Qed.
End correct.

Lemma argv_from_cells ws rest : argv_from (map Some ws ++ None :: rest) = Some ws.
Proof. induction ws as [|w ws IH]; cbn; [done|]. by rewrite IH. Qed.

Lemma fork_loop_run cmds n : forall pre ipre num,
  fork_loop (fun _ => true) (mkParsed (pre ++ cells_of cmds) (ipre ++ offsets (length pre) cmds) num) (length ipre) (length cmds + n) =
  if decide (n = 0%nat) then Some (cmds, true) else None.
Proof.
  induction cmds as [|ws cmds IH]; intros pre ipre num; cbn [length offsets Nat.add].
  - case_decide as Hn; [by subst n|]. destruct n; [done|]. cbn [fork_loop p_index].
    rewrite app_nil_r. by rewrite lookup_ge_None_2 by lia.
  - cbn [fork_loop p_index p_cells]. rewrite lookup_app_r by lia. rewrite Nat.sub_diag. cbn [lookup list_lookup].
    rewrite drop_app_length, cells_of_cons, argv_from_cells.
    specialize (IH (pre ++ map Some ws ++ [None]) (ipre ++ [length pre]) num).
    rewrite !length_app, length_map in IH. cbn [length] in IH. rewrite <- !app_assoc in IH. cbn [app] in IH.
    replace (length pre + (length ws + 1))%nat with (length pre + length ws + 1)%nat in IH by lia.
    replace (length ipre + 1)%nat with (S (length ipre)) in IH by lia. rewrite IH. by case_decide.
Qed.

Lemma commands_of_length cs : (length (commands_of cs) <= length cs)%nat /\
  (length (commands_of cs) = length cs <-> forallb (fun c => nonempty (words isdelim c)) cs = true).
Proof.
  induction cs as [|c cs [IH1 IH2]]; [done|]. unfold commands_of. cbn [map List.filter forallb].
  fold (commands_of cs). destruct (nonempty (words isdelim c)); cbn [length andb]; split; try lia.
  rewrite <- IH2. lia.
Qed.


(** [ls -l; pwd], with the slack that small blocks have. *)
Definition line0 : str := [108; 115; 32; 45; 108; 59; 32; 112; 119; 100; 10].


(** A blank part between semicolons: the third command has no index. *)
Example blank_command_undefined :
  match CommandParser (fun n => n + 2)%nat [108; 115; 59; 32; 59; 112; 119; 100; 10] with
  | Some p => p_num p = 3%nat /\ length (p_index p) = 2%nat /\ ForkAndExec (fun _ => true) p = None
  | None => False
  end.
Proof. vm_compute. done. Qed.

(** ** The room that is asked for *)

(** Words of ordinary characters, with one space between them. *)
Definition plain (w : str) : Prop := w <> [] /\ Forall (fun c => isspace c = false /\ issemi c = false) w.
Fixpoint join (ws : list str) : str :=
  match ws with
  | [] => []
  | [w] => w
  | w :: ws' => w ++ 32 :: join ws'
  end.

Lemma join_cons w v ws : join (w :: v :: ws) = w ++ 32 :: join (v :: ws).
Proof. done. Qed.

Lemma plain_delim c : isspace c = false -> isdelim c = false.
Proof. unfold isspace, isdelim. intros H. lia. Qed.

Lemma fields_plain delim w rest : Forall (fun c => delim c = false) w ->
  fields delim (w ++ rest) = match fields delim rest with f :: fs => (w ++ f) :: fs | [] => [] end.
Proof.
  induction w as [|c w IH]; intros Hw; cbn [app fields]; [destruct (fields_cons delim rest) as (f & fs & ->); done|].
  apply Forall_cons in Hw as [Hc Hw]. rewrite Hc, IH by done. destruct (fields_cons delim rest) as (f & fs & ->). done.
Qed.

Lemma words_join ws : Forall plain ws -> words isdelim (join ws) = ws.
Proof.
  induction ws as [|w [|v ws] IH]; intros Hws; [done|..]; apply Forall_cons in Hws as [[Hw0 Hw] Hws];
    (assert (Hd : Forall (fun c => isdelim c = false) w)
      by (eapply Forall_impl; [exact Hw|]; intros c [Hc _]; by apply plain_delim)).
  - unfold words. cbn [join]. rewrite <- (app_nil_r w) at 1. rewrite fields_plain by done. cbn.
    rewrite app_nil_r. by destruct w.
  - rewrite join_cons. unfold words. rewrite fields_plain by done. cbn [fields].
    change (isdelim 32) with true. cbn [List.filter]. rewrite app_nil_r. fold (words isdelim (join (v :: ws))).
    rewrite IH by done. by destruct w.
Qed.

Lemma join_nosemi ws : Forall plain ws -> Forall (fun c => issemi c = false) (join ws).
Proof.
  induction ws as [|w [|v ws] IH]; intros Hws; [constructor|..]; apply Forall_cons in Hws as [[_ Hw] Hws];
    (assert (Hd : Forall (fun c => issemi c = false) w) by (eapply Forall_impl; [exact Hw|]; by intros c [_ Hc])).
  - done.
  - rewrite join_cons. apply Forall_app. split; [done|]. constructor; [done|]. by apply IH.
Qed.

Lemma chunks_join w ws : Forall plain (w :: ws) -> chunks (join (w :: ws)) = [join (w :: ws)].
Proof.
  intros Hws. pose proof (join_nosemi _ Hws) as Hns. apply Forall_cons in Hws as [[Hw _] _].
  unfold chunks, words. rewrite <- (app_nil_r (join (w :: ws))) at 1. rewrite fields_plain by done. cbn [fields].
  rewrite app_nil_r. destruct w as [|c w]; [done|]. by destruct ws.
Qed.

Lemma skip_plain w rest semi : plain w -> skip_run (w ++ rest) semi = (semi, w ++ rest).
Proof.
  intros [Hw0 Hw]. destruct w as [|c w]; [done|]. apply Forall_cons in Hw as [[Hc Hs] _]. cbn. by rewrite Hc, Hs.
Qed.

Lemma count_plain w : forall fuel rest nc na, Forall (fun c => isspace c = false /\ issemi c = false) w ->
  (length w <= fuel)%nat -> count_loop fuel (w ++ rest) nc na = count_loop (fuel - length w) rest nc na.
Proof.
  induction w as [|c w IH]; intros fuel rest nc na Hw Hf; cbn [length app]; [by rewrite Nat.sub_0_r|].
  destruct fuel as [|fuel]; [cbn in Hf; lia|]. apply Forall_cons in Hw as [[Hc Hs] Hw]. cbn [count_loop skip_run].
  rewrite Hc, Hs. cbn [orb tail]. apply IH; [done|cbn in Hf; lia].
Qed.

Lemma count_join ws : forall w fuel na, Forall plain (w :: ws) -> (length (join (w :: ws)) <= fuel)%nat ->
  count_loop fuel (join (w :: ws)) 1 na = (1, na + length ws)%nat.
Proof.
  induction ws as [|v ws IH]; intros w fuel na Hws Hf; apply Forall_cons in Hws as [Hw Hws]; pose proof Hw as [_ Hwp].
  - cbn [join] in *. rewrite <- (app_nil_r w) at 1. rewrite count_plain by done. cbn [length].
    destruct (fuel - length w)%nat; cbn; by rewrite Nat.add_0_r.
  - rewrite join_cons in *. rewrite length_app in Hf. cbn [length] in Hf. rewrite count_plain by (done || lia).
    destruct (fuel - length w)%nat as [|n] eqn:En; [lia|]. cbn [count_loop skip_run].
    change (isspace 32 || issemi 32) with true. cbv iota. pose proof Hws as [Hv _]%Forall_cons.
    assert (Hj : exists rest, join (v :: ws) = v ++ rest).
    { destruct ws as [|u ws]; [exists []; cbn; by rewrite app_nil_r|]. eexists. apply join_cons. }
    destruct Hj as [rest Hj]. rewrite Hj, skip_plain by done. change (false || issemi 32) with false. cbv iota.
    rewrite <- Hj. destruct Hv as [Hv0 Hvp]. destruct v as [|c v]; [done|]. cbn [app tail] in *.
    (* the turn passes the first character of the next word *)
    specialize (IH (c :: v) (S n) (S na) Hws). rewrite Hj in IH. cbn [count_loop skip_run app] in IH.
    apply Forall_cons in Hvp as [[Hc Hs] _]. rewrite Hc, Hs in IH. cbn [orb tail] in IH.
    rewrite Hj in Hf |- *. cbn [tail length] in *. rewrite IH by lia. f_equal. lia.
Qed.

Lemma trimmed_join w ws : Forall plain (w :: ws) -> trimmed (join (w :: ws)) = join (w :: ws).
Proof.
  intros Hws. destruct (trimmed_spec (join (w :: ws))) as (a & b & E & Ha & Hb & _).
  assert (Ha0 : a = []).
  { destruct a as [|c a]; [done|]. apply Forall_cons in Ha as [Hc _]. apply Forall_cons in Hws as [[Hw0 Hw] _].
    destruct w as [|d w]; [done|]. apply Forall_cons in Hw as [[Hd _] _].
    destruct ws; cbn in E; simplify_eq; congruence. }
  assert (Hb0 : b = []).
  { destruct b as [|c b _] using rev_ind; [done|]. apply Forall_app in Hb as [_ Hc].
    apply Forall_cons in Hc as [Hc _]. assert (Hlast : last (join (w :: ws)) = Some c) by (by rewrite E, !app_assoc, last_snoc).
    clear E Ha Ha0. revert w Hws Hlast. induction ws as [|v ws IH]; intros w Hws Hlast;
      apply Forall_cons in Hws as [[Hw0 Hw] Hws].
    - cbn in Hlast. apply last_Some in Hlast as [l ->]. apply Forall_app in Hw as [_ Hw].
      apply Forall_cons in Hw as [[Hw _] _]. congruence.
    - rewrite join_cons, last_app_cons in Hlast. rewrite last_cons in Hlast.
      destruct (last (join (v :: ws))) eqn:El; [simplify_eq; by apply (IH v)|].
      apply last_None in El. apply Forall_cons in Hws as [[Hv _] _]. destruct v; [done|]. by destruct ws. }
  rewrite Ha0, Hb0, app_nil_r in E. exact (eq_sym E).
Qed.

(** The parser asks for one cell per word and stores a null behind the words as well: on
    every line of ordinary words, with blocks of exactly the size asked for, it writes behind
    the block. *)
Theorem CommandParser_overflow w ws : Forall plain (w :: ws) ->
  CommandParser (fun n => n) (join (w :: ws)) = None.
Proof.
  intros Hws. rewrite parser_run by done. rewrite trimmed_join, chunks_join by done.
  unfold commands_of. cbn [map List.filter]. rewrite words_join by done. cbn [nonempty List.filter length].
  unfold count. rewrite count_join by done. cbn [fst snd]. rewrite cells_of_cons, length_app, length_map.
  rewrite decide_False; [done|]. cbn [length cells_of map concat]. lia.
Qed.
End Shell.
