(* ===== verification/Umalloc.v ===== *)
(** * The allocator of user programs (xv6-public/umalloc.c)

    A ring of free blocks in order of address, each with a header of 8 bytes
    that holds the next block and its own size in units of a header.  [base],
    a static header of size 0, lies below the heap and is always in the ring.
    The system call [sbrk] is a parameter: it refuses, or moves the end of
    memory up and returns the old end.

    The allocator keeps the blocks it handed out disjoint from each other and
    from the free ones, its walks end, no byte of the heap is lost, and a request
    is refused only when [sbrk] refuses it. *)

From S2P Require Import Prelude.

Module Umalloc.

(** [union header]. *)
Record header := mkH { h_ptr : Z; h_size : Z }.
#[export] Instance eta_header : Eta header := fun r => mkH (h_ptr r) (h_size r).
#[export] Instance set_h_ptr : Setter h_ptr.
Proof. build_setter. Defined.
#[export] Instance set_h_size : Setter h_size.
Proof. build_setter. Defined.
Definition sizeof_header : Z := 8.

(** The headers by address, [freep] (0 is null) and the end of memory. *)
Record heap := mkHeap { u_mem : gmap Z header; u_freep : Z; u_brk : Z }.
#[export] Instance eta_heap : Eta heap := fun r => mkHeap (u_mem r) (u_freep r) (u_brk r).
#[export] Instance set_u_mem : Setter u_mem.
Proof. build_setter. Defined.
#[export] Instance set_u_freep : Setter u_freep.
Proof. build_setter. Defined.
#[export] Instance set_u_brk : Setter u_brk.
Proof. build_setter. Defined.

Section malloc.
(** The address of [base], and the system call [sbrk]. *)
Variable base : Z.
Variable sbrk : Z -> M heap Z.

Definition hget (p : Z) : M heap header := m <- gets u_mem ;; deref (m !! p).
Definition hset (p : Z) (f : header -> header) : M heap unit :=
  modify (fun s => s <| u_mem ::= fun m => <[p := f (default (mkH 0 0) (m !! p))]> m |>).

(** The walk of [free] to the block below [bp]. *)
Fixpoint free_find (fuel : nat) (bp p : Z) : M heap Z :=
  match fuel with
  | O => spin
  | S fuel' =>
      h <- hget p ;;
      if (p <? bp) && (bp <? h_ptr h) then ret p
      else if (h_ptr h <=? p) && ((p <? bp) || (bp <? h_ptr h)) then ret p
      else free_find fuel' bp (h_ptr h)
  end.

(** [bp] is linked before the block above it, or joined with it. *)
Definition join_above (p bp : Z) : M heap unit :=
  h <- hget p ;;
  b <- hget bp ;;
  if bp + 8 * h_size b =? h_ptr h then
    n <- hget (h_ptr h) ;;
    hset bp (fun x => x <| h_size := u32 (h_size b + h_size n) |>) ;;
    hset bp (fun x => x <| h_ptr := h_ptr n |>)
  else hset bp (fun x => x <| h_ptr := h_ptr h |>).
(** [p] is linked before it, or joined with it. *)
Definition join_below (p bp : Z) : M heap unit :=
  h <- hget p ;;
  b <- hget bp ;;
  if p + 8 * h_size h =? bp then
    hset p (fun x => x <| h_size := u32 (h_size h + h_size b) |>) ;;
    hset p (fun x => x <| h_ptr := h_ptr b |>)
  else hset p (fun x => x <| h_ptr := bp |>).

Definition free (ap : Z) : M heap unit :=
  let bp := ap - sizeof_header in
  f <- gets u_freep ;;
  m <- gets u_mem ;;
  p <- free_find (2 * size m + 2) bp f ;;
  join_above p bp ;;
  join_below p bp ;;
  modify (fun s => s <| u_freep := p |>).

(** [freep], or null. *)
Definition morecore (nu : Z) : M heap Z :=
  let nu := if nu <? 4096 then 4096 else nu in
  p <- sbrk (i32 (u32 (nu * sizeof_header))) ;;
  if p =? -1 then ret 0 else
  hset p (fun h => h <| h_size := nu |>) ;;
  free (p + sizeof_header) ;;
  gets u_freep.

Definition units (nbytes : Z) : Z := u32 (nbytes + sizeof_header - 1) / sizeof_header + 1.

(** The loop of [malloc] up to a block that is large enough, with the one before
    it, or to [freep]. *)
Fixpoint malloc_find (fuel : nat) (nunits prevp p : Z) : M heap (option (Z * Z)) :=
  match fuel with
  | O => spin
  | S fuel' =>
      h <- hget p ;;
      if nunits <=? h_size h then ret (Some (prevp, p)) else
      f <- gets u_freep ;;
      if p =? f then ret None else malloc_find fuel' nunits p (h_ptr h)
  end.

(** The block is taken out, or its upper end cut off. *)
Definition carve (nunits prevp p : Z) : M heap Z :=
  h <- hget p ;;
  q <- (if h_size h =? nunits then
          hset prevp (fun x => x <| h_ptr := h_ptr h |>) ;; ret p
        else
          hset p (fun x => x <| h_size := u32 (h_size h - nunits) |>) ;;
          let q := p + 8 * u32 (h_size h - nunits) in
          hset q (fun x => x <| h_size := nunits |>) ;; ret q) ;;
  modify (fun s => s <| u_freep := prevp |>) ;;
  ret (q + sizeof_header).

Fixpoint malloc_loop (fuel : nat) (nunits prevp p : Z) : M heap Z :=
  match fuel with
  | O => spin
  | S fuel' =>
      m <- gets u_mem ;;
      r <- malloc_find (S (size m)) nunits prevp p ;;
      match r with
      | Some (prevp, p) => carve nunits prevp p
      | None =>
          p <- morecore nunits ;;
          if p =? 0 then ret 0 else
          h <- hget p ;;
          malloc_loop fuel' nunits p (h_ptr h)
      end
  end.

(** One turn with [morecore] is enough. *)
Definition malloc (nbytes : Z) : M heap Z :=
  let nunits := units nbytes in
  f <- gets u_freep ;;
  when (f =? 0)
    (hset base (fun h => h <| h_ptr := base |>) ;;
     modify (fun s => s <| u_freep := base |>) ;;
     hset base (fun h => h <| h_size := 0 |>)) ;;
  prevp <- gets u_freep ;;
  h <- hget prevp ;;
  malloc_loop 2 nunits prevp (h_ptr h).

End malloc.

(** ** The ring and the blocks *)

Definition first (R : list (Z * Z)) (stop : Z) : Z :=
  match R with [] => stop | (a, _) :: _ => a end.

(** The blocks of [R] are linked in this order, the last one to [stop]. *)
Fixpoint seg (m : gmap Z header) (R : list (Z * Z)) (stop : Z) : Prop :=
  match R with
  | [] => True
  | (a, n) :: R' => m !! a = Some (mkH (first R' stop) n) /\ seg m R' stop
  end.

(** In order of address, and no two of them touch. *)
Fixpoint apart (R : list (Z * Z)) : Prop :=
  match R with
  | [] => True
  | (a, n) :: R' => 0 <= n /\ (forall b k, (b, k) ∈ R' -> a + 8 * n < b) /\ apart R'
  end.

(** [x] is a byte of a block of [R]. *)
Definition inside (R : list (Z * Z)) (x : Z) : Prop := exists a n, (a, n) ∈ R /\ a <= x < a + 8 * n.
(** [x] is a byte of a free block of [R] or of a block of [L] in use. *)
Definition covers (R : list (Z * Z)) (L : gmap Z Z) (x : Z) : Prop :=
  inside R x \/ exists a n, L !! a = Some n /\ a <= x < a + 8 * n.

(** A block put in front of [B] and joined with the first one of [B] that it touches. *)
Definition glue (a n : Z) (B : list (Z * Z)) : list (Z * Z) :=
  match B with
  | (b, t) :: B' => if a + 8 * n =? b then (a, n + t) :: B' else (a, n) :: B
  | [] => [(a, n)]
  end.

(** ** Lemmas on the ring *)

Lemma seg_app m A B stop : seg m (A ++ B) stop <-> seg m A (first B stop) /\ seg m B stop.
Proof.
  induction A as [|[a n] A IH]; simpl; [tauto|]. rewrite IH.
  destruct A as [|[b k] A]; simpl; tauto.
Qed.

Lemma seg_ext m m' R stop :
  (forall a n, (a, n) ∈ R -> m' !! a = m !! a) -> seg m R stop -> seg m' R stop.
Proof.
  induction R as [|[a n] R IH]; simpl; [done|]. intros H [E S].
  split; [rewrite (H a n) by set_solver; exact E|]. apply IH; [|exact S].
  intros b k ?. apply (H b k). set_solver.
Qed.

Lemma seg_lookup m R stop a n :
  seg m R stop -> (a, n) ∈ R -> exists q, m !! a = Some (mkH q n).
Proof.
  induction R as [|[b k] R IH]; simpl; [set_solver|].
  intros [E S] [[= -> ->]|H]%elem_of_cons; eauto.
Qed.

Lemma apart_app A B : apart (A ++ B) <->
  apart A /\ apart B /\ (forall a n b k, (a, n) ∈ A -> (b, k) ∈ B -> a + 8 * n < b).
Proof.
  induction A as [|[a n] A IH]; simpl.
  - split; [|tauto]. intros H. repeat split; [done|]. set_solver.
  - rewrite IH. split.
    + intros (H0 & H1 & H2 & H3 & H4). repeat split; auto.
      * intros b k Hb. apply (H1 b k). set_solver.
      * intros a' n' b k [[= -> ->]|Ha]%elem_of_cons Hb; [apply (H1 b k); set_solver|eauto].
    + intros ((H0 & H1 & H2) & H3 & H4). repeat split; auto.
      * intros b k [Hb|Hb]%elem_of_app; [eauto|]. eapply H4; [left|done].
      * intros a' n' b k Ha Hb. eapply H4; [by right|done].
Qed.

(** The size of a block of the ring is the one of its address. *)
Lemma apart_inj R a n k : apart R -> (a, n) ∈ R -> (a, k) ∈ R -> n = k.
Proof.
  induction R as [|[b t] R IH]; simpl; [set_solver|].
  intros (H0 & H1 & H2) [Ea|Ha]%elem_of_cons [Eb|Hb]%elem_of_cons; simplify_eq; auto.
  - apply H1 in Hb. lia.
  - apply H1 in Ha. lia.
Qed.

Lemma seg_size m R stop : apart R -> seg m R stop -> (length R <= size m)%nat.
Proof.
  intros Ha Hs.
  assert (Hd : NoDup R.*1).
  { clear Hs. induction R as [|[a n] R IH]; simpl; [constructor|]. destruct Ha as (H0 & H1 & H2).
    constructor; [|auto]. intros ([b k] & Hb & Hin)%list_elem_of_fmap. simpl in Hb. subst.
    apply H1 in Hin. lia. }
  rewrite <- (length_fmap fst R), <- (size_list_to_set (C := gset Z)) by exact Hd.
  rewrite <- (size_dom m). apply subseteq_size. intros a.
  rewrite elem_of_list_to_set. intros ([b k] & -> & Hin)%list_elem_of_fmap.
  destruct (seg_lookup m R stop b k Hs Hin) as [q Hq]. by apply elem_of_dom_2 in Hq.
Qed.

Lemma inside_cons a n R x : inside ((a, n) :: R) x <-> a <= x < a + 8 * n \/ inside R x.
Proof.
  unfold inside. setoid_rewrite elem_of_cons. split.
  - intros (b & t & [[= -> ->]|H] & Hx); eauto.
  - intros [H|(b & t & H & Hx)]; eauto.
Qed.
Lemma inside_app A B x : inside (A ++ B) x <-> inside A x \/ inside B x.
Proof.
  induction A as [|[a n] A IH]; simpl; [|rewrite !inside_cons, IH; tauto].
  split; [tauto|]. intros [(b & t & H & _)|H]; [set_solver|done].
Qed.

Lemma glue_cons a n B : exists n' B', glue a n B = (a, n') :: B'.
Proof. destruct B as [|[b t] B']; simpl; [|destruct (_ =? _)]; eauto. Qed.

Section glueing.
Context (a n : Z) (B : list (Z * Z)).
Hypothesis Hn : 0 <= n.
Hypothesis HB : apart B.
Hypothesis Hlt : forall b t, (b, t) ∈ B -> a + 8 * n <= b.

Lemma glue_apart : apart (glue a n B).
Proof using Hn HB Hlt.
  destruct B as [|[b t] B']; simpl; [split_and!; [done|set_solver|done]|].
  destruct HB as (Ht & Hb & Ha). destruct (Z.eqb_spec (a + 8 * n) b) as [<-|Hne].
  - split_and!; [lia| |done]. intros c u ?%Hb. lia.
  - pose proof (Hlt b t ltac:(left)). split_and!; [done| |done..].
    intros c u [[= -> ->]|Hc%Hb]%elem_of_cons; lia.
Qed.

Lemma glue_first : exists n', n <= n' /\ (a, n') ∈ glue a n B.
Proof using Hn HB Hlt.
  destruct B as [|[b t] B']; simpl; [exists n; set_solver by lia|].
  destruct HB as (Ht & _). destruct (a + 8 * n =? b); [exists (n + t)|exists n]; (split; [lia|left]).
Qed.

Lemma glue_elem b t : (b, t) ∈ glue a n B ->
  (b, t) ∈ B \/ b = a /\ n <= t /\ forall hi, (forall c u, (c, u) ∈ B -> c + 8 * u <= hi) ->
    a + 8 * n <= hi -> a + 8 * t <= hi.
Proof using Hn HB Hlt.
  destruct B as [|[c u] B']; simpl.
  - intros [= -> ->]%list_elem_of_singleton. right. split_and!; [done|lia|auto].
  - destruct HB as (Hu & _). destruct (Z.eqb_spec (a + 8 * n) c) as [<-|Hne];
      intros [[= -> ->]|H]%elem_of_cons; [|left; by right| |by left].
    + right. split_and!; [done|lia|]. intros hi H _. specialize (H _ u ltac:(left)). lia.
    + right. split_and!; [done|lia|auto].
Qed.

Lemma glue_inside x : inside (glue a n B) x <-> a <= x < a + 8 * n \/ inside B x.
Proof using Hn HB Hlt.
  destruct B as [|[c u] B']; simpl; [by rewrite inside_cons|].
  destruct HB as (Hu & _).
  destruct (Z.eqb_spec (a + 8 * n) c) as [<-|Hne]; rewrite !inside_cons; [|done].
  split; [|intros [H|[H|H]]; [left; lia..|by right]].
  intros [H|H]; [|tauto]. destruct (decide (x < a + 8 * n)); [left|right; left]; lia.
Qed.
End glueing.

Section correct.
Context (base : Z).

(** [R] is the ring from [base] on, [L] the blocks in use with their units. *)
Record heap_ok (s : heap) (R : list (Z * Z)) (L : gmap Z Z) : Prop := {
  ho_head : exists F, R = (base, 0) :: F;
  ho_brk : base + 8 <= u_brk s < 2 ^ 31;
  ho_ring : seg (u_mem s) R base;
  ho_apart : apart R;
  ho_freep : exists n, (u_freep s, n) ∈ R;
  ho_size : forall a n, (a, n) ∈ R -> a = base \/ 1 <= n /\ base + 8 <= a /\ a + 8 * n <= u_brk s;
  ho_live : forall a n, L !! a = Some n ->
    1 <= n /\ base + 8 <= a /\ a + 8 * n <= u_brk s /\ exists q, u_mem s !! a = Some (mkH q n);
  ho_free_live : forall a n b k, (a, n) ∈ R -> L !! b = Some k -> a + 8 * n <= b \/ b + 8 * k <= a;
  ho_live_live : forall a n b k, L !! a = Some n -> L !! b = Some k ->
    a = b \/ a + 8 * n <= b \/ b + 8 * k <= a;
}.
Hypothesis base_pos : 0 < base.

(** Only [base] has no units. *)
Lemma ring_size s R L a t : heap_ok s R L -> (a, t) ∈ R -> base <= a /\ 0 <= t /\ (t = 0 <-> a = base).
Proof.
  intros Hok Hin. pose proof (ho_brk _ _ _ Hok).
  destruct (ho_size _ _ _ Hok a t Hin) as [->|]; [|lia].
  rewrite (apart_inj _ base t 0 (ho_apart _ _ _ Hok) Hin); [lia|].
  destruct (ho_head _ _ _ Hok) as [F ->]. left.
Qed.

(** ** The two walks *)

Lemma hget_run p h s : u_mem s !! p = Some h -> hget p s = Ok h s.
Proof. intros E. unfold hget. mstep. by rewrite E. Qed.

(** Upwards from a block below [bp]. *)
Lemma free_find_up bp s B : forall fuel p n,
  seg (u_mem s) ((p, n) :: B) base -> apart ((p, n) :: B) ->
  base <= p < bp -> (forall k, (bp, k) ∉ B) -> (length B < fuel)%nat ->
  exists B1 q k B2, (p, n) :: B = B1 ++ (q, k) :: B2 /\ q < bp /\
    (forall b t, (b, t) ∈ B2 -> bp < b) /\ free_find fuel bp p s = Ok q s.
Proof.
  induction B as [|[b t] B IH]; intros [|fuel] p n Hs Ha Hp Hn Hf; simpl in Hf; try lia.
  - exists [], p, n, []. destruct Hs as [E _]. simpl in E. repeat split; [lia|set_solver|].
    simpl. rewrite (bind_Ok _ _ _ _ _ (hget_run p _ s E)). simpl.
    assert ((bp <? base) = false) as -> by lia. assert ((base <=? p) = true) as -> by lia.
    assert ((p <? bp) = true) as -> by lia. reflexivity.
  - destruct Hs as [E Hs]. destruct Ha as (H0 & H1 & H2). simpl in E.
    assert (Hb : b <> bp) by (intros ->; apply (Hn t); left).
    assert (Hpb : p + 8 * n < b) by (apply (H1 b t); left).
    destruct (decide (bp < b)) as [Hlt|Hge].
    + exists [], p, n, ((b, t) :: B). split; [done|]. split; [lia|]. split.
      * destruct H2 as (H2 & H3 & _).
        intros b' t' [[= -> ->]|Hin]%elem_of_cons; [done|]. apply H3 in Hin. lia.
      * simpl. rewrite (bind_Ok _ _ _ _ _ (hget_run p _ s E)). simpl.
        assert ((p <? bp) = true) as -> by lia. by assert ((bp <? b) = true) as -> by lia.
    + destruct (IH fuel b t Hs H2) as (B1 & q & k & B2 & -> & Hq & Hb2 & Hr); [lia| |lia|].
      { intros k ?. apply (Hn k). by right. }
      exists ((p, n) :: B1), q, k, B2. repeat split; try done.
      change (free_find (S fuel) bp p s = Ok q s). simpl.
      rewrite (bind_Ok _ _ _ _ _ (hget_run p _ s E)). simpl.
      assert ((bp <? b) = false) as -> by lia. assert ((b <=? p) = false) as -> by lia.
      by rewrite andb_false_r.
Qed.

(** From a block above it, over the end of the ring. *)
Lemma free_find_wrap bp s B : forall fuel p n,
  seg (u_mem s) ((p, n) :: B) base -> apart ((p, n) :: B) -> base < bp < p ->
  (length B < fuel)%nat ->
  free_find fuel bp p s = free_find (fuel - S (length B)) bp base s.
Proof.
  induction B as [|[b t] B IH]; intros [|fuel] p n Hs Ha Hp Hf; simpl in Hf; try lia.
  - destruct Hs as [E _]. simpl in *. rewrite (bind_Ok _ _ _ _ _ (hget_run p _ s E)). simpl.
    assert ((bp <? base) = false) as -> by lia. assert ((p <? bp) = false) as -> by lia.
    simpl. by rewrite andb_false_r, Nat.sub_0_r.
  - destruct Hs as [E Hs]. destruct Ha as (H0 & H1 & H2). simpl in E.
    assert (Hpb : p + 8 * n < b) by (apply (H1 b t); left).
    simpl. rewrite (bind_Ok _ _ _ _ _ (hget_run p _ s E)). simpl.
    assert ((p <? bp) = false) as -> by lia. assert ((b <=? p) = false) as -> by lia. simpl.
    rewrite (IH fuel b t Hs H2) by lia. done.
Qed.

(** Wherever [freep] is, the walk ends at the block below [bp]. *)
Lemma free_find_run s R L bp : heap_ok s R L -> base < bp -> (forall k, (bp, k) ∉ R) ->
  exists B1 q k B2, R = B1 ++ (q, k) :: B2 /\ q < bp /\
    (forall b t, (b, t) ∈ B2 -> bp < b) /\
    free_find (2 * size (u_mem s) + 2) bp (u_freep s) s = Ok q s.
Proof.
  intros Hok Hbp Hn. destruct (ho_freep _ _ _ Hok) as [n Hin].
  pose proof (ho_ring _ _ _ Hok) as Hs. pose proof (ho_apart _ _ _ Hok) as Ha.
  pose proof (seg_size _ _ _ Ha Hs) as Hsz.
  destruct (ho_head _ _ _ Hok) as [F HF].
  pose proof (list_elem_of_split _ _ Hin) as (A & B & HR).
  assert (Hge : base <= u_freep s).
  { destruct (ho_size _ _ _ Hok _ _ Hin) as [->|]; lia. }
  assert (Hne : u_freep s <> bp) by (intros Heq; rewrite Heq in Hin; by apply Hn in Hin).
  assert (Hs2 := Hs). assert (Ha2 := Ha). rewrite HR in Hs2, Ha2.
  apply seg_app in Hs2 as [_ Hs2]. apply apart_app in Ha2 as (_ & Ha2 & _).
  assert (HlenB : (length B < length R)%nat) by (rewrite HR, length_app; simpl; lia).
  destruct (decide (u_freep s < bp)) as [Hlt|Hnlt].
  - destruct (free_find_up bp s B (2 * size (u_mem s) + 2) _ _ Hs2 Ha2) as (B1 & q & k & B2 & HB & Hq & Hb & Hr);
      [lia| |lia|].
    { intros k Hk. apply (Hn k). rewrite HR. set_solver. }
    exists (A ++ B1), q, k, B2. split; [|done]. by rewrite HR, HB, <- app_assoc.
  - rewrite (free_find_wrap bp s B _ _ _ Hs2 Ha2) by lia. rewrite HF in *.
    apply (free_find_up bp s F _ base 0 Hs Ha); [lia| |simpl in Hsz, HlenB; lia].
    intros k Hk. apply (Hn k). by right.
Qed.



(** ** [free] *)

Lemma hset_run p g m f e :
  hset p g (mkHeap m f e) = Ok tt (mkHeap (<[p := g (default (mkH 0 0) (m !! p))]> m) f e).
Proof. reflexivity. Qed.

Lemma freep_run b m f e : modify (fun s => s <| u_freep := b |>) (mkHeap m f e) = Ok tt (mkHeap m b e).
Proof. reflexivity. Qed.

Lemma join_above_run m f e p bp k n x B :
  m !! p = Some (mkH (first B base) k) -> m !! bp = Some (mkH x n) -> seg m B base ->
  (forall t, (bp, t) ∉ B) -> base < bp -> 0 <= bp /\ 0 <= n /\ apart B ->
  (forall b t, (b, t) ∈ B -> bp + 8 * n <= b /\ b + 8 * t < 2 ^ 31) ->
  exists m', join_above p bp (mkHeap m f e) = Ok tt (mkHeap m' f e) /\
    seg m' (glue bp n B) base /\ forall a, a <> bp -> m' !! a = m !! a.
Proof.
  intros Ep Eb Hs Hni Hb (Hbp & Hn & Hap) Hhi. unfold join_above.
  rewrite (bind_Ok _ _ _ _ _ (hget_run p _ (mkHeap m f e) Ep)).
  rewrite (bind_Ok _ _ _ _ _ (hget_run bp _ (mkHeap m f e) Eb)). cbn [h_size h_ptr].
  assert (Hext : forall h B', (forall b t, (b, t) ∈ B' -> (b, t) ∈ B) -> seg m B' base -> seg (<[bp := h]> m) B' base).
  { intros h B' Hsub. apply seg_ext. intros b t Hbt. rewrite lookup_insert_ne; [done|].
    intros <-. apply (Hni t). auto. }
  destruct B as [|[b t] B]; cbn [first glue] in *.
  - assert ((bp + 8 * n =? base) = false) as -> by lia. rewrite hset_run, Eb. cbn.
    eexists. split; [reflexivity|]. split; [|intros; by rewrite lookup_insert_ne].
    split; [|done]. by rewrite lookup_insert_eq.
  - destruct Hs as [E Hs]. destruct Hap as (Ht & _).
    destruct (Z.eqb_spec (bp + 8 * n) b) as [Heq|Hne].
    + rewrite (bind_Ok _ _ _ _ _ (hget_run b _ (mkHeap m f e) E)). cbn [h_size h_ptr].
      rewrite (bind_Ok _ _ _ _ _ (hset_run _ _ _ _ _)), hset_run, Eb, lookup_insert_eq. cbn.
      rewrite insert_insert_eq. eexists. split; [reflexivity|].
      split; [|intros; by rewrite lookup_insert_ne].
      destruct (Hhi b t ltac:(left)). cbn. rewrite lookup_insert_eq, u32_small by lia.
      split; [done|]. apply Hext; [by right|done].
    + rewrite hset_run, Eb. cbn. eexists. split; [reflexivity|].
      split; [|intros; by rewrite lookup_insert_ne]. cbn.
      split; [by rewrite lookup_insert_eq|]. apply (Hext _ ((b, t) :: B)); [done|]. by split.
Qed.

Lemma join_below_run m f e p bp k n y B :
  m !! p = Some (mkH y k) -> p <> bp -> seg m ((bp, n) :: B) base -> (forall t, (p, t) ∉ B) ->
  0 <= k /\ 0 <= n /\ k + n < 2 ^ 32 ->
  exists m', join_below p bp (mkHeap m f e) = Ok tt (mkHeap m' f e) /\
    seg m' (glue p k ((bp, n) :: B)) base /\ forall a, a <> p -> m' !! a = m !! a.
Proof.
  intros Ep Hne [Eb Hs] Hni (Hk & Hn & Hkn). unfold join_below. cbn [glue].
  rewrite (bind_Ok _ _ _ _ _ (hget_run p _ (mkHeap m f e) Ep)).
  rewrite (bind_Ok _ _ _ _ _ (hget_run bp _ (mkHeap m f e) Eb)). cbn [h_size h_ptr].
  assert (Hext : forall h, seg (<[p := h]> m) B base).
  { intros h. apply (seg_ext m); [|done]. intros b t Hbt. rewrite lookup_insert_ne; [done|].
    intros <-. by apply (Hni t). }
  destruct (Z.eqb_spec (p + 8 * k) bp) as [Heq|Hneq].
  - rewrite (bind_Ok _ _ _ _ _ (hset_run _ _ _ _ _)), hset_run, Ep, lookup_insert_eq. cbn.
    rewrite insert_insert_eq. eexists. split; [reflexivity|].
    split; [|intros; by rewrite lookup_insert_ne]. cbn.
    by rewrite lookup_insert_eq, u32_small by lia.
  - rewrite hset_run, Ep. cbn. eexists. split; [reflexivity|].
    split; [|intros; by rewrite lookup_insert_ne]. cbn.
    rewrite lookup_insert_eq, lookup_insert_ne by done. done.
Qed.

(** Where a block in use lies between the free ones. *)
Record between (B1 : list (Z * Z)) (q k : Z) (B2 : list (Z * Z)) (bp n e : Z) : Prop := {
  bt_n : 1 <= n;
  bt_k : 0 <= k;
  bt_lo : base <= q /\ base + 8 <= bp;
  bt_below : q + 8 * k <= bp /\ q < bp;
  bt_above : forall b t, (b, t) ∈ B2 -> bp + 8 * n <= b /\ b + 8 * t <= e;
  bt_apart : apart B1 /\ apart B2;
  bt_prefix : forall a t, (a, t) ∈ B1 -> 0 <= t /\ a + 8 * t < q;
  bt_rest : forall b t, (b, t) ∈ B2 -> q < b;
  bt_end : bp + 8 * n <= e < 2 ^ 31;
}.

Lemma live_between s B1 q k B2 L bp n :
  heap_ok s (B1 ++ (q, k) :: B2) L -> L !! bp = Some n -> q < bp ->
  (forall b t, (b, t) ∈ B2 -> bp < b) -> between B1 q k B2 bp n (u_brk s).
Proof.
  intros Hok HL Hq HB. destruct (ho_live _ _ _ Hok _ _ HL) as (Hn & Hlo & Hhi & _).
  pose proof (ho_apart _ _ _ Hok) as Ha. apply apart_app in Ha as (Ha1 & (Hk & Hqlt & Ha2) & H1q).
  pose proof (fun a t => ring_size s _ L a t Hok) as Hsz.
  split; [done|done| | | |done| | |].
  - destruct (Hsz q k); [set_solver|lia].
  - destruct (ho_free_live _ _ _ Hok q k bp n ltac:(set_solver) HL); lia.
  - intros b t Hbt. pose proof (HB b t Hbt).
    assert (Hi : (b, t) ∈ B1 ++ (q, k) :: B2) by set_solver.
    destruct (ho_size _ _ _ Hok b t Hi) as [->|(? & ? & ?)]; [lia|].
    destruct (ho_free_live _ _ _ Hok b t bp n Hi HL); lia.
  - intros a t Hat. split; [apply (Hsz a t); set_solver|]. apply (H1q a t q k Hat). left.
  - intros b t Hbt%Hqlt. lia.
  - pose proof (ho_brk _ _ _ Hok). lia.
Qed.

(** The block with the ones above it, and all of them with the one below. *)
Lemma between_glue B1 q k B2 bp n e : between B1 q k B2 bp n e ->
  apart (glue bp n B2) /\ (forall b t, (b, t) ∈ glue bp n B2 -> bp <= b /\ b + 8 * t <= e) /\
  apart (glue q k (glue bp n B2)) /\
  (forall x, inside (glue q k (glue bp n B2)) x <-> inside ((q, k) :: B2) x \/ bp <= x < bp + 8 * n) /\
  (forall b t, (b, t) ∈ glue q k (glue bp n B2) ->
     (b, t) ∈ (q, k) :: B2 \/ (b = q /\ k < t \/ b = bp) /\ 1 <= t /\ b + 8 * t <= e) /\
  exists a m, (a, m) ∈ glue q k (glue bp n B2) /\ n <= m.
Proof.
  intros []. destruct bt_apart0 as [_ Ha].
  assert (Hlt : forall b t, (b, t) ∈ B2 -> bp + 8 * n <= b) by (intros b t Hb; apply (bt_above0 b t Hb)).
  assert (Hn : 0 <= n) by lia.
  pose proof (glue_apart bp n B2 Hn Ha Hlt) as Hg.
  assert (Hgi : forall b t, (b, t) ∈ glue bp n B2 -> (b, t) ∈ B2 \/ b = bp /\ n <= t /\ b + 8 * t <= e).
  { intros b t Hbt. destruct (glue_elem bp n B2 Hn Ha Hlt b t Hbt) as [Hi|(-> & Hnt & Hh)]; [by left|].
    right. split_and!; [done..|]. apply Hh; [|lia]. intros c u Hc. apply (bt_above0 c u Hc). }
  assert (Hgb : forall b t, (b, t) ∈ glue bp n B2 -> bp <= b /\ b + 8 * t <= e).
  { intros b t [Hi|(-> & ? & ?)]%Hgi; [|lia]. apply bt_above0 in Hi. lia. }
  assert (Hlq : forall b t, (b, t) ∈ glue bp n B2 -> q + 8 * k <= b) by (intros b t Hb%Hgb; lia).
  pose proof (glue_elem q k _ bt_k0 Hg Hlq) as Hge.
  split_and!; [done|done|by apply glue_apart| | |].
  - intros x. rewrite (glue_inside q k _ bt_k0 Hg Hlq), (glue_inside bp n B2 Hn Ha Hlt), inside_cons. tauto.
  - intros b t Hbt. destruct (Hge b t Hbt) as [[Hi|(-> & ? & ?)]%Hgi|(-> & Hkt & Hh)].
    + left. by right.
    + right. split_and!; [by right|lia..].
    + destruct (decide (t = k)) as [->|]; [left; left|]. right. split_and!; [left; lia|lia|].
      apply Hh; [|lia]. intros c u Hc%Hgb. lia.
  - destruct (glue_cons bp n B2) as (n' & B' & Eg).
    assert (n <= n').
    { destruct (glue_elem bp n B2 Hn Ha Hlt bp n') as [Hi|(_ & ? & _)]; [rewrite Eg; left| |done].
      apply Hlt in Hi. lia. }
    rewrite Eg. cbn [glue]. destruct (q + 8 * k =? bp); [exists q, (k + n')|exists bp, n']; (split; [|lia]);
      [left|right; left].
Qed.

(** The whole of [free] on a block in use, below which [q] is the next free one. *)
Lemma free_run s B1 q k B2 bp n x :
  between B1 q k B2 bp n (u_brk s) -> seg (u_mem s) (B1 ++ (q, k) :: B2) base ->
  u_mem s !! bp = Some (mkH x n) ->
  free_find (2 * size (u_mem s) + 2) bp (u_freep s) s = Ok q s ->
  exists m', free (bp + sizeof_header) s = Ok tt (mkHeap m' q (u_brk s)) /\
    seg m' (B1 ++ glue q k (glue bp n B2)) base /\
    forall a, a <> q -> a <> bp -> m' !! a = u_mem s !! a.
Proof.
  intros Hbt Hs Eb Hfind. destruct s as [m f e]. cbn [u_mem u_freep u_brk] in *.
  apply seg_app in Hs as (Hs1 & E & Hs2). cbn in Hs1, E, Hs2.
  destruct (between_glue _ _ _ _ _ _ _ Hbt) as (Hg & Hgb & _). destruct Hbt.
  destruct (join_above_run m f e q bp k n x B2) as (m1 & R1 & S1 & F1);
    [exact E|exact Eb|exact Hs2| |lia|split_and!; [lia|lia|apply bt_apart0]| |].
  { intros t Ht%bt_above0. lia. }
  { intros b t Hbt%bt_above0. lia. }
  destruct (glue_cons bp n B2) as (n' & B' & Eg). rewrite Eg in S1, Hg, Hgb |- *.
  destruct (join_below_run m1 f e q bp k n' (first B2 base) B') as (m2 & R2 & S2 & F2); [..|exact S1| | |].
  { rewrite F1 by lia. exact E. }
  { lia. }
  { intros t Ht. destruct (Hgb q t) as [? _]; [by right|lia]. }
  { destruct Hg as (? & _). destruct (Hgb bp n' ltac:(left)). lia. }
  exists m2. split; [|split].
  - unfold free. replace (bp + sizeof_header - sizeof_header) with bp by lia. mstep.
    cbn [u_mem u_freep]. by rewrite (bind_Ok _ _ _ _ _ Hfind), (bind_Ok _ _ _ _ _ R1), (bind_Ok _ _ _ _ _ R2).
  - apply seg_app. split; [|exact S2]. destruct (glue_cons q k ((bp, n') :: B')) as (k' & B'' & ->).
    cbn [first]. apply (seg_ext m); [|exact Hs1]. intros a t Hat%bt_prefix0. rewrite F2, F1; [done|lia..].
  - intros a Haq Hab. by rewrite F2, F1.
Qed.

(** Ranges without a common byte. *)
Lemma ranges_apart a n b k : 0 <= n -> 1 <= k -> (n = 0 -> a <= b) ->
  (forall x, a <= x < a + 8 * n -> b <= x < b + 8 * k -> False) -> a + 8 * n <= b \/ b + 8 * k <= a.
Proof.
  intros Hn Hk H0 H. destruct (decide (n = 0)) as [->|]; [specialize (H0 eq_refl); lia|].
  specialize (H (Z.max a b)). lia.
Qed.

Lemma live_not_free s R L a n k : heap_ok s R L -> L !! a = Some n -> (a, k) ∉ R.
Proof.
  intros Hok HL Hin. destruct (ho_live _ _ _ Hok _ _ HL) as (? & ? & _).
  pose proof (ho_free_live _ _ _ Hok _ _ _ _ Hin HL).
  destruct (ho_size _ _ _ Hok _ _ Hin) as [->|]; lia.
Qed.

Lemma free_ok s R L bp n : heap_ok s R L -> L !! bp = Some n ->
  exists s' R', free (bp + sizeof_header) s = Ok tt s' /\ heap_ok s' R' (delete bp L) /\
    u_brk s' = u_brk s /\ (forall x, covers R' (delete bp L) x <-> covers R L x) /\
    exists a m, (a, m) ∈ R' /\ n <= m.
Proof.
  intros Hok HL. destruct (ho_live _ _ _ Hok _ _ HL) as (Hn & Hlo & _ & x & Eb).
  destruct (free_find_run s R L bp Hok) as (B1 & q & k & B2 & -> & Hq & HB2 & Hf);
    [lia|intros t; by apply (live_not_free s R L bp n)|].
  pose proof (live_between s B1 q k B2 L bp n Hok HL Hq HB2) as Hbt.
  destruct (free_run s B1 q k B2 bp n x Hbt (ho_ring _ _ _ Hok) Eb Hf) as (m' & Hr & Hs' & Hfr).
  destruct (between_glue _ _ _ _ _ _ _ Hbt) as (_ & _ & Hap & Hins & Hel & a & t & Hat & Hnt).
  assert (Hcov : forall y, inside (B1 ++ glue q k (glue bp n B2)) y <->
                           inside (B1 ++ (q, k) :: B2) y \/ bp <= y < bp + 8 * n).
  { intros y. rewrite !inside_app, Hins. tauto. }
  assert (Hel' : forall b u, (b, u) ∈ B1 ++ glue q k (glue bp n B2) ->
    (b, u) ∈ B1 ++ (q, k) :: B2 \/ (b = q /\ k < u \/ b = bp) /\ 1 <= u /\ b + 8 * u <= u_brk s).
  { intros b u [Hb|[Hb|Hb]%Hel]%elem_of_app; [left; set_solver..|by right]. }
  exists (mkHeap m' q (u_brk s)), (B1 ++ glue q k (glue bp n B2)).
  split; [exact Hr|]. split; [|split; [done|split]].
  - split; cbn [u_mem u_freep u_brk].
    + destruct (ho_head _ _ _ Hok) as [F HF]. destruct B1 as [|b B1]; simplify_eq/=; [|eauto].
      destruct (glue_cons bp n F) as (n' & B' & ->). cbn. replace (base + 8 * 0 =? bp) with false by lia. eauto.
    + apply (ho_brk _ _ _ Hok).
    + exact Hs'.
    + apply apart_app. split; [apply (bt_apart _ _ _ _ _ _ _ Hbt)|]. split; [exact Hap|].
      intros c u b v Hc Hb. apply (bt_prefix _ _ _ _ _ _ _ Hbt) in Hc.
      apply Hel in Hb as [[[= -> ->]|Hb]%elem_of_cons|([[-> _]| ->] & _)]; try lia.
      apply (bt_rest _ _ _ _ _ _ _ Hbt) in Hb. lia.
    + destruct (glue_cons q k (glue bp n B2)) as (k' & B' & ->). exists k'. set_solver.
    + intros b u [Hb|([[-> _]| ->] & ? & ?)]%Hel'; [by apply (ho_size _ _ _ Hok)| |right; lia].
      destruct (ho_size _ _ _ Hok q k ltac:(set_solver)) as [->|]; [by left|right; lia].
    + intros b u [Hne Hb]%lookup_delete_Some.
      destruct (ho_live _ _ _ Hok _ _ Hb) as (? & ? & ? & y & Ey). split_and!; [done..|].
      exists y. rewrite Hfr; [done| |done]. intros ->.
      by apply (live_not_free s (B1 ++ (q, k) :: B2) L q u k Hok Hb); set_solver.
    + intros b u c v Hbu [Hne Hc]%lookup_delete_Some.
      destruct (ho_live _ _ _ Hok _ _ Hc) as (? & ? & _).
      assert (Hu : 0 <= u /\ (u = 0 -> b <= c)).
      { destruct (Hel' b u Hbu) as [Hb|(_ & ? & _)]; [|lia].
        destruct (ring_size _ _ _ b u Hok Hb). lia. }
      apply ranges_apart; [lia..|]. intros y Hy1 Hy2.
      destruct (proj1 (Hcov y)) as [(d & w & Hd & Hy3)|Hy3]; [by exists b, u| |].
      * pose proof (ho_free_live _ _ _ Hok d w c v Hd Hc). lia.
      * pose proof (ho_live_live _ _ _ Hok bp n c v HL Hc). lia.
    + intros b u c v [_ Hb]%lookup_delete_Some [_ Hc]%lookup_delete_Some.
      exact (ho_live_live _ _ _ Hok b u c v Hb Hc).
  - intros y. unfold covers. rewrite Hcov. split.
    + intros [[?|?]|(b & u & [? ?]%lookup_delete_Some & ?)]; eauto 6.
    + intros [?|(b & u & Hb & Hy)]; [eauto|]. destruct (decide (b = bp)) as [->|].
      * simplify_eq. eauto.
      * right. exists b, u. by rewrite lookup_delete_ne.
  - exists a, t. split; [set_solver|done].
Qed.

(** ** [malloc] *)

(** The ring seen from [freep]. *)
Lemma ring_from s R L : heap_ok s R L -> exists W n,
  seg (u_mem s) W (u_freep s) /\ u_mem s !! u_freep s = Some (mkH (first W (u_freep s)) n) /\
  (forall t, (u_freep s, t) ∉ W) /\ (forall a t, (a, t) ∈ R <-> (a, t) ∈ W ++ [(u_freep s, n)]) /\
  (length W <= size (u_mem s))%nat.
Proof.
  intros Hok. destruct (ho_freep _ _ _ Hok) as [n Hin]. destruct (ho_head _ _ _ Hok) as [F HF].
  pose proof (ho_ring _ _ _ Hok) as Hs. pose proof (ho_apart _ _ _ Hok) as Ha.
  pose proof (seg_size _ _ _ Ha Hs) as Hsz.
  apply list_elem_of_split in Hin as (A & B & HR). rewrite HR in Hs, Ha, Hsz.
  apply seg_app in Hs as (HsA & E & HsB). cbn in HsA.
  assert (Hfst : first A (u_freep s) = base) by (destruct A as [|[a t] A]; cbn in *; congruence).
  exists (B ++ A), n. split_and!.
  - apply seg_app. by rewrite Hfst.
  - by destruct B as [|[b t] B]; cbn in *; rewrite ?Hfst.
  - apply apart_app in Ha as (_ & (Hn & HB & _) & HA). intros t [Ht|Ht]%elem_of_app.
    + apply HB in Ht. lia.
    + pose proof (HA _ _ _ _ Ht ltac:(left)) as Hlt. destruct (ring_size s R L (u_freep s) t Hok); [|lia].
      rewrite HR. set_solver.
  - intros a t. rewrite HR. set_solver.
  - rewrite length_app in *. cbn in Hsz. lia.
Qed.

(** The walk finds a block with the one before it, or there is none. *)
Lemma malloc_find_run s nu (X : list (Z * Z)) fn n W : forall fuel prev p y,
  seg (u_mem s) W (u_freep s) -> u_mem s !! u_freep s = Some (mkH fn n) ->
  (forall t, (u_freep s, t) ∉ W) -> first W (u_freep s) = p -> (length W < fuel)%nat ->
  (forall a t, (a, t) ∈ W -> (a, t) ∈ X) -> (prev, y) ∈ X -> u_mem s !! prev = Some (mkH p y) ->
  (exists q' y' q t, malloc_find fuel nu prev p s = Ok (Some (q', q)) s /\
     (q, t) ∈ W ++ [(u_freep s, n)] /\ nu <= t /\ (q', y') ∈ X /\ u_mem s !! q' = Some (mkH q y')) \/
  (malloc_find fuel nu prev p s = Ok None s /\ forall a t, (a, t) ∈ W ++ [(u_freep s, n)] -> t < nu).
Proof.
  induction W as [|[a t] W IH]; intros [|fuel] prev p y Hs E Hni Hp Hf HX Hpr Epr; cbn in Hp, Hf; try lia; subst p.
  - cbn [malloc_find]. rewrite (bind_Ok _ _ _ _ _ (hget_run _ _ s E)). cbn [h_size].
    destruct (Z.leb_spec nu n).
    + left. exists prev, y, (u_freep s), n. split_and!; [done|set_solver|lia|done..].
    + right. mstep. rewrite Z.eqb_refl. split; [done|]. set_solver.
  - destruct Hs as [Ea Hs]. cbn [malloc_find]. rewrite (bind_Ok _ _ _ _ _ (hget_run _ _ s Ea)). cbn [h_size h_ptr].
    destruct (Z.leb_spec nu t).
    + left. exists prev, y, a, t. split_and!; [done|set_solver|lia|done..].
    + mstep. replace (a =? u_freep s) with false; [|symmetry; apply Z.eqb_neq; intros ->; apply (Hni t); left].
      destruct (IH fuel a (first W (u_freep s)) t Hs E) as [(q' & y' & q & u & Hr & Hq & ?)|[Hr Hq]];
        [set_solver|done|lia|set_solver|set_solver|done| |].
      * left. exists q', y', q, u. split_and!; [done|set_solver|tauto..].
      * right. split; [done|]. intros b u [[= -> ->]|Hb]%elem_of_cons; eauto.
Qed.

(** A block cut out of a free one. *)
Lemma take_ok s R L s' R' a nu q t h :
  heap_ok s R L -> (exists F, R' = (base, 0) :: F) -> seg (u_mem s') R' base -> apart R' ->
  u_brk s' = u_brk s -> (exists n, (u_freep s', n) ∈ R') ->
  (forall b u, (b, u) ∈ R' -> exists u', (b, u') ∈ R /\ u <= u' /\ (b = base \/ 1 <= u)) ->
  (q, t) ∈ R -> 1 <= nu -> q <= a -> a + 8 * nu <= q + 8 * t ->
  (forall b u, (b, u) ∈ R' -> b + 8 * u <= a \/ a + 8 * nu <= b) ->
  u_mem s' !! a = Some (mkH h nu) ->
  (forall b u, L !! b = Some u -> u_mem s' !! b = u_mem s !! b) ->
  L !! a = None /\ heap_ok s' R' (<[a := nu]> L).
Proof.
  intros Hok Hhd Hs Hap Hbrk Hfp Hsub Hq Hnu Hqa Haq Hdis Ha Hlive.
  assert (Hqb : q <> base) by (destruct (ring_size s R L q t Hok Hq); lia).
  destruct (ho_size _ _ _ Hok q t Hq) as [?|(? & ? & ?)]; [done|].
  assert (Hold : forall b u, L !! b = Some u -> a + 8 * nu <= b \/ b + 8 * u <= a).
  { intros b u Hb. destruct (ho_free_live _ _ _ Hok q t b u Hq Hb); lia. }
  split.
  { destruct (L !! a) as [u|] eqn:E; [|done]. destruct (ho_live _ _ _ Hok a u E) as (? & _).
    pose proof (Hold a u E). lia. }
  split; rewrite ?Hbrk; [done|apply (ho_brk _ _ _ Hok)|done|done|done| | | |].
  - intros b u Hb. destruct (Hsub b u Hb) as (u' & Hb' & ? & [?|?]); [by left|].
    destruct (ho_size _ _ _ Hok b u' Hb'); [by left|right; lia].
  - intros b u [[<- <-]|[Hne Hb]]%lookup_insert_Some; [split_and!; [lia..|eauto]|].
    rewrite (Hlive b u Hb). by apply (ho_live _ _ _ Hok).
  - intros b u c v Hb [[<- <-]|[Hne Hc]]%lookup_insert_Some; [by apply Hdis|].
    destruct (Hsub b u Hb) as (u' & Hb' & ? & _).
    destruct (ho_free_live _ _ _ Hok b u' c v Hb' Hc); lia.
  - intros b u c v [[<- <-]|[Hne Hb]]%lookup_insert_Some [[<- <-]|[Hne' Hc]]%lookup_insert_Some.
    + by left.
    + destruct (Hold c v Hc); lia.
    + destruct (Hold b u Hb); lia.
    + exact (ho_live_live _ _ _ Hok b u c v Hb Hc).
Qed.

Lemma covers_insert R R' L a nu : L !! a = None ->
  (forall x, inside R x <-> inside R' x \/ a <= x < a + 8 * nu) ->
  forall x, covers R' (<[a := nu]> L) x <-> covers R L x.
Proof.
  intros HL H x. unfold covers. rewrite H. split.
  - intros [?|(b & u & [[<- <-]|[? ?]]%lookup_insert_Some & ?)]; eauto 6.
  - intros [[?|?]|(b & u & Hb & ?)]; [by left|right..].
    + exists a, nu. by rewrite lookup_insert_eq.
    + exists b, u. rewrite lookup_insert_ne by (intros ->; congruence). done.
Qed.

(** The blocks before and after the one that is found. *)
Lemma ring_split s R L q' y q t : heap_ok s R L -> (q', y) ∈ R -> u_mem s !! q' = Some (mkH q y) ->
  (q, t) ∈ R -> 1 <= t ->
  exists C D, R = C ++ (q', y) :: (q, t) :: D /\ u_mem s !! q = Some (mkH (first D base) t) /\
    base + 8 <= q /\ q + 8 * t <= u_brk s.
Proof.
  intros Hok Hq' E Hq Ht.
  assert (Hqb : q <> base) by (destruct (ring_size s R L q t Hok Hq); lia).
  pose proof (ho_ring _ _ _ Hok) as Hs. pose proof (ho_apart _ _ _ Hok) as Ha.
  destruct (ho_size _ _ _ Hok q t Hq) as [?|(_ & ? & ?)]; [done|].
  apply list_elem_of_split in Hq' as (C & D & HR). rewrite HR in Hs.
  apply seg_app in Hs as (_ & E' & Hs). rewrite E in E'. injection E' as Hfst.
  destruct D as [|[b u] D]; cbn in Hfst; [done|]. subst b. destruct Hs as [Eq _].
  rewrite (apart_inj R q t u Ha Hq) in * by (rewrite HR; set_solver).
  exists C, D. split_and!; [done|exact Eq|lia..].
Qed.

Lemma seg_insert m R stop a h : (forall t, (a, t) ∉ R) -> seg m R stop -> seg (<[a := h]> m) R stop.
Proof.
  intros Hni. apply seg_ext. intros b t Hb. apply lookup_insert_ne. intros ->. by apply (Hni t).
Qed.

Section carving.
Context (m : gmap Z header) (f e : Z) (L : gmap Z Z) (C D : list (Z * Z)) (q' y q t : Z).
#[local] Abbreviation R := (C ++ (q', y) :: (q, t) :: D).
Hypothesis Hok : heap_ok (mkHeap m f e) R L.
Hypothesis Ht : 1 <= t.

Lemma carve_facts :
  seg m C q' /\ m !! q' = Some (mkH q y) /\ m !! q = Some (mkH (first D base) t) /\ seg m D base /\
  0 <= y /\ q' + 8 * y < q /\ base + 8 <= q /\ q + 8 * t <= e < 2 ^ 31 /\
  (forall a u, (a, u) ∈ C -> 0 <= u /\ a + 8 * u < q') /\ (forall a u, (a, u) ∈ D -> q + 8 * t < a) /\
  (forall b u, L !! b = Some u -> b <> q' /\ b <> q).
Proof.
  pose proof (ho_ring _ _ _ Hok) as Hs. pose proof (ho_apart _ _ _ Hok) as Ha.
  apply seg_app in Hs as (HsC & Eq' & Eq & HsD).
  apply apart_app in Ha as (_ & (Hy & HyD & _ & HtD & _) & HCq).
  pose proof (ho_brk _ _ _ Hok) as He. cbn in He.
  assert (Hin : (q, t) ∈ R) by set_solver.
  pose proof (ring_size _ R L q t Hok Hin) as Hq.
  destruct (ho_size _ _ _ Hok q t Hin) as [?|(_ & ? & Hhi)]; [lia|]. cbn in Hhi.
  split_and!; [done..|apply (HyD q t); left|done|lia|lia| |exact HtD|].
  - intros a u Hau. split; [|apply (HCq a u q' y Hau); left].
    apply (ring_size _ R L a u Hok). set_solver.
  - intros b u Hb. split; intros ->;
      [apply (live_not_free _ R L q' u y Hok Hb)|apply (live_not_free _ R L q u t Hok Hb)]; set_solver.
Qed.

(** The block is taken as a whole. *)
Lemma carve_exact : exists s',
  carve t q' q (mkHeap m f e) = Ok (q + sizeof_header) s' /\ u_brk s' = e /\ L !! q = None /\
  heap_ok s' (C ++ (q', y) :: D) (<[q := t]> L).
Proof.
  destruct carve_facts as (HsC & Eq' & Eq & HsD & Hy & Hqq & Hlo & Hhi & HC & HD & HL).
  exists (mkHeap (<[q' := mkH (first D base) y]> m) q' e). split; [|split; [done|]].
  { unfold carve. rewrite (bind_Ok _ _ _ _ _ (hget_run q _ (mkHeap m f e) Eq)). cbn [h_size h_ptr].
    rewrite Z.eqb_refl, bind_bind, (bind_Ok _ _ _ _ _ (hset_run _ _ _ _ _)), Eq'. reflexivity. }
  pose proof (ho_apart _ _ _ Hok) as Ha. apply apart_app in Ha as (HaC & (_ & HyD & _ & _ & HaD) & HCq).
  eapply (take_ok (mkHeap m f e) R L _ _ q t q t); cbn [u_mem u_freep u_brk]; try done; try lia.
  - destruct (ho_head _ _ _ Hok) as [F HF]. destruct C; simplify_eq/=; eauto.
  - apply seg_app. split; [|split; [apply lookup_insert_eq|]]; apply seg_insert; try done.
    + intros u [? ?]%HC. lia.
    + intros u ?%HD. lia.
  - apply apart_app. split_and!; [done|split_and!; [done| |done]|].
    + intros b u Hb. apply (HyD b u). by right.
    + intros a u b v Hau Hb. apply (HCq a u b v Hau). set_solver.
  - exists y. set_solver.
  - intros b u Hb. exists u. assert (Hb' : (b, u) ∈ R) by set_solver.
    split_and!; [done|lia|]. pose proof (ho_size _ _ _ Hok b u Hb'). tauto.
  - set_solver.
  - intros b u [Hb|[[= -> ->]|Hb]%elem_of_cons]%elem_of_app; [left|left|right].
    + apply HC in Hb. lia.
    + lia.
    + apply HD in Hb. lia.
  - rewrite lookup_insert_ne by lia. exact Eq.
  - intros b u [? ?]%HL. by rewrite lookup_insert_ne.
Qed.

(** The upper part of the block is taken. *)
Lemma carve_part nu : 1 <= nu < t -> exists s',
  carve nu q' q (mkHeap m f e) = Ok (q + 8 * (t - nu) + sizeof_header) s' /\ u_brk s' = e /\
  L !! (q + 8 * (t - nu)) = None /\
  heap_ok s' (C ++ (q', y) :: (q, t - nu) :: D) (<[q + 8 * (t - nu) := nu]> L).
Proof.
  intros Hnu. destruct carve_facts as (HsC & Eq' & Eq & HsD & Hy & Hqq & Hlo & Hhi & HC & HD & HL).
  set (a := q + 8 * (t - nu)).
  set (m1 := <[q := mkH (first D base) (t - nu)]> m).
  exists (mkHeap (<[a := (default (mkH 0 0) (m1 !! a)) <| h_size := nu |>]> m1) q' e). split; [|split; [done|]].
  { unfold carve. rewrite (bind_Ok _ _ _ _ _ (hget_run q _ (mkHeap m f e) Eq)). cbn [h_size h_ptr].
    replace (t =? nu) with false by lia.
    rewrite bind_bind, (bind_Ok _ _ _ _ _ (hset_run _ _ _ _ _)), Eq. rewrite u32_small by lia.
    cbv zeta. rewrite bind_bind, (bind_Ok _ _ _ _ _ (hset_run _ _ _ _ _)). reflexivity. }
  pose proof (ho_apart _ _ _ Hok) as Ha. apply apart_app in Ha as (HaC & (_ & HyD & _ & _ & HaD) & HCq).
  assert (HaR : a <> q /\ a + 8 * nu = q + 8 * t /\ q < a) by lia.
  eapply (take_ok (mkHeap m f e) R L _ _ a nu q t); cbn [u_mem u_freep u_brk]; try done; try lia.
  - destruct (ho_head _ _ _ Hok) as [F HF]. destruct C; simplify_eq/=; eauto.
  - apply seg_insert.
    { intros u [[Hb1 Hb2]%HC|[Hb|[Hb|Hb%HD]%elem_of_cons]%elem_of_cons]%elem_of_app; simplify_eq; lia. }
    apply seg_app. cbn [first]. split; [|split; [|split]].
    + apply seg_insert; [|done]. intros u [? ?]%HC. lia.
    + unfold m1. rewrite lookup_insert_ne by lia. exact Eq'.
    + apply lookup_insert_eq.
    + apply seg_insert; [|done]. intros u ?%HD. lia.
  - apply apart_app. split; [done|split; [split; [done|split; [|split; [lia|split; [|done]]]]|]].
    + intros b u [[= -> ->]|Hb]%elem_of_cons; [lia|]. apply (HyD b u). by right.
    + intros b u ?%HD. lia.
    + intros c u b v Hau [[= -> ->]|[[= -> ->]|Hb]%elem_of_cons]%elem_of_cons.
      * apply (HCq c u q' y Hau). left.
      * apply (HCq c u q t Hau). set_solver.
      * apply (HCq c u b v Hau). set_solver.
  - exists y. set_solver.
  - intros b u [Hb|[Hb|[[= -> ->]|Hb]%elem_of_cons]%elem_of_cons]%elem_of_app; [exists u..|exists t|exists u].
    1,2,4: assert (Hb' : (b, u) ∈ R) by set_solver; split_and!; [done|lia|];
      pose proof (ho_size _ _ _ Hok b u Hb'); tauto.
    split_and!; [set_solver|lia..].
  - set_solver.
  - intros b u [Hb|[[= -> ->]|[[= -> ->]|Hb]%elem_of_cons]%elem_of_cons]%elem_of_app; [left|left|left|right].
    + apply HC in Hb. lia.
    + lia.
    + lia.
    + apply HD in Hb. lia.
  - apply lookup_insert_eq.
  - intros b u Hb. destruct (HL b u Hb). rewrite lookup_insert_ne; [by unfold m1; rewrite lookup_insert_ne|].
    intros <-. destruct (ho_live _ _ _ Hok _ _ Hb) as (? & _).
    destruct (ho_free_live _ _ _ Hok q t a u ltac:(set_solver) Hb); lia.
Qed.
End carving.

Lemma carve_ok s R L q' y q t nu :
  heap_ok s R L -> (q', y) ∈ R -> u_mem s !! q' = Some (mkH q y) -> (q, t) ∈ R -> 1 <= nu <= t ->
  exists a s' R', carve nu q' q s = Ok (a + sizeof_header) s' /\ L !! a = None /\
    heap_ok s' R' (<[a := nu]> L) /\ u_brk s' = u_brk s /\
    (forall x, covers R' (<[a := nu]> L) x <-> covers R L x).
Proof.
  intros Hok Hq' E Hq Hnu.
  destruct (ring_split s R L q' y q t Hok Hq' E Hq) as (C & D & -> & _); [lia|].
  destruct s as [m f e]. destruct (decide (nu = t)) as [->|Hne].
  - destruct (carve_exact m f e L C D q' y q t Hok) as (s' & Hr & He & HL & Hok'); [lia|].
    exists q, s', (C ++ (q', y) :: D). split_and!; [done..|].
    apply covers_insert; [done|]. intros x. rewrite !inside_app, !inside_cons. tauto.
  - destruct (carve_part m f e L C D q' y q t Hok) with (nu := nu) as (s' & Hr & He & HL & Hok'); [lia..|].
    exists (q + 8 * (t - nu)), s', (C ++ (q', y) :: (q, t - nu) :: D). split_and!; [done..|].
    apply covers_insert; [done|]. intros x. rewrite !inside_app, !inside_cons.
    assert (q <= x < q + 8 * t <-> q <= x < q + 8 * (t - nu) \/ q + 8 * (t - nu) <= x < q + 8 * (t - nu) + 8 * nu) by lia.
    tauto.
Qed.

Context (sbrk : Z -> M heap Z).
#[local] Abbreviation morecore := (morecore sbrk).
#[local] Abbreviation malloc_loop := (malloc_loop sbrk).
#[local] Abbreviation malloc := (malloc base sbrk).

(** [sbrk] with a number that is not negative: refused, or the old end of a memory
    that stays below the kernel's half. *)
Definition sbrk_grows : Prop := forall n s, 0 <= n ->
  sbrk n s = Ok (-1) s \/ (sbrk n s = Ok (u_brk s) (s <| u_brk := u_brk s + n |>) /\ u_brk s + n < 2 ^ 31).



Hypothesis Hsbrk : sbrk_grows.

(** The heap grown by a block that counts as in use until [free] links it. *)
Lemma grow_ok s R L n : heap_ok s R L -> 1 <= n -> u_brk s + 8 * n < 2 ^ 31 ->
  heap_ok (mkHeap (<[u_brk s := (default (mkH 0 0) (u_mem s !! u_brk s)) <| h_size := n |>]> (u_mem s))
             (u_freep s) (u_brk s + 8 * n)) R (<[u_brk s := n]> L).
Proof.
  intros Hok Hn Hlim. pose proof (ho_brk _ _ _ Hok) as Hb.
  assert (HR : forall a t, (a, t) ∈ R -> a + 8 * t <= u_brk s /\ a <> u_brk s).
  { intros a t Hin. pose proof (ring_size s R L a t Hok Hin).
    destruct (ho_size _ _ _ Hok a t Hin) as [->|]; lia. }
  split; cbn [u_mem u_freep u_brk].
  - apply (ho_head _ _ _ Hok).
  - lia.
  - apply seg_insert; [|apply (ho_ring _ _ _ Hok)]. intros t Ht%HR. lia.
  - apply (ho_apart _ _ _ Hok).
  - apply (ho_freep _ _ _ Hok).
  - intros a t Hin. destruct (ho_size _ _ _ Hok a t Hin); [by left|right; lia].
  - intros a t [[<- <-]|[Hne Ha]]%lookup_insert_Some.
    + split_and!; [lia..|]. eexists. by rewrite lookup_insert_eq.
    + destruct (ho_live _ _ _ Hok a t Ha) as (? & ? & ? & x & Ex). split_and!; [lia..|].
      exists x. by rewrite lookup_insert_ne.
  - intros a t b k Hin [[<- <-]|[Hne Hb']]%lookup_insert_Some; [apply HR in Hin; lia|].
    exact (ho_free_live _ _ _ Hok a t b k Hin Hb').
  - intros a t b k [[<- <-]|[Hne Ha]]%lookup_insert_Some [[<- <-]|[Hne' Hb']]%lookup_insert_Some.
    + by left.
    + destruct (ho_live _ _ _ Hok b k Hb') as (? & ? & ? & _). lia.
    + destruct (ho_live _ _ _ Hok a t Ha) as (? & ? & ? & _). lia.
    + exact (ho_live_live _ _ _ Hok a t b k Ha Hb').
Qed.

Lemma morecore_ok s R L nu : heap_ok s R L -> 1 <= nu -> 8 * nu < 2 ^ 31 ->
  (morecore nu s = Ok 0 s /\ exists n, nu <= n /\ sbrk (8 * n) s = Ok (-1) s) \/
  exists s' R' n, morecore nu s = Ok (u_freep s') s' /\ heap_ok s' R' L /\
    u_brk s' = u_brk s + 8 * n /\ 1 <= n /\
    (forall x, covers R' L x <-> covers R L x \/ u_brk s <= x < u_brk s') /\
    exists a t, (a, t) ∈ R' /\ nu <= t.
Proof.
  intros Hok Hnu Hlim. unfold morecore, Umalloc.morecore.
  set (n := if nu <? 4096 then 4096 else nu). cbv zeta.
  assert (Hn : nu <= n /\ 1 <= n /\ 8 * n < 2 ^ 31) by (unfold n; destruct (Z.ltb_spec nu 4096); lia).
  assert (Hsz : i32 (u32 (n * sizeof_header)) = 8 * n).
  { unfold sizeof_header. rewrite u32_small, i32_small by lia. lia. }
  rewrite Hsz. destruct (Hsbrk (8 * n) s) as [Hr|[Hr Hle]]; [lia|left|right].
  { split; [by rewrite (bind_Ok _ _ _ _ _ Hr)|]. exists n. split; [lia|done]. }
  pose proof (ho_brk _ _ _ Hok). rewrite (bind_Ok _ _ _ _ _ Hr).
  replace (u_brk s =? -1) with false by lia.
  assert (HL : L !! u_brk s = None).
  { destruct (L !! u_brk s) as [u|] eqn:E; [|done]. destruct (ho_live _ _ _ Hok _ _ E). lia. }
  pose proof (grow_ok s R L n Hok ltac:(lia) ltac:(lia)) as Hok1.
  destruct (free_ok _ _ _ (u_brk s) n Hok1) as (s' & R' & Hf & Hok' & Hbrk' & Hcov & a & t & Hat & Hnt);
    [apply lookup_insert_eq|].
  rewrite delete_insert_id in Hok', Hcov by done. cbn [u_brk] in Hbrk'.
  exists s', R', n. split_and!; [|done|done|lia| |exists a, t; split; [done|lia]].
  - destruct s as [m f e]. cbn [u_brk u_mem u_freep] in *.
    change ((mkHeap m f e) <| u_brk := e + 8 * n |>) with (mkHeap m f (e + 8 * n)).
    rewrite (bind_Ok _ _ _ _ _ (hset_run _ _ _ _ _)), (bind_Ok _ _ _ _ _ Hf). done.
  - intros x. rewrite Hcov, Hbrk'. unfold covers. split.
    + intros [?|(b & u & [[<- <-]|[? ?]]%lookup_insert_Some & ?)]; eauto 6.
    + intros [[?|(b & u & Hb & ?)]|?]; [by left|right..].
      * exists b, u. rewrite lookup_insert_ne by (intros <-; congruence). done.
      * exists (u_brk s), n. by rewrite lookup_insert_eq.
Qed.

Lemma malloc_find_ok s R L nu p y : heap_ok s R L -> u_mem s !! u_freep s = Some (mkH p y) ->
  (exists q' y' q t, malloc_find (S (size (u_mem s))) nu (u_freep s) p s = Ok (Some (q', q)) s /\
     (q, t) ∈ R /\ nu <= t /\ (q', y') ∈ R /\ u_mem s !! q' = Some (mkH q y')) \/
  (malloc_find (S (size (u_mem s))) nu (u_freep s) p s = Ok None s /\ forall a t, (a, t) ∈ R -> t < nu).
Proof.
  intros Hok E. destruct (ring_from s R L Hok) as (W & n & Hs & Ef & Hni & HR & Hlen).
  rewrite Ef in E. injection E as <- <-.
  destruct (malloc_find_run s nu R (first W (u_freep s)) n W (S (size (u_mem s))) (u_freep s)
              (first W (u_freep s)) n Hs Ef Hni eq_refl) as [(q' & y' & q & t & Hr & Hq & ?)|[Hr Hq]];
    [lia|intros a t Hat; apply HR; set_solver|apply HR; set_solver|exact Ef| |].
  - left. exists q', y', q, t. split_and!; [done|by apply HR|tauto..].
  - right. split; [done|]. intros a t Hat. apply (Hq a t). by apply HR.
Qed.

Lemma malloc_loop_found s R L nu p y fuel a t :
  heap_ok s R L -> u_mem s !! u_freep s = Some (mkH p y) -> 1 <= nu -> (a, t) ∈ R -> nu <= t ->
  exists b s' R', malloc_loop (S fuel) nu (u_freep s) p s = Ok (b + sizeof_header) s' /\ L !! b = None /\
    heap_ok s' R' (<[b := nu]> L) /\ u_brk s' = u_brk s /\
    (forall x, covers R' (<[b := nu]> L) x <-> covers R L x).
Proof.
  intros Hok E Hnu Hat Ht.
  destruct (malloc_find_ok s R L nu p y Hok E) as [(q' & y' & q & u & Hr & Hq & Hu & Hq' & Eq')|[_ Hno]].
  - destruct (carve_ok s R L q' y' q u nu Hok Hq' Eq' Hq) as (b & s' & R' & Hc & H); [lia|].
    exists b, s', R'. split; [|exact H]. cbn [Umalloc.malloc_loop]. mstep.
    by rewrite (bind_Ok _ _ _ _ _ Hr).
  - apply Hno in Hat. lia.
Qed.

Definition grown (R : list (Z * Z)) L s R' L' s' : Prop :=
  forall x, covers R' L' x <-> covers R L x \/ u_brk s <= x < u_brk s'.

Lemma malloc_loop_ok s R L nu p y :
  heap_ok s R L -> u_mem s !! u_freep s = Some (mkH p y) -> 1 <= nu -> 8 * nu < 2 ^ 31 ->
  (malloc_loop 2 nu (u_freep s) p s = Ok 0 s /\
     (forall a t, (a, t) ∈ R -> t < nu) /\ exists n, nu <= n /\ sbrk (8 * n) s = Ok (-1) s) \/
  exists b s' R', malloc_loop 2 nu (u_freep s) p s = Ok (b + sizeof_header) s' /\ L !! b = None /\
    heap_ok s' R' (<[b := nu]> L) /\ grown R L s R' (<[b := nu]> L) s'.
Proof.
  intros Hok E Hnu Hlim. unfold grown.
  destruct (malloc_find_ok s R L nu p y Hok E) as [(q' & y' & q & u & _ & Hq & Hu & _)|[Hr Hno]].
  - right. destruct (malloc_loop_found s R L nu p y 1 q u Hok E Hnu Hq Hu) as (b & s' & R' & H1 & H2 & H3 & H4 & H5).
    exists b, s', R'. split_and!; [done..|]. intros x. rewrite H5, H4. split; [tauto|]. intros [?|?]; [done|lia].
  - assert (Hl : forall k, malloc_loop (S k) nu (u_freep s) p s =
        bind (morecore nu) (fun p => if p =? 0 then ret 0 else h <- hget p ;; malloc_loop k nu p (h_ptr h)) s).
    { intros k. cbn [Umalloc.malloc_loop]. mstep. by rewrite (bind_Ok _ _ _ _ _ Hr). }
    rewrite Hl. destruct (morecore_ok s R L nu Hok Hnu Hlim)
      as [[Hm Hs]|(s1 & R1 & n & Hm & Hok1 & Hb & Hn & Hc & a & t & Hat & Ht)]; [left|right].
    { by rewrite (bind_Ok _ _ _ _ _ Hm). }
    rewrite (bind_Ok _ _ _ _ _ Hm). destruct (ho_freep _ _ _ Hok1) as [k Hk].
    destruct (ring_size _ _ _ _ _ Hok1 Hk) as (Hf0 & _). replace (u_freep s1 =? 0) with false by lia.
    destruct (seg_lookup _ _ _ _ _ (ho_ring _ _ _ Hok1) Hk) as [p1 E1].
    rewrite (bind_Ok _ _ _ _ _ (hget_run _ _ s1 E1)). cbn [h_ptr].
    destruct (malloc_loop_found s1 R1 L nu p1 k 0 a t Hok1 E1 Hnu Hat Ht) as (b & s' & R' & H1 & H2 & H3 & H4 & H5).
    exists b, s', R'. split_and!; [done..|]. intros x. by rewrite H5, H4, Hc.
Qed.

(** A heap that is in order, or that no call has touched. *)
Definition heap_inv (s : heap) (R : list (Z * Z)) (L : gmap Z Z) : Prop :=
  heap_ok s R L \/ (u_freep s = 0 /\ R = [(base, 0)] /\ L = ∅ /\ base + 8 <= u_brk s < 2 ^ 31).

Lemma units_enough nbytes : 0 <= nbytes < 2 ^ 31 - 16 ->
  1 <= units nbytes /\ 8 * units nbytes < 2 ^ 31 /\ nbytes <= 8 * (units nbytes - 1).
Proof. intros H. unfold units, sizeof_header. rewrite u32_small by lia. Z.div_mod_to_equations. lia. Qed.

Lemma malloc_ok s R L nbytes : heap_inv s R L -> 0 <= nbytes < 2 ^ 31 - 16 ->
  (exists s', malloc nbytes s = Ok 0 s' /\ heap_ok s' R L /\
     (forall a t, (a, t) ∈ R -> t < units nbytes) /\ exists n, units nbytes <= n /\ sbrk (8 * n) s' = Ok (-1) s') \/
  exists b s' R', malloc nbytes s = Ok (b + sizeof_header) s' /\ L !! b = None /\
    heap_ok s' R' (<[b := units nbytes]> L) /\ grown R L s R' (<[b := units nbytes]> L) s'.
Proof.
  intros Hinv Hnb. destruct (units_enough nbytes Hnb) as (Hu & Hlim & _).
  assert (Hs0 : exists s0, heap_ok s0 R L /\ u_brk s0 = u_brk s /\
    malloc nbytes s = bind (hget (u_freep s0)) (fun h => malloc_loop 2 (units nbytes) (u_freep s0) (h_ptr h)) s0).
  { destruct Hinv as [Hok|(Hf & -> & -> & Hb)].
    - exists s. split_and!; [done..|]. unfold malloc, Umalloc.malloc. mstep.
      destruct (ho_freep _ _ _ Hok) as [k Hk]. destruct (ring_size _ _ _ _ _ Hok Hk) as (? & _).
      replace (u_freep s =? 0) with false by lia. reflexivity.
    - destruct s as [m f e]. cbn in Hf, Hb. subst f.
      exists (mkHeap (<[base := mkH base 0]> m) base e). split_and!; [|done|].
      + split; cbn; [eauto|done|by rewrite lookup_insert_eq| |exists 0; set_solver|set_solver..].
        split_and!; [lia|set_solver|done].
      + unfold malloc, Umalloc.malloc. mstep. rewrite (bind_Ok _ _ _ _ _ (hset_run _ _ _ _ _)).
        rewrite bind_bind, (bind_Ok _ _ _ _ _ (freep_run _ _ _ _)), (bind_Ok _ _ _ _ _ (hset_run _ _ _ _ _)).
        rewrite lookup_insert_eq, insert_insert_eq. reflexivity. }
  destruct Hs0 as (s0 & Hok & Hb & ->). destruct (ho_freep _ _ _ Hok) as [k Hk].
  destruct (seg_lookup _ _ _ _ _ (ho_ring _ _ _ Hok) Hk) as [p E].
  rewrite (bind_Ok _ _ _ _ _ (hget_run _ _ s0 E)). cbn [h_ptr].
  destruct (malloc_loop_ok s0 R L _ p k Hok E Hu Hlim) as [(? & ?)|(b & s' & R' & ? & ? & ? & Hg)]; [left; eauto|].
  right. exists b, s', R'. split_and!; [done..|]. unfold grown in *. by rewrite <- Hb.
Qed.

(** C12: the allocator keeps its heap.  On a heap whose free blocks [R] form the ring
    and whose blocks in use are [L]: [malloc] ends, and returns null only when no
    free block is large enough and [sbrk] refuses, or else a block of at least
    [nbytes] bytes that was not in use and is disjoint from every other block; [free] of
    a block in use ends, and every byte of the heap stays in a free block or in a
    block in use. *)
Theorem allocator_correct s R L : heap_inv s R L ->
  (forall nbytes, 0 <= nbytes < 2 ^ 31 - 16 ->
     (exists s', malloc nbytes s = Ok 0 s' /\ heap_inv s' R L /\
        (forall a t, (a, t) ∈ R -> t < units nbytes) /\
        exists n, units nbytes <= n /\ sbrk (8 * n) s' = Ok (-1) s') \/
     (exists b s' R', malloc nbytes s = Ok (b + sizeof_header) s' /\ L !! b = None /\
        nbytes <= 8 * (units nbytes - 1) /\ heap_inv s' R' (<[b := units nbytes]> L) /\
        grown R L s R' (<[b := units nbytes]> L) s')) /\
  (forall b n, L !! b = Some n ->
     exists s' R', free (b + sizeof_header) s = Ok tt s' /\ heap_inv s' R' (delete b L) /\
       u_brk s' = u_brk s /\ forall x, covers R' (delete b L) x <-> covers R L x).
Proof.
  intros Hinv. split.
  - intros nbytes Hnb. destruct (units_enough nbytes Hnb) as (_ & _ & Hn).
    destruct (malloc_ok s R L nbytes Hinv Hnb) as [(s' & ? & ? & ?)|(b & s' & R' & ? & ? & ? & ?)].
    + left. exists s'. split_and!; [done|by left|tauto..].
    + right. exists b, s', R'. split_and!; [done..|by left|done].
  - intros b n Hb. destruct Hinv as [Hok|(_ & _ & -> & _)]; [|by rewrite lookup_empty in Hb].
    destruct (free_ok s R L b n Hok Hb) as (s' & R' & ? & ? & ? & ? & _).
    exists s', R'. split_and!; [done|by left|done..].
Qed.
End correct.

(** A process that grows up to the kernel's half. *)
Definition sbrk_below (n : Z) : M heap Z :=
  b <- gets u_brk ;;
  if (0 <=? n) && (b + n <? 2 ^ 31) then modify (fun s => s <| u_brk := b + n |>) ;; ret b else ret (-1).

Lemma sbrk_below_grows : sbrk_grows sbrk_below.
Proof.
  intros n s Hn. unfold sbrk_below. mstep. replace (0 <=? n) with true by lia. cbn [andb].
  destruct (Z.ltb_spec (u_brk s + n) (2 ^ 31)); [right; by split|by left].
Qed.

Lemma allocator_correct_witness :
  exists b s' R', malloc 64 sbrk_below 100 (mkHeap ∅ 0 4096) = Ok (b + sizeof_header) s' /\
    heap_inv 64 s' R' (<[b := units 100]> ∅).
Proof.
  destruct (allocator_correct 64 ltac:(lia) sbrk_below sbrk_below_grows (mkHeap ∅ 0 4096) [(64, 0)] ∅
    ltac:(right; split_and!; [reflexivity..|simpl; lia|simpl; lia])) as [H _].
  assert (Hr : match malloc 64 sbrk_below 100 (mkHeap ∅ 0 4096) with Ok v _ => v =? 0 | _ => true end = false)
    by (vm_compute; reflexivity).
  destruct (H 100 ltac:(lia)) as [(s' & Hm & _)|(b & s' & R' & ? & _ & _ & ? & _)].
  - rewrite Hm in Hr. discriminate Hr.
  - exists b, s', R'. by split.
Defined.

(** A request close to 4 GiB wraps to a block of one unit, the header alone. *)
Example units_wrap : units (2 ^ 32 - 1) = 1.
Proof. reflexivity. Qed.

(** Blocks that are freed join again. *)
Example free_joins :
  match (a <- malloc 64 sbrk_below 100 ;; b <- malloc 64 sbrk_below 200 ;; c <- malloc 64 sbrk_below 300 ;;
         free a ;; free c ;; free b ;; ret tt) (mkHeap ∅ 0 4096) with
  | Ok _ s => u_mem s !! 64 = Some (mkH 4096 0) /\ u_mem s !! 4096 = Some (mkH 64 4096)
  | _ => False
  end.
Proof. vm_compute. by split. Qed.

End Umalloc.
