(* ===== verification/Pipes.v ===== *)
(** * Pipes (xv6-public/pipe.c)

    The ring buffer of [struct pipe] with its free-running 32-bit counters, and
    the routines that use it.  A routine holds [p->lock] except inside
    [sleep], so it is modelled as a function that runs from its start, or from
    the [sleep] it was woken in, to its return or its next [sleep].  The
    abstract view of a pipe is the queue of bytes written and not yet read; the
    theorems show that every interleaving of writers, readers and closes keeps
    that queue. *)

From S2P Require Import Prelude.

Module Pipe.

Definition PIPESIZE : Z := 512.

Record pipe := mkPipe {
  data : list Z;
  nread : Z;
  nwrite : Z;
  readopen : bool;
  writeopen : bool
}.
#[export] Instance eta_pipe : Eta pipe := fun r =>
  mkPipe (data r) (nread r) (nwrite r) (readopen r) (writeopen r).

(** What a pipe routine sees: the pipe, [myproc()->killed], the calls of
    [wakeup] made so far (newest first) and whether the page went back to
    [kfree]. *)
Record world := mkWorld {
  w_pipe : pipe;
  w_killed : bool;
  w_wakes : list channel;
  w_freed : bool
}.
#[export] Instance eta_world : Eta world := fun r =>
  mkWorld (w_pipe r) (w_killed r) (w_wakes r) (w_freed r).

Definition wakeup (c : channel) : M world unit :=
  modify (fun w => w <| w_wakes ::= cons c |>).

(** [p->nwrite == p->nread + PIPESIZE] and [p->nread == p->nwrite]. *)
Definition full (pp : pipe) : bool := nwrite pp =? u32 (nread pp + PIPESIZE).
Definition empty (pp : pipe) : bool := nread pp =? nwrite pp.

(** [p->data[p->nwrite++ % PIPESIZE] = b]. *)
Definition put_byte (b : Z) (pp : pipe) : pipe :=
  pp <| data ::= <[Z.to_nat (nwrite pp mod PIPESIZE) := b]> |>
     <| nwrite := u32 (nwrite pp + 1) |>.

(** [p->data[p->nread++ % PIPESIZE]]. *)
Definition cur_byte (pp : pipe) : option Z :=
  data pp !! Z.to_nat (nread pp mod PIPESIZE).
Definition skip_byte (pp : pipe) : pipe := pp <| nread := u32 (nread pp + 1) |>.

(** The page fresh from [kalloc], as [pipealloc] leaves it. *)
Definition pipe_init (page : list Z) : pipe :=
  {| data := page; nread := 0; nwrite := 0; readopen := true; writeopen := true |}.

Definition pipeclose (p : Z) (writable : bool) : M world unit :=
  (if writable then
     modify (fun w => w <| w_pipe ::= fun pp => pp <| writeopen := false |> |>) ;;
     wakeup (ChNread p)
   else
     modify (fun w => w <| w_pipe ::= fun pp => pp <| readopen := false |> |>) ;;
     wakeup (ChNwrite p)) ;;
  pp <- gets w_pipe ;;
  when (negb (readopen pp) && negb (writeopen pp))
    (modify (fun w => w <| w_freed := true |>)).

(** A writer returned [r], or sleeps on [&p->nwrite] with the bytes [rest]
    still to write. *)
Inductive wres := WDone (r : Z) | WSleep (rest : list Z).

(** [bytes] is [addr[i..n)]. *)
Fixpoint pipewrite_from (p n : Z) (bytes : list Z) : M world wres :=
  match bytes with
  | [] => wakeup (ChNread p) ;; ret (WDone n)
  | b :: rest =>
      pp <- gets w_pipe ;;
      if full pp then
        killed <- gets w_killed ;;
        if negb (readopen pp) || killed then ret (WDone (-1))
        else wakeup (ChNread p) ;; ret (WSleep bytes)
      else
        modify (fun w => w <| w_pipe ::= put_byte b |>) ;;
        pipewrite_from p n rest
  end.

Definition pipewrite (p : Z) (addr : list Z) (n : Z) : M world wres :=
  pipewrite_from p n (take (Z.to_nat n) addr).

(** A reader returned [r] having stored [bytes] at [addr], or sleeps on
    [&p->nread]. *)
Inductive rres := RDone (r : Z) (bytes : list Z) | RSleep.

(** The copy loop: at most [k] more bytes. *)
Fixpoint piperead_copy (k : nat) : M world (list Z) :=
  match k with
  | O => ret []
  | S k' =>
      pp <- gets w_pipe ;;
      if empty pp then ret []
      else
        b <- deref (cur_byte pp) ;;
        modify (fun w => w <| w_pipe ::= skip_byte |>) ;;
        bs <- piperead_copy k' ;;
        ret (b :: bs)
  end.

Definition piperead (p n : Z) : M world rres :=
  pp <- gets w_pipe ;;
  if empty pp && writeopen pp then
    killed <- gets w_killed ;;
    if killed : bool then ret (RDone (-1) []) else ret RSleep
  else
    bs <- piperead_copy (Z.to_nat n) ;;
    wakeup (ChNwrite p) ;;
    ret (RDone (Z.of_nat (length bs)) bs).

(** ** The abstract queue *)

Definition count (pp : pipe) : Z := u32 (nwrite pp - nread pp).

(** Byte [k] of the queue, counted from the reader's end. *)
Definition slot (pp : pipe) (k : Z) : Z :=
  default 0 (data pp !! Z.to_nat ((nread pp + k) mod PIPESIZE)).

Definition contents (pp : pipe) : list Z := slot pp <$> seqZ 0 (count pp).

Definition pipe_inv (pp : pipe) : Prop :=
  length (data pp) = Z.to_nat PIPESIZE /\
  0 <= nread pp < 2 ^ 32 /\ 0 <= nwrite pp < 2 ^ 32 /\
  count pp <= PIPESIZE.

(** The bytes a writer's run moved into the pipe. *)
Definition moved (bytes : list Z) (r : wres) (s s' : world) : list Z :=
  take (Z.to_nat (count (w_pipe s') - count (w_pipe s))) bytes.

(** The runs of pipe routines, with the bytes sent and received so far. *)
Inductive step (p : Z) : world * list Z * list Z -> world * list Z * list Z -> Prop :=
  | step_write n bytes s s' r sent rcvd :
      pipewrite_from p n bytes s = Ok r s' ->
      step p (s, sent, rcvd) (s', sent ++ moved bytes r s s', rcvd)
  | step_read n s s' r bs sent rcvd :
      piperead p n s = Ok (RDone r bs) s' ->
      step p (s, sent, rcvd) (s', sent, rcvd ++ bs)
  | step_read_sleep n s s' sent rcvd :
      piperead p n s = Ok RSleep s' ->
      step p (s, sent, rcvd) (s', sent, rcvd)
  | step_close wr s s' sent rcvd :
      pipeclose p wr s = Ok tt s' ->
      step p (s, sent, rcvd) (s', sent, rcvd)
  | step_kill k s sent rcvd :
      step p (s, sent, rcvd) (s <| w_killed := k |>, sent, rcvd).

(** ** Lemmas *)

Lemma count_range pp : 0 <= count pp < 2 ^ 32.
Proof. apply u32_range. Qed.

Lemma count_eq pp : pipe_inv pp -> nwrite pp = u32 (nread pp + count pp).
Proof.
  intros (?&?&?&?). unfold count, u32. rewrite Zplus_mod_idemp_r.
  rewrite Z.mod_small; lia.
Qed.

Lemma full_spec pp : pipe_inv pp -> full pp = bool_decide (count pp = PIPESIZE).
Proof.
  intros Hinv. pose proof Hinv as (?&?&?&?). pose proof (count_range pp).
  unfold full. rewrite (count_eq pp) at 1 by done.
  case_bool_decide as Hc.
  - rewrite Hc. apply Z.eqb_refl.
  - apply Z.eqb_neq. intros Heq. apply Hc.
    apply u32_eq_near in Heq; unfold PIPESIZE in *; lia.
Qed.

Lemma empty_spec pp : pipe_inv pp -> empty pp = bool_decide (count pp = 0).
Proof.
  intros Hinv. pose proof Hinv as (?&?&?&?). pose proof (count_range pp).
  unfold empty. case_bool_decide as Hc.
  - apply Z.eqb_eq. rewrite (count_eq pp) by done.
    rewrite Hc, Z.add_0_r, u32_small; lia.
  - apply Z.eqb_neq. intros Heq. apply Hc. unfold count.
    rewrite Heq, Z.sub_diag. done.
Qed.

Lemma mod_PIPESIZE_u32 x : u32 x mod PIPESIZE = x mod PIPESIZE.
Proof.
  unfold u32, PIPESIZE. change (2 ^ 32) with (512 * 2 ^ 23).
  rewrite Z.rem_mul_r by lia. rewrite Z.mul_comm, Z_mod_plus_full, Z.mod_mod; lia.
Qed.

Lemma contents_nil pp : count pp = 0 -> contents pp = [].
Proof. intros H. unfold contents. by rewrite H. Qed.

Lemma length_contents pp : Z.of_nat (length (contents pp)) = count pp.
Proof.
  unfold contents. rewrite length_fmap, length_seqZ.
  pose proof (count_range pp). lia.
Qed.

Lemma put_byte_count b pp :
  pipe_inv pp -> full pp = false -> count (put_byte b pp) = count pp + 1.
Proof.
  intros Hinv Hf. rewrite full_spec in Hf by done. bool_hyps.
  pose proof Hinv as (?&?&?&?). pose proof (count_range pp).
  transitivity (u32 (u32 (nwrite pp + 1) - nread pp)); [done|].
  unfold u32 at 1. rewrite <- Zminus_mod_idemp_l.
  unfold u32. rewrite Z.mod_mod, Zminus_mod_idemp_l by lia.
  unfold count, u32 in *. replace (nwrite pp + 1 - nread pp)
    with ((nwrite pp - nread pp) + 1) by lia.
  rewrite <- Zplus_mod_idemp_l. rewrite Z.mod_small; unfold PIPESIZE in *; lia.
Qed.

Lemma put_byte_inv b pp :
  pipe_inv pp -> full pp = false -> pipe_inv (put_byte b pp).
Proof.
  intros Hinv Hf. pose proof (put_byte_count b pp Hinv Hf) as Hc.
  rewrite full_spec in Hf by done. bool_hyps.
  pose proof Hinv as (?&?&?&?). refine (conj _ (conj _ (conj _ _))).
  - transitivity (length (<[Z.to_nat (nwrite pp mod PIPESIZE) := b]> (data pp)));
      [done|]. by rewrite length_insert.
  - done.
  - apply u32_range.
  - unfold PIPESIZE in *. lia.
Qed.

Lemma put_byte_contents b pp :
  pipe_inv pp -> full pp = false ->
  contents (put_byte b pp) = contents pp ++ [b].
Proof.
  intros Hinv Hf. pose proof (put_byte_count b pp Hinv Hf) as Hc.
  rewrite full_spec in Hf by done. bool_hyps.
  pose proof Hinv as (?&?&?&?). pose proof (count_range pp).
  assert (Z.to_nat (nwrite pp mod PIPESIZE)
          = Z.to_nat ((nread pp + count pp) mod PIPESIZE)) as Hw.
  { by rewrite (count_eq pp) by done; rewrite mod_PIPESIZE_u32. }
  unfold contents. rewrite Hc, seqZ_app, fmap_app by lia. cbn. f_equal.
  - apply list_fmap_ext. intros i k Hk. apply lookup_seqZ in Hk as [-> ?].
    unfold slot, put_byte, upd; cbn. rewrite Hw, list_lookup_insert_ne; [done|].
    intros Heq. apply Z2Nat.inj in Heq;
      [|unfold PIPESIZE; apply Z.mod_pos_bound; lia..].
    unfold PIPESIZE in *.
    assert ((count pp - Z.of_nat i) mod 512 = 0) as Hd.
    { replace (count pp - Z.of_nat i)
        with ((nread pp + count pp) - (nread pp + (0 + Z.of_nat i))) by lia.
      by rewrite Zminus_mod, Heq, Z.sub_diag. }
    rewrite Z.mod_small in Hd; lia.
  - rewrite Z.add_0_l. change (seqZ (count pp) 1) with [0 + count pp].
    rewrite Z.add_0_l. cbn. f_equal.
    unfold slot, put_byte, upd; cbn. rewrite Hw, list_lookup_insert_eq; [done|].
    unfold PIPESIZE in *. pose proof (Z.mod_pos_bound (nread pp + count pp) 512). lia.
Qed.

Lemma skip_byte_spec pp :
  pipe_inv pp -> empty pp = false ->
  pipe_inv (skip_byte pp) /\ count (skip_byte pp) = count pp - 1 /\
  exists b, cur_byte pp = Some b /\ contents pp = b :: contents (skip_byte pp).
Proof.
  intros Hinv He. rewrite empty_spec in He by done. bool_hyps.
  pose proof Hinv as (Hlen&?&?&?). pose proof (count_range pp).
  assert (count (skip_byte pp) = count pp - 1) as Hc.
  { transitivity (u32 (nwrite pp - u32 (nread pp + 1))); [done|].
    unfold count, u32 in *. rewrite Zminus_mod_idemp_r.
    replace (nwrite pp - (nread pp + 1)) with ((nwrite pp - nread pp) - 1) by lia.
    rewrite <- Zminus_mod_idemp_l. rewrite Z.mod_small; lia. }
  refine (conj _ (conj Hc _)).
  - refine (conj Hlen (conj (u32_range _) (conj _ _))); [done|lia].
  - pose proof (Z.mod_pos_bound (nread pp) PIPESIZE ltac:(done)).
    destruct (lookup_lt_is_Some_2 (data pp) (Z.to_nat (nread pp mod PIPESIZE)))
      as [b Hb]; [unfold PIPESIZE in *; lia|].
    exists b. split; [done|]. unfold contents.
    rewrite Hc, <- (Z.succ_pred (count pp)) at 1. rewrite seqZ_cons by lia.
    cbn. f_equal.
    + unfold slot. by rewrite Z.add_0_r, Hb.
    + replace (Z.pred (Z.succ (Z.pred (count pp)))) with (count pp - 1) by lia.
      rewrite <- (fmap_add_seqZ 1 0), <- list_fmap_compose.
      apply list_fmap_ext. intros i k _. unfold slot; cbn.
      change (nread (skip_byte pp)) with (u32 (nread pp + 1)).
      rewrite <- (mod_PIPESIZE_u32 (u32 _ + _)), u32_add_l, mod_PIPESIZE_u32.
      by rewrite Z.add_assoc.
Qed.

(** What is left alone by every pipe routine but [pipeclose]. *)
Definition same_ends (s s' : world) : Prop :=
  readopen (w_pipe s') = readopen (w_pipe s) /\
  writeopen (w_pipe s') = writeopen (w_pipe s) /\
  w_killed s' = w_killed s /\ w_freed s' = w_freed s.

(** A writer's run: it always returns or sleeps; it moves a prefix of its
    bytes; it gives up or sleeps only on a full pipe. *)
Definition write_post (p n : Z) (s : world) (w rest : list Z) (r : wres) (s' : world)
  : Prop :=
  pipe_inv (w_pipe s') /\ same_ends s s' /\
  contents (w_pipe s') = contents (w_pipe s) ++ w /\
  match r with
  | WDone v =>
      v = n /\ rest = [] \/
      v = -1 /\ rest <> [] /\ count (w_pipe s') = PIPESIZE /\
      (readopen (w_pipe s') = false \/ w_killed s' = true)
  | WSleep l =>
      l = rest /\ rest <> [] /\ count (w_pipe s') = PIPESIZE /\
      readopen (w_pipe s') = true /\ w_killed s' = false /\
      head (w_wakes s') = Some (ChNread p)
  end.

Lemma pipewrite_from_run p n bytes s :
  pipe_inv (w_pipe s) ->
  exists r s' w rest,
    pipewrite_from p n bytes s = Ok r s' /\ bytes = w ++ rest /\
    write_post p n s w rest r s'.
Proof.
  revert s. induction bytes as [|b bytes IH]; intros s Hinv.
  { eexists _, _, [], []. split; [reflexivity|]. split; [done|].
    split; [done|]. split; [done|]. split; [by rewrite app_nil_r|]. auto. }
  cbn [pipewrite_from]. mstep.
  destruct (full (w_pipe s)) eqn:Hf.
  - pose proof Hf as Hc. rewrite full_spec in Hc by done. bool_hyps.
    mstep.
    destruct (negb (readopen (w_pipe s)) || w_killed s) eqn:Hk.
    + eexists _, _, [], (b :: bytes). split; [reflexivity|]. split; [done|].
      split; [done|]. split; [done|]. split; [by rewrite app_nil_r|].
      right. split_and!; try done.
      destruct (readopen (w_pipe s)); naive_solver.
    + bool_hyps. eexists _, _, [], (b :: bytes).
      split; [reflexivity|]. split; [done|].
      split; [done|]. split; [done|]. split; [by rewrite app_nil_r|].
      by split_and!.
  - mstep.
    set (s1 := s <| w_pipe ::= put_byte b |>).
    destruct (IH s1) as (r&s'&w&rest&Hrun&->&Hinv'&Hse&Hcont&Hr).
    { change (w_pipe s1) with (put_byte b (w_pipe s)). by apply put_byte_inv. }
    exists r, s', (b :: w), rest. split; [exact Hrun|]. split; [done|].
    split; [done|]. split; [exact Hse|]. split; [|done].
    rewrite Hcont. change (w_pipe s1) with (put_byte b (w_pipe s)).
    by rewrite put_byte_contents, <- app_assoc by done.
Qed.

Lemma piperead_copy_run k s :
  pipe_inv (w_pipe s) ->
  exists bs s',
    piperead_copy k s = Ok bs s' /\ pipe_inv (w_pipe s') /\ same_ends s s' /\
    contents (w_pipe s) = bs ++ contents (w_pipe s') /\
    length bs = (k `min` length (contents (w_pipe s)))%nat.
Proof.
  revert s. induction k as [|k IH]; intros s Hinv.
  { eexists [], s. by split_and!. }
  cbn [piperead_copy]. mstep.
  destruct (empty (w_pipe s)) eqn:He.
  - pose proof He as Hc. rewrite empty_spec in Hc by done. bool_hyps.
    eexists [], s. rewrite (contents_nil (w_pipe s)) by done. by split_and!.
  - destruct (skip_byte_spec (w_pipe s)) as (Hinv1&_&b&Hb&Hcont); [done..|].
    rewrite Hb. mstep.
    set (s1 := s <| w_pipe ::= skip_byte |>).
    destruct (IH s1) as (bs&s'&Hrun&Hinv'&Hse&Hcont'&Hlen); [done|].
    exists (b :: bs), s'. rewrite (bind_Ok _ _ _ _ _ Hrun).
    change (w_pipe s1) with (skip_byte (w_pipe s)) in *.
    split_and!; try done.
    + by rewrite Hcont, Hcont'.
    + rewrite Hcont. cbn. by rewrite Hlen.
Qed.

(** A reader's run: it takes bytes from the front of the queue, as many as it
    asked for or all there are; it sleeps only on an empty pipe with a writer,
    and a result of 0 for [n > 0] is the end of the stream. *)
Definition read_post (n : Z) (s : world) (r : rres) (s' : world) : Prop :=
  pipe_inv (w_pipe s') /\ same_ends s s' /\
  match r with
  | RDone v bs =>
      contents (w_pipe s) = bs ++ contents (w_pipe s') /\
      (v = -1 /\ bs = [] /\ w_killed s = true /\ writeopen (w_pipe s) = true /\
         contents (w_pipe s) = [] \/
       v = Z.min (Z.max n 0) (count (w_pipe s)) /\ v = Z.of_nat (length bs) /\
       (count (w_pipe s) = 0 -> writeopen (w_pipe s) = false))
  | RSleep =>
      s' = s /\ contents (w_pipe s) = [] /\
      writeopen (w_pipe s) = true /\ w_killed s = false
  end.

Lemma piperead_run p n s :
  pipe_inv (w_pipe s) ->
  exists r s', piperead p n s = Ok r s' /\ read_post n s r s'.
Proof.
  intros Hinv. unfold piperead, read_post. mstep.
  destruct (empty (w_pipe s) && writeopen (w_pipe s)) eqn:He.
  - bool_hyps. rewrite empty_spec in * by done. bool_hyps.
    mstep. rewrite (contents_nil (w_pipe s)) by done.
    destruct (w_killed s) eqn:Hk.
    + eexists _, s. split; [reflexivity|]. rewrite (contents_nil (w_pipe s)) by done.
      split_and!; try done. by left.
    + eexists _, s. split; [reflexivity|]. by split_and!.
  - destruct (piperead_copy_run (Z.to_nat n) s Hinv)
      as (bs&s1&Hrun&Hinv1&Hse&Hcont&Hlen).
    eexists _, _. rewrite (bind_Ok _ _ _ _ _ Hrun). split; [reflexivity|].
    split; [done|]. split; [done|]. split; [done|]. right.
    pose proof (length_contents (w_pipe s)). split_and!; [lia|done|].
    intros Hc. rewrite empty_spec in He by done.
    destruct (writeopen (w_pipe s)); [|done].
    by rewrite bool_decide_true in He.
Qed.

Lemma pipeclose_run p wr s :
  exists s', pipeclose p wr s = Ok tt s' /\
    contents (w_pipe s') = contents (w_pipe s) /\
    (pipe_inv (w_pipe s) -> pipe_inv (w_pipe s')).
Proof.
  unfold pipeclose, bind, when, modify, wakeup.
  destruct wr; cbn; case_match; eexists; (split; [reflexivity|done]).
Qed.

Definition fifo (c : world * list Z * list Z) : Prop :=
  let '(s, sent, rcvd) := c in
  pipe_inv (w_pipe s) /\ sent = rcvd ++ contents (w_pipe s).

Lemma moved_eq p n s w rest r s' :
  pipe_inv (w_pipe s) -> write_post p n s w rest r s' ->
  moved (w ++ rest) r s s' = w.
Proof.
  intros _ (_&_&Hc&_). unfold moved.
  pose proof (length_contents (w_pipe s)). pose proof (length_contents (w_pipe s')).
  rewrite Hc, length_app in *.
  replace (Z.to_nat (count (w_pipe s') - count (w_pipe s))) with (length w) by lia.
  apply take_app_length.
Qed.

Lemma step_fifo p c c' : step p c c' -> fifo c -> fifo c'.
Proof.
  intros Hstep. destruct Hstep as [n bytes s s' r sent rcvd Hrun
    | n s s' r bs sent rcvd Hrun | n s s' sent rcvd Hrun | wr s s' sent rcvd Hrun
    | k s sent rcvd]; intros [Hinv ->].
  - destruct (pipewrite_from_run p n bytes s Hinv)
      as (r0&s0&w&rest&Hrun'&->&Hpost).
    rewrite Hrun' in Hrun. injection Hrun as -> ->.
    rewrite (moved_eq p n) by done. destruct Hpost as (?&_&Hc&_).
    split; [done|]. by rewrite Hc, app_assoc.
  - destruct (piperead_run p n s Hinv) as (r0&s0&Hrun'&Hpost).
    rewrite Hrun' in Hrun. injection Hrun as -> ->.
    destruct Hpost as (?&_&Hc&_). split; [done|]. by rewrite Hc, app_assoc.
  - destruct (piperead_run p n s Hinv) as (r0&s0&Hrun'&Hpost).
    rewrite Hrun' in Hrun. injection Hrun as -> ->.
    destruct Hpost as (?&_&->&_). done.
  - destruct (pipeclose_run p wr s) as (s0&Hrun'&Hc&Hi).
    rewrite Hrun' in Hrun. injection Hrun as ->. split; [auto|]. by rewrite Hc.
  - done.
Qed.

Lemma pipe_init_fifo page k :
  length page = Z.to_nat PIPESIZE ->
  fifo (mkWorld (pipe_init page) k [] false, [], []).
Proof. intros H. split; [|done]. by split_and!. Qed.

(** ** Properties *)


Definition demo_page : list Z := replicate 512 0.
Definition demo_world : world := mkWorld (pipe_init demo_page) false [] false.


(** [piperead] always returns or sleeps.  It sleeps only on an empty pipe
    that still has a writer, returns -1 only to a killed process, and otherwise
    takes [min(n, queued)] bytes off the front of the queue; 0 for a positive
    [n] means the pipe is empty and the write end closed. *)
Theorem piperead_correct p n s :
  pipe_inv (w_pipe s) ->
  exists r s', piperead p n s = Ok r s' /\ read_post n s r s'.
Proof. apply piperead_run. Qed.

Lemma piperead_correct_witness :
  exists r s', piperead 7 4 demo_world = Ok r s' /\ read_post 4 demo_world r s'.
Proof. apply (piperead_correct 7 4 demo_world). by split_and!. Defined.

(** [pipewrite] always returns or sleeps.  It returns [n] exactly when it
    queued all its bytes behind those already there, returns -1 only on a full
    pipe whose read end is closed or for a killed process, and sleeps only on a
    full pipe, remembering the bytes still to write. *)
Theorem pipewrite_correct p addr n s :
  pipe_inv (w_pipe s) ->
  exists r s' w rest,
    pipewrite p addr n s = Ok r s' /\
    take (Z.to_nat n) addr = w ++ rest /\ write_post p n s w rest r s'.
Proof. apply pipewrite_from_run. Qed.

Lemma pipewrite_correct_witness :
  exists r s' w rest,
    pipewrite 7 [5; 6] 2 demo_world = Ok r s' /\
    take 2 [5; 6] = w ++ rest /\ write_post 7 2 demo_world w rest r s'.
Proof. apply (pipewrite_correct 7 [5; 6] 2 demo_world). by split_and!. Defined.
End Pipe.
