(* ===== verification/Dll.v ===== *)
(** * Doubly linked lists in an array

    The kernel keeps several doubly linked lists inside static arrays: the
    queue of MLFQ nodes and the thread list of a process in proc.c.  This file
    gives the abstract view of such a list, the sequence of array indices its
    [next] pointers run through, and the effect on it of relinking.

    A node type tells how to reach its links with a [Node] instance; the
    lemmas are about [links], the map from an index to the pair of its [prev]
    and [next] pointers. *)

From S2P Require Import Prelude.

Class Node (N : Type) := {
  nprev : N -> option nat;
  nnext : N -> option nat;
  set_nprev : option nat -> N -> N;
  set_nnext : option nat -> N -> N;
  nprev_set_nprev o n : nprev (set_nprev o n) = o;
  nprev_set_nnext o n : nprev (set_nnext o n) = nprev n;
  nnext_set_nprev o n : nnext (set_nprev o n) = nnext n;
  nnext_set_nnext o n : nnext (set_nnext o n) = o
}.

Abbreviation linkmap := (nat -> option (option nat * option nat)).

(** The links of the nodes of an array. *)
Definition links {N} `{Node N} (a : list N) : linkmap := fun i =>
  (fun n => (nprev n, nnext n)) <$> a !! i.

Definition setl (i : nat) (v : option nat * option nat) (L : linkmap) : linkmap :=
  fun j => if decide (j = i) then Some v else L j.

(** The first element of [l] followed by [q], the last of [p] followed by
    [l]. *)
Definition first_of (l : list nat) (q : option nat) : option nat :=
  match l with [] => q | x :: _ => Some x end.
Fixpoint last_of (l : list nat) (p : option nat) : option nat :=
  match l with [] => p | x :: l' => last_of l' (Some x) end.

(** [dseg L p l q]: the nodes [l] are linked in order, the first one's [prev]
    is [p] and the last one's [next] is [q]. *)
Fixpoint dseg (L : linkmap) (p : option nat) (l : list nat) (q : option nat) : Prop :=
  match l with
  | [] => True
  | x :: l' => L x = Some (p, first_of l' q) /\ dseg L (Some x) l' q
  end.

(** A whole list: no node twice, null at both ends. *)
Definition dlist (L : linkmap) (l : list nat) : Prop :=
  NoDup l /\ dseg L None l None.

(** ** Segments *)

Lemma first_of_app l1 l2 q : first_of (l1 ++ l2) q = first_of l1 (first_of l2 q).
Proof. by destruct l1. Qed.

Lemma last_of_app l1 l2 p : last_of (l1 ++ l2) p = last_of l2 (last_of l1 p).
Proof. revert p. induction l1; intros p; cbn; auto. Qed.

Lemma dseg_app L p l1 l2 q :
  dseg L p (l1 ++ l2) q <->
  dseg L p l1 (first_of l2 q) /\ dseg L (last_of l1 p) l2 q.
Proof.
  revert p. induction l1 as [|x l1 IH]; intros p; cbn; [tauto|].
  rewrite IH, first_of_app. tauto.
Qed.

Lemma dseg_frame L L' p l q :
  (forall x, x ∈ l -> L' x = L x) -> dseg L p l q -> dseg L' p l q.
Proof.
  revert p. induction l as [|x l IH]; intros p Hfr; cbn; [done|].
  intros [HL Hs]. split.
  - rewrite Hfr; [done|]. by left.
  - apply IH; [|done]. intros y Hy. apply Hfr. by right.
Qed.

Lemma setl_ne i v L j : j <> i -> setl i v L j = L j.
Proof. intros. unfold setl. by rewrite decide_False. Qed.
Lemma setl_eq i v L : setl i v L i = Some v.
Proof. unfold setl. by rewrite decide_True. Qed.

(** Redirecting the pointers at the ends of a segment. *)
Lemma dseg_new_prev L p p' l q :
  NoDup l -> dseg L p l q ->
  dseg (match l with [] => L | x :: l' => setl x (p', first_of l' q) L end) p' l q.
Proof.
  destruct l as [|x l]; cbn; [done|]. intros [Hx Hnd]%NoDup_cons [HL Hs].
  split; [apply setl_eq|]. eapply dseg_frame; [|done].
  intros y Hy. apply setl_ne. congruence.
Qed.

Lemma dseg_new_next L p l x q q' :
  NoDup (l ++ [x]) -> dseg L p (l ++ [x]) q ->
  dseg (setl x (last_of l p, q') L) p (l ++ [x]) q'.
Proof.
  intros Hnd. rewrite !dseg_app. cbn. intros [Hs [HL _]].
  split_and!; [|apply setl_eq|done].
  eapply dseg_frame; [|done]. intros y Hy. apply setl_ne. intros ->.
  apply NoDup_app in Hnd as (_&Hd&_). apply (Hd x Hy). by left.
Qed.

Lemma dseg_links L p l1 x l2 q :
  dseg L p (l1 ++ x :: l2) q -> L x = Some (last_of l1 p, first_of l2 q).
Proof. rewrite dseg_app. cbn. tauto. Qed.

Lemma dlist_links L l1 x l2 :
  dlist L (l1 ++ x :: l2) -> L x = Some (last_of l1 None, first_of l2 None).
Proof. intros [_ H]. by eapply dseg_links. Qed.

(** ** Relinking

    [set_prev_of o v] and [set_next_of o v] are [o->prev = v] and
    [o->next = v], skipped on a null [o]. *)
Definition set_prev_of (o v : option nat) (L : linkmap) : linkmap :=
  match o with
  | None => L
  | Some x => fun j => if decide (j = x) then (fun pn => (v, pn.2)) <$> L j else L j
  end.
Definition set_next_of (o v : option nat) (L : linkmap) : linkmap :=
  match o with
  | None => L
  | Some x => fun j => if decide (j = x) then (fun pn => (pn.1, v)) <$> L j else L j
  end.

Arguments set_prev_of : simpl never.
Arguments set_next_of : simpl never.

Lemma set_prev_of_ne o v L j : o <> Some j -> set_prev_of o v L j = L j.
Proof. unfold set_prev_of, set_next_of. destruct o as [x|]; [|done]. intros. case_decide; congruence. Qed.
Lemma set_next_of_ne o v L j : o <> Some j -> set_next_of o v L j = L j.
Proof. unfold set_prev_of, set_next_of. destruct o as [x|]; [|done]. intros. case_decide; congruence. Qed.
Lemma set_prev_of_eq x v L : set_prev_of (Some x) v L x = (fun pn => (v, pn.2)) <$> L x.
Proof. unfold set_prev_of, set_next_of. by rewrite decide_True. Qed.
Lemma set_next_of_eq x v L : set_next_of (Some x) v L x = (fun pn => (pn.1, v)) <$> L x.
Proof. unfold set_prev_of, set_next_of. by rewrite decide_True. Qed.

Lemma dseg_set_prev_of L p l q v :
  NoDup l -> dseg L p l q -> l <> [] ->
  dseg (set_prev_of (first_of l None) v L) v l q.
Proof.
  destruct l as [|x l]; [done|]. intros [Hx Hnd]%NoDup_cons [HL Hs] _.
  cbn -[set_prev_of]. split.
  - by rewrite set_prev_of_eq, HL.
  - eapply dseg_frame; [|done]. intros y Hy. apply set_prev_of_ne. congruence.
Qed.

Lemma last_of_snoc l x p : last_of (l ++ [x]) p = Some x.
Proof. by rewrite last_of_app. Qed.

Lemma dseg_set_next_of L p l q v :
  NoDup l -> dseg L p l q -> l <> [] ->
  dseg (set_next_of (last_of l None) v L) p l v.
Proof.
  intros Hnd Hs Hne. destruct l as [|x l _] using rev_ind; [done|]. clear Hne.
  rewrite last_of_snoc. apply NoDup_app in Hnd as (_&Hd&_).
  rewrite dseg_app in *. cbn -[set_next_of] in *. destruct Hs as [Hs [HL _]].
  split_and!; [|by rewrite set_next_of_eq, HL|done].
  eapply dseg_frame; [|done]. intros y Hy. apply set_next_of_ne.
  intros [= ->]. apply (Hd y Hy). by left.
Qed.

(** [m] linked in behind [t]. *)
Lemma dlist_insert_after L l1 t l2 m :
  dlist L (l1 ++ t :: l2) -> m ∉ l1 ++ t :: l2 ->
  dlist (setl m (Some t, first_of l2 None)
           (set_next_of (Some t) (Some m)
              (set_prev_of (first_of l2 None) (Some m) L)))
        (l1 ++ t :: m :: l2).
Proof.
  intros [Hnd Hs] Hm. split.
  { replace (l1 ++ t :: m :: l2) with ((l1 ++ [t]) ++ m :: l2)
      by by rewrite <- app_assoc.
    replace (l1 ++ t :: l2) with ((l1 ++ [t]) ++ l2) in * by by rewrite <- app_assoc.
    rewrite <- Permutation_middle. by constructor. }
  set_unfold. apply NoDup_app in Hnd as (Hnd1&Hd&[Ht Hnd2]%NoDup_cons).
  assert (NoDup (l1 ++ [t])).
  { apply NoDup_app. split_and!; [done| |apply NoDup_singleton].
    intros y Hy. rewrite list_elem_of_singleton. intros ->. apply (Hd _ Hy). by left. }
  replace (l1 ++ t :: l2) with ((l1 ++ [t]) ++ l2) in Hs by by rewrite <- app_assoc.
  replace (l1 ++ t :: m :: l2) with ((l1 ++ [t]) ++ m :: l2) by by rewrite <- app_assoc.
  rewrite dseg_app in *. rewrite last_of_snoc in *. destruct Hs as [Hs1 Hs2].
  cbn [dseg first_of]. split_and!.
  - eapply dseg_frame with (L := set_next_of (Some t) (Some m) L).
    { intros y Hy. rewrite setl_ne by set_solver.
      destruct (decide (y = t)) as [->|].
      + rewrite !set_next_of_eq, set_prev_of_ne; [done|].
        destruct l2; cbn; [done|]. set_solver.
      + rewrite !set_next_of_ne by congruence. apply set_prev_of_ne.
        destruct l2 as [|z l2]; cbn; [done|]. intros [= ->].
        apply (Hd y); set_solver. }
    rewrite <- (last_of_snoc l1 t None). eapply dseg_set_next_of; [done|done|].
    by destruct l1.
  - apply setl_eq.
  - destruct l2 as [|z l2]; [done|].
    eapply dseg_frame;
      [|eapply (dseg_set_prev_of L (Some t) (z :: l2) None (Some m)); done].
    intros y Hy. rewrite setl_ne, set_next_of_ne; [done| |]; set_solver.
Qed.

(** [m] linked in before [t]. *)
Lemma dlist_insert_before L l1 t l2 m :
  dlist L (l1 ++ t :: l2) -> m ∉ l1 ++ t :: l2 ->
  dlist (setl m (last_of l1 None, Some t)
           (set_prev_of (Some t) (Some m)
              (set_next_of (last_of l1 None) (Some m) L)))
        (l1 ++ m :: t :: l2).
Proof.
  intros [Hnd Hs] Hm. split.
  { rewrite <- Permutation_middle. by constructor. }
  pose proof Hnd as Hnd'. apply NoDup_app in Hnd' as (Hnd1&Hd&Hnd2).
  rewrite dseg_app in *. destruct Hs as [Hs1 Hs2].
  cbn [dseg first_of]. split_and!.
  - destruct l1 as [|x l1]; [done|].
    eapply dseg_frame;
      [|eapply (dseg_set_next_of L None (x :: l1) (Some t) (Some m)); done].
    intros y Hy. rewrite setl_ne by set_solver. apply set_prev_of_ne.
    intros [= ->]. apply (Hd y Hy). by left.
  - apply setl_eq.
  - assert (dseg (set_prev_of (Some t) (Some m) L) (Some m) (t :: l2) None) as [Ht Hl2].
    { exact (dseg_set_prev_of L (last_of l1 None) (t :: l2) None (Some m)
               Hnd2 Hs2 ltac:(done)). }
    rewrite setl_ne by set_solver. rewrite set_prev_of_eq in *.
    rewrite set_next_of_ne; [done|].
    intros Hl. destruct l1 as [|x l1 _] using rev_ind; [done|].
    rewrite last_of_snoc in Hl. injection Hl as ->. apply (Hd t); set_solver.
  - cbn in Hs2. destruct Hs2 as [_ Hs2]. eapply dseg_frame; [|exact Hs2].
    intros y Hy. apply NoDup_cons in Hnd2 as [??].
    rewrite setl_ne by set_solver.
    rewrite set_prev_of_ne by congruence. apply set_next_of_ne.
    intros Hl. destruct l1 as [|x l1 _] using rev_ind; [done|].
    rewrite last_of_snoc in Hl. injection Hl as ->. apply (Hd y); set_solver.
Qed.

(** [m] unlinked: its neighbours point at each other. *)
Lemma dlist_unlink L l1 m l2 :
  dlist L (l1 ++ m :: l2) ->
  dlist (set_prev_of (first_of l2 None) (last_of l1 None)
           (set_next_of (last_of l1 None) (first_of l2 None) L))
        (l1 ++ l2).
Proof.
  intros [Hnd Hs]. rewrite <- Permutation_middle in Hnd.
  apply NoDup_cons in Hnd as [Hm Hnd]. split; [done|].
  pose proof Hnd as Hnd'. apply NoDup_app in Hnd' as (Hnd1&Hd&Hnd2).
  rewrite dseg_app in *. cbn in Hs. destruct Hs as (Hs1&_&Hs2). split.
  - destruct l1 as [|x l1]; [done|].
    eapply dseg_frame;
      [|eapply (dseg_set_next_of L None (x :: l1) (Some m) (first_of l2 None)); done].
    intros y Hy. apply set_prev_of_ne. destruct l2; cbn; [done|]. intros [= ->].
    apply (Hd y Hy). by left.
  - destruct l2 as [|z l2]; [done|].
    eapply dseg_frame;
      [|eapply (dseg_set_prev_of L (Some m) (z :: l2) None (last_of l1 None)); done].
    intros y Hy. cbn [first_of].
    assert (set_next_of (last_of l1 None) (Some z) L y = L y) as Hn.
    { apply set_next_of_ne. intros Hl. destruct l1 as [|x l1 _] using rev_ind; [done|].
      rewrite last_of_snoc in Hl. injection Hl as ->. apply (Hd y); set_solver. }
    destruct (decide (y = z)) as [->|].
    + by rewrite !set_prev_of_eq, Hn.
    + by rewrite !set_prev_of_ne by congruence.
Qed.

(** Links changed outside the list do not matter. *)
Lemma dlist_frame L L' l :
  (forall x, x ∈ l -> L' x = L x) -> dlist L l -> dlist L' l.
Proof. intros Hfr [Hnd Hs]. split; [done|]. by eapply dseg_frame. Qed.

(** Two views of one list agree. *)
Lemma dseg_func L p l l' :
  dseg L p l None -> dseg L p l' None -> head l = head l' -> l = l'.
Proof.
  revert p l'. induction l as [|x l IH]; intros p [|y l']; cbn; try done.
  intros [HL Hs] [HL' Hs'] [= <-]. f_equal. rewrite HL in HL'.
  injection HL' as Heq. eapply IH; [done..|].
  destruct l, l'; naive_solver.
Qed.

Lemma dlist_func L l l' : dlist L l -> dlist L l' -> head l = head l' -> l = l'.
Proof. intros [_ H] [_ H']. by eapply dseg_func. Qed.

(** ** Relinking an array *)

Lemma first_of_in l2 x (l : list nat) :
  (forall y, y ∈ l2 -> y ∈ l) -> first_of l2 None = Some x -> x ∈ l.
Proof. destruct l2 as [|z l2]; [done|]. intros H [= ->]. apply H. by left. Qed.

Lemma last_of_in l1 x (l : list nat) :
  (forall y, y ∈ l1 -> y ∈ l) -> last_of l1 None = Some x -> x ∈ l.
Proof.
  destruct l1 as [|z l1 _] using rev_ind; [done|]. rewrite last_of_snoc.
  intros H [= ->]. apply H. set_solver.
Qed.

Section arrays.
  Context {N : Type} `{Node N}.
  Implicit Types (a : list N).

Lemma links_set_nprev a i o j :
  links (alter (set_nprev o) i a) j = set_prev_of (Some i) o (links a) j.
Proof.
  unfold links, set_prev_of. case_decide; subst.
  - rewrite list_lookup_alter_eq. destruct (a !! i); cbn; [|done].
    by rewrite nprev_set_nprev, nnext_set_nprev.
  - by rewrite list_lookup_alter_ne.
Qed.

Lemma links_set_nnext a i o j :
  links (alter (set_nnext o) i a) j = set_next_of (Some i) o (links a) j.
Proof.
  unfold links, set_next_of. case_decide; subst.
  - rewrite list_lookup_alter_eq. destruct (a !! i); cbn; [|done].
    by rewrite nprev_set_nnext, nnext_set_nnext.
  - by rewrite list_lookup_alter_ne.
Qed.

(** An update that leaves the links alone. *)
Lemma links_alter_same a i f j :
  (forall n, nprev (f n) = nprev n) -> (forall n, nnext (f n) = nnext n) ->
  links (alter f i a) j = links a j.
Proof.
  intros Hp Hn. unfold links. destruct (decide (i = j)) as [->|].
  - rewrite list_lookup_alter_eq. destruct (a !! j); cbn; [|done].
    by rewrite Hp, Hn.
  - by rewrite list_lookup_alter_ne.
Qed.

Lemma links_is_Some a i : (i < length a)%nat -> is_Some (links a i).
Proof. intros Hi. unfold links. apply fmap_is_Some. by apply lookup_lt_is_Some_2. Qed.

Lemma dlist_lookup a l x : dlist (links a) l -> x ∈ l -> is_Some (a !! x).
Proof.
  intros Hl Hx. apply list_elem_of_split in Hx as (l1&l2&->).
  apply dlist_links in Hl. unfold links in Hl.
  destruct (a !! x); [eauto|done].
Qed.

(** A node of a list and its neighbours. *)
Lemma dlist_neighbours a l1 t l2 :
  dlist (links a) (l1 ++ t :: l2) ->
  links a t = Some (last_of l1 None, first_of l2 None) /\
  last_of l1 None <> Some t /\ first_of l2 None <> Some t /\
  (forall x, last_of l1 None = Some x -> is_Some (a !! x)) /\
  (forall x, first_of l2 None = Some x -> is_Some (a !! x)) /\
  is_Some (a !! t) /\
  (forall x, last_of l1 None = Some x -> first_of l2 None <> Some x).
Proof.
  intros Hl. pose proof Hl as [Hnd _]. apply NoDup_app in Hnd as (_&Hd&[Ht _]%NoDup_cons).
  split_and!.
  - by eapply dlist_links.
  - intros E. apply (Hd t); [|by left]. by eapply last_of_in in E.
  - intros E. apply Ht. by eapply first_of_in in E.
  - intros x E. eapply dlist_lookup; [exact Hl|]. eapply last_of_in; [|exact E]. set_solver.
  - intros x E. eapply dlist_lookup; [exact Hl|]. eapply first_of_in; [|exact E]. set_solver.
  - eapply dlist_lookup; [exact Hl|]. set_solver.
  - intros x E1 E2. apply (Hd x).
    + by eapply last_of_in in E1.
    + eapply first_of_in; [|exact E2]. set_solver.
Qed.

Lemma links_Some_slot a j : is_Some (links a j) -> is_Some (a !! j).
Proof. unfold links. by rewrite fmap_is_Some. Qed.
End arrays.

Lemma set_next_of_is_Some o v L j : is_Some (L j) -> is_Some (set_next_of o v L j).
Proof.
  intros [x Hx]. destruct o; unfold set_next_of; [|by exists x].
  case_decide; rewrite Hx; by eexists.
Qed.
Lemma set_prev_of_is_Some o v L j : is_Some (L j) -> is_Some (set_prev_of o v L j).
Proof.
  intros [x Hx]. destruct o; unfold set_prev_of; [|by exists x].
  case_decide; rewrite Hx; by eexists.
Qed.

Lemma set_prev_of_ext o v L L' :
  (forall j, L j = L' j) -> forall j, set_prev_of o v L j = set_prev_of o v L' j.
Proof. intros Heq j. destruct o; unfold set_prev_of; [|done]. case_decide; by rewrite Heq. Qed.
Lemma set_next_of_ext o v L L' :
  (forall j, L j = L' j) -> forall j, set_next_of o v L j = set_next_of o v L' j.
Proof. intros Heq j. destruct o; unfold set_next_of; [|done]. case_decide; by rewrite Heq. Qed.

(** ** Circular lists

    The nodes [l] between a head [h] that is its own neighbour when [l] is
    empty. *)
Definition clist (L : linkmap) (h : nat) (l : list nat) : Prop :=
  NoDup (h :: l) /\ dseg L (Some h) l (Some h) /\
  L h = Some (last_of l (Some h), first_of l (Some h)).

Lemma last_of_Some l h : exists x, last_of l (Some h) = Some x /\ x ∈ h :: l.
Proof.
  destruct l as [|y l _] using rev_ind; [exists h; split; [done|by left]|].
  rewrite last_of_snoc. exists y. split; [done|]. set_solver.
Qed.
Lemma first_of_Some l h : exists x, first_of l (Some h) = Some x /\ x ∈ h :: l.
Proof. destruct l as [|y l]; [exists h|exists y]; cbn; split; (done || set_solver). Qed.

Lemma clist_frame L L' h l :
  (forall x, x ∈ h :: l -> L' x = L x) -> clist L h l -> clist L' h l.
Proof.
  intros Hfr (Hnd&Hs&Hh). split_and!; [done| |].
  - eapply dseg_frame; [|done]. intros x Hx. apply Hfr. by right.
  - rewrite Hfr by (by left). done.
Qed.

(** Dropping [b]: its two neighbours are joined. *)
Lemma clist_unlink L h l1 b l2 :
  clist L h (l1 ++ b :: l2) ->
  clist (set_next_of (last_of l1 (Some h)) (first_of l2 (Some h))
           (set_prev_of (first_of l2 (Some h)) (last_of l1 (Some h)) L)) h (l1 ++ l2).
Proof.
  intros ([Hh Hnd]%NoDup_cons&Hs&HL).
  rewrite <- Permutation_middle in Hnd. apply NoDup_cons in Hnd as [Hb Hnd].
  pose proof Hnd as Hnd'. apply NoDup_app in Hnd' as (Hnd1&Hd&Hnd2).
  rewrite dseg_app in Hs. cbn in Hs. destruct Hs as (Hs1&_&Hs2).
  assert ((h ∉ l1) /\ (h ∉ l2) /\ h <> b) as (Hh1&Hh2&Hhb) by set_solver.
  split; [apply NoDup_cons; split; [set_solver|done]|]. split; [rewrite dseg_app; split|].
  - destruct l1 as [|x l1]; [done|].
    eapply dseg_frame;
      [|apply (dseg_set_next_of L (Some h) (x :: l1) (Some b) (first_of l2 (Some h))); done].
    intros y Hy. cbn [last_of]. replace (last_of l1 (Some x)) with (last_of (x :: l1) None) by done.
    assert (set_prev_of (first_of l2 (Some h)) (last_of (x :: l1) None) L y = L y) as E.
    { apply set_prev_of_ne. destruct l2; cbn; intros [= ->]; [done|].
      apply (Hd y Hy). by left. }
    change (last_of (x :: l1) (Some h)) with (last_of (x :: l1) None).
    destruct (decide (last_of (x :: l1) None = Some y)) as [Hl|Hl].
    + rewrite Hl, !set_next_of_eq. by rewrite Hl in E; rewrite E.
    + by rewrite !set_next_of_ne.
  - destruct l2 as [|z l2]; [done|].
    eapply dseg_frame;
      [|apply (dseg_set_prev_of L (Some b) (z :: l2) (Some h) (last_of l1 (Some h))); done].
    intros y Hy. apply set_next_of_ne. destruct (last_of_Some l1 h) as (x&->&Hx).
    intros [= ->]. apply elem_of_cons in Hx as [->|Hx]; [done|]. apply (Hd y Hx Hy).
  - rewrite last_of_app, first_of_app. rewrite last_of_app, first_of_app in HL. cbn in HL.
    destruct l1 as [|x l1]; destruct l2 as [|z l2]; cbn [last_of first_of] in *.
    + rewrite set_next_of_eq, set_prev_of_eq, HL. done.
    + rewrite set_next_of_eq, set_prev_of_ne by set_solver. by rewrite HL.
    + rewrite set_next_of_ne.
      * by rewrite set_prev_of_eq, HL.
      * intros E. apply Hh1. change (last_of l1 (Some x)) with (last_of (x :: l1) None) in E.
        eapply last_of_in in E; [done|done].
    + rewrite set_next_of_ne, set_prev_of_ne; [done|set_solver|].
      intros E. apply Hh1. change (last_of l1 (Some x)) with (last_of (x :: l1) None) in E.
      eapply last_of_in in E; [done|done].
Qed.

Lemma last_of_cons_Some l z : exists y, last_of l (Some z) = Some y.
Proof. destruct (last_of_Some l z) as (y&?&_). eauto. Qed.

(** Linking [b] in as the first node. *)
Lemma clist_push L h l b :
  clist L h l -> b ∉ h :: l ->
  clist (set_next_of (Some h) (Some b)
           (set_prev_of (first_of l (Some h)) (Some b)
              (setl b (Some h, first_of l (Some h)) L))) h (b :: l).
Proof.
  intros (Hnd&Hs&HL) Hb. pose proof Hnd as [Hh Hnd']%NoDup_cons.
  assert ((b ∉ l) /\ b <> h) as [Hbl Hbh] by set_solver.
  split_and!.
  - apply NoDup_cons. split; [set_solver|]. apply NoDup_cons. set_solver.
  - cbn. split.
    + rewrite set_next_of_ne by congruence. destruct (first_of_Some l h) as (x&->&Hx).
      rewrite set_prev_of_ne by set_solver. apply setl_eq.
    + destruct l as [|z l]; [done|].
      eapply dseg_frame; [|apply (dseg_set_prev_of L (Some h) (z :: l) (Some h) (Some b)); done].
      intros y Hy. cbn [first_of]. rewrite set_next_of_ne by set_solver.
      destruct (decide (y = z)) as [->|].
      * rewrite !set_prev_of_eq, setl_ne; [done|set_solver].
      * rewrite !set_prev_of_ne, setl_ne by set_solver. done.
  - rewrite set_next_of_eq. destruct l as [|z l]; cbn [first_of last_of] in *.
    + rewrite set_prev_of_eq, setl_ne, HL by done. done.
    + rewrite set_prev_of_ne, setl_ne, HL by set_solver. cbn.
      by destruct (last_of_cons_Some l z) as [y ->].
Qed.
