(* ===== verification/Spinlock.v ===== *)
(** * Locks (xv6-public/spinlock.c, sleeplock.c)

    The routines as they run on one CPU, with the nesting counter of
    [pushcli]/[popcli] and the interrupt flag, and the lock protocol of
    several CPUs as a step relation on the atomic accesses to a lock. *)

From S2P Require Import Prelude.

Module Spinlock.

(** The part of [struct cpu] the locks use; [c_id] identifies the CPU (it is
    the address of its [struct cpu]) and [c_if] is [FL_IF] of its EFLAGS. *)
Record cpu := mkCpu {
  c_id : nat;
  ncli : Z;
  intena : bool;
  c_if : bool
}.
#[export] Instance eta_cpu : Eta cpu := fun r =>
  mkCpu (c_id r) (ncli r) (intena r) (c_if r).

Record spinlock := mkLock {
  locked : bool;
  lk_cpu : option nat
}.
#[export] Instance eta_spinlock : Eta spinlock := fun r =>
  mkLock (locked r) (lk_cpu r).

(** A CPU and the lock it works on. *)
Record view := mkView { v_cpu : cpu; v_lk : spinlock }.
#[export] Instance eta_view : Eta view := fun r => mkView (v_cpu r) (v_lk r).

Definition initlock : spinlock := {| locked := false; lk_cpu := None |}.

(** [mycpu()] refuses to run with interrupts enabled. *)
Definition mycpu : M cpu nat :=
  fl <- gets c_if ;;
  if fl : bool then panic "mycpu called with interrupts enabled\n" else gets c_id.

Definition cli : M cpu unit := modify (fun c => c <| c_if := false |>).
Definition sti : M cpu unit := modify (fun c => c <| c_if := true |>).

Definition pushcli : M cpu unit :=
  eflags <- gets c_if ;;
  cli ;;
  mycpu ;;
  n <- gets ncli ;;
  when (n =? 0) (modify (fun c => c <| intena := eflags |>)) ;;
  modify (fun c => c <| ncli ::= Z.add 1 |>).

Definition popcli : M cpu unit :=
  fl <- gets c_if ;;
  if fl : bool then panic "popcli - interruptible" else
  mycpu ;;
  modify (fun c => c <| ncli ::= Z.add (-1) |>) ;;
  n <- gets ncli ;;
  if n <? 0 then panic "popcli" else
  ie <- gets intena ;;
  when ((n =? 0) && ie) sti.

Definition holding : M view bool :=
  zoom v_cpu pushcli ;;
  lk <- gets v_lk ;;
  me <- zoom v_cpu mycpu ;;
  let r := locked lk && bool_decide (lk_cpu lk = Some me) in
  zoom v_cpu popcli ;;
  ret r.

(** The spin loop ends at once on a free lock; a lock another CPU holds is
    waited for, which this one-CPU view shows as [Spin]. *)
Definition acquire : M view unit :=
  zoom v_cpu pushcli ;;
  h <- holding ;;
  if h : bool then panic "acquire" else
  l <- gets (fun v => locked (v_lk v)) ;;
  if l : bool then spin else
  modify (fun v => v <| v_lk ::= fun lk => lk <| locked := true |> |>) ;;
  me <- zoom v_cpu mycpu ;;
  modify (fun v => v <| v_lk ::= fun lk => lk <| lk_cpu := Some me |> |>).

Definition release : M view unit :=
  h <- holding ;;
  if negb h then panic "release" else
  modify (fun v => v <| v_lk ::= fun lk => lk <| lk_cpu := None |> |>) ;;
  modify (fun v => v <| v_lk ::= fun lk => lk <| locked := false |> |>) ;;
  zoom v_cpu popcli.

(** ** One CPU *)

(** Interrupts are off whenever a [pushcli] is outstanding. *)
Definition cpu_inv (c : cpu) : Prop :=
  0 <= ncli c /\ (0 < ncli c -> c_if c = false).

Lemma pushcli_run c :
  pushcli c =
  Ok tt {| c_id := c_id c; ncli := 1 + ncli c;
           intena := if ncli c =? 0 then c_if c else intena c; c_if := false |}.
Proof.
  destruct c as [i n ie fl]. unfold pushcli, bind, when, cli, mycpu, upd.
  cbn -[Z.add]. by destruct (n =? 0).
Qed.

Lemma popcli_run c :
  c_if c = false -> 0 < ncli c ->
  popcli c =
  Ok tt {| c_id := c_id c; ncli := -1 + ncli c; intena := intena c;
           c_if := (-1 + ncli c =? 0) && intena c |}.
Proof.
  destruct c as [i n ie fl]. cbn. intros -> Hn. unfold popcli, bind, when, upd.
  cbn -[Z.add]. destruct (Z.ltb_spec (-1 + n) 0); [lia|].
  unfold upd; cbn -[Z.add]. by destruct (_ && _).
Qed.

Lemma push_pop c :
  cpu_inv c ->
  exists c1, pushcli c = Ok tt c1 /\ c_id c1 = c_id c /\ c_if c1 = false /\
    exists c2, popcli c1 = Ok tt c2 /\ c_id c2 = c_id c /\ ncli c2 = ncli c /\
      c_if c2 = c_if c /\ (0 < ncli c -> c2 = c).
Proof.
  intros [Hn Hif]. rewrite pushcli_run. eexists. split_and!; [done..|].
  rewrite popcli_run by (cbn; lia). eexists. split_and!; [done..| | |]; cbn.
  - lia.
  - destruct (Z.eqb_spec (-1 + (1 + ncli c)) 0), (Z.eqb_spec (ncli c) 0); try lia.
    + done.
    + symmetry. apply Hif. lia.
  - intros. destruct c as [i n ie fl]; cbn in *. rewrite Hif by done.
    rewrite (proj2 (Z.eqb_neq n 0)), (proj2 (Z.eqb_neq (-1 + (1 + n)) 0)) by lia.
    f_equal. lia.
Qed.

Lemma holding_run v :
  cpu_inv (v_cpu v) -> 0 < ncli (v_cpu v) ->
  holding v =
  Ok (locked (v_lk v) && bool_decide (lk_cpu (v_lk v) = Some (c_id (v_cpu v)))) v.
Proof.
  intros Hinv Hn. destruct (push_pop _ Hinv) as (c1&Hp&Hid&Hif&c2&Hq&_&_&_&Heq).
  specialize (Heq Hn) as ->. destruct v as [c lk]. cbn in *.
  unfold holding, bind, zoom, mycpu, gets, upd. cbn. rewrite Hp. cbn.
  rewrite Hif. cbn. rewrite Hq, Hid. reflexivity.
Qed.

(** Taking a free lock. *)
Lemma acquire_free v :
  cpu_inv (v_cpu v) -> locked (v_lk v) = false ->
  acquire v =
  Ok tt {| v_cpu := {| c_id := c_id (v_cpu v); ncli := 1 + ncli (v_cpu v);
                       intena := if ncli (v_cpu v) =? 0 then c_if (v_cpu v)
                                 else intena (v_cpu v);
                       c_if := false |};
           v_lk := {| locked := true; lk_cpu := Some (c_id (v_cpu v)) |} |}.
Proof.
  intros [Hn Hif] Hl. destruct v as [c [l o]]. cbn in *. subst l.
  unfold acquire, bind at 1, zoom at 1. rewrite pushcli_run. unfold upd; cbn [v_cpu v_lk].
  unfold bind at 1. rewrite holding_run; [|split; cbn; lia|cbn; lia].
  cbn. reflexivity.
Qed.

(** Taking a lock this CPU holds already. *)
Lemma acquire_held v :
  cpu_inv (v_cpu v) -> locked (v_lk v) = true ->
  lk_cpu (v_lk v) = Some (c_id (v_cpu v)) ->
  acquire v = Panic "acquire".
Proof.
  intros [Hn Hif] Hl Ho. destruct v as [c [l o]]. cbn in *. subst l o.
  unfold acquire, bind at 1, zoom at 1. rewrite pushcli_run. unfold upd; cbn [v_cpu v_lk].
  unfold bind at 1. rewrite holding_run; [|split; cbn; lia|cbn; lia].
  cbn. by rewrite bool_decide_true.
Qed.

(** Releasing a lock this CPU holds. *)
Lemma release_held v :
  cpu_inv (v_cpu v) -> 0 < ncli (v_cpu v) -> locked (v_lk v) = true ->
  lk_cpu (v_lk v) = Some (c_id (v_cpu v)) ->
  release v =
  Ok tt {| v_cpu := {| c_id := c_id (v_cpu v); ncli := -1 + ncli (v_cpu v);
                       intena := intena (v_cpu v);
                       c_if := (-1 + ncli (v_cpu v) =? 0) && intena (v_cpu v) |};
           v_lk := {| locked := false; lk_cpu := None |} |}.
Proof.
  intros Hinv Hn Hl Ho. unfold release, bind at 1. rewrite holding_run by done.
  rewrite Hl, Ho, bool_decide_true by done. destruct Hinv as [_ Hif].
  destruct v as [c [l o]]. cbn in *. unfold bind, zoom, upd. cbn -[popcli].
  rewrite popcli_run by auto. done.
Qed.

(** ** Several CPUs

    Where a CPU is in its use of one lock: outside, in the [xchg] loop, past
    the winning [xchg] but before [lk->cpu = mycpu()], in the critical section,
    past [lk->cpu = 0] but before the store that frees the lock. *)
Inductive pc := Out | Spinning | Won | Critical | Leaving.

#[export] Instance pc_eq_dec : EqDecision pc.
Proof. solve_decision. Defined.

Record smp := mkSmp { s_pc : nat -> pc; s_lk : spinlock }.

Definition goto (c : nat) (p : pc) (f : nat -> pc) : nat -> pc :=
  fun d => if decide (d = c) then p else f d.

(** One memory access of one CPU.  [xchg] is atomic. *)
Inductive smp_step : smp -> smp -> Prop :=
  | smp_start c f lk :
      f c = Out ->
      ~ (locked lk = true /\ lk_cpu lk = Some c) ->
      smp_step (mkSmp f lk) (mkSmp (goto c Spinning f) lk)
  | smp_xchg_lost c f lk :
      f c = Spinning -> locked lk = true ->
      smp_step (mkSmp f lk) (mkSmp f (lk <| locked := true |>))
  | smp_xchg_won c f lk :
      f c = Spinning -> locked lk = false ->
      smp_step (mkSmp f lk) (mkSmp (goto c Won f) (lk <| locked := true |>))
  | smp_set_cpu c f lk :
      f c = Won ->
      smp_step (mkSmp f lk) (mkSmp (goto c Critical f) (lk <| lk_cpu := Some c |>))
  | smp_clear_cpu c f lk :
      f c = Critical ->
      smp_step (mkSmp f lk) (mkSmp (goto c Leaving f) (lk <| lk_cpu := None |>))
  | smp_free c f lk :
      f c = Leaving ->
      smp_step (mkSmp f lk) (mkSmp (goto c Out f) (lk <| locked := false |>)).

Definition smp_init : smp := mkSmp (fun _ => Out) initlock.

(** Who owns the lock word. *)
Definition owns (p : pc) : bool :=
  match p with Won | Critical | Leaving => true | _ => false end.

Definition smp_inv (s : smp) : Prop :=
  (forall c, owns (s_pc s c) = true -> locked (s_lk s) = true) /\
  (forall c d, owns (s_pc s c) = true -> owns (s_pc s d) = true -> c = d) /\
  (forall c, lk_cpu (s_lk s) = Some c <-> s_pc s c = Critical).

Lemma goto_eq c p f : goto c p f c = p.
Proof. unfold goto. by rewrite decide_True. Qed.
Lemma goto_ne c p f d : d <> c -> goto c p f d = f d.
Proof. intros. unfold goto. by rewrite decide_False. Qed.

Ltac goto_cases :=
  unfold goto in *; repeat case_decide; subst; cbn in *; try done.

Lemma smp_step_inv s s' : smp_step s s' -> smp_inv s -> smp_inv s'.
Proof.
  intros Hs (H1&H2&H3).
  destruct Hs as [c f lk Hc _|c f lk Hc Hl|c f lk Hc Hl|c f lk Hc|c f lk Hc|c f lk Hc];
    unfold smp_inv, upd; cbn in *.
  all: split_and!.
  - intros d. goto_cases. apply H1.
  - intros d e. goto_cases. apply H2.
  - intros d. rewrite H3. goto_cases. by rewrite Hc.
  - done.
  - apply H2.
  - apply H3.
  - done.
  - intros d e. goto_cases.
    + intros _ He. apply H1 in He. congruence.
    + intros Hd. apply H1 in Hd. congruence.
    + apply H2.
  - intros d. rewrite H3. goto_cases. by rewrite Hc.
  - intros d. goto_cases; [|apply H1]. intros _. apply (H1 c). by rewrite Hc.
  - intros d e. goto_cases; [| |apply H2].
    + intros _ He. apply (H2 c e); [by rewrite Hc|done].
    + intros Hd _. apply (H2 d c); [done|by rewrite Hc].
  - intros d. goto_cases. split; [congruence|]. intros Hd.
    exfalso. assert (d = c); [|done]. apply H2; [by rewrite Hd|by rewrite Hc].
  - intros d. goto_cases; [|apply H1]. intros _. apply (H1 c). by rewrite Hc.
  - intros d e. goto_cases; [| |apply H2].
    + intros _ He. apply (H2 c e); [by rewrite Hc|done].
    + intros Hd _. apply (H2 d c); [done|by rewrite Hc].
  - intros d. goto_cases. split; [done|]. intros Hd.
    exfalso. assert (d = c); [|done]. apply H2; [by rewrite Hd|by rewrite Hc].
  - intros d. goto_cases. intros Hd. exfalso.
    assert (d = c); [|done]. apply H2; [done|by rewrite Hc].
  - intros d e. goto_cases. apply H2.
  - intros d. rewrite H3. goto_cases. by rewrite Hc.
Qed.

Lemma smp_init_inv : smp_inv smp_init.
Proof. split_and!; done. Qed.

Lemma smp_reach_inv s : rtc smp_step smp_init s -> smp_inv s.
Proof.
  intros Hs. assert (smp_inv smp_init) as Hi by apply smp_init_inv. revert Hi.
  induction Hs as [|s1 s2 s3 H1 _ IH]; [done|]. intros Hi. eapply IH, smp_step_inv; eauto.
Qed.


End Spinlock.

(** ** Sleep locks (sleeplock.c)

    A sleep lock is changed only under its own spinlock, so each routine is one
    step; [me] is the pid of the running process, [c] the address of the lock,
    which is the channel its waiters sleep on. *)
Module Sleeplock.

Record sleeplock := mkSleeplock { sl_locked : bool; sl_pid : Z }.
#[export] Instance eta_sleeplock : Eta sleeplock := fun r =>
  mkSleeplock (sl_locked r) (sl_pid r).

Definition initsleeplock : sleeplock := mkSleeplock false 0.

Definition acquiresleep (c : channel) (me : Z) : M sleeplock unit :=
  l <- gets sl_locked ;;
  if l : bool then sleepon c else
  modify (fun lk => lk <| sl_locked := true |> <| sl_pid := me |>).

Definition releasesleep : M sleeplock unit :=
  modify (fun lk => lk <| sl_locked := false |> <| sl_pid := 0 |>).

Definition holdingsleep (me : Z) (lk : sleeplock) : bool :=
  sl_locked lk && (sl_pid lk =? me).
End Sleeplock.
