(* ===== verification/Double.v ===== *)
(** * The doubles of the stride scheduler

    proc.c keeps pass values and strides as C [double]s.  They are modelled by
    the IEEE 754 binary64 numbers of the standard library's [SpecFloat], which
    compute.  The scheduler's correctness only needs the order: [dltb] is
    transitive and irreflexive. *)

From Stdlib Require Import SpecFloat.
From S2P Require Import Prelude.

Abbreviation double := spec_float.

Definition dadd : double -> double -> double := SFadd 53 1024.
Definition ddiv : double -> double -> double := SFdiv 53 1024.
(** [(double) z] for an [int z]. *)
Definition dint (z : Z) : double := binary_normalize 53 1024 z 0 false.
Definition dltb (a b : double) : bool := SFltb a b.
Definition dgtb (a b : double) : bool := SFltb b a.
Definition deqb (a b : double) : bool := SFeqb a b.

#[global] Instance double_eq_dec : EqDecision double.
Proof. solve_decision. Defined.

Lemma pos_compare_cont_Eq m1 m2 : Pos.compare_cont Eq m1 m2 = Pos.compare m1 m2.
Proof. reflexivity. Qed.

Ltac compare_hyps :=
  repeat match goal with
  | H : context [Pos.compare_cont Eq ?a ?b] |- _ =>
      change (Pos.compare_cont Eq a b) with (Pos.compare a b) in H
  | |- context [Pos.compare_cont Eq ?a ?b] =>
      change (Pos.compare_cont Eq a b) with (Pos.compare a b)
  | H : context [Z.compare ?a ?b] |- _ => destruct (Z.compare_spec a b); subst
  | |- context [Z.compare ?a ?b] => destruct (Z.compare_spec a b); subst
  | H : context [Pos.compare ?a ?b] |- _ => destruct (Pos.compare_spec a b); subst
  | |- context [Pos.compare ?a ?b] => destruct (Pos.compare_spec a b); subst
  end.

Lemma dltb_trans a b c : dltb a b = true -> dltb b c = true -> dltb a c = true.
Proof.
  unfold dltb, SFltb, SFcompare.
  destruct a as [[]|[]| |[] m1 e1], b as [[]|[]| |[] m2 e2], c as [[]|[]| |[] m3 e3];
    intros H1 H2; try done; compare_hyps; cbn in *; try done; lia.
Qed.

Lemma dltb_irrefl a : dltb a a = false.
Proof.
  unfold dltb, SFltb, SFcompare.
  destruct a as [[]|[]| |[] m1 e1]; try done; compare_hyps; cbn; try done; lia.
Qed.

(** Without a NaN the order is total: what lies between two numbers is above
    the first or below the second. *)
Definition not_nan (a : double) : bool := match a with S754_nan => false | _ => true end.

Lemma dltb_cotrans a b c :
  not_nan b = true -> dltb a c = true -> dltb a b = true \/ dltb b c = true.
Proof.
  unfold dltb, SFltb, SFcompare.
  destruct a as [[]|[]| |[] m1 e1], b as [[]|[]| |[] m2 e2], c as [[]|[]| |[] m3 e3];
    intros Hb Hac; try done; try (by left); try (by right);
    compare_hyps; cbn in *; try done; try (by left); try (by right); lia.
Qed.

Lemma dltb_asym a b : dltb a b = true -> dltb b a = false.
Proof.
  intros Hab. destruct (dltb b a) eqn:Hba; [|done].
  rewrite <- (dltb_irrefl a). symmetry. by eapply dltb_trans.
Qed.

Lemma dltb_false_trans a b c :
  not_nan b = true -> dltb a b = false -> dltb b c = false -> dltb a c = false.
Proof.
  intros Hb H1 H2. destruct (dltb a c) eqn:E; [|done].
  apply (dltb_cotrans _ b) in E as [|]; congruence.
Qed.
