(* ===== verification/Procdef.v ===== *)
(** * The data of proc.c (xv6-public/proc.h, proc.c:10-45, param.h, x86.h)

    The process table, the scheduler's globals and the MLFQ node slabs as one
    kernel state, with pointers into the static arrays [ptable.proc] and
    [mlfqnodeslabs] as optional indices ([None] is the null pointer).  What
    proc.c asks of memory management and of the file system is the interface
    [KernelEnv]. *)

From S2P Require Import Prelude Double Spinlock Dll.
Export Spinlock.

Definition NPROC : nat := 64.
Definition NOFILE : nat := 16.
Definition KSTACKSIZE : Z := 4096.
Definition PGSIZE : Z := 4096.

Inductive procstate := UNUSED | EMBRYO | SLEEPING | RUNNABLE | RUNNING | ZOMBIE.

#[export] Instance procstate_eq_dec : EqDecision procstate.
Proof. solve_decision. Defined.

(** [struct trapframe], without its padding. *)
Record trapframe := mkTf {
  edi : Z; esi : Z; ebp : Z; oesp : Z; ebx : Z; edx : Z; ecx : Z; eax : Z;
  gs : Z; fs : Z; es : Z; ds : Z; trapno : Z;
  err : Z; eip : Z; cs : Z; eflags : Z; esp : Z; ss : Z
}.
#[export] Instance eta_trapframe : Eta trapframe := fun r =>
  mkTf (edi r) (esi r) (ebp r) (oesp r) (ebx r) (edx r) (ecx r) (eax r)
       (gs r) (fs r) (es r) (ds r) (trapno r)
       (err r) (eip r) (cs r) (eflags r) (esp r) (ss r).
Definition tf0 : trapframe := mkTf 0 0 0 0 0 0 0 0 0 0 0 0 0 0 0 0 0 0 0.

(** [struct mlfqnode]. *)
Record mlfqnode := mkNode {
  m_prev : option nat;
  m_next : option nat;
  m_self : option nat;
  m_state : Z;
  m_level : Z;
  m_exec_time : Z
}.
#[export] Instance eta_mlfqnode : Eta mlfqnode := fun r =>
  mkNode (m_prev r) (m_next r) (m_self r) (m_state r) (m_level r) (m_exec_time r).
Definition node0 : mlfqnode := mkNode None None None 0 0 0.

#[export, refine] Instance mlfqnode_node : Node mlfqnode := {|
  nprev := m_prev; nnext := m_next;
  set_nprev o n := n <| m_prev := o |>;
  set_nnext o n := n <| m_next := o |>
|}.
Proof. all: done. Defined.

(** [struct context]. *)
Record context_regs := mkContext {
  x_edi : Z; x_esi : Z; x_ebx : Z; x_ebp : Z; x_eip : Z
}.

(** [struct proc].  The trap frame and the saved context live on the kernel
    stack; [tf_at] and [context_at] are the pointers, [tf] and [context] what
    they point at. *)
Record proc := mkProc {
  sz : Z;
  pgdir : Z;
  kstack : Z;
  state : procstate;
  pid : Z;
  parent : option nat;
  tf_at : Z;
  tf : trapframe;
  context_at : Z;
  context : context_regs;
  chan : option channel;
  killed : bool;
  ofile : list (option nat);
  cwd : option nat;
  name : string;
  schedmode : Z;
  path : double;
  fixedshare : Z;
  pathlevel : Z;
  mnode : option nat;
  originalbase : Z;
  tid : Z;
  retval : Z;
  master : option nat;
  emptystacks : list Z;
  emptystackcnt : Z;
  prev_thread : option nat;
  next_thread : option nat;
  turn : option nat
}.
#[export] Instance eta_proc : Eta proc := fun r =>
  mkProc (sz r) (pgdir r) (kstack r) (state r) (pid r) (parent r)
    (tf_at r) (tf r) (context_at r) (context r) (chan r)
    (killed r) (ofile r) (cwd r) (name r) (schedmode r) (path r) (fixedshare r)
    (pathlevel r) (mnode r) (originalbase r) (tid r) (retval r) (master r)
    (emptystacks r) (emptystackcnt r) (prev_thread r) (next_thread r) (turn r).
#[export] Instance set_sz : Setter sz.
Proof. build_setter. Defined.
#[export] Instance set_pgdir : Setter pgdir.
Proof. build_setter. Defined.
#[export] Instance set_kstack : Setter kstack.
Proof. build_setter. Defined.
#[export] Instance set_state : Setter state.
Proof. build_setter. Defined.
#[export] Instance set_pid : Setter pid.
Proof. build_setter. Defined.
#[export] Instance set_parent : Setter parent.
Proof. build_setter. Defined.
#[export] Instance set_tf_at : Setter tf_at.
Proof. build_setter. Defined.
#[export] Instance set_tf : Setter tf.
Proof. build_setter. Defined.
#[export] Instance set_context_at : Setter context_at.
Proof. build_setter. Defined.
#[export] Instance set_context : Setter context.
Proof. build_setter. Defined.
#[export] Instance set_chan : Setter chan.
Proof. build_setter. Defined.
#[export] Instance set_killed : Setter killed.
Proof. build_setter. Defined.
#[export] Instance set_ofile : Setter ofile.
Proof. build_setter. Defined.
#[export] Instance set_cwd : Setter cwd.
Proof. build_setter. Defined.
#[export] Instance set_name : Setter name.
Proof. build_setter. Defined.
#[export] Instance set_schedmode : Setter schedmode.
Proof. build_setter. Defined.
#[export] Instance set_path : Setter path.
Proof. build_setter. Defined.
#[export] Instance set_fixedshare : Setter fixedshare.
Proof. build_setter. Defined.
#[export] Instance set_pathlevel : Setter pathlevel.
Proof. build_setter. Defined.
#[export] Instance set_mnode : Setter mnode.
Proof. build_setter. Defined.
#[export] Instance set_originalbase : Setter originalbase.
Proof. build_setter. Defined.
#[export] Instance set_tid : Setter tid.
Proof. build_setter. Defined.
#[export] Instance set_retval : Setter retval.
Proof. build_setter. Defined.
#[export] Instance set_master : Setter master.
Proof. build_setter. Defined.
#[export] Instance set_emptystacks : Setter emptystacks.
Proof. build_setter. Defined.
#[export] Instance set_emptystackcnt : Setter emptystackcnt.
Proof. build_setter. Defined.
#[export] Instance set_prev_thread : Setter prev_thread.
Proof. build_setter. Defined.
#[export] Instance set_next_thread : Setter next_thread.
Proof. build_setter. Defined.
#[export] Instance set_turn : Setter turn.
Proof. build_setter. Defined.

(** A slot of the zero-initialised [ptable]. *)
Definition proc0 : proc :=
  mkProc 0 0 0 UNUSED 0 None 0 tf0 0 (mkContext 0 0 0 0 0) None false (replicate NOFILE None) None ""
    0 (dint 0) 0 0 None 0 0 0 None (replicate NPROC 0) 0 None None None.

#[export, refine] Instance proc_node : Node proc := {|
  nprev := prev_thread; nnext := next_thread;
  set_nprev o p := p <| prev_thread := o |>;
  set_nnext o p := p <| next_thread := o |>
|}.
Proof. all: done. Defined.

(** [defaultvmp] and [mlfqvmp]. *)
Record dvmp := mkDvmp { d_stride : double; d_path : double; d_highpr : option nat }.
#[export] Instance eta_dvmp : Eta dvmp := fun r =>
  mkDvmp (d_stride r) (d_path r) (d_highpr r).

Record mvmp := mkMvmp {
  mv_stride : double;
  mv_path : double;
  mv_highpr : option nat;
  slice_cnt : Z;
  tick_cnt : Z;
  allottime : list Z;
  slice : list Z
}.
#[export] Instance eta_mvmp : Eta mvmp := fun r =>
  mkMvmp (mv_stride r) (mv_path r) (mv_highpr r) (slice_cnt r) (tick_cnt r)
    (allottime r) (slice r).

(** What proc.c uses of vm.c, kalloc.c, file.c, fs.c and log.c. *)
Class KernelEnv (E : Type) := {
  kalloc : M E Z;
  kfree : Z -> M E unit;
  setupkvm : M E Z;
  inituvm : Z -> M E unit;
  copyuvm2 : Z -> Z -> M E Z;
  allocuvm : Z -> Z -> Z -> M E Z;
  deallocuvm : Z -> Z -> Z -> M E Z;
  freevm : Z -> M E unit;
  clearpteu : Z -> Z -> M E unit;
  (* a 32-bit store at a virtual address *)
  store32 : Z -> Z -> M E unit;
  filedup : nat -> M E unit;
  fileclose : nat -> M E unit;
  idup : nat -> M E unit;
  iput : nat -> M E unit;
  (* code addresses *)
  forkret : Z;
  trapret : Z;
  begin_op : M E unit;
  end_op : M E unit;
  namei : string -> M E (option nat);
  (* the task state's kernel stack and the page table register *)
  load_tss : Z -> M E unit;
  lcr3 : Z -> M E unit;
  kpgdir : Z
}.

(** The state of proc.c on one CPU. *)
Record kernel (E : Type) := mkKernel {
  k_cpu : cpu;
  k_curproc : option nat;
  k_ptlock : spinlock;
  k_memlock : spinlock;
  k_procs : list proc;
  k_default : dvmp;
  k_mlfq : mvmp;
  k_slabs : list mlfqnode;
  k_headers : list (option nat);
  k_fixedmin : option nat;
  k_nextpid : Z;
  k_nexttid : Z;
  k_initproc : option nat;
  k_env : E
}.
Arguments mkKernel {E}.
Arguments k_cpu {E}. Arguments k_curproc {E}. Arguments k_ptlock {E}.
Arguments k_memlock {E}. Arguments k_procs {E}. Arguments k_default {E}.
Arguments k_mlfq {E}. Arguments k_slabs {E}. Arguments k_headers {E}.
Arguments k_fixedmin {E}. Arguments k_nextpid {E}. Arguments k_nexttid {E}.
Arguments k_initproc {E}. Arguments k_env {E}.
#[export] Instance eta_kernel {E} : Eta (kernel E) := fun r =>
  mkKernel (k_cpu r) (k_curproc r) (k_ptlock r) (k_memlock r) (k_procs r)
    (k_default r) (k_mlfq r) (k_slabs r) (k_headers r) (k_fixedmin r)
    (k_nextpid r) (k_nexttid r) (k_initproc r) (k_env r).

(** The setters as named instances keep terms small. *)
#[export] Instance set_k_cpu {E} : Setter (@k_cpu E).
Proof. build_setter. Defined.
#[export] Instance set_k_curproc {E} : Setter (@k_curproc E).
Proof. build_setter. Defined.
#[export] Instance set_k_ptlock {E} : Setter (@k_ptlock E).
Proof. build_setter. Defined.
#[export] Instance set_k_memlock {E} : Setter (@k_memlock E).
Proof. build_setter. Defined.
#[export] Instance set_k_procs {E} : Setter (@k_procs E).
Proof. build_setter. Defined.
#[export] Instance set_k_default {E} : Setter (@k_default E).
Proof. build_setter. Defined.
#[export] Instance set_k_mlfq {E} : Setter (@k_mlfq E).
Proof. build_setter. Defined.
#[export] Instance set_k_slabs {E} : Setter (@k_slabs E).
Proof. build_setter. Defined.
#[export] Instance set_k_headers {E} : Setter (@k_headers E).
Proof. build_setter. Defined.
#[export] Instance set_k_fixedmin {E} : Setter (@k_fixedmin E).
Proof. build_setter. Defined.
#[export] Instance set_k_nextpid {E} : Setter (@k_nextpid E).
Proof. build_setter. Defined.
#[export] Instance set_k_nexttid {E} : Setter (@k_nexttid E).
Proof. build_setter. Defined.
#[export] Instance set_k_initproc {E} : Setter (@k_initproc E).
Proof. build_setter. Defined.
#[export] Instance set_k_env {E} : Setter (@k_env E).
Proof. build_setter. Defined.

(** The globals as the loader leaves them: all zero but [nextpid] and
    [nexttid]. *)
Definition kernel0 {E} (c : cpu) (e : E) : kernel E :=
  mkKernel c None initlock initlock (replicate NPROC proc0)
    (mkDvmp (dint 0) (dint 0) None)
    (mkMvmp (dint 0) (dint 0) None 0 0 [0; 0; 0] [0; 0; 0])
    (replicate (NPROC + 4) node0) (replicate 4 None) None 1 1 None e.

Section access.
  Context {E : Type}.
  Implicit Types (k : kernel E) (i : nat) (p : proc).

(** [*p] for a process pointer, and an update of its fields. *)
Definition getproc i : M (kernel E) proc :=
  ps <- gets k_procs ;; deref (ps !! i).
Definition setproc i (f : proc -> proc) : M (kernel E) unit :=
  getproc i ;; modify (fun k => k <| k_procs ::= alter f i |>).

(** Lock operations on this CPU. *)
Definition with_lock {A} (proj : kernel E -> spinlock) `{!Setter proj}
    (m : M view A) : M (kernel E) A := fun k =>
  match m (mkView (k_cpu k) (proj k)) with
  | Ok a v => Ok a (k <| k_cpu := v_cpu v |> <| proj := v_lk v |>)
  | Sleep c v => Sleep c (k <| k_cpu := v_cpu v |> <| proj := v_lk v |>)
  | Panic msg => Panic msg
  | Fault => Fault
  | Spin => Spin
  end.
Definition acquire_ptable : M (kernel E) unit := with_lock k_ptlock acquire.
Definition release_ptable : M (kernel E) unit := with_lock k_ptlock release.
Definition acquire_memlock : M (kernel E) unit := with_lock k_memlock acquire.
Definition release_memlock : M (kernel E) unit := with_lock k_memlock release.

Definition env {A} (m : M E A) : M (kernel E) A := zoom k_env m.

(** [myproc()]: the process on this CPU.  (The [pushcli]/[popcli] pair around
    the read, which keeps the process on the CPU, is not repeated here.) *)
Definition myproc : M (kernel E) (option nat) := gets k_curproc.

(** Every process slot, in table order. *)
Definition all_procs : list nat := seq 0 NPROC.

(** [get_highest_master]: up the [master] pointers.  The chain visits no
    process twice, so [NPROC] steps are enough; a cyclic chain loops. *)
Fixpoint highest_master_from (fuel : nat) (q : nat) : M (kernel E) nat :=
  match fuel with
  | O => spin
  | S fuel' =>
      pq <- getproc q ;;
      match master pq with
      | Some m => highest_master_from fuel' m
      | None => ret q
      end
  end.
Definition get_highest_master (p : nat) : M (kernel E) nat :=
  highest_master_from (S NPROC) p.
End access.

Lemma kernel_eq {E} (k k' : kernel E) :
  k_cpu k = k_cpu k' -> k_curproc k = k_curproc k' -> k_ptlock k = k_ptlock k' ->
  k_memlock k = k_memlock k' -> k_procs k = k_procs k' -> k_default k = k_default k' ->
  k_mlfq k = k_mlfq k' -> k_slabs k = k_slabs k' -> k_headers k = k_headers k' ->
  k_fixedmin k = k_fixedmin k' -> k_nextpid k = k_nextpid k' -> k_nexttid k = k_nexttid k' ->
  k_initproc k = k_initproc k' -> k_env k = k_env k' -> k = k'.
Proof. destruct k, k'. cbn. by intros -> -> -> -> -> -> -> -> -> -> -> -> -> ->. Qed.

(** Equality of kernel states field by field. *)
Ltac kernel_eq :=
  apply kernel_eq; proj_upd; try (lazymatch goal with |- ?a = ?a => reflexivity end).

(** An environment in which nothing happens, to evaluate routines that do not
    depend on it. *)
#[export] Instance no_env : KernelEnv unit := {|
  kalloc := ret 0; kfree _ := ret tt; setupkvm := ret 0; inituvm _ := ret tt;
  copyuvm2 _ _ := ret 0; allocuvm _ _ _ := ret 0; deallocuvm _ _ _ := ret 0;
  freevm _ := ret tt; clearpteu _ _ := ret tt; store32 _ _ := ret tt;
  filedup _ := ret tt; fileclose _ := ret tt; idup _ := ret tt; iput _ := ret tt;
  forkret := 0; trapret := 0; begin_op := ret tt; end_op := ret tt;
  namei _ := ret None; load_tss _ := ret tt; lcr3 _ := ret tt; kpgdir := 0
|}.

(** Memory handed out page by page; every other operation succeeds at once. *)
#[export] Instance page_env : KernelEnv Z := {|
  kalloc a := Ok a (a + PGSIZE); kfree _ := ret tt; setupkvm a := Ok a (a + PGSIZE);
  inituvm _ := ret tt; copyuvm2 _ _ a := Ok a (a + PGSIZE); allocuvm _ _ n := ret n;
  deallocuvm _ _ n := ret n; freevm _ := ret tt; clearpteu _ _ := ret tt;
  store32 _ _ := ret tt; filedup _ := ret tt; fileclose _ := ret tt; idup _ := ret tt;
  iput _ := ret tt; forkret := 1048576; trapret := 1048600; begin_op := ret tt;
  end_op := ret tt; namei _ := ret (Some 0%nat); load_tss _ := ret tt; lcr3 _ := ret tt;
  kpgdir := 0
|}.
