(* ===== verification/Mlfq.v ===== *)
(** * The MLFQ node queue (xv6-public/proc.c:80-165)

    The nodes of all three levels form one doubly linked list through
    [mlfqnodeslabs], cut into queues by four header nodes:
    [headers[0], level 0, headers[1], level 1, headers[2], level 2,
    headers[3]].  The routines work on the slab array; the theorems relate
    them to the three queues as plain lists. *)

From S2P Require Import Prelude Dll Procdef.

Module Mlfq.

Abbreviation slabs := (list mlfqnode).

Definition nd (i : nat) : M slabs mlfqnode := fun s => deref (s !! i) s.
Definition ndset (i : nat) (f : mlfqnode -> mlfqnode) : M slabs unit :=
  nd i ;; modify (alter f i).
Definition set_prev (i : nat) (o : option nat) : M slabs unit :=
  ndset i (set_nprev o).
Definition set_next (i : nat) (o : option nat) : M slabs unit :=
  ndset i (set_nnext o).

(** The first free slab; with none free [m] ends up past the array. *)
Fixpoint find_free (l : slabs) (i : nat) : option nat :=
  match l with
  | [] => None
  | n :: l' => if m_state n =? 0 then Some i else find_free l' (S i)
  end.

(** The slab half of [allocmlfqnode]; [p->mnode = m] is done by its caller in
    the kernel state. *)
Definition allocnode (p : nat) : M slabs nat :=
  s <- gets id ;;
  m <- deref (find_free s 0) ;;
  ndset m (fun n => n <| m_self := Some p |>) ;;
  ndset m (fun n => n <| m_next := None |> <| m_prev := None |>
                      <| m_level := 0 |> <| m_exec_time := 0 |>) ;;
  ndset m (fun n => n <| m_state := 1 |>) ;;
  ret m.

(** The part of [initmlfq] that marks the last four slabs as headers and
    links them. *)
Definition init_headers : M slabs (list (option nat)) :=
  forM (seq 0 4) (fun i => ndset (NPROC + i) (fun n => n <| m_state := -1 |>)) ;;
  forM (seq 0 4) (fun i =>
    when (negb (i =? 3)%nat) (set_next (NPROC + i) (Some (NPROC + (i + 1))%nat)) ;;
    when (negb (i =? 0)%nat) (set_prev (NPROC + i) (Some (NPROC + (i - 1))%nat))) ;;
  ret ((fun i => Some (NPROC + i)%nat) <$> seq 0 4).

Definition insertafter (target mover : nat) : M slabs unit :=
  set_prev mover (Some target) ;;
  t <- nd target ;;
  match m_next t with
  | Some x => set_prev x (Some mover)
  | None => ret tt
  end ;;
  t <- nd target ;;
  set_next mover (m_next t) ;;
  set_next target (Some mover).

Definition insertBefore (target mover : nat) : M slabs unit :=
  set_next mover (Some target) ;;
  t <- nd target ;;
  match m_prev t with
  | Some x => set_next x (Some mover)
  | None => ret tt
  end ;;
  t <- nd target ;;
  set_prev mover (m_prev t) ;;
  set_prev target (Some mover).

Definition remove (m : nat) : M slabs unit :=
  n <- nd m ;;
  match m_prev n with
  | Some x => set_next x (m_next n)
  | None => ret tt
  end ;;
  n <- nd m ;;
  match m_next n with
  | Some x => set_prev x (m_prev n)
  | None => ret tt
  end ;;
  set_next m None ;;
  set_prev m None.

Definition delete (m : nat) : M slabs unit :=
  remove m ;;
  ndset m (fun n => n <| m_state := 0 |> <| m_level := 0 |>
                      <| m_exec_time := 0 |> <| m_self := None |>).

(** [headers[i]], which must not be null. *)
Definition header (hs : list (option nat)) (i : Z) : M slabs nat :=
  deref (mjoin (zlookup hs i)).

Definition lowerlevel (hs : list (option nat)) (m : nat) : M slabs unit :=
  n <- nd m ;;
  if m_level n =? 2 then ret tt else
  remove m ;;
  h <- header hs (m_level n + 2) ;;
  insertBefore h m ;;
  ndset m (fun n => n <| m_level ::= Z.add 1 |>).

(** What the scheduler does with a node whose time slice is over. *)
Definition requeue (hs : list (option nat)) (m : nat) : M slabs unit :=
  remove m ;;
  n <- nd m ;;
  h <- header hs (m_level n + 1) ;;
  insertBefore h m.

(** The walk of [priorityboost] along [next]; the list has at most one node
    per slab. *)
Fixpoint boost_from (fuel : nat) (m : option nat) : M slabs unit :=
  match m with
  | None => ret tt
  | Some i =>
      match fuel with
      | O => spin
      | S fuel' =>
          n <- nd i ;;
          when ((m_state n =? 1) && negb (m_level n =? 1))
            (ndset i (fun n => n <| m_level := 0 |> <| m_exec_time := 0 |>)) ;;
          boost_from fuel' (m_next n)
      end
  end.

Definition priorityboost (hs : list (option nat)) : M slabs unit :=
  match mjoin (zlookup hs 0) with
  | None => ret tt
  | Some h0 =>
      forM [2; 1] (fun i =>
        hi <- header hs i ;;
        remove hi ;;
        hj <- header hs (i + 1) ;;
        insertBefore hj hi) ;;
      boost_from (S (NPROC + 4)) (Some h0)
  end.

(** ** The effect on one list *)

(** Everything of a node but its links. *)
Definition payload (n : mlfqnode) : option nat * Z * Z * Z :=
  (m_self n, m_state n, m_level n, m_exec_time n).

(** Same nodes, links apart. *)
Definition same_payload (s s' : slabs) : Prop :=
  length s' = length s /\ forall i, payload <$> s' !! i = payload <$> s !! i.

Lemma same_payload_refl s : same_payload s s.
Proof. done. Qed.

Lemma same_payload_sym s s' : same_payload s s' -> same_payload s' s.
Proof. intros [? H]. split; [done|]. intros i. by rewrite H. Qed.

Lemma same_payload_trans s1 s2 s3 :
  same_payload s1 s2 -> same_payload s2 s3 -> same_payload s1 s3.
Proof. intros [??] [??]. split; [congruence|]. intros i. congruence. Qed.

Lemma same_payload_alter s i f :
  (forall n, payload (f n) = payload n) -> same_payload s (alter f i s).
Proof.
  intros Hf. split; [apply length_alter|]. intros j.
  destruct (decide (i = j)) as [->|].
  - rewrite list_lookup_alter_eq. destruct (s !! j); cbn; [|done]. by rewrite Hf.
  - by rewrite list_lookup_alter_ne.
Qed.

Lemma nd_run s i n : s !! i = Some n -> nd i s = Ok n s.
Proof. intros H. unfold nd. by rewrite H. Qed.

Lemma ndset_run s i n f : s !! i = Some n -> ndset i f s = Ok tt (alter f i s).
Proof. intros H. unfold ndset, bind. by rewrite (nd_run _ _ _ H). Qed.

(** A relinking run of a routine: it returns, and its effect is [F] on the
    links and nothing on the rest. *)
Definition relinks (m : M slabs unit) (s : slabs) (F : linkmap) (s' : slabs) : Prop :=
  m s = Ok tt s' /\ same_payload s s' /\ forall j, links s' j = F j.

Lemma relinks_set_prev s i o :
  is_Some (s !! i) ->
  relinks (set_prev i o) s (set_prev_of (Some i) o (links s))
    (alter (set_nprev o) i s).
Proof.
  intros [n Hn]. split_and!.
  - by eapply ndset_run.
  - by apply same_payload_alter.
  - intros j. apply links_set_nprev.
Qed.

Lemma relinks_set_next s i o :
  is_Some (s !! i) ->
  relinks (set_next i o) s (set_next_of (Some i) o (links s))
    (alter (set_nnext o) i s).
Proof.
  intros [n Hn]. split_and!.
  - by eapply ndset_run.
  - by apply same_payload_alter.
  - intros j. apply links_set_nnext.
Qed.

Lemma same_payload_lookup s s' i :
  same_payload s s' -> is_Some (s !! i) -> is_Some (s' !! i).
Proof.
  intros [Hl _] [n Hn]. apply lookup_lt_is_Some_2. rewrite Hl.
  by eapply lookup_lt_Some.
Qed.

(** Chains two runs. *)
Lemma relinks_bind m1 m2 s s1 s2 F1 F2 :
  relinks m1 s F1 s1 -> relinks m2 s1 F2 s2 ->
  relinks (m1 ;; m2) s F2 s2.
Proof.
  intros (H1&Hp1&_) (H2&Hp2&HF). split_and!; [|by eapply same_payload_trans|done].
  by rewrite (bind_Ok _ _ _ _ _ H1).
Qed.


Lemma nd_links s i p q :
  links s i = Some (p, q) ->
  exists n, nd i s = Ok n s /\ m_prev n = p /\ m_next n = q.
Proof.
  unfold links. destruct (s !! i) as [n|] eqn:Hn; [|done]. cbn. intros [= <- <-].
  exists n. split_and!; [by apply nd_run|done..].
Qed.

Lemma links_lookup s i v : links s i = Some v -> is_Some (s !! i).
Proof. unfold links. destruct (s !! i); [eauto|done]. Qed.

(** [if(o) o->prev = v] and [if(o) o->next = v]. *)
Lemma relinks_prev_opt s o v :
  (forall x, o = Some x -> is_Some (s !! x)) ->
  exists s', relinks (match o with Some x => set_prev x v | None => ret tt end) s
    (set_prev_of o v (links s)) s'.
Proof.
  intros Ho. destruct o as [x|]; [|by exists s].
  eexists. by apply relinks_set_prev, Ho.
Qed.

Lemma relinks_next_opt s o v :
  (forall x, o = Some x -> is_Some (s !! x)) ->
  exists s', relinks (match o with Some x => set_next x v | None => ret tt end) s
    (set_next_of o v (links s)) s'.
Proof.
  intros Ho. destruct o as [x|]; [|by exists s].
  eexists. by apply relinks_set_next, Ho.
Qed.

Lemma relinks_is_Some m s F s' i :
  relinks m s F s' -> is_Some (s !! i) -> is_Some (s' !! i).
Proof. intros (_&Hp&_). by apply same_payload_lookup. Qed.

(** Pointwise comparison of relinked maps. *)
Ltac links_case :=
  unfold setl, set_prev_of, set_next_of in *;
  repeat first [case_decide | case_match]; simplify_eq; try done.

Section runs.
  Context (s : slabs) (l1 l2 : list nat) (t m : nat).
  Context (Hl : dlist (links s) (l1 ++ t :: l2)).

Lemma neighbours :
  links s t = Some (last_of l1 None, first_of l2 None) /\
  last_of l1 None <> Some t /\ first_of l2 None <> Some t /\
  (forall x, last_of l1 None = Some x -> is_Some (s !! x)) /\
  (forall x, first_of l2 None = Some x -> is_Some (s !! x)) /\
  is_Some (s !! t) /\
  (forall x, last_of l1 None = Some x -> first_of l2 None <> Some x).
Proof. exact (dlist_neighbours s l1 t l2 Hl). Qed.

Lemma insertafter_run :
  m ∉ l1 ++ t :: l2 -> is_Some (s !! m) ->
  exists s', insertafter t m s = Ok tt s' /\ same_payload s s' /\
    dlist (links s') (l1 ++ t :: m :: l2).
Proof.
  intros Hm Hms. destruct neighbours as (Ht&_&Hnt&_&Hns&Hts&_).
  assert (m <> t) as Hmt by (intros ->; set_solver).
  assert (first_of l2 None <> Some m) as Hnm.
  { intros E. apply Hm. eapply first_of_in; [|exact E]. set_solver. }
  pose proof (dlist_insert_after _ _ _ _ _ Hl Hm) as Hl'.
  destruct (links_is_Some s m) as [[pm nm] Hlm];
    [destruct Hms; by eapply lookup_lt_Some|].
  set (nx := first_of l2 None) in *. unfold insertafter.
  pose proof (relinks_set_prev s m (Some t) Hms) as R1.
  set (s1 := alter _ m s) in *. rewrite (bind_Ok _ _ _ _ _ (proj1 R1)).
  destruct (nd_links s1 t (last_of l1 None) nx) as (n1&N1&_&Hn1).
  { rewrite (proj2 (proj2 R1)). links_case. }
  rewrite (bind_Ok _ _ _ _ _ N1), Hn1.
  destruct (relinks_prev_opt s1 nx (Some m)) as [s2 R2].
  { intros x E. eapply relinks_is_Some; eauto. }
  rewrite (bind_Ok _ _ _ _ _ (proj1 R2)).
  destruct (nd_links s2 t (last_of l1 None) nx) as (n2&N2&_&Hn2).
  { rewrite (proj2 (proj2 R2)), set_prev_of_ne, (proj2 (proj2 R1)) by done. links_case. }
  rewrite (bind_Ok _ _ _ _ _ N2), Hn2.
  assert (forall i, is_Some (s !! i) -> is_Some (s2 !! i)) as Hs2.
  { intros. eapply relinks_is_Some, relinks_is_Some; eauto. }
  pose proof (relinks_set_next s2 m nx (Hs2 _ Hms)) as R3.
  set (s3 := alter _ m s2) in *. rewrite (bind_Ok _ _ _ _ _ (proj1 R3)).
  pose proof (relinks_set_next s3 t (Some m) (relinks_is_Some _ _ _ _ _ R3 (Hs2 _ Hts))) as R4.
  destruct R1 as (_&P1&L1), R2 as (_&P2&L2), R3 as (_&P3&L3), R4 as (E4&P4&L4).
  rewrite E4. eexists. split; [done|]. split.
  { exact (same_payload_trans _ _ _ (same_payload_trans _ _ _ P1 P2)
             (same_payload_trans _ _ _ P3 P4)). }
  eapply dlist_frame; [|exact Hl'].
  intros j _. rewrite L4.
  rewrite (set_next_of_ext _ _ _ _ (fun i => eq_trans (L3 i)
    (set_next_of_ext _ _ _ _ (fun i => eq_trans (L2 i)
      (set_prev_of_ext _ _ _ _ L1 i)) i)) j).
  clear - Hmt Hnm Hnt Hlm Ht.
  destruct nx; links_case; by rewrite ?Hlm, ?Ht.
Qed.

Lemma insertBefore_run :
  m ∉ l1 ++ t :: l2 -> is_Some (s !! m) ->
  exists s', insertBefore t m s = Ok tt s' /\ same_payload s s' /\
    dlist (links s') (l1 ++ m :: t :: l2).
Proof.
  intros Hm Hms. destruct neighbours as (Ht&Hpt&_&Hps&_&Hts&_).
  assert (m <> t) as Hmt by (intros ->; set_solver).
  assert (last_of l1 None <> Some m) as Hpm.
  { intros E. apply Hm. eapply last_of_in; [|exact E]. set_solver. }
  pose proof (dlist_insert_before _ _ _ _ _ Hl Hm) as Hl'.
  destruct (links_is_Some s m) as [[pm nm] Hlm];
    [destruct Hms; by eapply lookup_lt_Some|].
  set (pv := last_of l1 None) in *. unfold insertBefore.
  pose proof (relinks_set_next s m (Some t) Hms) as R1.
  set (s1 := alter _ m s) in *. rewrite (bind_Ok _ _ _ _ _ (proj1 R1)).
  destruct (nd_links s1 t pv (first_of l2 None)) as (n1&N1&Hn1&_).
  { rewrite (proj2 (proj2 R1)). links_case. }
  rewrite (bind_Ok _ _ _ _ _ N1), Hn1.
  destruct (relinks_next_opt s1 pv (Some m)) as [s2 R2].
  { intros x E. eapply relinks_is_Some; eauto. }
  rewrite (bind_Ok _ _ _ _ _ (proj1 R2)).
  destruct (nd_links s2 t pv (first_of l2 None)) as (n2&N2&Hn2&_).
  { rewrite (proj2 (proj2 R2)), set_next_of_ne, (proj2 (proj2 R1)) by done. links_case. }
  rewrite (bind_Ok _ _ _ _ _ N2), Hn2.
  assert (forall i, is_Some (s !! i) -> is_Some (s2 !! i)) as Hs2.
  { intros. eapply relinks_is_Some, relinks_is_Some; eauto. }
  pose proof (relinks_set_prev s2 m pv (Hs2 _ Hms)) as R3.
  set (s3 := alter _ m s2) in *. rewrite (bind_Ok _ _ _ _ _ (proj1 R3)).
  pose proof (relinks_set_prev s3 t (Some m) (relinks_is_Some _ _ _ _ _ R3 (Hs2 _ Hts))) as R4.
  destruct R1 as (_&P1&L1), R2 as (_&P2&L2), R3 as (_&P3&L3), R4 as (E4&P4&L4).
  rewrite E4. eexists. split; [done|]. split.
  { exact (same_payload_trans _ _ _ (same_payload_trans _ _ _ P1 P2)
             (same_payload_trans _ _ _ P3 P4)). }
  eapply dlist_frame; [|exact Hl'].
  intros j _. rewrite L4.
  rewrite (set_prev_of_ext _ _ _ _ (fun i => eq_trans (L3 i)
    (set_prev_of_ext _ _ _ _ (fun i => eq_trans (L2 i)
      (set_next_of_ext _ _ _ _ L1 i)) i)) j).
  clear - Hmt Hpm Hpt Hlm Ht.
  destruct pv; links_case; by rewrite ?Hlm, ?Ht.
Qed.

Lemma remove_run :
  exists s', remove t s = Ok tt s' /\ same_payload s s' /\
    dlist (links s') (l1 ++ l2) /\ links s' t = Some (None, None).
Proof.
  destruct neighbours as (Ht&Hpt&Hnt&Hps&Hns&Hts&Hpn).
  pose proof (dlist_unlink _ _ _ _ Hl) as Hl'.
  assert (t ∉ l1 ++ l2) as Htl.
  { destruct Hl as [Hnd _]. rewrite <- Permutation_middle in Hnd.
    by apply NoDup_cons in Hnd as [??]. }
  set (pv := last_of l1 None) in *. set (nx := first_of l2 None) in *. unfold remove.
  destruct (nd_links _ _ _ _ Ht) as (n1&N1&Hp1&Hn1).
  rewrite (bind_Ok _ _ _ _ _ N1), Hp1, Hn1.
  destruct (relinks_next_opt s pv nx Hps) as [s1 R1].
  rewrite (bind_Ok _ _ _ _ _ (proj1 R1)).
  destruct (nd_links s1 t pv nx) as (n2&N2&Hp2&Hn2).
  { by rewrite (proj2 (proj2 R1)), set_next_of_ne. }
  rewrite (bind_Ok _ _ _ _ _ N2), Hp2, Hn2.
  destruct (relinks_prev_opt s1 nx pv) as [s2 R2].
  { intros x E. eapply relinks_is_Some; eauto. }
  rewrite (bind_Ok _ _ _ _ _ (proj1 R2)).
  assert (is_Some (s2 !! t)) as Hts2.
  { eapply relinks_is_Some, relinks_is_Some; eauto. }
  pose proof (relinks_set_next s2 t None Hts2) as R3.
  set (s3 := alter _ t s2) in *. rewrite (bind_Ok _ _ _ _ _ (proj1 R3)).
  pose proof (relinks_set_prev s3 t None (relinks_is_Some _ _ _ _ _ R3 Hts2)) as R4.
  destruct R1 as (_&P1&L1), R2 as (_&P2&L2), R3 as (_&P3&L3), R4 as (E4&P4&L4).
  rewrite E4. eexists. split; [done|]. split_and!.
  { exact (same_payload_trans _ _ _ (same_payload_trans _ _ _ P1 P2)
             (same_payload_trans _ _ _ P3 P4)). }
  - eapply dlist_frame; [|exact Hl']. intros j Hj.
    assert (j <> t) by (intros ->; done).
    rewrite L4, set_prev_of_ne, L3, set_next_of_ne, L2 by congruence.
    by apply set_prev_of_ext.
  - rewrite L4, set_prev_of_eq, L3, set_next_of_eq, L2, set_prev_of_ne by done.
    by rewrite L1, set_next_of_ne, Ht.
Qed.
End runs.

(** ** The three queues *)

(** The whole list, headers included. *)
Definition spine (h : list nat) (q : list (list nat)) : list nat :=
  match h, q with
  | [h0; h1; h2; h3], [q0; q1; q2] =>
      h0 :: q0 ++ h1 :: q1 ++ h2 :: q2 ++ [h3]
  | _, _ => []
  end.

(** [x] is an element of level [i]. *)
Definition at_level (s : slabs) (i : nat) (x : nat) : Prop :=
  exists n, s !! x = Some n /\ m_state n = 1 /\ m_level n = Z.of_nat i.

(** The slabs hold the queues [q], cut by the headers [hs]... *)
Definition mlfq_shape (hs : list (option nat)) (s : slabs) (q : list (list nat)) : Prop :=
  exists h, hs = Some <$> h /\ length h = 4%nat /\ length q = 3%nat /\
    dlist (links s) (spine h q) /\
    (forall x, x ∈ h -> exists n, s !! x = Some n /\ m_state n = -1).
(** ... and every element is marked with the level of its queue. *)
Definition levels (s : slabs) (q : list (list nat)) : Prop :=
  forall i l x, q !! i = Some l -> x ∈ l -> at_level s i x.
Definition mlfq_rep (hs : list (option nat)) (s : slabs) (q : list (list nat)) : Prop :=
  mlfq_shape hs s q /\ levels s q.

(** [x] taken out of a queue. *)
Definition take_out (x : nat) (l : list nat) : list nat := filter (fun y => y <> x) l.

(** What the routines do to the queues. *)
Definition q_push (x : nat) (q : list (list nat)) : list (list nat) :=
  alter (cons x) 0%nat q.
Definition q_rotate (i x : nat) (q : list (list nat)) : list (list nat) :=
  alter (fun l => take_out x l ++ [x]) i q.
Definition q_demote (i x : nat) (q : list (list nat)) : list (list nat) :=
  alter (fun l => l ++ [x]) (S i) (alter (take_out x) i q).

Lemma take_out_split x l1 l2 :
  NoDup (l1 ++ x :: l2) -> take_out x (l1 ++ x :: l2) = l1 ++ l2.
Proof.
  intros Hnd. unfold take_out. rewrite filter_app, filter_cons_False by congruence.
  apply NoDup_app in Hnd as (_&Hd&[Hx _]%NoDup_cons).
  rewrite !list_filter_all; [done| |]; intros y Hy ->; [done|].
  apply (Hd x Hy). by left.
Qed.

Lemma at_level_payload s s' i x :
  same_payload s s' -> at_level s i x -> at_level s' i x.
Proof.
  intros [_ Hp] (n&Hn&?&?). specialize (Hp x). rewrite Hn in Hp.
  destruct (s' !! x) as [n'|] eqn:Hn'; [|done]. exists n'.
  injection Hp as ????. split_and!; congruence.
Qed.

Lemma headers_payload s s' (h : list nat) :
  same_payload s s' ->
  (forall x, x ∈ h -> exists n, s !! x = Some n /\ m_state n = -1) ->
  (forall x, x ∈ h -> exists n, s' !! x = Some n /\ m_state n = -1).
Proof.
  intros [_ Hp] Hh x Hx. destruct (Hh x Hx) as (n&Hn&?). specialize (Hp x).
  rewrite Hn in Hp. destruct (s' !! x) as [n'|] eqn:Hn'; [|done].
  exists n'. injection Hp as ????. split; congruence.
Qed.

Lemma levels_payload s s' q : same_payload s s' -> levels s q -> levels s' q.
Proof. intros Hp Hq i l x Hi Hx. eapply at_level_payload; [done|]. by eapply Hq. Qed.

(** A shape with its four headers and three queues named. *)
Lemma shape_open hs s q :
  mlfq_shape hs s q ->
  exists h0 h1 h2 h3 q0 q1 q2,
    hs = [Some h0; Some h1; Some h2; Some h3] /\ q = [q0; q1; q2] /\
    dlist (links s) (h0 :: q0 ++ h1 :: q1 ++ h2 :: q2 ++ [h3]) /\
    (forall x, x ∈ [h0; h1; h2; h3] -> exists n, s !! x = Some n /\ m_state n = -1).
Proof.
  intros (h&->&Hh&Hq&?&?).
  destruct h as [|h0 [|h1 [|h2 [|h3 [|]]]]]; try done.
  destruct q as [|q0 [|q1 [|q2 [|]]]]; try done.
  by exists h0, h1, h2, h3, q0, q1, q2.
Qed.

(** A change of links that keeps the headers where they are. *)
Lemma shape_close hs s s' q q' h l :
  hs = Some <$> h -> mlfq_shape hs s q -> same_payload s s' ->
  dlist (links s') l -> l = spine h q' -> length q' = 3%nat -> mlfq_shape hs s' q'.
Proof.
  intros -> (h'&Heq&Hh&_&_&Hst) Hp Hl -> Hq'.
  apply (inj (fmap Some)) in Heq as <-.
  exists h. split_and!; [done..|]. by eapply headers_payload.
Qed.

(** Levels of the queues after a change of one of them. *)
Lemma levels_alter s (q : list (list nat)) i f :
  levels s q ->
  (forall l x, q !! i = Some l -> x ∈ f l -> at_level s i x) ->
  levels s (alter f i q).
Proof.
  intros Hq Hf j l x. destruct (decide (i = j)) as [->|].
  - rewrite list_lookup_alter_eq. destruct (q !! j) eqn:Hj; [|done].
    cbn. intros [= <-]. by apply Hf.
  - rewrite list_lookup_alter_ne by done. apply Hq.
Qed.

Ltac list_eq := cbn; repeat (rewrite <- ?app_assoc; cbn); done.

(** A new node behind [headers[0]] is the first of level 0. *)
Lemma insertafter_shape hs s q h0 x :
  mlfq_shape hs s q -> hs !! 0%nat = Some (Some h0) -> is_Some (s !! x) ->
  x ∉ spine (omap id hs) q ->
  exists s', insertafter h0 x s = Ok tt s' /\ same_payload s s' /\
    mlfq_shape hs s' (q_push x q).
Proof.
  intros Hs Hh0 Hx Hnew.
  destruct (shape_open _ _ _ Hs) as (h0'&h1&h2&h3&q0&q1&q2&->&->&Hl&Hh).
  injection Hh0 as ->.
  destruct (insertafter_run s [] (q0 ++ h1 :: q1 ++ h2 :: q2 ++ [h3]) h0 x Hl Hnew Hx)
    as (s'&Hrun&Hp&Hl').
  exists s'. split; [done|]. split; [done|].
  by eapply (shape_close _ s s' _ _ [h0; h1; h2; h3]).
Qed.

(** Taking [x] out of its queue [i]. *)
Lemma remove_shape hs s q i l x :
  mlfq_shape hs s q -> q !! i = Some l -> x ∈ l ->
  exists s', remove x s = Ok tt s' /\ same_payload s s' /\
    mlfq_shape hs s' (alter (take_out x) i q) /\
    x ∉ spine (omap id hs) (alter (take_out x) i q).
Proof.
  intros Hs Hi Hx.
  destruct (shape_open _ _ _ Hs) as (h0&h1&h2&h3&q0&q1&q2&->&->&Hl&Hh).
  apply list_elem_of_split in Hx as (a&b&->).
  assert (exists A B, h0 :: q0 ++ h1 :: q1 ++ h2 :: q2 ++ [h3] = (A ++ a) ++ x :: b ++ B /\
     (A ++ a) ++ b ++ B = spine [h0; h1; h2; h3] (alter (fun _ => a ++ b) i [q0; q1; q2]))
    as (A&B&Heq&Heq').
  { destruct i as [|[|[|i]]]; [| | |done]; injection Hi as ->.
    - exists [h0], (h1 :: q1 ++ h2 :: q2 ++ [h3]). split; list_eq.
    - exists (h0 :: q0 ++ [h1]), (h2 :: q2 ++ [h3]). split; list_eq.
    - exists (h0 :: q0 ++ h1 :: q1 ++ [h2]), [h3]. split; list_eq. }
  pose proof Hl as [Hnd' _]. rewrite Heq in Hnd'.
  assert (NoDup (a ++ x :: b)) as Hnd.
  { rewrite <- app_assoc in Hnd'.
    apply NoDup_app in Hnd' as (_&_&Hnd). rewrite app_comm_cons, app_assoc in Hnd.
    by apply NoDup_app in Hnd as (Hnd&_). }
  rewrite <- Permutation_middle in Hnd'. apply NoDup_cons in Hnd' as [Hx' _].
  rewrite Heq in Hl. destruct (remove_run s (A ++ a) (b ++ B) x Hl) as (s'&Hrun&Hp&Hl'&_).
  exists s'. split; [done|]. split; [done|].
  assert (alter (take_out x) i [q0; q1; q2] = alter (fun _ => a ++ b) i [q0; q1; q2]) as ->.
  { destruct i as [|[|[|i]]]; [| | |done]; injection Hi as ->; cbn;
      by rewrite take_out_split. }
  split; [|by rewrite Heq' in Hx'].
  eapply (shape_close _ s s' _ _ [h0; h1; h2; h3]); try done. by rewrite length_alter.
Qed.

(** Linking [x] in before the header that closes queue [i]. *)
Lemma insertBefore_shape hs s q i h x :
  mlfq_shape hs s q -> (i < 3)%nat -> hs !! S i = Some (Some h) -> is_Some (s !! x) ->
  x ∉ spine (omap id hs) q ->
  exists s', insertBefore h x s = Ok tt s' /\ same_payload s s' /\
    mlfq_shape hs s' (alter (fun l => l ++ [x]) i q).
Proof.
  intros Hs Hi3 Hhi Hx Hnew.
  destruct (shape_open _ _ _ Hs) as (h0&h1&h2&h3&q0&q1&q2&->&->&Hl&Hh). cbn in Hnew.
  assert (exists l1 l2, h0 :: q0 ++ h1 :: q1 ++ h2 :: q2 ++ [h3] = l1 ++ h :: l2 /\
     l1 ++ x :: h :: l2
     = spine [h0; h1; h2; h3] (alter (fun l => l ++ [x]) i [q0; q1; q2]))
    as (l1&l2&Heq&Heq').
  { destruct i as [|[|[|i]]]; [| | |lia]; injection Hhi as ->.
    - exists (h0 :: q0), (q1 ++ h2 :: q2 ++ [h3]). split; list_eq.
    - exists (h0 :: q0 ++ h1 :: q1), (q2 ++ [h3]). split; list_eq.
    - exists (h0 :: q0 ++ h1 :: q1 ++ h2 :: q2), []. split; list_eq. }
  rewrite Heq in Hl, Hnew.
  destruct (insertBefore_run s l1 l2 h x Hl Hnew Hx) as (s'&Hrun&Hp&Hl').
  exists s'. split; [done|]. split; [done|].
  eapply (shape_close _ s s' _ _ [h0; h1; h2; h3]); try done. by rewrite length_alter.
Qed.

(** Updates of a node that leave its links alone. *)
Lemma ndset_shape hs s q x f :
  mlfq_shape hs s q -> is_Some (s !! x) ->
  (forall n, m_prev (f n) = m_prev n) -> (forall n, m_next (f n) = m_next n) ->
  x ∉ omap id hs ->
  ndset x f s = Ok tt (alter f x s) /\ mlfq_shape hs (alter f x s) q.
Proof.
  intros (h&->&Hh&Hq&Hl&Hst) [n Hn] Hp Hnx Hx. split; [by eapply ndset_run|].
  exists h. split_and!; [done..| |].
  - eapply dlist_frame; [|done]. intros y _. by apply links_alter_same.
  - intros y Hy. rewrite list_lookup_alter_ne; [by apply Hst|]. intros ->. apply Hx.
    apply list_elem_of_omap. exists (Some y). split; [|done]. by apply list_elem_of_fmap_2.
Qed.

Lemma queued_not_header hs s q i l x :
  mlfq_shape hs s q -> q !! i = Some l -> x ∈ l -> x ∉ omap id hs.
Proof.
  intros Hs Hi Hx Hin.
  destruct (shape_open _ _ _ Hs) as (h0&h1&h2&h3&q0&q1&q2&->&->&[Hnd _]&Hh).
  cbn in Hin. destruct i as [|[|[|i]]]; [| | |done]; injection Hi as ->;
    repeat progress (rewrite ?NoDup_cons, ?NoDup_app in Hnd); set_solver.
Qed.

(** ** The invariant of the slabs and its operations *)

(** Every slab in use is a header or an element of a queue, so that a slab
    is free as long as fewer than [NPROC] nodes are queued. *)
Definition mlfq_inv (hs : list (option nat)) (s : slabs) (q : list (list nat)) : Prop :=
  mlfq_rep hs s q /\ length s = (NPROC + 4)%nat /\
  forall x n, s !! x = Some n -> m_state n <> 0 -> x ∈ spine (omap id hs) q.

(** The operations as the scheduler and the system calls use them. *)
Inductive op :=
| Add (p : nat)
| Lower (x : nat)
| Requeue (x : nat)
| Delete (x : nat).

Definition exec_op (hs : list (option nat)) (o : op) : M slabs unit :=
  match o with
  | Add p => m <- allocnode p ;; h <- header hs 0 ;; insertafter h m
  | Lower x => lowerlevel hs x
  | Requeue x => requeue hs x
  | Delete x => delete x
  end.

(** The same on three queues: a new process is first of level 0, a demoted
    one last of the next level (the last level keeps its order), a requeued
    one last of its own level. *)
Inductive spec_step (q : list (list nat)) : op -> list (list nat) -> Prop :=
| spec_add p x : x ∉ mjoin q -> spec_step q (Add p) (q_push x q)
| spec_lower i l x : q !! i = Some l -> x ∈ l -> (i < 2)%nat ->
    spec_step q (Lower x) (q_demote i x q)
| spec_lowest l x : q !! 2%nat = Some l -> x ∈ l -> spec_step q (Lower x) q
| spec_requeue i l x : q !! i = Some l -> x ∈ l -> spec_step q (Requeue x) (q_rotate i x q)
| spec_delete i l x : q !! i = Some l -> x ∈ l ->
    spec_step q (Delete x) (alter (take_out x) i q).

(** When an operation may be used. *)
Definition allowed (o : op) (q : list (list nat)) : Prop :=
  match o with
  | Add _ => (length (mjoin q) < NPROC)%nat
  | Lower x | Requeue x | Delete x => x ∈ mjoin q
  end.

Lemma spine_perm h q :
  length h = 4%nat -> length q = 3%nat -> spine h q ≡ₚ h ++ mjoin q.
Proof.
  intros Hh Hq.
  destruct h as [|h0 [|h1 [|h2 [|h3 [|]]]]]; try done.
  destruct q as [|q0 [|q1 [|q2 [|]]]]; try done. cbn. rewrite app_nil_r. solve_Permutation.
Qed.

Lemma elem_of_spine hs s q x :
  mlfq_shape hs s q -> x ∈ spine (omap id hs) q <-> x ∈ omap id hs \/ x ∈ mjoin q.
Proof.
  intros (h&->&Hh&Hq&_).
  assert (omap id (Some <$> h) = h) as -> by (clear; induction h; cbn; congruence).
  by rewrite spine_perm, elem_of_app.
Qed.

Lemma elem_of_queues (q : list (list nat)) x :
  x ∈ mjoin q <-> exists i l, q !! i = Some l /\ x ∈ l.
Proof.
  rewrite list_elem_of_join. setoid_rewrite list_elem_of_lookup at 2. naive_solver.
Qed.

(** *** Allocation *)
Lemma find_free_Some s i k n :
  s !! k = Some n -> m_state n = 0 ->
  exists k' n', find_free s i = Some (i + k')%nat /\ s !! k' = Some n' /\ m_state n' = 0.
Proof.
  revert i k. induction s as [|m s IH]; intros i k Hk Hn; [done|]. cbn.
  destruct (m_state m =? 0) eqn:E; bool_hyps.
  { exists 0%nat, m. by rewrite Nat.add_0_r. }
  destruct k as [|k]; [by simplify_eq/=|].
  destruct (IH (S i) k Hk Hn) as (k'&n'&->&?&?).
  exists (S k'), n'. by rewrite Nat.add_succ_r.
Qed.

Lemma inv_free hs s q :
  mlfq_inv hs s q -> (length (mjoin q) < NPROC)%nat ->
  exists k n, s !! k = Some n /\ m_state n = 0.
Proof.
  intros ((Hs&_)&Hlen&Hacc) Hq.
  destruct (decide (Forall (fun n => m_state n <> 0) s)) as [Hall|Hnot].
  - exfalso. assert (seq 0 (length s) ⊆ spine (omap id hs) q) as Hsub.
    { intros x [_ Hx]%elem_of_seq. destruct (lookup_lt_is_Some_2 s x Hx) as [n Hn].
      eapply Hacc; [done|]. by eapply Forall_lookup_1 in Hall. }
    apply NoDup_submseteq, submseteq_length in Hsub; [|apply NoDup_seq].
    destruct Hs as (h&->&Hh&Hq3&_).
    assert (omap id (Some <$> h) = h) as E by (clear; induction h; cbn; congruence).
    rewrite E, spine_perm, length_app, Hh, length_seq, Hlen in Hsub by done. lia.
  - apply not_Forall_Exists, Exists_exists in Hnot as (n&[k Hk]%list_elem_of_lookup&Hn);
      [|apply _].
    exists k, n. split; [done|]. cbn in Hn. lia.
Qed.

Lemma allocnode_run hs s q p :
  mlfq_inv hs s q -> (length (mjoin q) < NPROC)%nat ->
  exists x n, s !! x = Some n /\ m_state n = 0 /\
    allocnode p s = Ok x (<[x := mkNode None None (Some p) 1 0 0]> s).
Proof.
  intros Hi Hq. destruct (inv_free _ _ _ Hi Hq) as (k&n&Hk&Hn).
  destruct (find_free_Some s 0 k n Hk Hn) as (x&m&Hf&Hx&Hm). cbn in Hf.
  exists x, m. split_and!; [done..|]. unfold allocnode. mstep. unfold id. rewrite Hf. mstep.
  rewrite (bind_Ok _ _ _ _ _ (ndset_run _ _ _ _ Hx)).
  erewrite bind_Ok; [|eapply ndset_run; by rewrite list_lookup_alter_eq, Hx].
  erewrite bind_Ok; [|eapply ndset_run; by rewrite !list_lookup_alter_eq, Hx].
  unfold ret. f_equal. apply list_eq. intros j. destruct (decide (x = j)) as [<-|].
  - rewrite list_lookup_insert_eq by (by eapply lookup_lt_Some).
    rewrite !list_lookup_alter_eq, Hx. done.
  - by rewrite list_lookup_insert_ne, !list_lookup_alter_ne.
Qed.

(** *** Each operation *)
Lemma elem_of_headers hs s q x :
  mlfq_shape hs s q -> x ∈ omap id hs -> exists n, s !! x = Some n /\ m_state n = -1.
Proof.
  intros (h&->&_&_&_&Hst) Hx. apply Hst.
  by apply list_elem_of_omap in Hx as (?&(?&->&?)%list_elem_of_fmap&[= ->]).
Qed.

Lemma free_not_spine hs s q x n :
  mlfq_rep hs s q -> s !! x = Some n -> m_state n = 0 -> x ∉ spine (omap id hs) q.
Proof.
  intros [Hs Hv] Hx Hn. rewrite (elem_of_spine _ _ _ _ Hs), elem_of_queues.
  intros [Hh|(i&l&Hi&Hl)].
  - destruct (elem_of_headers _ _ _ _ Hs Hh) as (m&?&?). naive_solver lia.
  - destruct (Hv _ _ _ Hi Hl) as (m&?&?&?). naive_solver lia.
Qed.

(** A slab outside the list may be overwritten. *)
Lemma rep_insert_other hs s q x n :
  mlfq_rep hs s q -> x ∉ spine (omap id hs) q -> mlfq_rep hs (<[x := n]> s) q.
Proof.
  intros [Hs Hv] Hx. pose proof Hs as (h&Hhs&Hh&Hq&Hl&Hst).
  assert (forall y, y ∈ spine (omap id hs) q -> <[x := n]> s !! y = s !! y) as Hsame.
  { intros y Hy. rewrite list_lookup_insert_ne; [done|]. by intros ->. }
  assert (omap id hs = h) as E by (subst; clear; induction h; cbn; congruence).
  split; [exists h; split_and!; [done..| |]|].
  - eapply dlist_frame; [|done]. intros y Hy. unfold links. rewrite Hsame; [done|]. by rewrite E.
  - intros y Hy. rewrite Hsame; [by apply Hst|]. apply (elem_of_spine _ _ _ _ Hs). left.
    by rewrite E.
  - intros i l y Hi Hy. destruct (Hv _ _ _ Hi Hy) as (m&?&?&?). exists m. rewrite Hsame; [done|].
    apply (elem_of_spine _ _ _ _ Hs). right. apply elem_of_queues. eauto.
Qed.

Lemma payload_state s s' x n' :
  same_payload s s' -> s' !! x = Some n' ->
  exists n, s !! x = Some n /\ payload n = payload n'.
Proof.
  intros [_ Hp] Hx. specialize (Hp x). rewrite Hx in Hp. destruct (s !! x) as [n|]; [|done].
  injection Hp as ????. exists n. unfold payload. split; congruence.
Qed.

Lemma header_lookup hs s q i :
  mlfq_shape hs s q -> (i < 4)%nat -> exists h, hs !! i = Some (Some h) /\
    forall s', header hs (Z.of_nat i) s' = Ok h s'.
Proof.
  intros (h&->&Hh&_) Hi. destruct (lookup_lt_is_Some_2 h i) as [x Hx]; [lia|].
  assert ((Some <$> h) !! i = Some (Some x)) as E by (by rewrite list_lookup_fmap, Hx).
  exists x. split; [done|]. intros s'. unfold header.
  by rewrite zlookup_nat, E.
Qed.

Lemma add_inv hs s q p :
  mlfq_inv hs s q -> (length (mjoin q) < NPROC)%nat ->
  exists x s', exec_op hs (Add p) s = Ok tt s' /\ (x ∉ mjoin q) /\
    mlfq_inv hs s' (q_push x q) /\
    exists n, s' !! x = Some n /\ payload n = (Some p, 1, 0, 0).
Proof.
  intros Hi Hq. destruct (allocnode_run _ _ _ p Hi Hq) as (x&n&Hx&Hn&Ha).
  destruct Hi as (Hr&Hlen&Hacc). pose proof (free_not_spine _ _ _ _ _ Hr Hx Hn) as Hnew.
  pose proof (rep_insert_other _ _ _ x (mkNode None None (Some p) 1 0 0) Hr Hnew) as [Hs1 Hv1].
  set (s1 := <[x := _]> s) in *.
  assert (s1 !! x = Some (mkNode None None (Some p) 1 0 0)) as Hx1.
  { apply list_lookup_insert_eq. by eapply lookup_lt_Some. }
  destruct (header_lookup _ _ _ 0 Hs1) as (h0&Hh0&Hrun); [lia|].
  destruct (insertafter_shape _ _ _ h0 x Hs1 Hh0) as (s2&Hins&Hp&Hs2); [done..|].
  pose proof (proj2 Hp x) as Hpx. rewrite Hx1 in Hpx.
  destruct (s2 !! x) as [n2|] eqn:Hx2; [|done].
  exists x, s2. split_and!.
  - cbn [exec_op]. rewrite (bind_Ok _ _ _ _ _ Ha), (bind_Ok _ _ _ _ _ (Hrun s1)). done.
  - intros Hin. apply Hnew, (elem_of_spine _ _ _ _ (proj1 Hr)). by right.
  - split_and!; [split; [done|]| |].
    + apply levels_alter; [by eapply levels_payload|]. intros l y Hl [->|Hy]%elem_of_cons.
      * exists n2. by injection Hpx as ????.
      * eapply at_level_payload; [done|]. by eapply Hv1.
    + rewrite (proj1 Hp). unfold s1. by rewrite length_insert.
    + intros y m Hy Hm. destruct (payload_state _ _ _ _ Hp Hy) as (m'&Hy'&[=_ E _ _]).
      apply (elem_of_spine _ _ _ _ Hs2).
      destruct (decide (x = y)) as [<-|Hne].
      { right. apply elem_of_queues. destruct q as [|q0 q']; [by destruct Hs1 as (?&_&_&?&_)|].
        exists 0%nat, (x :: q0). split; [done|]. by left. }
      unfold s1 in Hy'. rewrite list_lookup_insert_ne in Hy' by done.
      eapply Hacc, (elem_of_spine _ _ _ _ (proj1 Hr)) in Hy' as [?|Hin]; [by left| |congruence].
      right. apply elem_of_queues in Hin as (i&l&Hil&Hyl). apply elem_of_queues.
      destruct i; [exists 0%nat, (x :: l)|exists (S i), l]; (split; [|set_solver]);
        unfold q_push; [by rewrite list_lookup_alter_eq, Hil|by rewrite list_lookup_alter_ne].
  - exists n2. split; [done|]. exact (inj Some _ _ Hpx).
Qed.

Lemma elem_of_take_out x y l : y ∈ take_out x l <-> y <> x /\ y ∈ l.
Proof. unfold take_out. by rewrite list_elem_of_filter. Qed.

Lemma queued_at i l x (q : list (list nat)) hs s :
  mlfq_rep hs s q -> q !! i = Some l -> x ∈ l ->
  (i < 3)%nat /\ exists n, s !! x = Some n /\ m_state n = 1 /\ m_level n = Z.of_nat i.
Proof.
  intros [Hs Hv] Hi Hx. split; [|by eapply Hv].
  destruct Hs as (?&_&_&Hq&_). apply lookup_lt_Some in Hi. lia.
Qed.

(** [remove], with what it keeps of the levels. *)
Lemma remove_rep hs s q i l x :
  mlfq_rep hs s q -> q !! i = Some l -> x ∈ l ->
  exists s', remove x s = Ok tt s' /\ same_payload s s' /\
    mlfq_rep hs s' (alter (take_out x) i q) /\
    x ∉ spine (omap id hs) (alter (take_out x) i q).
Proof.
  intros [Hs Hv] Hi Hx. destruct (remove_shape _ _ _ _ _ _ Hs Hi Hx) as (s'&?&Hp&?&?).
  exists s'. split_and!; try done. split; [done|].
  apply levels_alter; [by eapply levels_payload|].
  intros l' y Hl' [_ Hy]%elem_of_take_out. eapply at_level_payload; [done|]. by eapply Hv.
Qed.

(** Slabs in use after [x] has left one queue. *)
Lemma accounted_out hs s s' q i l x y n' :
  mlfq_inv hs s q -> same_payload s s' -> q !! i = Some l -> x ∈ l ->
  s' !! y = Some n' -> m_state n' <> 0 -> y <> x ->
  y ∈ omap id hs \/ y ∈ mjoin (alter (take_out x) i q).
Proof.
  intros (Hr&_&Hacc) Hp Hi Hx Hy Hn Hne.
  destruct (payload_state _ _ _ _ Hp Hy) as (n&Hy'&[=_ E _ _]).
  eapply Hacc, (elem_of_spine _ _ _ _ (proj1 Hr)) in Hy' as [?|Hin]; [by left| |congruence].
  right. apply elem_of_queues in Hin as (j&k&Hj&Hk). apply elem_of_queues.
  destruct (decide (i = j)) as [<-|].
  - exists i, (take_out x k). rewrite list_lookup_alter_eq, Hj.
    split; [done|]. by apply elem_of_take_out.
  - exists j, k. by rewrite list_lookup_alter_ne.
Qed.

Lemma delete_inv hs s q i l x :
  mlfq_inv hs s q -> q !! i = Some l -> x ∈ l ->
  exists s', delete x s = Ok tt s' /\ mlfq_inv hs s' (alter (take_out x) i q) /\
    (exists n, s' !! x = Some n /\ payload n = (None, 0, 0, 0)) /\
    (forall y, y <> x -> payload <$> s' !! y = payload <$> s !! y).
Proof.
  intros Hi Hq Hx. pose proof Hi as (Hr&Hlen&Hacc).
  destruct (remove_rep _ _ _ _ _ _ Hr Hq Hx) as (s1&Hrun&Hp&Hr1&Hx1).
  destruct (queued_at _ _ _ _ _ _ Hr Hq Hx) as (_&n&Hn&_).
  destruct (same_payload_lookup s s1 x Hp) as [n1 Hn1]; [by eexists|].
  set (f := fun n : mlfqnode => n <| m_state := 0 |> <| m_level := 0 |>
                      <| m_exec_time := 0 |> <| m_self := None |>).
  exists (<[x := f n1]> s1). split_and!.
  - unfold delete. rewrite (bind_Ok _ _ _ _ _ Hrun). fold f.
    rewrite (ndset_run _ _ _ _ Hn1). f_equal. by apply alter_as_insert.
  - pose proof (rep_insert_other _ _ _ x (f n1) Hr1 Hx1) as Hr2.
    split; [done|]. split; [rewrite length_insert, (proj1 Hp); done|].
    intros y m Hy Hm. apply (elem_of_spine _ _ _ _ (proj1 Hr2)).
    destruct (decide (y = x)) as [->|Hne].
    { rewrite list_lookup_insert_eq in Hy by (by eapply lookup_lt_Some). by simplify_eq. }
    rewrite list_lookup_insert_ne in Hy by done. by eapply accounted_out.
  - exists (f n1). split; [|done]. apply list_lookup_insert_eq. by eapply lookup_lt_Some.
  - intros y Hy. rewrite list_lookup_insert_ne by done. apply Hp.
Qed.

Lemma levels_other s q x f : levels s q -> x ∉ mjoin q -> levels (alter f x s) q.
Proof.
  intros Hv Hx i l y Hi Hy. destruct (Hv _ _ _ Hi Hy) as (n&?&?&?). exists n.
  rewrite list_lookup_alter_ne; [done|]. intros ->. apply Hx, elem_of_queues. eauto.
Qed.

Lemma levels_snoc s q i x :
  levels s q -> at_level s i x -> levels s (alter (fun l => l ++ [x]) i q).
Proof.
  intros Hv Hx. apply levels_alter; [done|].
  intros l y Hl [Hy| ->%list_elem_of_singleton]%elem_of_app; [by eapply Hv|done].
Qed.

Lemma elem_of_snoc_queue (q : list (list nat)) j x y :
  y ∈ mjoin q -> y ∈ mjoin (alter (fun l => l ++ [x]) j q).
Proof.
  rewrite !elem_of_queues. intros (i&l&Hi&Hy). destruct (decide (j = i)) as [->|].
  - exists i, (l ++ [x]). rewrite list_lookup_alter_eq, Hi. set_solver.
  - exists i, l. by rewrite list_lookup_alter_ne.
Qed.

Lemma snoc_queue_in (q : list (list nat)) j x :
  (j < length q)%nat -> x ∈ mjoin (alter (fun l => l ++ [x]) j q).
Proof.
  intros [l Hl]%lookup_lt_is_Some_2. apply elem_of_queues. exists j, (l ++ [x]).
  rewrite list_lookup_alter_eq, Hl. set_solver.
Qed.

(** Taking [x] out of queue [i] and appending it to queue [j]. *)
Lemma move_shape hs s q i l x j h :
  mlfq_inv hs s q -> q !! i = Some l -> x ∈ l -> (j < 3)%nat ->
  hs !! S j = Some (Some h) ->
  exists s1 s2, remove x s = Ok tt s1 /\ insertBefore h x s1 = Ok tt s2 /\
    same_payload s s1 /\ same_payload s s2 /\
    mlfq_shape hs s2 (alter (fun l => l ++ [x]) j (alter (take_out x) i q)) /\
    (x ∉ mjoin (alter (take_out x) i q)) /\
    (forall y n, s2 !! y = Some n -> m_state n <> 0 ->
       y ∈ spine (omap id hs) (alter (fun l => l ++ [x]) j (alter (take_out x) i q))).
Proof.
  intros Hi Hq Hx Hj Hh. pose proof Hi as (Hr&Hlen&Hacc).
  destruct (remove_rep _ _ _ _ _ _ Hr Hq Hx) as (s1&Hrun&Hp&Hr1&Hx1).
  destruct (queued_at _ _ _ _ _ _ Hr Hq Hx) as (_&n&Hn&_).
  destruct (insertBefore_shape _ _ _ j h x (proj1 Hr1) Hj Hh) as (s2&Hins&Hp2&Hs2);
    [by eapply same_payload_lookup; [exact Hp|exists n]|done|].
  pose proof (same_payload_trans _ _ _ Hp Hp2) as Hp'.
  exists s1, s2. split_and!; [done..| |].
  - intros Hin. apply Hx1, (elem_of_spine _ _ _ _ (proj1 Hr1)). by right.
  - intros y m Hy Hm. apply (elem_of_spine _ _ _ _ Hs2).
    destruct (decide (y = x)) as [->|Hne].
    + right. apply snoc_queue_in. rewrite length_alter.
      destruct (proj1 Hr) as (?&_&_&->&_). done.
    + destruct (accounted_out _ _ _ _ _ _ _ _ _ Hi Hp' Hq Hx Hy Hm Hne); [by left|].
      right. by apply elem_of_snoc_queue.
Qed.

Lemma requeue_inv hs s q i l x :
  mlfq_inv hs s q -> q !! i = Some l -> x ∈ l ->
  exists s', requeue hs x s = Ok tt s' /\ mlfq_inv hs s' (q_rotate i x q) /\
    same_payload s s'.
Proof.
  intros Hi Hq Hx. pose proof Hi as (Hr&Hlen&_).
  destruct (queued_at _ _ _ _ _ _ Hr Hq Hx) as (Hi3&n&Hn&Hst&Hlv).
  destruct (header_lookup _ _ _ (S i) (proj1 Hr)) as (h&Hh&Hhr); [lia|].
  destruct (move_shape _ _ _ _ _ _ i h Hi Hq Hx Hi3 Hh)
    as (s1&s2&Hrem&Hins&Hp1&Hp2&Hs2&Hx2&Hacc).
  assert (alter (fun l => l ++ [x]) i (alter (take_out x) i q) = q_rotate i x q) as Eq.
  { apply list_eq. intros j. unfold q_rotate. destruct (decide (i = j)) as [<-|].
    - rewrite !list_lookup_alter_eq. by destruct (q !! i).
    - by rewrite !list_lookup_alter_ne. }
  exists s2. split_and!; [| |done].
  - unfold requeue. rewrite (bind_Ok _ _ _ _ _ Hrem).
    destruct (at_level_payload s s1 i x Hp1) as (n1&Hn1&_&Hl1); [by exists n|].
    unfold nd at 1. rewrite (bind_Ok _ _ _ n1 s1); [|by rewrite Hn1]. rewrite Hl1.
    replace (Z.of_nat i + 1) with (Z.of_nat (S i)) by lia.
    by rewrite (bind_Ok _ _ _ _ _ (Hhr s1)).
  - rewrite Eq in Hs2, Hacc. split_and!; [split; [done|]|by rewrite (proj1 Hp2)|done].
    rewrite <- Eq. apply levels_snoc; [|eapply at_level_payload; [done|]; by exists n].
    apply levels_alter; [eapply levels_payload; [done|apply Hr]|].
    intros l' y Hl' [_ Hy]%elem_of_take_out. eapply at_level_payload; [done|]. by eapply Hr.
Qed.

Lemma lowerlevel_inv hs s q i l x :
  mlfq_inv hs s q -> q !! i = Some l -> x ∈ l -> (i < 2)%nat ->
  exists s', lowerlevel hs x s = Ok tt s' /\ mlfq_inv hs s' (q_demote i x q) /\
    (forall y, y <> x -> payload <$> s' !! y = payload <$> s !! y).
Proof.
  intros Hi Hq Hx Hi2. pose proof Hi as (Hr&Hlen&_).
  destruct (queued_at _ _ _ _ _ _ Hr Hq Hx) as (Hi3&n&Hn&Hst&Hlv).
  destruct (header_lookup _ _ _ (S (S i)) (proj1 Hr)) as (h&Hh&Hhr); [lia|].
  destruct (move_shape _ _ _ _ _ _ (S i) h Hi Hq Hx ltac:(lia) Hh)
    as (s1&s2&Hrem&Hins&Hp1&Hp2&Hs2&Hx2&Hacc).
  set (f := fun n : mlfqnode => n <| m_level ::= Z.add 1 |>).
  destruct (at_level_payload s s2 i x Hp2) as (n2&Hn2&Hst2&Hl2); [by exists n|].
  destruct (ndset_shape _ _ _ x f Hs2) as [Hset Hs3]; [by exists n2|done|done| |].
  { eapply queued_not_header; [exact (proj1 Hr)|exact Hq|exact Hx]. }
  exists (alter f x s2). split_and!.
  - unfold lowerlevel, nd at 1. rewrite (bind_Ok _ _ _ n s) by (by rewrite Hn).
    rewrite (proj2 (Z.eqb_neq _ _)) by lia. rewrite (bind_Ok _ _ _ _ _ Hrem), Hlv.
    replace (Z.of_nat i + 2) with (Z.of_nat (S (S i))) by lia.
    by rewrite (bind_Ok _ _ _ _ _ (Hhr s1)), (bind_Ok _ _ _ _ _ Hins).
  - split_and!; [split; [done|]| |].
    + apply levels_snoc.
      * apply levels_other; [|done].
        apply levels_alter; [eapply levels_payload; [done|apply Hr]|].
        intros l' y Hl' [_ Hy]%elem_of_take_out. eapply at_level_payload; [done|].
        by eapply Hr.
      * exists (f n2). rewrite list_lookup_alter_eq, Hn2. split_and!; [done..|].
        change (m_level (f n2)) with (1 + m_level n2). lia.
    + by rewrite length_alter, (proj1 Hp2).
    + intros y m Hy. destruct (decide (x = y)) as [<-|].
      * intros _. eapply (Hacc x n2); [done|lia].
      * rewrite list_lookup_alter_ne in Hy by done. by eapply Hacc.
  - intros y Hy. rewrite list_lookup_alter_ne by done. apply Hp2.
Qed.

Lemma lowerlevel_lowest hs s q l x :
  mlfq_rep hs s q -> q !! 2%nat = Some l -> x ∈ l -> lowerlevel hs x s = Ok tt s.
Proof.
  intros Hr Hq Hx. destruct (queued_at _ _ _ _ _ _ Hr Hq Hx) as (_&n&Hn&_&Hlv).
  unfold lowerlevel, nd at 1. rewrite (bind_Ok _ _ _ n s) by (by rewrite Hn).
  by rewrite Hlv.
Qed.

Lemma op_refines hs s q o :
  mlfq_inv hs s q -> allowed o q ->
  exists s' q', exec_op hs o s = Ok tt s' /\ spec_step q o q' /\ mlfq_inv hs s' q'.
Proof.
  intros Hi Ha. destruct o as [p|x|x|x]; cbn in Ha.
  { destruct (add_inv hs s q p Hi Ha) as (x&s'&?&?&?&_). exists s', (q_push x q).
    split_and!; [done| |done]. by constructor. }
  all: apply elem_of_queues in Ha as (i&l&Hq&Hx).
  - destruct (decide (i < 2)%nat) as [Hlt|Hge].
    + destruct (lowerlevel_inv _ _ _ _ _ _ Hi Hq Hx Hlt) as (s'&?&?&_).
      exists s', (q_demote i x q). split_and!; [done| |done]. by econstructor.
    + destruct (queued_at _ _ _ _ _ _ (proj1 Hi) Hq Hx) as [? _].
      assert (i = 2%nat) as -> by lia. exists s, q. split_and!; [|by eapply spec_lowest|done].
      eapply lowerlevel_lowest; [apply Hi|done|done].
  - destruct (requeue_inv _ _ _ _ _ _ Hi Hq Hx) as (s'&?&?&_).
    exists s', (q_rotate i x q). split_and!; [done| |done]. by econstructor.
  - destruct (delete_inv _ _ _ _ _ _ Hi Hq Hx) as (s'&?&?&_).
    exists s', (alter (take_out x) i q). split_and!; [done| |done]. by econstructor.
Qed.

(** Operations in sequence. *)
Inductive spec_run : list (list nat) -> list op -> list (list nat) -> Prop :=
| spec_nil q : spec_run q [] q
| spec_cons q o q' os q'' :
    spec_step q o q' -> spec_run q' os q'' -> spec_run q (o :: os) q''.
(** Every operation of the sequence may be used where it is used. *)
Fixpoint safe (os : list op) (q : list (list nat)) : Prop :=
  match os with
  | [] => True
  | o :: os' => allowed o q /\ forall q', spec_step q o q' -> safe os' q'
  end.

Lemma ops_run hs os : forall s q,
  mlfq_inv hs s q -> safe os q ->
  exists s' q', forM os (exec_op hs) s = Ok tt s' /\ spec_run q os q' /\ mlfq_inv hs s' q'.
Proof.
  induction os as [|o os IH]; intros s q Hi Hs.
  { exists s, q. split_and!; [done|constructor|done]. }
  destruct Hs as [Ha Hs]. destruct (op_refines hs s q o Hi Ha) as (s1&q1&Hr1&Hq1&Hi1).
  destruct (IH s1 q1 Hi1 (Hs _ Hq1)) as (s2&q2&Hr2&Hq2&Hi2).
  exists s2, q2. split_and!; [|by econstructor|done].
  cbn [forM]. by rewrite (bind_Ok _ _ _ _ _ Hr1).
Qed.

(** *** The boost *)

(** What the walk does to one node. *)
Definition boosted (n : mlfqnode) : mlfqnode :=
  if (m_state n =? 1) && negb (m_level n =? 1)
  then n <| m_level := 0 |> <| m_exec_time := 0 |> else n.

Lemma boosted_links n : m_prev (boosted n) = m_prev n /\ m_next (boosted n) = m_next n.
Proof. unfold boosted. by destruct (_ && _). Qed.

Lemma boost_from_run l : forall fuel s p,
  dseg (links s) p l None -> (length l < fuel)%nat -> NoDup l ->
  exists s', boost_from fuel (first_of l None) s = Ok tt s' /\
    length s' = length s /\ (forall j, links s' j = links s j) /\
    (forall j, s' !! j = (if decide (j ∈ l) then boosted else id) <$> s !! j).
Proof.
  induction l as [|x l IH]; intros fuel s p Hl Hf Hnd; cbn [first_of].
  { exists s. split_and!; [by destruct fuel|done..|]. intros j. by destruct (s !! j). }
  destruct fuel as [|fuel]; [cbn in Hf; lia|]. cbn in Hf. cbn [boost_from].
  destruct Hl as [Hx Hl]. destruct (nd_links _ _ _ _ Hx) as (n&Hn&_&Hnx).
  rewrite (bind_Ok _ _ _ _ _ Hn), Hnx.
  assert (s !! x = Some n) as Hsx.
  { unfold nd, deref, ret in Hn. destruct (s !! x); [congruence|done]. }
  set (s1 := alter boosted x s).
  assert (when ((m_state n =? 1) && negb (m_level n =? 1))
    (ndset x (fun n => n <| m_level := 0 |> <| m_exec_time := 0 |>)) s = Ok tt s1) as Hw.
  { unfold s1. rewrite (alter_as_insert _ _ _ _ Hsx). unfold boosted, when.
    destruct (_ && _); [|by rewrite list_insert_id].
    by rewrite (ndset_run _ _ _ _ Hsx), (alter_as_insert _ _ _ _ Hsx). }
  rewrite (bind_Ok _ _ _ _ _ Hw). apply NoDup_cons in Hnd as [Hxl Hnd].
  assert (forall j, links s1 j = links s j) as HL.
  { intros j. apply links_alter_same; intros m; apply boosted_links. }
  destruct (IH fuel s1 (Some x)) as (s'&Hrun&Hlen&HL'&Hj); [|lia|done|].
  { eapply dseg_frame; [|done]. intros; apply HL. }
  exists s'. split_and!; [done|by rewrite Hlen; apply length_alter|intros j; by rewrite HL'|].
  intros j. rewrite Hj. unfold s1. destruct (decide (x = j)) as [<-|].
  - rewrite list_lookup_alter_eq, Hsx, decide_False, decide_True by set_solver. done.
  - rewrite list_lookup_alter_ne by done. repeat case_decide; set_solver.
Qed.

(** A header moved to just before the next one, past the nodes [l2]. *)
Lemma move_header s l1 a l2 b l3 :
  dlist (links s) (l1 ++ a :: l2 ++ b :: l3) ->
  exists s1 s2, remove a s = Ok tt s1 /\ insertBefore b a s1 = Ok tt s2 /\
    same_payload s s2 /\ dlist (links s2) (l1 ++ l2 ++ a :: b :: l3).
Proof.
  intros Hl. destruct (remove_run s l1 (l2 ++ b :: l3) a Hl) as (s1&H1&P1&L1&_).
  rewrite app_assoc in L1. destruct (insertBefore_run s1 (l1 ++ l2) l3 b a L1)
    as (s2&H2&P2&L2).
  - destruct Hl as [Hnd _]. rewrite <- Permutation_middle, app_assoc in Hnd.
    by apply NoDup_cons in Hnd as [? _].
  - apply (same_payload_lookup s); [done|]. eapply dlist_lookup; [exact Hl|]. set_solver.
  - exists s1, s2. rewrite <- app_assoc in L2. split_and!; [done..| |done].
    by eapply same_payload_trans.
Qed.

Lemma spine_short hs s q : mlfq_inv hs s q -> (length (spine (omap id hs) q) <= NPROC + 4)%nat.
Proof.
  intros ((Hs&_)&Hlen&_). pose proof Hs as (h&->&_&_&Hl&_).
  assert (omap id (Some <$> h) = h) as -> by (clear; induction h; cbn; congruence).
  rewrite <- Hlen, <- (length_seq (length s) 0). apply submseteq_length, NoDup_submseteq;
    [apply Hl|].
  intros x Hx. apply elem_of_seq. destruct (dlist_lookup _ _ _ Hl Hx) as [n Hn].
  apply lookup_lt_Some in Hn. lia.
Qed.

Lemma payload_boosted n n' :
  payload n = payload n' -> payload (boosted n) = payload (boosted n').
Proof.
  intros [= H1 H2 H3 H4]. unfold boosted. rewrite H2, H3.
  destruct (_ && _); unfold payload, upd; cbn; congruence.
Qed.

(** [priorityboost] moves every node into the level 0 queue, in the order of
    the levels, and resets those of levels 0 and 2. *)
Lemma priorityboost_run hs s q0 q1 q2 :
  mlfq_inv hs s [q0; q1; q2] ->
  exists s', priorityboost hs s = Ok tt s' /\ length s' = length s /\
    mlfq_shape hs s' [q0 ++ q1 ++ q2; []; []] /\
    (forall x, x ∈ q0 ++ q1 ++ q2 ->
       exists n n', s !! x = Some n /\ s' !! x = Some n' /\
         payload n' = payload (boosted n)).
Proof.
  intros Hi. pose proof (spine_short _ _ _ Hi) as Hlen. destruct Hi as ((Hs&Hv)&_).
  destruct (shape_open _ _ _ Hs) as (h0&h1&h2&h3&?&?&?&->&[= <- <- <-]&Hl&Hh).
  cbn in Hlen.
  destruct (move_header s (h0 :: q0 ++ h1 :: q1) h2 q2 h3 []) as (s1&s2&R1&R2&P2&L2);
    [revert Hl; cbn; by rewrite <- !app_assoc|].
  destruct (move_header s2 (h0 :: q0) h1 (q1 ++ q2) h2 [h3]) as (s3&s4&R3&R4&P4&L4);
    [revert L2; cbn; rewrite <- ?app_assoc; cbn; by rewrite <- ?app_assoc|].
  pose proof (same_payload_trans _ _ _ P2 P4) as P.
  set (l := h0 :: q0 ++ q1 ++ q2 ++ [h1; h2; h3]).
  assert (dlist (links s4) l) as [Hnd Hseg]
    by (revert L4; cbn; rewrite <- ?app_assoc; done).
  destruct (boost_from_run l (S (NPROC + 4)) s4 None Hseg) as (s5&R5&Hlen5&L5&H5); [|done|].
  { subst l. revert Hlen. cbn. rewrite !length_app. cbn. rewrite !length_app. cbn.
    rewrite !length_app. cbn. lia. }
  exists s5. split_and!.
  - unfold priorityboost. change (mjoin (zlookup _ 0)) with (Some h0). cbn [forM].
    rewrite (bind_Ok _ _ s tt s4); [exact R5|].
    rewrite (bind_Ok _ _ s tt s2); [rewrite (bind_Ok _ _ s2 tt s4); [done|]|].
    + rewrite (bind_Ok _ _ _ h1 s2), (bind_Ok _ _ _ _ _ R3) by done.
      by rewrite (bind_Ok _ _ _ h2 s3).
    + rewrite (bind_Ok _ _ _ h2 s), (bind_Ok _ _ _ _ _ R1) by done.
      by rewrite (bind_Ok _ _ _ h3 s1).
  - by rewrite Hlen5, (proj1 P).
  - exists [h0; h1; h2; h3]. split_and!; [done..| |].
    { eapply dlist_frame; [intros; apply L5|]. cbn. rewrite <- !app_assoc. by split. }
    intros x Hx. destruct (Hh x Hx) as (n&Hn&Hst).
    destruct (payload_state _ _ x n (same_payload_sym _ _ P) Hn) as (n4&Hn4&E4).
    exists (if decide (x ∈ l) then boosted n4 else n4). rewrite H5, Hn4.
    split; [by case_decide|]. injection E4 as _ E4 _ _.
    case_decide; [|congruence]. unfold boosted. rewrite E4, Hst. cbn. congruence.
  - intros x Hx. assert (x ∈ l) as Hxl by (subst l; set_solver).
    destruct (dlist_lookup s4 l x (conj Hnd Hseg) Hxl) as [n4 Hn4].
    destruct (payload_state _ _ _ _ P Hn4) as (n&Hn&E). exists n, (boosted n4).
    rewrite H5, Hn4, decide_True by done. split_and!; [done..|].
    by apply payload_boosted.
Qed.

(** *** Taking nodes out of the whole list *)
Lemma spine_headers hs s q :
  mlfq_shape hs s q -> exists h, hs = Some <$> h /\ omap id hs = h /\ length h = 4%nat /\
    length q = 3%nat /\ NoDup (spine h q) /\ dlist (links s) (spine h q).
Proof.
  intros (h&->&Hh&Hq&Hl&_). exists h. split_and!; try done; [|apply Hl].
  clear. induction h; cbn; congruence.
Qed.

Lemma take_out_fresh x l : x ∉ l -> take_out x l = l.
Proof. intros Hx. apply list_filter_all. by intros y Hy ->. Qed.

(** An element is in no other queue. *)
Lemma queue_unique hs s q i j l l' x :
  mlfq_shape hs s q -> q !! i = Some l -> q !! j = Some l' -> x ∈ l -> x ∈ l' -> i = j.
Proof.
  intros Hs Hi Hj Hx Hx'.
  destruct (shape_open _ _ _ Hs) as (h0&h1&h2&h3&q0&q1&q2&->&->&[Hnd _]&_).
  cbn in *. destruct i as [|[|[|i]]], j as [|[|[|j]]]; try done;
    cbn in Hi, Hj; simplify_eq;
    repeat progress (rewrite ?NoDup_cons, ?NoDup_app in Hnd); set_solver.
Qed.

Lemma take_out_all hs s q i l x :
  mlfq_shape hs s q -> q !! i = Some l -> x ∈ l -> alter (take_out x) i q = take_out x <$> q.
Proof.
  intros Hs Hi Hx. apply list_eq. intros j. rewrite list_lookup_fmap.
  destruct (decide (i = j)) as [<-|].
  - by rewrite list_lookup_alter_eq.
  - rewrite list_lookup_alter_ne by done. destruct (q !! j) as [l'|] eqn:Hj; [|done]. cbn.
    rewrite take_out_fresh; [done|]. intros Hx'. by destruct (queue_unique _ _ _ _ _ _ _ _ Hs Hi Hj Hx Hx').
Qed.

Lemma spine_take_out h q x :
  length h = 4%nat -> length q = 3%nat -> x ∉ h ->
  spine h (take_out x <$> q) = take_out x (spine h q).
Proof.
  intros Hh Hq Hx.
  destruct h as [|h0 [|h1 [|h2 [|h3 [|]]]]]; try done.
  destruct q as [|q0 [|q1 [|q2 [|]]]]; try done. unfold take_out, spine. cbn [fmap list_fmap].
  repeat first [ rewrite filter_cons_True by set_solver | rewrite filter_app ]. done.
Qed.

(** No routine gives a slab a new process, [allocmlfqnode] apart. *)
Definition selfs_sub (s s' : slabs) : Prop :=
  forall x n' i, s' !! x = Some n' -> m_self n' = Some i ->
    exists n, s !! x = Some n /\ m_self n = Some i.
#[global] Instance selfs_sub_preorder : PreOrder selfs_sub.
Proof.
  split; [intros s x n i ??; by exists n|]. intros s1 s2 s3 H1 H2 x n i Hx Hi.
  destruct (H2 _ _ _ Hx Hi) as (n2&Hn2&Hi2). by eapply H1.
Qed.

Lemma keeps_ndset_self i f :
  (forall n, m_self (f n) = m_self n \/ m_self (f n) = None) -> keeps selfs_sub (ndset i f).
Proof.
  intros Hf s u s' Er. unfold ndset in Er.
  apply bind_inv in Er as (n&s1&Er&[= _ <-]). unfold nd in Er.
  assert (s1 = s) as -> by (destruct (s !! i); by inversion Er).
  intros x n' j Hx Hj. destruct (decide (i = x)) as [<-|].
  - rewrite list_lookup_alter_eq in Hx. destruct (s !! i) as [m|] eqn:Hm; [|done].
    injection Hx as <-. exists m. split; [done|]. destruct (Hf m); congruence.
  - rewrite list_lookup_alter_ne in Hx by done. eauto.
Qed.

Lemma keeps_nd_self i : keeps selfs_sub (nd i).
Proof. intros s n s' Er. unfold nd in Er. destruct (s !! i); by inversion Er. Qed.

Lemma keeps_delete_self m : keeps selfs_sub (delete m).
Proof.
  unfold delete, remove, set_prev, set_next.
  repeat first [ apply keeps_nd_self | apply keeps_ndset_self; intros ?; first [by left|by right] | keeps_step].
Qed.

(** No routine but [delete], [allocmlfqnode] and the boost lowers the number
    of a node's level. *)
Definition levels_up (s s' : slabs) : Prop :=
  forall x n, s !! x = Some n -> exists n', s' !! x = Some n' /\ m_level n <= m_level n'.
#[global] Instance levels_up_preorder : PreOrder levels_up.
Proof.
  split; [intros s x n ?; exists n; split; [done|lia]|].
  intros s1 s2 s3 H1 H2 x n Hx. destruct (H1 _ _ Hx) as (n2&Hn2&?).
  destruct (H2 _ _ Hn2) as (n3&?&?). exists n3. split; [done|lia].
Qed.

Lemma keeps_ndset_level i f :
  (forall n, m_level n <= m_level (f n)) -> keeps levels_up (ndset i f).
Proof.
  intros Hf s u s' Er. unfold ndset in Er.
  apply bind_inv in Er as (n&s1&Er&[= _ <-]). unfold nd in Er.
  assert (s1 = s) as -> by (destruct (s !! i); by inversion Er).
  intros x m Hx. destruct (decide (i = x)) as [<-|].
  - exists (f m). by rewrite list_lookup_alter_eq, Hx.
  - exists m. rewrite list_lookup_alter_ne by done. split; [done|lia].
Qed.

Lemma keeps_nd_level i : keeps levels_up (nd i).
Proof.
  intros s n s' Er. unfold nd in Er. destruct (s !! i); inversion Er; subst; reflexivity.
Qed.

Ltac keeps_levels :=
  unfold set_prev, set_next, header;
  repeat first [ apply keeps_nd_level
               | apply keeps_ndset_level; intros ?; cbn; unfold upd; cbn; lia | keeps_step].

Lemma keeps_requeue_level hs m : keeps levels_up (requeue hs m).
Proof. unfold requeue, remove, insertBefore. keeps_levels. Qed.
Lemma keeps_lowerlevel_level hs m : keeps levels_up (lowerlevel hs m).
Proof. unfold lowerlevel, remove, insertBefore. keeps_levels. Qed.

(** *** The start *)
Definition slabs0 : slabs := replicate (NPROC + 4) node0.
Definition headers0 : list (option nat) := [Some 64; Some 65; Some 66; Some 67]%nat.

Lemma init_headers_inv :
  exists s, init_headers slabs0 = Ok headers0 s /\ mlfq_inv headers0 s [[]; []; []].
Proof.
  eexists. split; [vm_compute; reflexivity|]. split_and!; [split| |].
  - exists [64; 65; 66; 67]%nat. split_and!; [done..| |].
    + split; [|repeat split; vm_compute; done]. apply (bool_decide_unpack _). by vm_compute.
    + intros x Hx. cut (m_state <$> (match init_headers slabs0 with Ok _ s => s | _ => [] end
        !! x) = Some (-1)).
      { vm_compute init_headers. destruct (_ !! x); naive_solver. }
      repeat (apply elem_of_cons in Hx as [->|Hx]; [by vm_compute|]). set_solver.
  - intros [|[|[|i]]] l x Hl Hx; simplify_eq/=; set_solver.
  - by vm_compute.
  - intros x n Hx Hn. apply (bool_decide_unpack (x ∈ [64; 65; 66; 67]%nat)).
    do 64 (destruct x as [|x]; [by injection Hx as <-|]).
    do 4 (destruct x as [|x]; [by vm_compute|]). done.
Qed.



(** [priorityboost] puts all nodes in the queue of level 0, level by level,
    and gives those of levels 0 and 2 level 0 and a fresh allotment; the nodes
    that were on level 1 keep level 1 and their used time, although they now
    stand in the queue of level 0. *)
Theorem priorityboost_effect hs s q0 q1 q2 :
  mlfq_inv hs s [q0; q1; q2] ->
  exists s', priorityboost hs s = Ok tt s' /\
    mlfq_shape hs s' [q0 ++ q1 ++ q2; []; []] /\
    (forall x, x ∈ q0 ++ q2 ->
       exists n, s' !! x = Some n /\ m_level n = 0 /\ m_exec_time n = 0) /\
    (forall x n, x ∈ q1 -> s !! x = Some n ->
       exists n', s' !! x = Some n' /\ m_level n' = 1 /\ m_exec_time n' = m_exec_time n).
Proof.
  intros Hi. destruct (priorityboost_run _ _ _ _ _ Hi) as (s'&Hrun&_&Hs'&Hx).
  destruct Hi as ((_&Hv)&_). exists s'. split_and!; [done..| |].
  - intros x Hq. destruct (Hx x) as (n&n'&Hn&Hn'&[= _ _ E3 E4]); [set_solver|].
    exists n'. split; [done|]. rewrite E3, E4. unfold boosted.
    apply elem_of_app in Hq as [Hq|Hq];
      [destruct (Hv 0%nat _ x eq_refl Hq) as (m&Hm&Hs&Hl)
      |destruct (Hv 2%nat _ x eq_refl Hq) as (m&Hm&Hs&Hl)];
      simplify_eq; by rewrite Hs, Hl.
  - intros x n Hq Hn. destruct (Hx x) as (m&n'&Hm&Hn'&[= _ _ E3 E4]); [set_solver|].
    destruct (Hv 1%nat _ x eq_refl Hq) as (m'&Hm'&Hs&Hl). simplify_eq.
    exists n'. split; [done|]. rewrite E3, E4. unfold boosted. rewrite Hs, Hl. done.
Qed.

(** A node on level 1 of queues built by the operations themselves. *)
Lemma priorityboost_effect_witness :
  exists s s', forM [Add 3; Lower 0] (exec_op headers0)
      (match init_headers slabs0 with Ok _ s => s | _ => [] end) = Ok tt s /\
    priorityboost headers0 s = Ok tt s' /\
    mlfq_shape headers0 s' [[0%nat]; []; []] /\ m_level <$> s' !! 0%nat = Some 1.
Proof.
  destruct init_headers_inv as (s0&Hs0&Hi0). rewrite Hs0.
  destruct (add_inv headers0 s0 [[]; []; []] 3 Hi0) as (x&s1&R1&_&Hi1&_).
  { apply Nat.ltb_lt. by vm_compute. }
  assert (x = 0%nat) as ->.
  { destruct Hi1 as ((_&Hv)&_). destruct (Hv 0%nat [x] x eq_refl ltac:(by left)) as (n&Hn&E&_).
    revert R1 Hn E. vm_compute in Hs0. injection Hs0 as <-. vm_compute. intros [= <-].
    do 68 (destruct x as [|x]; [cbn; intros [= <-]; done|]). done. }
  destruct (lowerlevel_inv headers0 s1 [[0%nat]; []; []] 0 [0%nat] 0 Hi1) as (s2&R2&Hi2&_);
    [done|by left|lia|].
  destruct (priorityboost_effect headers0 s2 [] [0%nat] [] Hi2) as (s3&R3&Hs3&_&Hlv).
  exists s2, s3. split_and!; [|done|done|].
  - cbn [forM]. by rewrite (bind_Ok _ _ _ _ _ R1), (bind_Ok _ _ _ tt s2).
  - destruct Hi2 as ((_&Hv)&_). destruct (Hv 1%nat [0%nat] 0%nat eq_refl) as (n&Hn&_); [by left|].
    destruct (Hlv 0%nat n) as (n'&->&Hl&_); [by left|done|]. cbn. by rewrite Hl.
Defined.
End Mlfq.
