(* ===== verification/Sched.v ===== *)
(** * The scheduler (xv6-public/proc.c:19-314, 703-880)

    Three classes of processes share the CPU by stride scheduling: the default
    class ([schedmode] 0, one stride for the whole class, round robin inside it
    by [pathlevel]), processes with a fixed share ([schedmode] 1) and the MLFQ
    ([schedmode] 2, one stride for the class).  [choosebystride] picks the
    class whose pass value is least, [scheduler] picks the thread of the chosen
    process and charges the class.

    The operations are the ones of proc.c on the state [kernel] of Procdef.v;
    [sched_pick] is one turn of the inner loop of [scheduler] up to [swtch]. *)

From S2P Require Import Prelude Dll Spinlock Double Procdef Mlfq.

Module Sched.
Section sched.
Context {E : Type} `{KernelEnv E}.
Abbreviation K := (kernel E).
Implicit Types (k : K).

Definition set_default (f : dvmp -> dvmp) : M K unit :=
  modify (fun k => k <| k_default ::= f |>).
Definition set_mlfq (f : mvmp -> mvmp) : M K unit :=
  modify (fun k => k <| k_mlfq ::= f |>).
Definition set_fixedmin (o : option nat) : M K unit :=
  modify (fun k => k <| k_fixedmin := o |>).

(** [headers[0]], possibly null. *)
Definition header0 : M K (option nat) :=
  hs <- gets k_headers ;; ret (mjoin (hs !! 0%nat)).

(** [p->path < q->path], a null pointer losing. *)
Definition getminproc (a b : option nat) : M K (option nat) :=
  match a, b with
  | None, _ => ret b
  | _, None => ret a
  | Some i, Some j =>
      pi <- getproc i ;;
      pj <- getproc j ;;
      ret (if dgtb (path pi) (path pj) then b else a)
  end.

(** The state of the process a node stands for. *)
Definition self_state (m : nat) : M K procstate :=
  n <- zoom k_slabs (Mlfq.nd m) ;;
  i <- deref (m_self n) ;;
  p <- getproc i ;;
  ret (state p).

(** The loop of [choosebymlfq] along [next]. *)
Fixpoint choose_from (fuel : nat) (m : option nat) : M K (option nat) :=
  match m with
  | None => ret None
  | Some i =>
      match fuel with
      | O => spin
      | S fuel' =>
          n <- zoom k_slabs (Mlfq.nd i) ;;
          if negb (m_state n =? 1) then choose_from fuel' (m_next n) else
          st <- self_state i ;;
          if negb (bool_decide (st = RUNNABLE)) && negb (bool_decide (st = SLEEPING)) then
            zoom k_slabs (Mlfq.delete i) ;;
            choose_from fuel' (m_next n)
          else if bool_decide (st = RUNNABLE) then ret (Some i)
          else choose_from fuel' (m_next n)
      end
  end.

(** The first runnable node; nodes of processes that neither run next nor
    sleep are dropped on the way. *)
Definition choosebymlfq : M K (option nat) :=
  h <- header0 ;;
  match h with
  | None => ret None
  | Some h0 =>
      v <- gets k_mlfq ;;
      b <- match mv_highpr v with
           | None => ret false
           | Some i => st <- self_state i ;; ret (bool_decide (st = RUNNABLE))
           end ;;
      if b then ret (mv_highpr v) else
      m <- choose_from (S (NPROC + 4)) (Some h0) ;;
      n <- zoom k_slabs (Mlfq.nd h0) ;;
      when (negb (bool_decide (is_Some (m_next n))))
        (modify (fun k => k <| k_headers ::= alter (fun _ => None) 0%nat |>)) ;;
      ret m
  end.

(** The locals of [updatevals]. *)
Record uvals := mkUvals {
  uv_min : double;
  uv_min2 : double;
  uv_totalfixedshare : Z;
  uv_mlfqcnt : Z
}.
#[local] Instance eta_uvals : Eta uvals := fun r =>
  mkUvals (uv_min r) (uv_min2 r) (uv_totalfixedshare r) (uv_mlfqcnt r).

(** The body of the loop of [updatevals] for one process. *)
Definition updatevals_one (u : uvals) (i : nat) : M K uvals :=
  p <- getproc i ;;
  if negb (bool_decide (state p = RUNNABLE)) then ret u else
  h <- get_highest_master i ;;
  hm <- getproc h ;;
  if schedmode hm =? 0 then
    if deqb (uv_min2 u) (dint (-1)) || dltb (dint (pathlevel hm)) (uv_min2 u) then
      set_default (fun d => d <| d_highpr := Some h |>) ;;
      ret (u <| uv_min2 := dint (pathlevel hm) |>)
    else ret u
  else if schedmode hm =? 1 then
    let u := if bool_decide (master p = None)
             then u <| uv_totalfixedshare ::= Z.add (fixedshare p) |> else u in
    if deqb (uv_min u) (dint (-1)) || dltb (path hm) (uv_min u) then
      set_fixedmin (Some h) ;;
      ret (u <| uv_min := path hm |>)
    else ret u
  else ret (u <| uv_mlfqcnt ::= Z.add 1 |>).

Definition updatevals_scan : M K uvals :=
  set_default (fun d => d <| d_highpr := None |>) ;;
  set_fixedmin None ;;
  foldM updatevals_one (mkUvals (dint (-1)) (dint (-1)) 0 0) all_procs.

(** [defaultvmp.highpr->path = defaultvmp.path]. *)
Definition default_path : M K unit :=
  d <- gets k_default ;;
  match d_highpr d with
  | Some h => setproc h (fun p => p <| path := d_path d |>)
  | None => ret tt
  end.

Definition updatevals : M K unit :=
  u <- updatevals_scan ;;
  default_path ;;
  (if negb (uv_mlfqcnt u =? 0) then
     v <- gets k_mlfq ;;
     when (deqb (mv_path v) (dint (-1)))
       (fx <- gets k_fixedmin ;;
        d <- gets k_default ;;
        p <- getminproc fx (d_highpr d) ;;
        set_mlfq (fun v => v <| mv_path := dint 0 |>) ;;
        match p with
        | Some i => pi <- getproc i ;; set_mlfq (fun v => v <| mv_path := path pi |>)
        | None => ret tt
        end) ;;
     set_default (fun d =>
       d <| d_stride := ddiv (dint 100) (dint (80 - uv_totalfixedshare u)) |>)
   else
     set_mlfq (fun v => v <| mv_path := dint (-1) |>) ;;
     set_default (fun d =>
       d <| d_stride := ddiv (dint 100) (dint (100 - uv_totalfixedshare u)) |>)) ;;
  m <- choosebymlfq ;;
  set_mlfq (fun v => v <| mv_highpr := m |>).

Definition choosebystride : M K (option nat) :=
  updatevals ;;
  default_path ;;
  d <- gets k_default ;;
  v <- gets k_mlfq ;;
  fx <- gets k_fixedmin ;;
  match mv_highpr v with
  | Some m =>
      n <- zoom k_slabs (Mlfq.nd m) ;;
      i <- deref (m_self n) ;;
      setproc i (fun p => p <| path := mv_path v |>) ;;
      r <- getminproc (Some i) (d_highpr d) ;;
      getminproc fx r
  | None => getminproc fx (d_highpr d)
  end.

Definition getminpath : M K double :=
  p <- choosebystride ;;
  match p with
  | Some i => pi <- getproc i ;; ret (path pi)
  | None => ret (dint 0)
  end.

Definition getminpathlevel : M K Z :=
  d <- gets k_default ;;
  match d_highpr d with
  | Some i => pi <- getproc i ;; ret (pathlevel pi)
  | None => ret 0
  end.

Definition min (a b : double) : double := if dgtb a b then b else a.

(** *** System calls of the scheduler *)

Definition initmlfq : M K unit :=
  h <- header0 ;;
  match h with
  | Some _ => ret tt
  | None =>
      hs <- zoom k_slabs Mlfq.init_headers ;;
      modify (fun k => k <| k_headers := hs |>) ;;
      set_mlfq (fun v => v <| allottime := [5; 10; 1000] |> <| slice := [1; 2; 4] |>
        <| mv_highpr := None |> <| mv_path := dint 0 |> <| mv_stride := dint 5 |>
        <| slice_cnt := 0 |> <| tick_cnt := 0 |>) ;;
      x <- getminpath ;;
      set_mlfq (fun v => v <| mv_path := x |>)
  end.

Definition allocmlfqnode (p : nat) : M K nat :=
  m <- zoom k_slabs (Mlfq.allocnode p) ;;
  setproc p (fun q => q <| mnode := Some m |>) ;;
  ret m.

(** The shares already granted. *)
Definition share_of (p : proc) : Z :=
  if (schedmode p =? 1)
     && (bool_decide (state p = RUNNABLE) || bool_decide (state p = SLEEPING))
     && bool_decide (master p = None)
  then fixedshare p else 0.
Definition granted : M K Z :=
  foldM (fun t i => p <- getproc i ;; ret (t + share_of p)) 0 all_procs.

(** All threads of a process from [p] on leave the MLFQ. *)
Fixpoint fix_threads (fuel : nat) (p : option nat) : M K unit :=
  match p with
  | None => ret tt
  | Some i =>
      match fuel with
      | O => spin
      | S fuel' =>
          q <- getproc i ;;
          when (schedmode q =? 2)
            (m <- deref (mnode q) ;; zoom k_slabs (Mlfq.delete m)) ;;
          setproc i (fun p => p <| schedmode := 1 |>) ;;
          q <- getproc i ;;
          fix_threads fuel' (next_thread q)
      end
  end.

Definition cpu_share (n : Z) : M K Z :=
  acquire_ptable ;;
  total <- granted ;;
  if (n <=? 0) || (20 <? total + n) then release_ptable ;; ret (-1) else
  me <- myproc ;;
  me <- deref me ;;
  h <- get_highest_master me ;;
  setproc h (fun p => p <| fixedshare := n |>) ;;
  x <- getminpath ;;
  setproc h (fun p => p <| path := x |>) ;;
  fix_threads (S NPROC) (Some h) ;;
  release_ptable ;;
  ret 0.

(** All threads of a process enter the MLFQ. *)
Fixpoint mlfq_threads (fuel : nat) (p : option nat) : M K unit :=
  match p with
  | None => ret tt
  | Some i =>
      match fuel with
      | O => spin
      | S fuel' =>
          setproc i (fun p => p <| schedmode := 2 |>) ;;
          m <- allocmlfqnode i ;;
          h <- header0 ;;
          h <- deref h ;;
          zoom k_slabs (Mlfq.insertafter h m) ;;
          q <- getproc i ;;
          mlfq_threads fuel' (next_thread q)
      end
  end.

Definition run_MLFQ : M K Z :=
  me <- myproc ;;
  me <- deref me ;;
  acquire_ptable ;;
  h <- header0 ;;
  when (negb (bool_decide (is_Some h))) initmlfq ;;
  v <- gets k_mlfq ;;
  when (deqb (mv_path v) (dint (-1)))
    (x <- getminpath ;; set_mlfq (fun v => v <| mv_path := x |>)) ;;
  hm <- get_highest_master me ;;
  mlfq_threads (S NPROC) (Some hm) ;;
  release_ptable ;;
  ret 0.

Definition getlev : M K Z :=
  me <- myproc ;;
  me <- deref me ;;
  acquire_ptable ;;
  h <- get_highest_master me ;;
  hm <- getproc h ;;
  if negb (schedmode hm =? 2) then ret (-1) else
  acquire_ptable ;;
  p <- getproc me ;;
  m <- deref (mnode p) ;;
  n <- zoom k_slabs (Mlfq.nd m) ;;
  ret (m_level n).

(** *** The scheduler loop *)

(** The round robin over the threads of [p], from [p->turn]. *)
Fixpoint pick_thread (fuel : nat) (p : nat) (q : option nat) : M K (option nat) :=
  match fuel with
  | O => spin
  | S fuel' =>
      let i := default p q in
      pq <- getproc i ;;
      if bool_decide (state pq = RUNNABLE) then
        setproc p (fun pp => pp <| turn := Some (default p (next_thread pq)) |>) ;;
        ret (Some i)
      else
        pp <- getproc p ;;
        if bool_decide (next_thread pq = turn pp) then ret None
        else pick_thread fuel' p (next_thread pq)
  end.

(** The end of a time slice of node [m]: a demotion when the allotment of its
    level is used up, else the end of its queue. *)
Definition end_slice (m : nat) : M K unit :=
  v <- gets k_mlfq ;;
  hs <- gets k_headers ;;
  n <- zoom k_slabs (Mlfq.nd m) ;;
  al <- deref (zlookup (allottime v) (m_level n)) ;;
  (if al <=? m_exec_time n then
     zoom k_slabs (Mlfq.lowerlevel hs m) ;;
     zoom k_slabs (Mlfq.ndset m (fun n => n <| m_exec_time := 0 |>))
   else zoom k_slabs (Mlfq.requeue hs m)) ;;
  set_mlfq (fun v => v <| slice_cnt := 0 |> <| mv_highpr := None |>).

(** A tick is charged to [p] and to the MLFQ. *)
Definition charge_mlfq (p : nat) : M K unit :=
  set_mlfq (fun v => v <| mv_path := dadd (mv_path v) (mv_stride v) |>
                       <| slice_cnt ::= fun c => i32 (c + 1) |>) ;;
  pp <- getproc p ;;
  m <- deref (mnode pp) ;;
  zoom k_slabs (Mlfq.ndset m (fun n => n <| m_exec_time ::= fun t => i32 (t + 1) |>)) ;;
  set_mlfq (fun v => v <| tick_cnt ::= fun c => i32 (c + 1) |>) ;;
  v <- gets k_mlfq ;;
  n <- zoom k_slabs (Mlfq.nd m) ;;
  sl <- deref (zlookup (slice v) (m_level n)) ;;
  when ((sl <=? slice_cnt v) || negb (bool_decide (state pp = RUNNABLE))) (end_slice m) ;;
  v <- gets k_mlfq ;;
  when (slice_cnt v =? 100)
    (set_mlfq (fun v => v <| slice_cnt := 0 |>) ;;
     hs <- gets k_headers ;;
     zoom k_slabs (Mlfq.priorityboost hs)).

Definition switchuvm (i : nat) : M K unit :=
  p <- getproc i ;;
  if kstack p =? 0 then panic "switchuvm: no kstack" else
  if pgdir p =? 0 then panic "switchuvm: no pgdir" else
  env (load_tss (u32 (kstack p + KSTACKSIZE))) ;;
  env (lcr3 (pgdir p)).

(** What one turn of the loop decides. *)
Inductive pick :=
| Idle            (* nothing to run: the lock is released *)
| Retry           (* no runnable thread in the chosen process *)
| Run (q : nat).

(** The class chosen and charged. *)
Definition choose_and_charge (p : nat) : M K (option nat) :=
  pp <- getproc p ;;
  if schedmode pp =? 0 then
    q <- pick_thread (S (S NPROC)) p (turn pp) ;;
    match q with
    | None => ret None
    | Some q =>
        set_default (fun d => d <| d_path := dadd (d_path d) (d_stride d) |>) ;;
        setproc p (fun pp => pp <| pathlevel ::= fun l => i32 (l + 1) |>) ;;
        ret (Some q)
    end
  else if schedmode pp =? 1 then
    q <- pick_thread (S (S NPROC)) p (turn pp) ;;
    match q with
    | None => ret None
    | Some q =>
        setproc p (fun pp =>
          pp <| path := dadd (path pp) (ddiv (dint 100) (dint (fixedshare pp))) |>) ;;
        ret (Some q)
    end
  else if schedmode pp =? 2 then charge_mlfq p ;; ret (Some p)
  else ret (Some p).

(** One turn of [while((p = choosebystride()) != 0)] up to the [swtch] that
    runs the process. *)
Definition sched_pick : M K pick :=
  p <- choosebystride ;;
  match p with
  | None => release_ptable ;; ret Idle
  | Some p =>
      q <- choose_and_charge p ;;
      match q with
      | None => ret Retry
      | Some q =>
          modify (fun k => k <| k_curproc := Some q |>) ;;
          switchuvm q ;;
          setproc q (fun p => p <| state := RUNNING |>) ;;
          ret (Run q)
      end
  end.

(** Back from the process: [switchkvm] and no process on this CPU. *)
Definition sched_back : M K unit :=
  env (lcr3 kpgdir) ;;
  modify (fun k => k <| k_curproc := None |>).

(** ** What choosing a process leaves alone *)

(** Everything but the bookkeeping of the scheduler: of a process only its
    [path] may differ. *)
Definition same_but_path (p p' : proc) : Prop := p' = p <| path := path p' |>.
Record frame (k k' : K) : Prop := {
  fr_procs : Forall2 same_but_path (k_procs k) (k_procs k');
  fr_cpu : k_cpu k' = k_cpu k;
  fr_curproc : k_curproc k' = k_curproc k;
  fr_ptlock : k_ptlock k' = k_ptlock k;
  fr_memlock : k_memlock k' = k_memlock k;
  fr_env : k_env k' = k_env k
}.

Lemma sbp_fields p p' :
  same_but_path p p' ->
  state p' = state p /\ master p' = master p /\ schedmode p' = schedmode p /\
  pathlevel p' = pathlevel p /\ fixedshare p' = fixedshare p.
Proof. intros ->. done. Qed.

#[local] Instance same_but_path_preorder : PreOrder same_but_path.
Proof.
  unfold same_but_path. split.
  - intros []; done.
  - intros p1 p2 p3 -> ->. by destruct p1.
Qed.

#[local] Instance frame_preorder : PreOrder frame.
Proof.
  split.
  - intros k. by split.
  - intros k1 k2 k3 [] []. split; try congruence. by etrans.
Qed.

Lemma frame_alter_path k i f :
  frame k (k <| k_procs ::= alter (fun p => p <| path := f p |>) i |>).
Proof.
  split; try done. proj_upd. apply Forall2_same_length_lookup_2.
  { by rewrite length_alter. }
  intros j p p' Hp. destruct (decide (i = j)) as [<-|].
  - rewrite list_lookup_alter_eq, Hp. by intros [= <-].
  - rewrite list_lookup_alter_ne, Hp by done. intros [= <-]. done.
Qed.

Lemma keeps_setpath i f : keeps frame (setproc i (fun p => p <| path := f p |>)).
Proof.
  unfold setproc, getproc. keeps_tac. apply keeps_modify. intros k. apply frame_alter_path.
Qed.
Lemma keeps_set_default f : keeps frame (set_default f).
Proof. apply keeps_modify. by intros []. Qed.
Lemma keeps_set_mlfq f : keeps frame (set_mlfq f).
Proof. apply keeps_modify. by intros []. Qed.
Lemma keeps_set_fixedmin o : keeps frame (set_fixedmin o).
Proof. apply keeps_modify. by intros []. Qed.
Lemma keeps_slabs {A} (m : M (list mlfqnode) A) : keeps frame (zoom k_slabs m).
Proof. apply keeps_zoom. by intros []. Qed.
Lemma keeps_getproc i : keeps frame (getproc i).
Proof. unfold getproc. keeps_tac. Qed.
#[local] Hint Resolve keeps_setpath keeps_set_default keeps_set_mlfq keeps_set_fixedmin
  keeps_slabs keeps_getproc : keeps.

Lemma keeps_highest_master i : keeps frame (get_highest_master i).
Proof.
  unfold get_highest_master. generalize (S NPROC). intros fuel. revert i.
  induction fuel; intros i; cbn [highest_master_from]; keeps_tac.
Qed.
#[local] Hint Resolve keeps_highest_master : keeps.

Lemma keeps_getminproc a b : keeps frame (getminproc a b).
Proof. unfold getminproc. keeps_tac. Qed.
Lemma keeps_self_state m : keeps frame (self_state m).
Proof. unfold self_state. keeps_tac. Qed.
Lemma keeps_header0 : keeps frame header0.
Proof. unfold header0. keeps_tac. Qed.
#[local] Hint Resolve keeps_getminproc keeps_self_state keeps_header0 : keeps.

Lemma keeps_choose_from fuel : forall m, keeps frame (choose_from fuel m).
Proof. induction fuel; intros [m|]; cbn [choose_from]; keeps_tac. Qed.
#[local] Hint Resolve keeps_choose_from : keeps.

Lemma keeps_choosebymlfq : keeps frame choosebymlfq.
Proof. unfold choosebymlfq. keeps_tac. apply keeps_modify. by intros []. Qed.
Lemma keeps_updatevals_one u i : keeps frame (updatevals_one u i).
Proof. unfold updatevals_one. keeps_tac. Qed.
#[local] Hint Resolve keeps_choosebymlfq keeps_updatevals_one : keeps.

Lemma keeps_default_path : keeps frame default_path.
Proof. unfold default_path. keeps_tac. Qed.
Lemma keeps_updatevals_scan : keeps frame updatevals_scan.
Proof. unfold updatevals_scan. keeps_tac. Qed.
#[local] Hint Resolve keeps_default_path keeps_updatevals_scan : keeps.
Lemma keeps_updatevals : keeps frame updatevals.
Proof. unfold updatevals. keeps_tac. Qed.
#[local] Hint Resolve keeps_updatevals : keeps.
Lemma keeps_choosebystride : keeps frame choosebystride.
Proof. unfold choosebystride. keeps_tac. Qed.
#[local] Hint Resolve keeps_choosebystride : keeps.
Lemma keeps_getminpath : keeps frame getminpath.
Proof. unfold getminpath. keeps_tac. Qed.
#[local] Hint Resolve keeps_getminpath : keeps.

(** ** Reading steps *)
Lemma getproc_inv i k p k' :
  getproc i k = Ok p k' -> k' = k /\ k_procs k !! i = Some p.
Proof.
  unfold getproc, gets, bind, deref. destruct (k_procs k !! i); [|done]. by intros [= -> ->].
Qed.

Lemma getproc_run i k p : k_procs k !! i = Some p -> getproc i k = Ok p k.
Proof. intros Er. unfold getproc, gets, bind. by rewrite Er. Qed.

Lemma setproc_inv i f k u k' :
  setproc i f k = Ok u k' ->
  is_Some (k_procs k !! i) /\ k' = k <| k_procs ::= alter f i |>.
Proof.
  unfold setproc. intros (p&k1&(->&Hp)%getproc_inv&Er)%bind_inv.
  injection Er as <- <-. split; [by exists p|done].
Qed.

Lemma nd_inv m k n k' :
  zoom k_slabs (Mlfq.nd m) k = Ok n k' -> k' = k /\ k_slabs k !! m = Some n.
Proof.
  unfold zoom, Mlfq.nd, deref. destruct (k_slabs k !! m); [|done].
  intros [= -> <-]. split; [by destruct k|done].
Qed.

(** The process of a node and its state. *)
Definition node_state (k : K) (m : nat) (st : procstate) : Prop :=
  exists n i p, k_slabs k !! m = Some n /\ m_self n = Some i /\
    k_procs k !! i = Some p /\ state p = st.

Lemma self_state_inv m k st k' :
  self_state m k = Ok st k' -> k' = k /\ node_state k m st.
Proof.
  unfold self_state. intros (n&k1&(->&Hn)%nd_inv&Er)%bind_inv.
  destruct (m_self n) as [i|] eqn:Hi; [|done]. rewrite bind_deref in Er.
  apply bind_inv in Er as (p&k2&(->&Hp)%getproc_inv&[= <- <-]).
  split; [done|]. by exists n, i, p.
Qed.

(** [get_highest_master] as a function of the process table. *)
Fixpoint highest (ps : list proc) (fuel : nat) (i : nat) : option nat :=
  match fuel with
  | O => None
  | S fuel' =>
      p ← ps !! i;
      match master p with Some m => highest ps fuel' m | None => Some i end
  end.
Definition highest_master (ps : list proc) (i : nat) : option nat :=
  highest ps (S NPROC) i.

Lemma highest_from_inv fuel : forall i k h k',
  highest_master_from fuel i k = Ok h k' -> k' = k /\ highest (k_procs k) fuel i = Some h.
Proof.
  induction fuel as [|fuel IH]; intros i k h k' Er; [done|]. cbn [highest_master_from highest] in *.
  apply bind_inv in Er as (p&k1&(->&Hp)%getproc_inv&Er). rewrite Hp. cbn.
  destruct (master p); [by apply IH|]. injection Er as <- <-. done.
Qed.

Lemma highest_from_run fuel : forall i k h,
  highest (k_procs k) fuel i = Some h -> highest_master_from fuel i k = Ok h k.
Proof.
  induction fuel as [|fuel IH]; intros i k h Er; [done|]. cbn [highest_master_from highest] in *.
  destruct (k_procs k !! i) as [p|] eqn:Hp; [|done]. cbn in Er.
  rewrite (bind_Ok _ _ _ _ _ (getproc_run _ _ _ Hp)).
  destruct (master p); [by apply IH|]. by injection Er as ->.
Qed.

Lemma highest_frame ps ps' fuel : forall i,
  Forall2 same_but_path ps ps' -> highest ps' fuel i = highest ps fuel i.
Proof.
  intros i Hps. revert i. induction fuel as [|fuel IH]; intros i; [done|]. cbn.
  destruct (ps !! i) as [p|] eqn:Hp.
  - destruct (Forall2_lookup_l _ _ _ _ _ Hps Hp) as (p'&->&(_&Hm&_)%sbp_fields). cbn.
    rewrite Hm.
    destruct (master p); [apply IH|done].
  - apply lookup_ge_None in Hp. rewrite (Forall2_length _ _ _ Hps) in Hp.
    apply lookup_ge_None in Hp. by rewrite Hp.
Qed.

(** A group with a runnable thread: its head process and the mode. *)
Definition group (ps : list proc) (mode : Z) (h : nat) : Prop :=
  exists i p ph, ps !! i = Some p /\ state p = RUNNABLE /\
    highest_master ps i = Some h /\ ps !! h = Some ph /\ schedmode ph = mode.

(** ** The scan of [updatevals] *)

(** The candidate of a mode after the processes [l]: least by [key], strictly
    later ones never replacing it. *)
Definition best (ps : list proc) (mode : Z) (key : proc -> double) (l : list nat)
    (o : option nat) (m : double) : Prop :=
  match o with
  | None => m = dint (-1) /\
      forall i p h ph, i ∈ l -> ps !! i = Some p -> state p = RUNNABLE ->
        highest_master ps i = Some h -> ps !! h = Some ph -> schedmode ph <> mode
  | Some h => exists ph, ps !! h = Some ph /\ m = key ph /\ group ps mode h /\
      forall i p h' ph', i ∈ l -> ps !! i = Some p -> state p = RUNNABLE ->
        highest_master ps i = Some h' -> ps !! h' = Some ph' -> schedmode ph' = mode ->
        dltb (key ph') (key ph) = false
  end.

(** No process may carry the sentinel. *)
Definition no_sentinel (ps : list proc) (key : proc -> double) : Prop :=
  forall i p, ps !! i = Some p -> deqb (key p) (dint (-1)) = false.

Lemma best_skip ps mode key l o m i :
  best ps mode key l o m ->
  (forall p h ph, ps !! i = Some p -> state p = RUNNABLE ->
     highest_master ps i = Some h -> ps !! h = Some ph -> schedmode ph <> mode) ->
  best ps mode key (l ++ [i]) o m.
Proof.
  intros Hb Hi. destruct o as [h|]; cbn in *.
  - destruct Hb as (ph&?&?&?&Hb). exists ph. split_and!; [done..|].
    intros j p h' ph' [Hj| ->%list_elem_of_singleton]%elem_of_app; [by eapply Hb|].
    intros. exfalso. by eapply Hi.
  - destruct Hb as [? Hb]. split; [done|].
    intros j p h' ph' [Hj| ->%list_elem_of_singleton]%elem_of_app; [by eapply Hb|by eapply Hi].
Qed.

Lemma best_take ps mode key l o m i p h ph :
  no_sentinel ps key -> best ps mode key l o m ->
  ps !! i = Some p -> state p = RUNNABLE -> highest_master ps i = Some h ->
  ps !! h = Some ph -> schedmode ph = mode ->
  deqb m (dint (-1)) || dltb (key ph) m = true ->
  best ps mode key (l ++ [i]) (Some h) (key ph).
Proof.
  intros Hns Hb Hp Hst Hh Hph Hmode Ht. exists ph. split_and!; [done..| |].
  { by exists i, p, ph. }
  intros j pj h' ph' [Hj| ->%list_elem_of_singleton]%elem_of_app Hpj Hsj Hhj Hph' Hm'.
  - destruct o as [h0|]; [|by destruct (proj2 Hb j pj h' ph')].
    destruct Hb as (ph0&Hph0&->&_&Hb). rewrite (Hns _ _ Hph0) in Ht. cbn in Ht.
    destruct (dltb (key ph') (key ph)) eqn:Hlt; [|done].
    rewrite <- (Hb j pj h' ph'); [|done..]. symmetry. by eapply dltb_trans.
  - simplify_eq. apply dltb_irrefl.
Qed.

Lemma best_keep ps mode key l o m i p h ph :
  best ps mode key l o m ->
  ps !! i = Some p -> highest_master ps i = Some h ->
  ps !! h = Some ph ->
  deqb m (dint (-1)) || dltb (key ph) m = false ->
  best ps mode key (l ++ [i]) o m.
Proof.
  intros Hb Hp Hh Hph [Hs Hlt]%orb_false_elim. destruct o as [h0|].
  - destruct Hb as (ph0&?&->&?&Hb). exists ph0. split_and!; [done..|].
    intros j pj h' ph' [Hj| ->%list_elem_of_singleton]%elem_of_app; [by eapply Hb|].
    intros. by simplify_eq.
  - destruct Hb as [-> _]. by vm_compute in Hs.
Qed.

Definition level_key (p : proc) : double := dint (pathlevel p).

(** What the scan has found among the processes [l]. *)
Record scanned (k : K) (l : list nat) (u : uvals) (k1 : K) : Prop := {
  sc_procs : k_procs k1 = k_procs k;
  sc_slabs : k_slabs k1 = k_slabs k;
  sc_mlfq : k_mlfq k1 = k_mlfq k;
  sc_headers : k_headers k1 = k_headers k;
  sc_path : d_path (k_default k1) = d_path (k_default k);
  sc_default : best (k_procs k) 0 level_key l (d_highpr (k_default k1)) (uv_min2 u);
  sc_fixed : best (k_procs k) 1 path l (k_fixedmin k1) (uv_min u)
}.

Lemma updatevals_one_scanned k l u k1 i u' k2 :
  no_sentinel (k_procs k) level_key -> no_sentinel (k_procs k) path ->
  scanned k l u k1 -> updatevals_one u i k1 = Ok u' k2 -> scanned k (l ++ [i]) u' k2.
Proof.
  intros Hs0 Hs1 [Hps Hsl Hml Hhd Hpath Hd Hf] Er. unfold updatevals_one in Er.
  apply bind_inv in Er as (p&?&(->&Hp)%getproc_inv&Er). rewrite Hps in Hp.
  destruct (bool_decide (state p = RUNNABLE)) eqn:Hst; cbn [negb] in Er; bool_hyps.
  2: { injection Er as <- <-. split; try done; apply best_skip; try done; intros; by simplify_eq. }
  apply bind_inv in Er as (h&?&(->&Hh)%highest_from_inv&Er). rewrite Hps in Hh.
  apply bind_inv in Er as (hm&?&(->&Hhm)%getproc_inv&Er). rewrite Hps in Hhm.
  assert (forall mode key o m, best (k_procs k) mode key l o m -> schedmode hm <> mode ->
    best (k_procs k) mode key (l ++ [i]) o m) as Hother.
  { intros mode key o m Hb Hne. apply best_skip; [done|]. intros p' h' ph' Hp' _ Hh' Hph'.
    unfold highest_master in Hh'. by simplify_eq. }
  destruct (Z.eqb_spec (schedmode hm) 0) as [H0|H0].
  { assert (schedmode hm <> 1) as H1 by lia.
    destruct (deqb (uv_min2 u) (dint (-1)) || dltb (dint (pathlevel hm)) (uv_min2 u)) eqn:Ht;
      injection Er as <- <-; (split; [done..| |by apply Hother]).
    - by eapply (best_take _ 0 level_key).
    - by eapply best_keep. }
  destruct (Z.eqb_spec (schedmode hm) 1) as [H1|H1].
  { set (u1 := if bool_decide _ then _ else _) in Er.
    assert (uv_min u1 = uv_min u /\ uv_min2 u1 = uv_min2 u) as [Hu1 Hu2].
    { unfold u1. by destruct (bool_decide _). }
    rewrite Hu1 in Er.
    destruct (deqb (uv_min u) (dint (-1)) || dltb (path hm) (uv_min u)) eqn:Ht;
      injection Er as <- <-; (split; [done..| |]).
    - apply Hother; [|done]. change (uv_min2 (upd _ _ _)) with (uv_min2 u1). by rewrite Hu2.
    - by eapply (best_take _ 1 path).
    - rewrite Hu2. by apply Hother.
    - rewrite Hu1. by eapply best_keep. }
  injection Er as <- <-. split; try done; by apply Hother.
Qed.

Lemma updatevals_scan_inv k u k1 :
  no_sentinel (k_procs k) level_key -> no_sentinel (k_procs k) path ->
  updatevals_scan k = Ok u k1 -> scanned k all_procs u k1.
Proof.
  intros Hs0 Hs1. unfold updatevals_scan, set_default, set_fixedmin. mstep.
  assert (forall l' l u0 k0 u1 k1, scanned k l u0 k0 ->
    foldM updatevals_one u0 l' k0 = Ok u1 k1 -> scanned k (l ++ l') u1 k1) as Hfold.
  { induction l' as [|x l' IH]; intros l u0 k0 u2 k2 Hsc Er.
    { injection Er as <- <-. by rewrite app_nil_r. }
    cbn [foldM] in Er. apply bind_inv in Er as (u'&k'&E1&E2).
    rewrite cons_middle, app_assoc. eapply IH; [|done]. by eapply updatevals_one_scanned. }
  apply (Hfold all_procs []). split; try done; cbn; (split; [done|set_solver]).
Qed.

(** ** The choice of [choosebystride] *)

(** What the part of [updatevals] after the scan leaves alone. *)
Definition quiet (k k' : K) : Prop :=
  k_procs k' = k_procs k /\ k_fixedmin k' = k_fixedmin k /\
  d_highpr (k_default k') = d_highpr (k_default k) /\
  d_path (k_default k') = d_path (k_default k).
#[local] Instance quiet_preorder : PreOrder quiet.
Proof. split; [done|]. intros k1 k2 k3 (?&?&?&?) (?&?&?&?). unfold quiet. split_and!; congruence. Qed.

Lemma quiet_getproc i : keeps quiet (getproc i).
Proof. unfold getproc. keeps_tac. Qed.
Lemma quiet_set_mlfq f : keeps quiet (set_mlfq f).
Proof. by apply keeps_modify. Qed.
Lemma quiet_set_stride x : keeps quiet (set_default (fun d => d <| d_stride := x |>)).
Proof. by apply keeps_modify. Qed.
Lemma quiet_slabs {A} (m : M (list mlfqnode) A) : keeps quiet (zoom k_slabs m).
Proof. by apply keeps_zoom. Qed.
#[local] Hint Resolve quiet_getproc quiet_set_mlfq quiet_set_stride quiet_slabs : keeps.
Lemma quiet_getminproc a b : keeps quiet (getminproc a b).
Proof. unfold getminproc. keeps_tac. Qed.
Lemma quiet_self_state m : keeps quiet (self_state m).
Proof. unfold self_state. keeps_tac. Qed.
#[local] Hint Resolve quiet_getminproc quiet_self_state : keeps.
Lemma quiet_choose_from fuel : forall m, keeps quiet (choose_from fuel m).
Proof. induction fuel; intros [m|]; cbn [choose_from]; keeps_tac. Qed.
#[local] Hint Resolve quiet_choose_from : keeps.
Lemma quiet_choosebymlfq : keeps quiet choosebymlfq.
Proof. unfold choosebymlfq, header0. keeps_tac. by apply keeps_modify. Qed.
#[local] Hint Resolve quiet_choosebymlfq : keeps.

(** A node handed out stands for a runnable process. *)
Lemma choose_from_runnable fuel : forall m k i k',
  choose_from fuel m k = Ok (Some i) k' -> node_state k' i RUNNABLE.
Proof.
  induction fuel as [|fuel IH]; intros [m|] k i k' Er; try done.
  cbn [choose_from] in Er. apply bind_inv in Er as (n&k1&(->&Hn)%nd_inv&Er).
  destruct (negb (m_state n =? 1)); [by eapply IH|].
  apply bind_inv in Er as (st&k1&(->&Hst)%self_state_inv&Er).
  destruct (negb (bool_decide (st = RUNNABLE)) && negb (bool_decide (st = SLEEPING))).
  { apply bind_inv in Er as (?&k1&_&Er). by eapply IH. }
  destruct (bool_decide (st = RUNNABLE)) eqn:E1; [|by eapply IH].
  bool_hyps. injection Er as -> ->. by subst st.
Qed.

Lemma choosebymlfq_runnable k i k' :
  choosebymlfq k = Ok (Some i) k' -> node_state k' i RUNNABLE.
Proof.
  unfold choosebymlfq, header0. rewrite bind_bind, bind_gets, bind_ret.
  destruct (mjoin (k_headers k !! 0%nat)) as [h0|]; [|done]. rewrite bind_gets.
  intros (b&k1&Eb&Er)%bind_inv. destruct b.
  - destruct (mv_highpr (k_mlfq k)) as [j|]; [|done].
    apply bind_inv in Eb as (st&k2&(->&Hst)%self_state_inv&[= Hb <-]).
    bool_hyps. subst st. by injection Er as -> ->.
  - apply bind_inv in Er as (m&k2&Em&Er). apply bind_inv in Er as (n&k3&(->&Hn)%nd_inv&Er).
    apply bind_inv in Er as (?&k3&Ew&[= -> ->]). apply choose_from_runnable in Em.
    unfold when in Ew. destruct (negb _); injection Ew as _ <-; exact Em.
Qed.

(** [getminproc] as a function of the table. *)
Definition minproc (ps : list proc) (a b : option nat) : option nat :=
  match a, b with
  | None, _ => b
  | _, None => a
  | Some i, Some j =>
      match ps !! i, ps !! j with
      | Some pi, Some pj => if dgtb (path pi) (path pj) then b else a
      | _, _ => None
      end
  end.

Lemma getminproc_inv a b k r k' :
  getminproc a b k = Ok r k' -> k' = k /\ r = minproc (k_procs k) a b.
Proof.
  destruct a as [i|], b as [j|]; cbn [getminproc minproc]; try by intros [= <- <-].
  intros (pi&?&(->&Hi)%getproc_inv&(pj&?&(->&Hj)%getproc_inv&[= <- <-])%bind_inv)%bind_inv.
  by rewrite Hi, Hj.
Qed.

(** [o->path = x] on the table, a null [o] doing nothing. *)
Definition set_path (o : option nat) (x : double) (ps : list proc) : list proc :=
  match o with Some i => alter (fun p => p <| path := x |>) i ps | None => ps end.

Lemma default_path_inv k u k' :
  default_path k = Ok u k' ->
  k' = k <| k_procs ::= set_path (d_highpr (k_default k)) (d_path (k_default k)) |>.
Proof.
  unfold default_path. rewrite bind_gets. destruct (d_highpr _).
  - by intros [_ ->]%setproc_inv.
  - intros [= _ <-]. by destruct k.
Qed.

Lemma set_path_idem o x ps : set_path o x (set_path o x ps) = set_path o x ps.
Proof.
  destruct o as [i|]; [|done]. cbn. apply list_eq. intros j. destruct (decide (i = j)) as [<-|].
  - rewrite !list_lookup_alter_eq. by destruct (ps !! i).
  - by rewrite !list_lookup_alter_ne.
Qed.

Lemma updatevals_inv k u k2 :
  updatevals k = Ok u k2 ->
  exists uv k1, updatevals_scan k = Ok uv k1 /\
    k_procs k2 = set_path (d_highpr (k_default k1)) (d_path (k_default k1)) (k_procs k1) /\
    k_fixedmin k2 = k_fixedmin k1 /\
    d_highpr (k_default k2) = d_highpr (k_default k1) /\
    d_path (k_default k2) = d_path (k_default k1) /\
    (forall m, mv_highpr (k_mlfq k2) = Some m -> node_state k2 m RUNNABLE).
Proof.
  unfold updatevals. intros (uv&k1&Hscan&Er)%bind_inv. exists uv, k1. split; [done|].
  apply bind_inv in Er as (?&ka&->%default_path_inv&Er).
  apply bind_inv in Er as (?&kb&Eb&Er). apply bind_inv in Er as (m&kc&Em&[= _ <-]).
  match type of Eb with ?m ?s = _ =>
    assert (quiet s kb) as Hq by (revert Eb; cut (keeps quiet m); [eauto|keeps_tac])
  end.
  destruct Hq as (Hq1&Hq2&Hq3&Hq4).
  destruct (quiet_choosebymlfq _ _ _ Em) as (Hr1&Hr2&Hr3&Hr4).
  proj_upd. proj_upd in Hq1. proj_upd in Hq2. proj_upd in Hq3. proj_upd in Hq4.
  split_and!; try congruence.
  intros i Hi. cbn in Hi. subst m. exact (choosebymlfq_runnable _ _ _ Em).
Qed.

(** The three candidates: the fixed-share process, the process [s] of the MLFQ
    and the default process; the least by [path] is the result. *)
Lemma choosebystride_inv k r k' :
  choosebystride k = Ok r k' ->
  exists uv k1 s, updatevals_scan k = Ok uv k1 /\
    let d := d_highpr (k_default k1) in
    k_procs k' = set_path s (mv_path (k_mlfq k')) (set_path d (d_path (k_default k1)) (k_procs k1)) /\
    r = minproc (k_procs k') (k_fixedmin k1) (minproc (k_procs k') s d) /\
    (exists k2, updatevals k = Ok tt k2 /\ k_mlfq k' = k_mlfq k2 /\
       s = mv_highpr (k_mlfq k2) ≫= fun m => k_slabs k2 !! m ≫= m_self) /\
    (forall i, s = Some i -> exists p, k_procs k' !! i = Some p /\ state p = RUNNABLE).
Proof.
  unfold choosebystride. intros ([]&k2&Hup&Er)%bind_inv.
  destruct (updatevals_inv _ _ _ Hup) as (uv&k1&Hscan&Hps&Hfx&Hd&Hdp&Hrun).
  apply bind_inv in Er as (?&k3&->%default_path_inv&Er).
  assert (k2 <| k_procs ::= set_path (d_highpr (k_default k2)) (d_path (k_default k2)) |> = k2)
    as Ek2 by (kernel_eq; by rewrite Hd, Hdp, Hps, set_path_idem).
  rewrite Ek2 in Er. rewrite !bind_gets, Hfx, Hd in Er.
  exists uv, k1. destruct (mv_highpr (k_mlfq k2)) as [m|] eqn:Em.
  - destruct (Hrun m eq_refl) as (n&i&p&Hn&Hi&Hp&Hst).
    apply bind_inv in Er as (n'&?&(->&Hn')%nd_inv&Er).
    rewrite Hn in Hn'. injection Hn' as <-.
    rewrite Hi, bind_deref in Er. apply bind_inv in Er as (?&k4&[_ ->]%setproc_inv&Er).
    apply bind_inv in Er as (a&?&[-> ->]%getminproc_inv&[-> ->]%getminproc_inv).
    proj_upd. exists (Some i). split_and!; try done.
    + by rewrite Hps.
    + exists k2. split_and!; [done..|]. rewrite Em. cbn. by rewrite Hn.
    + intros ? [= <-]. rewrite list_lookup_alter_eq, Hp. by eexists.
  - apply getminproc_inv in Er as [-> ->]. proj_upd. exists None. split_and!; try done.
    exists k2. split_and!; [done..|]. by rewrite Em.
Qed.

(** ** Only runnable processes are run *)

(** The states of all processes. *)
Definition states (k : K) : list procstate := state <$> k_procs k.
Definition same_states (k k' : K) : Prop := states k' = states k.
#[local] Instance same_states_preorder : PreOrder same_states.
Proof. unfold same_states. split; [done|]. intros ???. congruence. Qed.

Lemma frame_states k k' : frame k k' -> same_states k k'.
Proof.
  intros [Hps _ _ _ _ _]. unfold same_states, states.
  induction Hps as [|p p' ps ps' (Hp&_)%sbp_fields _ IH]; [done|].
  cbn. by rewrite Hp, IH.
Qed.

Lemma states_setproc i f :
  (forall p, state (f p) = state p) -> keeps same_states (setproc i f).
Proof.
  intros Hf k u k' [_ ->]%setproc_inv. unfold same_states, states. proj_upd.
  apply list_eq. intros j. rewrite !list_lookup_fmap. destruct (decide (i = j)) as [<-|].
  - rewrite list_lookup_alter_eq. destruct (k_procs k !! i); cbn; by rewrite ?Hf.
  - by rewrite list_lookup_alter_ne.
Qed.
Lemma states_getproc i : keeps same_states (getproc i).
Proof. unfold getproc. keeps_tac. Qed.
Lemma states_set_default f : keeps same_states (set_default f).
Proof. by apply keeps_modify. Qed.
Lemma states_set_mlfq f : keeps same_states (set_mlfq f).
Proof. by apply keeps_modify. Qed.
Lemma states_slabs {A} (m : M (list mlfqnode) A) : keeps same_states (zoom k_slabs m).
Proof. by apply keeps_zoom. Qed.
Lemma states_env {A} (m : M E A) : keeps same_states (env m).
Proof. by apply keeps_zoom. Qed.
#[local] Hint Resolve states_setproc states_getproc states_set_default states_set_mlfq
  states_slabs states_env : keeps.
#[local] Hint Extern 5 (forall p, state _ = state p) => reflexivity : keeps.

Lemma states_pick_thread fuel p : forall q, keeps same_states (pick_thread fuel p q).
Proof. induction fuel; intros q; cbn [pick_thread]; keeps_tac. Qed.
#[local] Hint Resolve states_pick_thread : keeps.
Lemma states_choose_and_charge p : keeps same_states (choose_and_charge p).
Proof. unfold choose_and_charge, charge_mlfq, end_slice. keeps_tac. Qed.

Definition runnable (k : K) (i : nat) : Prop := states k !! i = Some RUNNABLE.

Lemma runnable_lookup k i :
  runnable k i <-> exists p, k_procs k !! i = Some p /\ state p = RUNNABLE.
Proof.
  unfold runnable, states. rewrite list_lookup_fmap. destruct (k_procs k !! i) as [p|]; cbn.
  - split; [intros [= ?]; eauto|]. intros (?&[= <-]&->). done.
  - split; [done|]. by intros (?&?&?).
Qed.

Lemma pick_thread_runnable fuel p : forall q k i k',
  pick_thread fuel p q k = Ok (Some i) k' -> runnable k i.
Proof.
  induction fuel as [|fuel IH]; intros q k i k' Er; [done|]. cbn [pick_thread] in Er.
  apply bind_inv in Er as (pq&k1&(->&Hpq)%getproc_inv&Er).
  destruct (bool_decide (state pq = RUNNABLE)) eqn:Hst.
  - apply bind_inv in Er as (?&k2&_&[= <- <-]). bool_hyps. apply runnable_lookup. eauto.
  - apply bind_inv in Er as (pp&k2&(->&_)%getproc_inv&Er).
    destruct (bool_decide (next_thread pq = turn pp)); [done|]. by eapply IH.
Qed.

Lemma choose_and_charge_runnable p k i k' :
  (forall pp, k_procs k !! p = Some pp -> schedmode pp <> 0 -> schedmode pp <> 1 -> runnable k p) ->
  choose_and_charge p k = Ok (Some i) k' -> runnable k i.
Proof.
  intros Hp. unfold choose_and_charge. intros (pp&?&(->&Hpp)%getproc_inv&Er)%bind_inv.
  destruct (Z.eqb_spec (schedmode pp) 0); [|destruct (Z.eqb_spec (schedmode pp) 1)].
  1-2: apply bind_inv in Er as ([q|]&k1&Eq&Er); [|done]; apply pick_thread_runnable in Eq;
    repeat (apply bind_inv in Er as (?&?&_&Er)); by injection Er as <- <-.
  destruct (Z.eqb_spec (schedmode pp) 2);
    [apply bind_inv in Er as (?&k1&_&Er)|]; injection Er as <- <-; by eapply Hp.
Qed.

(** A candidate of the scan belongs to its mode. *)
Lemma best_mode ps mode key l h m : best ps mode key l (Some h) m -> group ps mode h.
Proof. by intros (?&?&?&?&?). Qed.

Lemma set_path_lookup o x ps i p :
  set_path o x ps !! i = Some p -> exists p0, ps !! i = Some p0 /\ same_but_path p0 p /\
    path p = if bool_decide (o = Some i) then x else path p0.
Proof.
  destruct o as [j|]; cbn.
  - destruct (decide (j = i)) as [->|].
    + rewrite list_lookup_alter_eq. destruct (ps !! i) as [p0|]; [|done]. intros [= <-].
      exists p0. rewrite bool_decide_true by done. done.
    + rewrite list_lookup_alter_ne by done. intros. exists p.
      rewrite bool_decide_false by congruence. done.
  - intros. exists p. done.
Qed.

Lemma minproc_in ps a b r : minproc ps a b = Some r -> a = Some r \/ b = Some r.
Proof.
  destruct a as [i|], b as [j|]; cbn; [|by left|by right|by right].
  destruct (ps !! i), (ps !! j); try done. destruct (dgtb _ _); auto.
Qed.

(** What the head of the scheduler's loop chose. *)
Lemma choosebystride_modes k r k' pr :
  no_sentinel (k_procs k) level_key -> no_sentinel (k_procs k) path ->
  choosebystride k = Ok (Some r) k' -> k_procs k' !! r = Some pr ->
  schedmode pr <> 0 -> schedmode pr <> 1 -> state pr = RUNNABLE.
Proof.
  intros Hs0 Hs1 Er Hr H0 H1.
  destruct (choosebystride_inv _ _ _ Er) as (uv&k1&s&Hscan&Hps&Hmin&_&Hrun).
  pose proof (updatevals_scan_inv _ _ _ Hs0 Hs1 Hscan) as [Hp1 _ _ _ _ Hd Hf].
  assert (forall mode h, group (k_procs k) mode h -> h = r -> schedmode pr = mode) as Hg.
  { intros mode h (i&p&ph&_&_&_&Hph&Hm) ->. rewrite Hps, Hp1 in Hr.
    apply set_path_lookup in Hr as (p1&(p0&Hr0&Hb0&_)%set_path_lookup&Hb1&_).
    apply sbp_fields in Hb0 as (_&_&E0&_), Hb1 as (_&_&E1&_). congruence. }
  apply eq_sym, minproc_in in Hmin as [Ef|[Es|Ed]%minproc_in].
  - rewrite Ef in Hf. by apply best_mode, Hg in Hf.
  - destruct (Hrun r Es) as (p&Hp&?). by simplify_eq.
  - rewrite Ed in Hd. by apply best_mode, Hg in Hd.
Qed.

Lemma sched_pick_inv k q k' :
  no_sentinel (k_procs k) level_key -> no_sentinel (k_procs k) path ->
  sched_pick k = Ok (Run q) k' ->
  runnable k q /\ states k' = <[q := RUNNING]> (states k) /\ k_curproc k' = Some q.
Proof.
  intros Hs0 Hs1. unfold sched_pick. intros ([p|]&k1&Ep&Er)%bind_inv;
    [|by apply bind_inv in Er as (?&?&_&Er)].
  pose proof (frame_states _ _ (keeps_choosebystride _ _ _ Ep)) as Hst1.
  apply bind_inv in Er as ([q'|]&k2&Eq&Er); [|done].
  pose proof (states_choose_and_charge _ _ _ _ Eq) as Hst2.
  apply choose_and_charge_runnable in Eq.
  2: { intros pp Hpp ??. apply runnable_lookup. exists pp. split; [done|].
       by eapply choosebystride_modes. }
  rewrite bind_modify in Er. apply bind_inv in Er as (?&k3&Esw&Er).
  assert (same_states (k2 <| k_curproc := Some q' |>) k3 /\ k_curproc k3 = Some q')
    as [Hst3 Hcur].
  { unfold switchuvm in Esw. apply bind_inv in Esw as (pq&?&(->&_)%getproc_inv&Esw).
    destruct (kstack pq =? 0), (pgdir pq =? 0); try done.
    apply bind_inv in Esw as (?&k4&E1&E2). unfold env, zoom in E1, E2.
    destruct (load_tss _ _); try done. injection E1 as _ <-.
    destruct (lcr3 _ _); try done. injection E2 as _ <-. done. }
  apply bind_inv in Er as (?&k4&[[pq Hpq] ->]%setproc_inv&[= <- <-]).
  unfold same_states in *. unfold runnable in *. rewrite <- Hst1. split_and!; [done| |done].
  rewrite <- Hst2. change (states k2) with (states (k2 <| k_curproc := Some q' |>)).
  rewrite <- Hst3. unfold states. proj_upd. apply list_eq. intros j.
  rewrite list_lookup_fmap. destruct (decide (q' = j)) as [<-|].
  - rewrite list_lookup_alter_eq, list_lookup_insert_eq, Hpq; [done|].
    rewrite length_fmap. by eapply lookup_lt_Some.
  - by rewrite list_lookup_alter_ne, list_lookup_insert_ne, list_lookup_fmap.
Qed.

(** ** The least path wins *)

(** The nodes stand for processes in MLFQ mode. *)
Definition nodes_mlfq (k : K) : Prop :=
  forall m n i p, k_slabs k !! m = Some n -> m_self n = Some i ->
    k_procs k !! i = Some p -> schedmode p = 2.
(** Pass values are numbers, none of them the sentinel [-1] of the scan. *)
Record sane (k : K) : Prop := {
  sane_length : length (k_procs k) = NPROC;
  sane_level : no_sentinel (k_procs k) level_key;
  sane_path : no_sentinel (k_procs k) path;
  sane_paths : forall i p, k_procs k !! i = Some p -> not_nan (path p) = true;
  sane_default : not_nan (d_path (k_default k)) = true;
  sane_mlfq : not_nan (mv_path (k_mlfq k)) = true;
  sane_nodes : nodes_mlfq k
}.

Definition selves (k k' : K) : Prop := Mlfq.selfs_sub (k_slabs k) (k_slabs k').
#[local] Instance selves_preorder : PreOrder selves.
Proof. unfold selves. split; [intros k; reflexivity|]. intros ?????. by etrans. Qed.

Lemma selves_zoom {A} (m : M (list mlfqnode) A) :
  keeps Mlfq.selfs_sub m -> keeps selves (zoom k_slabs m).
Proof.
  intros Hm k a k'. unfold zoom. destruct (m (k_slabs k)) eqn:Er; intros [= <- <-].
  by eapply Hm.
Qed.
Lemma selves_getproc i : keeps selves (getproc i).
Proof. unfold getproc. keeps_tac. Qed.
Lemma selves_setproc i f : keeps selves (setproc i f).
Proof. unfold setproc, getproc. keeps_tac. apply keeps_modify; intros k; unfold selves; reflexivity. Qed.
Lemma selves_set_default f : keeps selves (set_default f).
Proof. apply keeps_modify; intros k; unfold selves; reflexivity. Qed.
Lemma selves_set_mlfq f : keeps selves (set_mlfq f).
Proof. apply keeps_modify; intros k; unfold selves; reflexivity. Qed.
Lemma selves_set_fixedmin o : keeps selves (set_fixedmin o).
Proof. apply keeps_modify; intros k; unfold selves; reflexivity. Qed.
#[local] Hint Resolve selves_zoom Mlfq.keeps_nd_self Mlfq.keeps_delete_self selves_getproc
  selves_setproc selves_set_default selves_set_mlfq selves_set_fixedmin : keeps.

Lemma selves_highest_master i : keeps selves (get_highest_master i).
Proof.
  unfold get_highest_master. generalize (S NPROC). intros fuel. revert i.
  induction fuel; intros i; cbn [highest_master_from]; keeps_tac.
Qed.
Lemma selves_getminproc a b : keeps selves (getminproc a b).
Proof. unfold getminproc. keeps_tac. Qed.
Lemma selves_self_state m : keeps selves (self_state m).
Proof. unfold self_state. keeps_tac. Qed.
#[local] Hint Resolve selves_highest_master selves_getminproc selves_self_state : keeps.
Lemma selves_choose_from fuel : forall m, keeps selves (choose_from fuel m).
Proof. induction fuel; intros [m|]; cbn [choose_from]; keeps_tac. Qed.
#[local] Hint Resolve selves_choose_from : keeps.
Lemma selves_choosebymlfq : keeps selves choosebymlfq.
Proof. unfold choosebymlfq, header0. keeps_tac. apply keeps_modify; intros k; unfold selves; reflexivity. Qed.
#[local] Hint Resolve selves_choosebymlfq : keeps.
Lemma selves_updatevals : keeps selves updatevals.
Proof. unfold updatevals, updatevals_scan, updatevals_one, default_path. keeps_tac. Qed.

Definition same_mlfq_path (k k' : K) : Prop := mv_path (k_mlfq k') = mv_path (k_mlfq k).
#[local] Instance same_mlfq_path_preorder : PreOrder same_mlfq_path.
Proof. unfold same_mlfq_path. split; [done|]. intros ???. congruence. Qed.
Lemma mlfq_path_slabs {A} (m : M (list mlfqnode) A) : keeps same_mlfq_path (zoom k_slabs m).
Proof. by apply keeps_zoom. Qed.
Lemma mlfq_path_getproc i : keeps same_mlfq_path (getproc i).
Proof. unfold getproc. keeps_tac. Qed.
#[local] Hint Resolve mlfq_path_slabs mlfq_path_getproc : keeps.
Lemma mlfq_path_self_state m : keeps same_mlfq_path (self_state m).
Proof. unfold self_state. keeps_tac. Qed.
#[local] Hint Resolve mlfq_path_self_state : keeps.
Lemma mlfq_path_choose_from fuel : forall m, keeps same_mlfq_path (choose_from fuel m).
Proof. induction fuel; intros [m|]; cbn [choose_from]; keeps_tac. Qed.
#[local] Hint Resolve mlfq_path_choose_from : keeps.
Lemma mlfq_path_choosebymlfq : keeps same_mlfq_path choosebymlfq.
Proof. unfold choosebymlfq, header0. keeps_tac. by apply keeps_modify. Qed.

Lemma updatevals_mlfq_path k k2 :
  sane k -> updatevals k = Ok tt k2 -> not_nan (mv_path (k_mlfq k2)) = true.
Proof.
  intros [_ Hs0 Hs1 Hpaths Hdef Hml _]. unfold updatevals.
  intros (uv&k1&Hscan&Er)%bind_inv.
  destruct (updatevals_scan_inv _ _ _ Hs0 Hs1 Hscan) as [Hp1 _ Hm1 _ Hd1 _ _].
  apply bind_inv in Er as (?&ka&->%default_path_inv&Er).
  apply bind_inv in Er as (?&kb&Eb&Er). apply bind_inv in Er as (m&kc&Em&[= <-]).
  apply mlfq_path_choosebymlfq in Em. proj_upd. rewrite Em.
  destruct (negb (uv_mlfqcnt uv =? 0)); [|injection Eb as _ <-; done].
  rewrite bind_gets in Eb. proj_upd in Eb. apply bind_inv in Eb as (?&kd&Ew&[= _ <-]). proj_upd.
  unfold when in Ew. destruct (deqb _ _); [|injection Ew as _ <-; by rewrite <- Hm1 in Hml].
  rewrite !bind_gets in Ew. apply bind_inv in Ew as (p&?&[-> _]%getminproc_inv&Ew).
  unfold set_mlfq at 1 in Ew. rewrite bind_modify in Ew. destruct p as [i|]; [|by injection Ew as _ <-].
  apply bind_inv in Ew as (pi&?&(->&Hpi)%getproc_inv&[= _ <-]). proj_upd. proj_upd in Hpi.
  apply set_path_lookup in Hpi as (p0&Hp0&_&Hpath). change (not_nan (path pi) = true).
  rewrite Hpath. rewrite Hp1 in Hp0. case_bool_decide; [by rewrite Hd1|by eapply Hpaths].
Qed.

(** The least of two candidates. *)
Lemma minproc_least ps a b r pr i pi :
  minproc ps a b = Some r -> ps !! r = Some pr -> ps !! i = Some pi ->
  a = Some i \/ b = Some i -> dltb (path pi) (path pr) = false.
Proof.
  destruct a as [ia|], b as [ib|]; cbn.
  2-4: intros; destruct_or!; simplify_eq; apply dltb_irrefl.
  destruct (ps !! ia) as [pa|] eqn:Ha, (ps !! ib) as [pb|] eqn:Hb; try done.
  unfold dgtb. fold (dltb (path pb) (path pa)).
  destruct (dltb (path pb) (path pa)) eqn:Hlt; intros [= ->] ?? [[= ->]|[= ->]];
    simplify_eq; try apply dltb_irrefl; [by apply dltb_asym|done].
Qed.

Lemma minproc_some ps a b i :
  (a = Some i \/ b = Some i) -> (forall j, a = Some j \/ b = Some j -> is_Some (ps !! j)) ->
  is_Some (minproc ps a b).
Proof.
  destruct a as [ia|], b as [ib|]; cbn; try (by eexists); [|by intros [|]].
  intros _ Hs. destruct (Hs ia ltac:(auto)) as [? ->], (Hs ib ltac:(auto)) as [? ->].
  by destruct (dgtb _ _); eexists.
Qed.

Lemma minproc3_some ps f s d i :
  (forall j, f = Some j \/ s = Some j \/ d = Some j -> is_Some (ps !! j)) ->
  f = Some i \/ s = Some i \/ d = Some i -> is_Some (minproc ps f (minproc ps s d)).
Proof.
  intros Hin Hi. assert (exists j, f = Some j \/ minproc ps s d = Some j) as [j Hj].
  { destruct Hi as [|Hi]; [eauto|].
    destruct (minproc_some ps s d i Hi) as [j ?]; [intros; apply Hin; tauto|eauto]. }
  apply (minproc_some _ _ _ j Hj). intros l [?|?%minproc_in]; apply Hin; tauto.
Qed.

(** The least of the three candidates. *)
Lemma minproc3_least ps f s d r pr i pi :
  (forall j, f = Some j \/ s = Some j \/ d = Some j -> is_Some (ps !! j)) ->
  (forall j pj, ps !! j = Some pj -> not_nan (path pj) = true) ->
  minproc ps f (minproc ps s d) = Some r -> ps !! r = Some pr -> ps !! i = Some pi ->
  f = Some i \/ s = Some i \/ d = Some i -> dltb (path pi) (path pr) = false.
Proof.
  intros Hin Hnan Hr Hpr Hpi [Hf|Hsd].
  { eapply minproc_least; eauto. }
  destruct (minproc_some ps s d i Hsd ltac:(auto)) as [j Hj].
  destruct (Hin j) as [pj Hpj]; [by right; eapply minproc_in|].
  pose proof (minproc_least _ _ _ _ _ _ _ Hj Hpj Hpi Hsd) as H1.
  pose proof (minproc_least _ _ _ _ _ _ _ Hr Hpr Hpj (or_intror Hj)) as H2.
  destruct (dltb (path pi) (path pr)) eqn:Hlt; [|done].
  apply (dltb_cotrans _ (path pj)) in Hlt as [|]; [congruence..|]. by eapply Hnan.
Qed.

Lemma set_path_is_Some o x ps i : is_Some (set_path o x ps !! i) <-> is_Some (ps !! i).
Proof.
  rewrite !lookup_lt_is_Some. destruct o; [|done]. cbn. by rewrite length_alter.
Qed.

(** The candidates as the code has them when it compares: their processes and
    pass values. *)
Record choice (k k' : K) (f s d : option nat) : Prop := {
  ch_procs : k_procs k' =
    set_path s (mv_path (k_mlfq k')) (set_path d (d_path (k_default k)) (k_procs k));
  ch_fixed : exists m, best (k_procs k) 1 path all_procs f m;
  ch_default : exists m, best (k_procs k) 0 level_key all_procs d m;
  ch_mlfq : s = None <-> mv_highpr (k_mlfq k') = None;
  ch_self : forall i p, s = Some i -> k_procs k !! i = Some p ->
    schedmode p = 2 /\ state p = RUNNABLE;
  ch_mlfq_path : not_nan (mv_path (k_mlfq k')) = true
}.

Lemma choosebystride_choice k r k' :
  sane k -> choosebystride k = Ok r k' ->
  exists f s d, choice k k' f s d /\ r = minproc (k_procs k') f (minproc (k_procs k') s d) /\
    (forall j, f = Some j \/ s = Some j \/ d = Some j -> is_Some (k_procs k' !! j)).
Proof.
  intros Hsane Er. pose proof Hsane as [_ Hs0 Hs1 Hpaths Hdef Hml Hnodes].
  destruct (choosebystride_inv _ _ _ Er) as (uv&k1&s&Hscan&Hps&Hmin&(k2&Hup&Hm2&Hs)&Hrun).
  destruct (updatevals_scan_inv _ _ _ Hs0 Hs1 Hscan) as [Hp1 _ Hm1 _ Hd1 Hd Hf].
  pose proof (selves_updatevals _ _ _ Hup) as Hsv.
  destruct (updatevals_inv _ _ _ Hup) as (_&_&_&_&_&_&_&Hnode).
  rewrite Hp1, Hd1 in Hps. exists (k_fixedmin k1), s, (d_highpr (k_default k1)).
  split_and!; [split| |]; try done.
  - by eexists.
  - by eexists.
  - rewrite Hm2. rewrite Hs. destruct (mv_highpr (k_mlfq k2)) as [m|]; [|done].
    destruct (Hnode m eq_refl) as (n&i&p&Hn&Hi&_). cbn. rewrite Hn. cbn. by rewrite Hi.
  - intros i p -> Hp. destruct (Hrun i eq_refl) as (p'&Hp'&Hst). rewrite Hps in Hp'.
    apply set_path_lookup in Hp' as (p1&(p0&Hp0&(E0&_)%sbp_fields&_)%set_path_lookup
      &(E1&_)%sbp_fields&_). simplify_eq. split; [|congruence].
    destruct (mv_highpr (k_mlfq k2)) as [m|]; [|done]. cbn in Hs.
    destruct (k_slabs k2 !! m) as [n2|] eqn:Hn2; [|done]. cbn in Hs.
    destruct (Hsv _ _ _ Hn2 (eq_sym Hs)) as (n&Hn&Hi). by eapply Hnodes.
  - rewrite Hm2. by eapply updatevals_mlfq_path.
  - intros j Hj. rewrite Hps, !set_path_is_Some.
    assert (forall mode h, group (k_procs k) mode h -> is_Some (k_procs k !! h)) as Hg.
    { intros mode h (?&?&?&?&?&?&?&?). by eexists. }
    destruct Hj as [Hj|[Hj|Hj]].
    + rewrite Hj in Hf. by eapply Hg, best_mode.
    + destruct (Hrun j Hj) as (p&Hp&_). rewrite Hps in Hp. apply mk_is_Some in Hp.
      by rewrite !set_path_is_Some in Hp.
    + rewrite Hj in Hd. by eapply Hg, best_mode.
Qed.

(** Paths in the state in which the candidates are compared. *)
Lemma choice_path k k' f s d i p' :
  choice k k' f s d -> k_procs k' !! i = Some p' ->
  exists p, k_procs k !! i = Some p /\ same_but_path p p' /\
    path p' = if bool_decide (s = Some i) then mv_path (k_mlfq k')
              else if bool_decide (d = Some i) then d_path (k_default k) else path p.
Proof.
  intros [Hps _ _ _ _ _] Hp'. rewrite Hps in Hp'.
  apply set_path_lookup in Hp' as (p1&(p0&Hp0&Hb0&E0)%set_path_lookup&Hb1&E1).
  exists p0. split_and!; [done|by etrans|]. by rewrite E1, E0.
Qed.

Lemma choice_nan k k' f s d i p' :
  sane k -> choice k k' f s d -> k_procs k' !! i = Some p' -> not_nan (path p') = true.
Proof.
  intros [_ _ _ Hpaths Hdef _ _] Hc Hp'. destruct (choice_path _ _ _ _ _ _ _ Hc Hp') as (p&Hp&_&->).
  destruct Hc as [_ _ _ _ _ Hm]. repeat case_bool_decide; [done..|]. by eapply Hpaths.
Qed.

(** A head process of mode 0 or 1 is not the MLFQ candidate. *)
Lemma choice_not_self k k' f s d mode h :
  choice k k' f s d -> group (k_procs k) mode h -> mode <> 2 -> s <> Some h.
Proof.
  intros [_ _ _ _ Hself _] (?&?&ph&_&_&_&Hph&<-) Hm ->. by destruct (Hself h ph).
Qed.

Lemma group_mode ps mode mode' h : group ps mode h -> group ps mode' h -> mode = mode'.
Proof. intros (?&?&?&_&_&_&?&<-) (?&?&?&_&_&_&?&<-). by simplify_eq. Qed.

Lemma best_group ps mode key m h : length ps = NPROC ->
  group ps mode h -> forall o, best ps mode key all_procs o m ->
  exists f pf ph, o = Some f /\ ps !! f = Some pf /\ ps !! h = Some ph /\
    group ps mode f /\ dltb (key ph) (key pf) = false.
Proof.
  intros Hlen (i&p&ph&Hp&Hst&Hh&Hph&Hm) o Hb.
  assert (i ∈ all_procs) as Hi.
  { apply elem_of_seq. apply lookup_lt_Some in Hp. lia. }
  destruct o as [f|].
  - destruct Hb as (pf&Hpf&_&Hg&Hb). exists f, pf, ph. split_and!; try done. by eapply Hb.
  - destruct Hb as [_ Hb]. by destruct (Hb i p h ph).
Qed.

(** The candidates with their pass values, none below the result's. *)
Lemma choice_cand k k' f s d r :
  sane k -> choice k k' f s d ->
  (forall j, f = Some j \/ s = Some j \/ d = Some j -> is_Some (k_procs k' !! j)) ->
  minproc (k_procs k') f (minproc (k_procs k') s d) = Some r ->
  exists pr, k_procs k' !! r = Some pr /\
  forall i, f = Some i \/ s = Some i \/ d = Some i -> exists pi p,
    k_procs k' !! i = Some pi /\ k_procs k !! i = Some p /\
    not_nan (path pi) = true /\ dltb (path pi) (path pr) = false /\
    path pi = if bool_decide (s = Some i) then mv_path (k_mlfq k')
              else if bool_decide (d = Some i) then d_path (k_default k) else path p.
Proof.
  intros Hs Hc Hin Hr. destruct (Hin r) as [pr Hpr].
  { pose proof Hr as [|Hr']%minproc_in; [by left|]. right. by eapply minproc_in. }
  exists pr. split; [done|]. intros i Hi. destruct (Hin i Hi) as [pi Hpi].
  destruct (choice_path _ _ _ _ _ _ _ Hc Hpi) as (p&Hp&_&?). exists pi, p.
  assert (forall j pj, k_procs k' !! j = Some pj -> not_nan (path pj) = true) as Hnan
    by (intros j pj; by eapply choice_nan).
  split_and!; eauto. eapply (minproc3_least (k_procs k') f s d); eauto.
Qed.

(** C18: stride scheduling across the classes: whenever [choosebystride] returns
    a process, no runnable fixed-share process, neither the default class nor
    the MLFQ class has a pass value below the one of the process returned. *)
Theorem choosebystride_least k r k' :
  sane k -> choosebystride k = Ok (Some r) k' ->
  exists pr, k_procs k' !! r = Some pr /\
    (forall h ph, group (k_procs k) 1 h -> k_procs k !! h = Some ph ->
       dltb (path ph) (path pr) = false) /\
    ((exists h, group (k_procs k) 0 h) ->
       dltb (d_path (k_default k)) (path pr) = false) /\
    (is_Some (mv_highpr (k_mlfq k')) ->
       dltb (mv_path (k_mlfq k')) (path pr) = false).
Proof.
  intros Hs Er. destruct (choosebystride_choice _ _ _ Hs Er) as (f&s&d&Hc&Hr&Hin).
  destruct (choice_cand _ _ _ _ _ _ Hs Hc Hin (eq_sym Hr)) as (pr&Hpr&Hcand).
  destruct (ch_default _ _ _ _ _ Hc) as [md Hd], (ch_fixed _ _ _ _ _ Hc) as [mf Hf].
  exists pr. split_and!; [done|..].
  - intros h ph Hg Hph.
    destruct (best_group _ _ _ _ _ (sane_length _ Hs) Hg _ Hf) as (g&pg&ph'&->&Hpg&Hph'&Hgg&Hlt).
    destruct (Hcand g ltac:(auto)) as (pi&p&_&Hp&Hn&Hlt2&E1). simplify_eq.
    rewrite !bool_decide_false in E1.
    + rewrite <- E1 in Hlt. by eapply dltb_false_trans.
    + intros ->. by pose proof (group_mode _ _ _ _ Hgg (best_mode _ _ _ _ _ _ Hd)).
    + by eapply choice_not_self.
  - intros (h&Hg).
    destruct (best_group _ _ _ _ _ (sane_length _ Hs) Hg _ Hd) as (g&pg&ph'&->&Hpg&Hph'&Hgg&_).
    destruct (Hcand g ltac:(auto)) as (pi&p&_&Hp&Hn&Hlt2&E1).
    rewrite bool_decide_false, bool_decide_true in E1 by (done || by eapply choice_not_self).
    by rewrite <- E1.
  - intros [m Hm]. destruct s as [i|]; [|by rewrite (proj1 (ch_mlfq _ _ _ _ _ Hc)) in Hm].
    destruct (Hcand i ltac:(auto)) as (pi&p&_&_&_&Hlt&E1).
    rewrite bool_decide_true in E1 by done. by rewrite <- E1.
Qed.

(** the scheduler is work conserving for the classes it keeps in the
    process table: if it finds nothing to run, no default or fixed-share
    process is runnable, and the MLFQ has no runnable node. *)
Theorem choosebystride_work_conserving k k' mode h :
  sane k -> choosebystride k = Ok None k' -> mode = 0 \/ mode = 1 ->
  ~ group (k_procs k) mode h /\ mv_highpr (k_mlfq k') = None.
Proof.
  intros Hs Er Hmode. destruct (choosebystride_choice _ _ _ Hs Er) as (f&s&d&Hc&Hr&Hin).
  destruct (ch_default _ _ _ _ _ Hc) as [md Hd], (ch_fixed _ _ _ _ _ Hc) as [mf Hf].
  assert (forall i, f = Some i \/ s = Some i \/ d = Some i -> False) as Hnone.
  { intros i Hi. destruct (minproc3_some (k_procs k') f s d i Hin Hi). congruence. }
  split.
  - intros Hg. destruct Hmode as [->| ->].
    + destruct (best_group _ _ _ _ _ (sane_length _ Hs) Hg _ Hd) as (g&?&?&->&_).
      by apply (Hnone g); auto.
    + destruct (best_group _ _ _ _ _ (sane_length _ Hs) Hg _ Hf) as (g&?&?&->&_).
      by apply (Hnone g); auto.
  - apply (ch_mlfq _ _ _ _ _ Hc). destruct s as [i|]; [|done]. by destruct (Hnone i); auto.
Qed.

(** C21: the scheduler switches only to processes that are runnable: the process
    it runs was runnable, is running afterwards, and no other process changes
    state. *)
Theorem sched_pick_runs_runnable k q k' :
  sane k -> sched_pick k = Ok (Run q) k' ->
  runnable k q /\ states k' = <[q := RUNNING]> (states k) /\ k_curproc k' = Some q.
Proof. intros [_ Hs0 Hs1 _ _ _ _]. by apply sched_pick_inv. Qed.

(** ** The walk of [choosebymlfq] *)

(** The state of the process of a node. *)
Definition nstate (k : K) (x : nat) : option procstate :=
  n ← k_slabs k !! x; i ← m_self n; p ← k_procs k !! i; Some (state p).

(** The walk on the elements of the queues: what is chosen, and what is dropped
    on the way. *)
Fixpoint scan_nodes (st : nat -> option procstate) (l : list nat) : option nat * list nat :=
  match l with
  | [] => (None, [])
  | x :: l' =>
      match st x with
      | Some RUNNABLE => (Some x, [])
      | Some SLEEPING => scan_nodes st l'
      | _ => (fst (scan_nodes st l'), x :: snd (scan_nodes st l'))
      end
  end.

Lemma scan_nodes_ext st st' l :
  (forall x, x ∈ l -> st x = st' x) -> scan_nodes st l = scan_nodes st' l.
Proof.
  induction l as [|x l IH]; intros Hst; [done|]. cbn. rewrite (Hst x) by set_solver.
  rewrite IH by set_solver. done.
Qed.

Lemma scan_nodes_dropped st l x : x ∈ snd (scan_nodes st l) -> x ∈ l.
Proof.
  induction l as [|y l IH]; cbn; [set_solver|].
  destruct (st y) as [[]|]; cbn; set_solver.
Qed.

Definition without (d : list nat) (l : list nat) : list nat := filter (fun y => y ∉ d) l.

Lemma without_nil l : without [] l = l.
Proof. apply list_filter_all. set_solver. Qed.

Lemma without_nil_fmap (q : list (list nat)) : without [] <$> q = q.
Proof.
  rewrite <- (list_fmap_id q) at 2. apply list_fmap_ext. intros _ l _. by rewrite without_nil.
Qed.

Lemma without_cons x d l : without d (Mlfq.take_out x l) = without (x :: d) l.
Proof.
  unfold without, Mlfq.take_out. rewrite list_filter_filter.
  apply list_filter_iff. intros y. set_solver.
Qed.

Lemma nd_slab_run m k n :
  k_slabs k !! m = Some n -> zoom k_slabs (Mlfq.nd m) k = Ok n k.
Proof. intros Hn. unfold zoom, Mlfq.nd. rewrite Hn. cbn. by destruct k. Qed.

Lemma self_state_run m k st : nstate k m = Some st -> self_state m k = Ok st k.
Proof.
  unfold nstate, self_state. destruct (k_slabs k !! m) as [n|] eqn:Hn; [|done]. cbn.
  destruct (m_self n) as [i|] eqn:Hi; [|done]. cbn.
  destruct (k_procs k !! i) as [p|] eqn:Hp; [|done]. intros [= <-].
  rewrite (bind_Ok _ _ _ _ _ (nd_slab_run _ _ _ Hn)), Hi, bind_deref.
  by rewrite (bind_Ok _ _ _ _ _ (getproc_run _ _ _ Hp)).
Qed.

(** Dropping a node from the kernel's queues. *)
Lemma delete_node hs k q x :
  Mlfq.mlfq_inv hs (k_slabs k) q -> x ∈ mjoin q ->
  exists s', zoom k_slabs (Mlfq.delete x) k = Ok tt (k <| k_slabs := s' |>) /\
    Mlfq.mlfq_inv hs s' (Mlfq.take_out x <$> q) /\
    (forall y, y <> x -> nstate (k <| k_slabs := s' |>) y = nstate k y).
Proof.
  intros Hi (i&l&Hq&Hx)%Mlfq.elem_of_queues.
  destruct (Mlfq.delete_inv _ _ _ _ _ _ Hi Hq Hx) as (s'&Hrun&Hi'&_&Hpay).
  rewrite (Mlfq.take_out_all _ _ _ _ _ _ (proj1 (proj1 Hi)) Hq Hx) in Hi'.
  exists s'. split_and!; [by unfold zoom; rewrite Hrun|done|].
  intros y Hy. specialize (Hpay y Hy). unfold nstate. proj_upd.
  destruct (s' !! y) as [n'|], (k_slabs k !! y) as [n|]; try done. cbn.
  by injection Hpay as -> _ _ _.
Qed.

(** The elements of a part of the list, headers apart. *)
Definition elems (hs : list (option nat)) (l : list nat) : list nat :=
  without (omap id hs) l.

Lemma elems_header hs x l : x ∈ omap id hs -> elems hs (x :: l) = elems hs l.
Proof. intros Hx. unfold elems, without. by rewrite filter_cons_False by set_solver. Qed.
Lemma elems_node hs x l : x ∉ omap id hs -> elems hs (x :: l) = x :: elems hs l.
Proof. intros Hx. unfold elems, without. by rewrite filter_cons_True by set_solver. Qed.

(** A place in the list is a header or an element of a queue; either way the
    walk can read it. *)
Lemma spine_node hs k q l1 x l2 :
  Mlfq.mlfq_inv hs (k_slabs k) q -> Mlfq.spine (omap id hs) q = l1 ++ x :: l2 ->
  exists n, k_slabs k !! x = Some n /\ m_next n = first_of l2 None /\
    (x ∈ omap id hs /\ m_state n = -1 \/ (x ∉ omap id hs) /\ x ∈ mjoin q /\ m_state n = 1).
Proof.
  intros ((Hsh&Hlv)&_) Hsp.
  destruct (Mlfq.spine_headers _ _ _ Hsh) as (h&_&Hom&_&_&_&Hdl).
  rewrite <- Hom, Hsp in Hdl.
  destruct (Mlfq.nd_links _ _ _ _ (dlist_links _ _ _ _ Hdl)) as (n&Hn&_&Hnx).
  assert (k_slabs k !! x = Some n) as Hx.
  { unfold Mlfq.nd, deref, ret in Hn. destruct (k_slabs k !! x); [congruence|done]. }
  exists n. split_and!; [done..|]. destruct (decide (x ∈ omap id hs)) as [Hxh|Hxh].
  - destruct (Mlfq.elem_of_headers _ _ _ x Hsh Hxh) as (n'&Hn'&Hst'). left. by simplify_eq.
  - right. assert (x ∈ mjoin q) as Hxq.
    { assert (x ∈ Mlfq.spine (omap id hs) q) as Hin by (rewrite Hsp; set_solver).
      by apply (Mlfq.elem_of_spine _ _ _ _ Hsh) in Hin as [Hin|]. }
    split_and!; [done..|]. destruct (proj1 (Mlfq.elem_of_queues _ _) Hxq) as (i&l&Hi'&Hxl).
    destruct (Hlv _ _ _ Hi' Hxl) as (n'&Hn'&Hst1&_). by simplify_eq.
Qed.

Lemma spine_drop hs s q l1 x l2 :
  Mlfq.mlfq_shape hs s q -> Mlfq.spine (omap id hs) q = l1 ++ x :: l2 -> x ∉ omap id hs ->
  Mlfq.spine (omap id hs) (Mlfq.take_out x <$> q) = l1 ++ l2.
Proof.
  intros Hsh Hsp Hx. destruct (Mlfq.spine_headers _ _ _ Hsh) as (h&_&Hom&Hh&Hq&Hnd&_).
  rewrite Hom in *. rewrite Mlfq.spine_take_out, Hsp by done.
  rewrite Hsp in Hnd. by apply Mlfq.take_out_split.
Qed.

Lemma spine_suffix_NoDup hs s q l1 l2 :
  Mlfq.mlfq_rep hs s q -> Mlfq.spine (omap id hs) q = l1 ++ l2 -> NoDup l2.
Proof.
  intros [Hsh _] Hsp. destruct (Mlfq.spine_headers _ _ _ Hsh) as (h&_&Hom&_&_&Hnd&_).
  rewrite <- Hom, Hsp in Hnd. by apply NoDup_app in Hnd as (_&_&?).
Qed.

Lemma choose_from_run hs l2 : forall fuel k q l1,
  Mlfq.mlfq_inv hs (k_slabs k) q -> Mlfq.spine (omap id hs) q = l1 ++ l2 ->
  (length l2 < fuel)%nat -> (forall x, x ∈ mjoin q -> is_Some (nstate k x)) ->
  exists s', choose_from fuel (first_of l2 None) k
      = Ok (fst (scan_nodes (nstate k) (elems hs l2))) (k <| k_slabs := s' |>) /\
    Mlfq.mlfq_inv hs s' (without (snd (scan_nodes (nstate k) (elems hs l2))) <$> q).
Proof.
  induction l2 as [|x l2 IH]; intros fuel k q l1 Hi Hsp Hf Hst; cbn [first_of].
  { exists (k_slabs k). split; [by destruct fuel, k|]. by rewrite without_nil_fmap. }
  destruct fuel as [|fuel]; [cbn in Hf; lia|]. cbn in Hf.
  destruct (spine_node _ _ _ _ _ _ Hi Hsp) as (n&Hx&Hnx&Hcase).
  cbn [choose_from]. rewrite (bind_Ok _ _ _ _ _ (nd_slab_run _ _ _ Hx)), Hnx.
  assert (Mlfq.spine (omap id hs) q = (l1 ++ [x]) ++ l2) as Hsp' by (by rewrite Hsp, <- app_assoc).
  pose proof (IH fuel k q (l1 ++ [x]) Hi Hsp' ltac:(lia) Hst) as Hnext.
  destruct Hcase as [[Hxh ->]|(Hxh&Hxq&->)].
  { by rewrite elems_header. }
  rewrite elems_node by done. cbn [Z.eqb Pos.eqb negb scan_nodes].
  destruct (Hst x Hxq) as [st Hs]. rewrite (bind_Ok _ _ _ _ _ (self_state_run _ _ _ Hs)), Hs.
  destruct (decide (st = RUNNABLE)) as [->|Hr].
  { exists (k_slabs k). split; [by destruct k|]. by rewrite without_nil_fmap. }
  destruct (decide (st = SLEEPING)) as [->|Hsl]; [exact Hnext|].
  rewrite !bool_decide_false by done. cbn [negb andb].
  destruct (delete_node hs k q x Hi Hxq) as (s1&Hdel&Hi1&Hst1).
  rewrite (bind_Ok _ _ _ _ _ Hdel).
  pose proof (spine_drop _ _ _ _ _ _ (proj1 (proj1 Hi)) Hsp Hxh) as Hsp1.
  set (k1 := k <| k_slabs := s1 |>) in *.
  assert (forall y, y ∈ mjoin (Mlfq.take_out x <$> q) -> y <> x /\ y ∈ mjoin q) as Hy.
  { intros y (j&l&Hj&Hyl)%Mlfq.elem_of_queues. rewrite list_lookup_fmap in Hj.
    destruct (q !! j) as [l0|] eqn:Hj0; [|done]. injection Hj as <-.
    apply Mlfq.elem_of_take_out in Hyl as [? ?]. split; [done|]. apply Mlfq.elem_of_queues. eauto. }
  destruct (IH fuel k1 _ l1 Hi1 Hsp1) as (s2&Hrun&Hi2); [lia|..].
  { intros y [Hne Hyq]%Hy. rewrite Hst1 by done. by apply Hst. }
  rewrite (scan_nodes_ext (nstate k1) (nstate k)) in Hrun, Hi2.
  2-3: intros y Hyl; apply Hst1; intros ->.
  2-3: assert (NoDup (x :: l2)) as [Hx' _]%NoDup_cons by (eapply spine_suffix_NoDup; [apply Hi|done]);
    apply Hx'; by apply list_elem_of_filter in Hyl as [_ ?].
  exists s2. split; [|].
  - destruct st; try done; cbn [fst]; rewrite Hrun; by destruct k.
  - replace (without _ <$> q)
      with (without (scan_nodes (nstate k) (elems hs l2)).2 <$> (Mlfq.take_out x <$> q)); [done|].
    rewrite <- list_fmap_compose. destruct st; try done; apply list_fmap_ext; intros _ l _;
      apply without_cons.
Qed.

(** The walk stops at the first runnable node; of the nodes before it the
    sleeping ones stay. *)
Lemma scan_nodes_spec st l :
  exists l1 l2, l = l1 ++ l2 /\ (forall y, y ∈ l1 -> st y <> Some RUNNABLE) /\
    snd (scan_nodes st l) = filter (fun y => st y <> Some SLEEPING) l1 /\
    match fst (scan_nodes st l) with
    | Some x => exists l3, l2 = x :: l3 /\ st x = Some RUNNABLE
    | None => l2 = []
    end.
Proof.
  induction l as [|x l (l1&l2&->&Hl1&Hd&Hr)].
  { exists [], []. split_and!; [done|set_solver|done|done]. }
  destruct (decide (st x = Some RUNNABLE)) as [Hx|Hx].
  { exists [], (x :: l1 ++ l2). cbn. rewrite Hx. cbn.
    split_and!; [done|set_solver|done|by eexists]. }
  exists (x :: l1), l2. split_and!; [done|set_solver|..].
  - destruct (decide (st x = Some SLEEPING)) as [Hs|Hs].
    + rewrite filter_cons_False by (intros Hne; by apply Hne). cbn. by rewrite Hs.
    + rewrite filter_cons_True by done. rewrite <- Hd. cbn. destruct (st x) as [[]|]; done.
  - cbn. destruct (st x) as [[]|]; done.
Qed.

Lemma elems_spine hs s q :
  Mlfq.mlfq_shape hs s q -> elems hs (Mlfq.spine (omap id hs) q) = mjoin q.
Proof.
  intros Hs. assert (forall i l, q !! i = Some l -> elems hs l = l) as Hq.
  { intros i l Hi. apply list_filter_all. intros x Hx. by eapply Mlfq.queued_not_header. }
  destruct (Mlfq.shape_open _ _ _ Hs) as (h0&h1&h2&h3&q0&q1&q2&->&->&_&_).
  assert (forall l l', elems [Some h0; Some h1; Some h2; Some h3] (l ++ l')
    = elems [Some h0; Some h1; Some h2; Some h3] l ++ elems [Some h0; Some h1; Some h2; Some h3] l')
    as Happ by (intros; apply filter_app).
  cbn [omap list_omap id Mlfq.spine].
  rewrite elems_header, Happ, elems_header, Happ, elems_header, Happ, elems_header by set_solver.
  rewrite (Hq 0%nat), (Hq 1%nat), (Hq 2%nat) by done. done.
Qed.

Lemma choosebymlfq_run k q :
  Mlfq.mlfq_inv (k_headers k) (k_slabs k) q -> mv_highpr (k_mlfq k) = None ->
  (forall x, x ∈ mjoin q -> is_Some (nstate k x)) ->
  exists s', choosebymlfq k = Ok (fst (scan_nodes (nstate k) (mjoin q))) (k <| k_slabs := s' |>) /\
    Mlfq.mlfq_inv (k_headers k) s' (without (snd (scan_nodes (nstate k) (mjoin q))) <$> q).
Proof.
  intros Hi Hh Hst. set (hs := k_headers k) in *. pose proof Hi as ((Hsh&_)&_).
  pose proof (Mlfq.spine_short _ _ _ Hi) as Hlen.
  destruct (choose_from_run hs (Mlfq.spine (omap id hs) q) (S (NPROC + 4)) k q [] Hi)
    as (s'&Hrun&Hi'); [done|lia|done|].
  rewrite (elems_spine _ _ _ Hsh) in Hrun, Hi'. exists s'. split; [|done].
  unfold choosebymlfq, header0. rewrite bind_bind, bind_gets, bind_ret. fold hs.
  destruct (Mlfq.shape_open _ _ _ Hsh) as (h0&h1&h2&h3&q0&q1&q2&Ehs&->&_&_).
  rewrite Ehs in Hrun |- *. cbn [mjoin option_join lookup list_lookup].
  rewrite bind_gets, Hh, bind_ret. rewrite (bind_Ok _ _ _ _ _ Hrun).
  destruct (spine_node hs (k <| k_slabs := s' |>)
    (without (snd (scan_nodes (nstate k) (mjoin [q0; q1; q2]))) <$> [q0; q1; q2]) [] h0
    (tail (Mlfq.spine (omap id hs)
      (without (snd (scan_nodes (nstate k) (mjoin [q0; q1; q2]))) <$> [q0; q1; q2]))))
    as (n&Hn&Hnx&_); [exact Hi'|by rewrite Ehs|].
  rewrite (bind_Ok _ _ _ _ _ (nd_slab_run _ _ _ Hn)).
  rewrite bool_decide_true; [done|]. rewrite Hnx, Ehs. cbn. unfold first_of.
  by destruct (without _ q0); eexists.
Qed.


(** ** Locks of the kernel state *)
Definition held (lk : spinlock) (k : K) : Prop :=
  locked lk = true /\ lk_cpu lk = Some (c_id (k_cpu k)).

Lemma acquire_ptable_free k :
  cpu_inv (k_cpu k) -> locked (k_ptlock k) = false ->
  exists c lk, acquire_ptable k = Ok tt (k <| k_cpu := c |> <| k_ptlock := lk |>) /\
    cpu_inv c /\ c_id c = c_id (k_cpu k) /\ locked lk = true /\ lk_cpu lk = Some (c_id c).
Proof.
  intros Hc Hl. unfold acquire_ptable, with_lock. rewrite acquire_free by done.
  do 2 eexists. split_and!; [done| |done..]. destruct Hc. split; cbn; lia.
Qed.

Lemma acquire_ptable_held k :
  cpu_inv (k_cpu k) -> held (k_ptlock k) k -> acquire_ptable k = Panic "acquire".
Proof. intros Hc [Hl Ho]. unfold acquire_ptable, with_lock. by rewrite acquire_held. Qed.

(** [getlev] never returns a level: called by a process in the MLFQ it takes
    [ptable.lock] twice, which panics, and by any other process it returns -1
    with the lock still held. *)
Theorem getlev_broken k me h hm :
  cpu_inv (k_cpu k) -> locked (k_ptlock k) = false -> k_curproc k = Some me ->
  highest_master (k_procs k) me = Some h -> k_procs k !! h = Some hm ->
  (schedmode hm = 2 -> getlev k = Panic "acquire") /\
  (schedmode hm <> 2 -> exists k', getlev k = Ok (-1) k' /\ held (k_ptlock k') k').
Proof.
  intros Hc Hl Hme Hh Hhm. unfold getlev, myproc. rewrite bind_gets, Hme, bind_deref.
  destruct (acquire_ptable_free k Hc Hl) as (c&lk&Hacq&Hc'&Hid&Hlk&Ho).
  rewrite (bind_Ok _ _ _ _ _ Hacq). set (k1 := _ <| k_ptlock := _ |>).
  rewrite (bind_Ok _ _ _ _ _ (highest_from_run _ me k1 h Hh)).
  rewrite (bind_Ok _ _ _ _ _ (getproc_run h k1 hm Hhm)). split.
  - intros ->. cbn [Z.eqb Pos.eqb negb]. unfold bind at 1. by rewrite acquire_ptable_held.
  - intros Hm. rewrite (proj2 (Z.eqb_neq _ _)) by done. exists k1. split; [done|]. done.
Qed.

(** ** Charging the MLFQ *)

(** The constants of [initmlfq] and a slice counter that respects them. *)
Definition counts_ok (k : K) : Prop :=
  slice (k_mlfq k) = [1; 2; 4] /\ allottime (k_mlfq k) = [5; 10; 1000] /\
  0 <= slice_cnt (k_mlfq k) < 4.

Lemma slice_bound l sl : zlookup [1; 2; 4] l = Some sl -> sl <= 4.
Proof.
  unfold zlookup. destruct (l <? 0); [done|].
  destruct (Z.to_nat l) as [|[|[|?]]]; cbn; intros [= <-]; lia.
Qed.

Lemma zoom_inv {A} (m : M (list mlfqnode) A) k a k' :
  zoom k_slabs m k = Ok a k' -> exists s, m (k_slabs k) = Ok a s /\ k' = k <| k_slabs := s |>.
Proof. unfold zoom. destruct (m (k_slabs k)) as [b s| | | |]; intros [= <- <-]. eauto. Qed.

Lemma end_slice_inv m k k' :
  end_slice m k = Ok tt k' ->
  k_mlfq k' = (k_mlfq k) <| slice_cnt := 0 |> <| mv_highpr := None |> /\
  Mlfq.levels_up (k_slabs k) (k_slabs k').
Proof.
  unfold end_slice. rewrite !bind_gets. intros (n&?&(->&_)%nd_inv&Er)%bind_inv.
  apply bind_inv in Er as (al&k0&Ed&Er). destruct (zlookup _ _); [|done]. injection Ed as -> <-.
  apply bind_inv in Er as (?&k1&E1&[= <-]). destruct (al <=? m_exec_time n).
  - apply bind_inv in E1 as (?&k2&(s2&E2&->)%zoom_inv&(s3&E3&->)%zoom_inv).
    split; [done|]. apply Mlfq.keeps_lowerlevel_level in E2.
    apply Mlfq.keeps_ndset_level in E3; [by etrans|]. intros; unfold upd; cbn; lia.
  - apply zoom_inv in E1 as (s2&E2&->). split; [done|].
    by apply Mlfq.keeps_requeue_level in E2.
Qed.

(** the code that charges a time slice to the MLFQ keeps the slice counter
    below 4, so that its test [slice_cnt == 100] never succeeds: a node's level
    only ever grows, the periodic priority boost does not take place. *)
Theorem charge_mlfq_no_boost p k k' :
  counts_ok k -> charge_mlfq p k = Ok tt k' ->
  counts_ok k' /\ Mlfq.levels_up (k_slabs k) (k_slabs k').
Proof.
  intros (Hsl&Hal&Hc) Er. unfold charge_mlfq, set_mlfq in Er. rewrite bind_modify in Er.
  apply bind_inv in Er as (pp&?&(->&_)%getproc_inv&Er).
  destruct (mnode pp) as [m|]; [|done]. rewrite bind_deref in Er.
  apply bind_inv in Er as (?&k1&(s1&E1&->)%zoom_inv&Er).
  apply Mlfq.keeps_ndset_level in E1; [|intros; unfold upd; cbn; lia].
  rewrite bind_modify in Er.
  match type of Er with _ ?s = _ => set (k1 := s) in Er end.
  assert (slice (k_mlfq k1) = [1; 2; 4] /\ allottime (k_mlfq k1) = [5; 10; 1000] /\
    slice_cnt (k_mlfq k1) = slice_cnt (k_mlfq k) + 1 /\ k_slabs k1 = s1)
    as (Hsl1&Hal1&Hc1&Hs1).
  { split_and!; [done..| |done]. unfold k1. proj_upd. cbn. by rewrite i32_small by lia. }
  clearbody k1. rewrite bind_gets in Er. apply bind_inv in Er as (n&?&(->&_)%nd_inv&Er).
  rewrite Hsl1 in Er.
  destruct (zlookup [1; 2; 4] (m_level n)) as [sl|] eqn:Esl; [|done]. apply slice_bound in Esl.
  rewrite bind_deref in Er. apply bind_inv in Er as ([]&k2&Ew&Er).
  assert (counts_ok k2 /\ Mlfq.levels_up s1 (k_slabs k2)) as [(Hsl2&Hal2&Hc2) Hup2].
  { unfold counts_ok, when in *. destruct (_ || _) eqn:Eb.
    - apply end_slice_inv in Ew as (->&Hup). rewrite Hs1 in Hup. unfold upd. cbn.
      split; [|done]. split_and!; [done..|lia|lia].
    - injection Ew as <-. rewrite Hs1. bool_hyps. split; [|reflexivity].
      split_and!; [done..|lia|lia]. }
  rewrite bind_gets, (proj2 (Z.eqb_neq _ _)) in Er by lia.
  injection Er as <-. split; [done|]. etrans; [exact E1|done].
Qed.

(** [sane] can be evaluated. *)
Definition sane_b (k : K) : bool :=
  (length (k_procs k) =? NPROC)%nat
  && forallb (fun p => negb (deqb (level_key p) (dint (-1)))) (k_procs k)
  && forallb (fun p => negb (deqb (path p) (dint (-1)))) (k_procs k)
  && forallb (fun p => not_nan (path p)) (k_procs k)
  && not_nan (d_path (k_default k)) && not_nan (mv_path (k_mlfq k))
  && forallb (fun n => match m_self n ≫= fun i => k_procs k !! i with
                       | Some p => schedmode p =? 2 | None => true end) (k_slabs k).

Lemma sane_b_sound k : sane_b k = true -> sane k.
Proof.
  unfold sane_b. rewrite !andb_true_iff. intros ((((((H1&H2)&H3)&H4)&H5)&H6)&H7).
  split; [by apply Nat.eqb_eq|..]; try done.
  - intros i p Hp. apply negb_true_iff. exact (forallb_lookup _ _ _ _ H2 Hp).
  - intros i p Hp. apply negb_true_iff. exact (forallb_lookup _ _ _ _ H3 Hp).
  - intros i p Hp. exact (forallb_lookup _ _ _ _ H4 Hp).
  - intros m n i p Hn Hi Hp. pose proof (forallb_lookup _ _ _ _ H7 Hn) as Hm. cbn in Hm.
    rewrite Hi in Hm. cbn in Hm. rewrite Hp in Hm. by apply Z.eqb_eq.
Qed.
End sched.

(** ** Example: one process of each class *)

(** Processes 0 (default class), 1 (fixed share of 10%, pass value 3) and 2
    (MLFQ), all runnable. *)
Definition demo_proc (mode : Z) (x : double) (sh : Z) (m : option nat) : proc :=
  proc0 <| state := RUNNABLE |> <| kstack := 4096 |> <| pgdir := 8192 |>
    <| schedmode := mode |> <| path := x |> <| fixedshare := sh |> <| mnode := m |>.
Definition demo : kernel unit :=
  let k := kernel0 (mkCpu 0 1 false false) tt in
  let s := match (Mlfq.init_headers ;; Mlfq.exec_op Mlfq.headers0 (Mlfq.Add 2)) (k_slabs k) with
           | Ok _ s => s | _ => [] end in
  k <| k_slabs := s |> <| k_headers := Mlfq.headers0 |>
    <| k_mlfq := mkMvmp (dint 5) (dint 2) None 0 0 [5; 10; 1000] [1; 2; 4] |>
    <| k_default := mkDvmp (dint 1) (dint 7) None |>
    <| k_procs ::= fun ps => [demo_proc 0 (dint 0) 0 None; demo_proc 1 (dint 3) 10 None;
                              demo_proc 2 (dint 0) 0 (Some 0%nat)] ++ drop 3 ps |>.
Definition run_state {S A} (s0 : S) (o : outcome S A) : S :=
  match o with Ok _ s => s | _ => s0 end.

Lemma choosebystride_least_witness :
  exists pr, k_procs (run_state demo (choosebystride demo)) !! 2%nat = Some pr /\
    dltb (dint 3) (path pr) = false.
Proof.
  destruct (choosebystride_least demo 2%nat (run_state demo (choosebystride demo)))
    as (pr&Hpr&Hf&_).
  - apply sane_b_sound. by vm_compute.
  - by vm_compute.
  - exists pr. split; [done|]. apply (Hf 1%nat (demo_proc 1 (dint 3) 10 None)); [|by vm_compute].
    exists 1%nat. do 2 eexists. split_and!; by vm_compute.
Defined.

(** Nothing runnable in the empty table. *)
Lemma choosebystride_work_conserving_witness :
  ~ group (k_procs (kernel0 (mkCpu 0 1 false false) tt)) 0 5.
Proof.
  set (k := kernel0 _ _).
  apply (choosebystride_work_conserving k (run_state k (choosebystride k)) 0 5).
  - apply sane_b_sound. by vm_compute.
  - by vm_compute.
  - by left.
Defined.

Lemma charge_mlfq_no_boost_witness :
  counts_ok (run_state demo (charge_mlfq 2 demo)).
Proof.
  apply (charge_mlfq_no_boost 2 demo (run_state demo (charge_mlfq 2 demo))).
  - split_and!; [done..|by vm_compute|by vm_compute].
  - by vm_compute.
Defined.

(** The node of a running process is freed on the way to the next one. *)
Definition run_on {E} (k : kernel E) (i : nat) : kernel E :=
  k <| k_procs ::= alter (fun p => p <| state := RUNNING |>) i |>.
Definition demo_running : kernel unit := run_on demo 2.

Lemma run_on_slabs {E} (k : kernel E) i :
  k_slabs (run_on k i) = k_slabs k /\ k_headers (run_on k i) = k_headers k.
Proof. done. Qed.

Lemma demo_inv : Mlfq.mlfq_inv (k_headers demo) (k_slabs demo) [[0%nat]; []; []].
Proof.
  destruct Mlfq.init_headers_inv as (s0&Hs0&Hi0).
  destruct (Mlfq.add_inv Mlfq.headers0 s0 _ 2 Hi0) as (x&s1&R1&_&Hi1&_).
  { apply Nat.ltb_lt. by vm_compute. }
  vm_compute in Hs0. injection Hs0 as <-. vm_compute in R1. injection R1 as <-.
  change (k_headers demo) with Mlfq.headers0.
  match type of Hi1 with Mlfq.mlfq_inv _ ?s _ =>
    replace (k_slabs demo) with s by (vm_compute; reflexivity) end.
  assert (x = 0%nat) as ->; [|exact Hi1].
  destruct Hi1 as ((_&Hv)&_).
  destruct (Hv 0%nat [x] x eq_refl ltac:(by left)) as (n&Hn&Ex&_). revert Hn Ex.
  do 68 (destruct x as [|x]; [cbn; intros [= <-]; done|]). done.
Qed.


Lemma getlev_broken_witness :
  getlev (demo <| k_curproc := Some 2%nat |>) = Panic "acquire".
Proof.
  eapply (getlev_broken (demo <| k_curproc := Some 2%nat |>) 2 2).
  - split; by vm_compute.
  - done.
  - done.
  - by vm_compute.
  - by vm_compute.
  - done.
Defined.

Lemma sched_pick_runs_runnable_witness :
  states (run_state demo (sched_pick demo)) !! 2%nat = Some RUNNING.
Proof.
  destruct (sched_pick_runs_runnable demo 2%nat (run_state demo (sched_pick demo))) as (_&->&_).
  - apply sane_b_sound. by vm_compute.
  - by vm_compute.
  - by vm_compute.
Defined.
End Sched.
