(* ===== verification/Proc.v ===== *)
(** * Processes (xv6-public/proc.c:325-700, 882-1060, 1245-1300)

    Creation, termination and waiting, sleeping and waking up.  A routine that
    gives up the CPU is cut at the [swtch] in [sched]: its first part ends
    where the scheduler takes over, its second part is what the process does
    when it is run again ([sleep_out]/[sleep_in], [yield_out]/[yield_in], the
    loop bodies of [wait] and [exit]). *)

From S2P Require Import Prelude Dll Spinlock Double Procdef Mlfq Sched.

Module Proc.
Import Sched.

(** Sizes of [struct trapframe] and [struct context]. *)
Definition sizeof_tf : Z := 76.
Definition sizeof_context : Z := 20.

Definition SEG_UCODE : Z := 3.
Definition SEG_UDATA : Z := 4.
Definition DPL_USER : Z := 3.
Definition FL_IF : Z := 512.

(** [safestrcpy(dst, src, 16)] on a name. *)
Definition name16 (s : string) : string := String.substring 0 15 s.

(** How a part of a routine with a [sleep] in its loop ends: with the result,
    or off the CPU with the interrupt flag for [sleep_in]. *)
Inductive stage (A : Type) :=
| Done (a : A)
| Asleep (ie : bool).
Arguments Done {A} a.
Arguments Asleep {A} ie.

Section proc.
Context {E : Type} `{KernelEnv E}.
Abbreviation K := (kernel E).
Implicit Types (k : K).

(** *** Giving up and taking back the CPU *)

(** [sched] up to [swtch]; the result is the interrupt flag it keeps. *)
Definition sched_out : M K bool :=
  me <- myproc ;;
  h <- with_lock k_ptlock holding ;;
  if negb h then panic "sched ptable.lock" else
  c <- gets k_cpu ;;
  if negb (ncli c =? 1) then panic "sched locks" else
  me <- deref me ;;
  p <- getproc me ;;
  if bool_decide (state p = RUNNING) then panic "sched running" else
  if c_if c then panic "sched interruptible" else
  ret (intena c).
(** [sched] after [swtch]. *)
Definition sched_in (ie : bool) : M K unit :=
  modify (fun k => k <| k_cpu ::= fun c => c <| intena := ie |> |>).

Definition yield_out : M K bool :=
  acquire_ptable ;;
  me <- myproc ;;
  me <- deref me ;;
  setproc me (fun p => p <| state := RUNNABLE |>) ;;
  sched_out.
Definition yield_in (ie : bool) : M K unit :=
  sched_in ie ;;
  release_ptable.

(** The lock given to [sleep]: [ptable.lock], [memlock] or one outside proc.c. *)
Inductive lockref :=
| LkPtable
| LkMem
| LkEnv (acq rel : M E unit).
Definition acquire_ref (l : lockref) : M K unit :=
  match l with
  | LkPtable => acquire_ptable
  | LkMem => acquire_memlock
  | LkEnv acq _ => env acq
  end.
Definition release_ref (l : lockref) : M K unit :=
  match l with
  | LkPtable => release_ptable
  | LkMem => release_memlock
  | LkEnv _ rel => env rel
  end.
Definition is_ptable (l : lockref) : bool :=
  match l with LkPtable => true | _ => false end.

Definition sleep_out (c : channel) (lk : option lockref) : M K bool :=
  me <- myproc ;;
  match me with
  | None => panic "sleep"
  | Some me =>
      match lk with
      | None => panic "sleep without lk"
      | Some lk =>
          when (negb (is_ptable lk)) (acquire_ptable ;; release_ref lk) ;;
          setproc me (fun p => p <| chan := Some c |> <| state := SLEEPING |>) ;;
          sched_out
      end
  end.
Definition sleep_in (lk : lockref) (ie : bool) : M K unit :=
  sched_in ie ;;
  me <- myproc ;;
  me <- deref me ;;
  setproc me (fun p => p <| chan := None |>) ;;
  when (negb (is_ptable lk)) (release_ptable ;; acquire_ref lk).

Definition wakeup1 (c : option channel) : M K unit :=
  forM all_procs (fun i =>
    p <- getproc i ;;
    when (bool_decide (state p = SLEEPING) && bool_decide (chan p = c))
      (setproc i (fun p => p <| state := RUNNABLE |>))).
Definition wakeup (c : option channel) : M K unit :=
  acquire_ptable ;; wakeup1 c ;; release_ptable.

Definition kill (pid' : Z) : M K Z :=
  acquire_ptable ;;
  r <- forR all_procs (fun i =>
    p <- getproc i ;;
    if pid p =? pid' then
      h <- get_highest_master i ;;
      setproc h (fun p => p <| killed := true |>) ;;
      hm <- getproc h ;;
      when (bool_decide (state hm = SLEEPING))
        (setproc h (fun p => p <| state := RUNNABLE |>)) ;;
      release_ptable ;;
      ret (Some 0)
    else ret None) ;;
  match r with
  | Some v => ret v
  | None => release_ptable ;; ret (-1)
  end.

(** *** Creation *)

Definition find_unused : M K (option nat) :=
  forR all_procs (fun i =>
    p <- getproc i ;;
    ret (if bool_decide (state p = UNUSED) then Some i else None)).

(** The kernel stack of a new process, from the top: the trap frame, the
    address of [trapret], the context that starts at [forkret]. *)
Definition allocproc : M K (option nat) :=
  acquire_ptable ;;
  r <- find_unused ;;
  match r with
  | None => release_ptable ;; ret None
  | Some i =>
      npid <- gets k_nextpid ;;
      setproc i (fun p => p <| state := EMBRYO |> <| pid := npid |>) ;;
      modify (fun k => k <| k_nextpid := i32 (npid + 1) |>) ;;
      release_ptable ;;
      ks <- env kalloc ;;
      setproc i (fun p => p <| kstack := ks |>) ;;
      if ks =? 0 then
        setproc i (fun p => p <| state := UNUSED |>) ;;
        ret None
      else
        let sp := u32 (ks + KSTACKSIZE) in
        let sp := u32 (sp - sizeof_tf) in
        setproc i (fun p => p <| tf_at := sp |>) ;;
        let sp := u32 (sp - 4) in
        env (store32 sp trapret) ;;
        let sp := u32 (sp - sizeof_context) in
        setproc i (fun p => p <| context_at := sp |>
          <| context := mkContext 0 0 0 0 forkret |>) ;;
        ret (Some i)
  end.

(** [safestrcpy(p->name, "initcode", ...)], the user segments and an entry
    point at 0. *)
Definition userinit : M K unit :=
  p <- allocproc ;;
  modify (fun k => k <| k_initproc := p |>) ;;
  i <- deref p ;;
  pd <- env setupkvm ;;
  setproc i (fun p => p <| pgdir := pd |>) ;;
  if pd =? 0 then panic "userinit: out of memory?" else
  env (inituvm pd) ;;
  let uds := Z.lor (Z.shiftl SEG_UDATA 3) DPL_USER in
  setproc i (fun p => p <| sz := PGSIZE |>
    <| tf := tf0 <| cs := Z.lor (Z.shiftl SEG_UCODE 3) DPL_USER |> <| ds := uds |>
                 <| es := uds |> <| ss := uds |> <| eflags := FL_IF |>
                 <| esp := PGSIZE |> <| eip := 0 |> |>
    <| name := name16 "initcode" |>) ;;
  root <- env (namei "/") ;;
  setproc i (fun p => p <| cwd := root |>) ;;
  acquire_ptable ;;
  setproc i (fun p => p <| state := RUNNABLE |> <| schedmode := 0 |> <| turn := Some i |>) ;;
  updatevals ;;
  l <- getminpathlevel ;;
  setproc i (fun p => p <| pathlevel := l |>) ;;
  release_ptable.

Definition growproc (n : Z) : M K Z :=
  me <- myproc ;;
  me <- deref me ;;
  acquire_memlock ;;
  h <- get_highest_master me ;;
  hm <- getproc h ;;
  p <- getproc me ;;
  r <- (if 0 <? n then
          s <- env (allocuvm (pgdir p) (sz hm) (u32 (sz hm + n))) ;;
          ret (if s =? 0 then None else Some s)
        else if n <? 0 then
          s <- env (deallocuvm (pgdir p) (sz hm) (u32 (sz hm + n))) ;;
          ret (if s =? 0 then None else Some s)
        else ret (Some (sz hm))) ;;
  match r with
  | None => ret (-1)
  | Some s =>
      setproc me (fun p => p <| sz := s |>) ;;
      when (bool_decide (is_Some (master p))) (setproc h (fun p => p <| sz := s |>)) ;;
      release_memlock ;;
      switchuvm me ;;
      ret (i32 s)
  end.

(** [np->ofile[i] = filedup(curproc->ofile[i])] for the open files. *)
Definition dup_files (me np : nat) : M K unit :=
  forM (seq 0 NOFILE) (fun i =>
    p <- getproc me ;;
    o <- deref (ofile p !! i) ;;
    match o with
    | Some f => env (filedup f) ;; setproc np (fun p => p <| ofile ::= <[i := Some f]> |>)
    | None => ret tt
    end).

Definition fork : M K Z :=
  me <- myproc ;;
  me <- deref me ;;
  np <- allocproc ;;
  match np with
  | None => ret (-1)
  | Some np =>
      acquire_ptable ;;
      h <- get_highest_master me ;;
      hm <- getproc h ;;
      setproc me (fun p => p <| sz := sz hm |>) ;;
      setproc np (fun p => p
        <| emptystacks ::= fun l => take (Z.to_nat (emptystackcnt hm)) (emptystacks hm)
                                    ++ drop (Z.to_nat (emptystackcnt hm)) l |>
        <| emptystackcnt := emptystackcnt hm |>) ;;
      p <- getproc me ;;
      pd <- env (copyuvm2 (pgdir p) (sz p)) ;;
      setproc np (fun p => p <| pgdir := pd |>) ;;
      q <- getproc np ;;
      if pd =? 0 then
        env (kfree (kstack q)) ;;
        setproc np (fun p => p <| kstack := 0 |> <| state := UNUSED |>) ;;
        ret (-1)
      else
        p <- getproc me ;;
        setproc np (fun q => q <| sz := sz p |> <| parent := Some me |>
          <| tf := (tf p) <| eax := 0 |> |>) ;;
        dup_files me np ;;
        c <- deref (cwd p) ;;
        env (idup c) ;;
        setproc np (fun q => q <| cwd := Some c |> <| name := name16 (name p) |>) ;;
        q <- getproc np ;;
        setproc np (fun q => q <| state := RUNNABLE |> <| turn := Some np |>
          <| schedmode := 0 |>) ;;
        l <- getminpathlevel ;;
        setproc np (fun q => q <| pathlevel := l |> <| tid := 0 |>
          <| prev_thread := None |> <| next_thread := None |>) ;;
        release_ptable ;;
        ret (pid q)
  end.

(** *** Threads of a process: their resources *)

(** [worker->prev_thread->next_thread = worker->next_thread] and back. *)
Definition unlink_thread (w : nat) : M K unit :=
  p <- getproc w ;;
  match prev_thread p with
  | Some a => setproc a (fun q => q <| next_thread := next_thread p |>)
  | None => ret tt
  end ;;
  p <- getproc w ;;
  match next_thread p with
  | Some b => setproc b (fun q => q <| prev_thread := prev_thread p |>)
  | None => ret tt
  end.

Definition dealloc_thread (w : nat) : M K Z :=
  p <- getproc w ;;
  if bool_decide (master p = None) then ret (-1) else
  h <- get_highest_master w ;;
  env (kfree (kstack p)) ;;
  setproc w (fun p => p <| kstack := 0 |> <| pid := 0 |> <| parent := None |>
    <| master := None |> <| name := "" |> <| killed := false |> <| state := UNUSED |>
    <| emptystackcnt := 0 |> <| turn := None |> <| tid := 0 |> <| mnode := None |>
    <| fixedshare := 0 |>) ;;
  env (deallocuvm (pgdir p) (u32 (originalbase p + 2 * PGSIZE)) (originalbase p)) ;;
  acquire_memlock ;;
  hm <- getproc h ;;
  (if u32 (originalbase p + 2 * PGSIZE) <? sz hm then
     if bool_decide (zlookup (emptystacks hm) (emptystackcnt hm) = None) then fault else
     setproc h (fun q => q
       <| emptystacks ::= <[Z.to_nat (emptystackcnt hm) := originalbase p]> |>
       <| emptystackcnt ::= Z.add 1 |>)
   else setproc h (fun q => q <| sz ::= fun s => u32 (s - 2 * PGSIZE) |>)) ;;
  setproc w (fun p => p <| originalbase := 0 |>) ;;
  release_memlock ;;
  unlink_thread w ;;
  ret 0.

(** *** Termination *)

(** The walk of [exit] along the threads: zombies are freed, the others are
    told to die. *)
Fixpoint reap_threads (fuel : nat) (p : option nat) (found : bool) : M K bool :=
  match p with
  | None => ret found
  | Some i =>
      match fuel with
      | O => spin
      | S fuel' =>
          p <- getproc i ;;
          (if bool_decide (state p = ZOMBIE) then dealloc_thread i ;; ret tt
           else setproc i (fun p => p <| killed := true |>
                  <| state ::= fun st => if bool_decide (st = SLEEPING) then RUNNABLE else st |>)) ;;
          q <- getproc i ;;
          reap_threads fuel' (next_thread q) (found || negb (bool_decide (state p = ZOMBIE)))
      end
  end.

(** The loop of [exit] from its head, [ptable.lock] held. *)
Definition exit_loop : M K (stage unit) :=
  me <- myproc ;;
  me <- deref me ;;
  p <- getproc me ;;
  found <- reap_threads (S NPROC) (next_thread p) false ;;
  if negb found then release_ptable ;; ret (Done tt) else
  ie <- sleep_out (ChProc me) (Some LkPtable) ;;
  ret (Asleep ie).

Definition exit_begin : M K (stage unit) :=
  me <- myproc ;;
  me <- deref me ;;
  ip <- gets k_initproc ;;
  if bool_decide (ip = Some me) then panic "init exiting" else
  acquire_ptable ;;
  p <- getproc me ;;
  if bool_decide (is_Some (master p)) then release_ptable ;; ret (Done tt)
  else exit_loop.

(** Back from [sleep] in the loop of [exit]. *)
Definition exit_again (ie : bool) : M K (stage unit) :=
  sleep_in LkPtable ie ;; exit_loop.

Definition close_files (me : nat) : M K unit :=
  forM (seq 0 NOFILE) (fun fd =>
    p <- getproc me ;;
    o <- deref (ofile p !! fd) ;;
    match o with
    | Some f => env (fileclose f) ;; setproc me (fun p => p <| ofile ::= <[fd := None]> |>)
    | None => ret tt
    end).
Definition put_cwd (me : nat) : M K unit :=
  env begin_op ;;
  p <- getproc me ;;
  c <- deref (cwd p) ;;
  env (iput c) ;;
  env end_op ;;
  setproc me (fun p => p <| cwd := None |>).

(** Children of [me] become children of [init]. *)
Definition abandon_children (me : nat) : M K unit :=
  forM all_procs (fun i =>
    p <- getproc i ;;
    when (bool_decide (parent p = Some me))
      (ip <- gets k_initproc ;;
       setproc i (fun p => p <| parent := ip |>) ;;
       when (bool_decide (state p = ZOMBIE)) (wakeup1 (ChProc <$> ip)))).

(** The rest of [exit], up to the [swtch] from which it never comes back. *)
Definition exit_finish : M K unit :=
  me <- myproc ;;
  me <- deref me ;;
  close_files me ;;
  put_cwd me ;;
  acquire_ptable ;;
  p <- getproc me ;;
  when (bool_decide (is_Some (parent p))) (wakeup1 (ChProc <$> parent p)) ;;
  when (bool_decide (is_Some (master p)))
    (h <- get_highest_master me ;;
     when (negb (killed p)) (setproc h (fun p => p <| killed := true |>)) ;;
     wakeup1 (Some (ChProc h))) ;;
  abandon_children me ;;
  setproc me (fun p => p <| state := ZOMBIE |>) ;;
  sched_out ;;
  ret tt.

(** *** Waiting *)

(** A zombie child is given back to the table; the result is its pid. *)
Definition reap (i : nat) : M K Z :=
  p <- getproc i ;;
  env (kfree (kstack p)) ;;
  setproc i (fun p => p <| kstack := 0 |>) ;;
  env (freevm (pgdir p)) ;;
  setproc i (fun p => p <| pid := 0 |> <| parent := None |> <| name := "" |>
    <| killed := false |> <| state := UNUSED |> <| emptystackcnt := 0 |>) ;;
  ret (pid p).

(** The scan of [wait]: a zombie child's pid, or whether there are children. *)
Fixpoint wait_scan (l : list nat) (me : nat) (havekids : bool) : M K (Z + bool) :=
  match l with
  | [] => ret (inr havekids)
  | i :: l' =>
      p <- getproc i ;;
      if negb (bool_decide (parent p = Some me)) then wait_scan l' me havekids else
      if bool_decide (state p = ZOMBIE) then
        v <- reap i ;; release_ptable ;; ret (inl v)
      else wait_scan l' me true
  end.

(** The loop of [wait] from its head, [ptable.lock] held. *)
Definition wait_loop : M K (stage Z) :=
  me <- myproc ;;
  me <- deref me ;;
  r <- wait_scan all_procs me false ;;
  match r with
  | inl v => ret (Done v)
  | inr havekids =>
      p <- getproc me ;;
      if negb havekids || killed p then release_ptable ;; ret (Done (-1)) else
      ie <- sleep_out (ChProc me) (Some LkPtable) ;;
      ret (Asleep ie)
  end.
Definition wait_begin : M K (stage Z) := acquire_ptable ;; wait_loop.
Definition wait_again (ie : bool) : M K (stage Z) := sleep_in LkPtable ie ;; wait_loop.

(** *** Threads *)

(** The new thread [np] is linked in behind its creator. *)
Definition link_thread (me np : nat) : M K unit :=
  p <- getproc me ;;
  match next_thread p with
  | Some b => setproc b (fun q => q <| prev_thread := Some np |>)
  | None => ret tt
  end ;;
  setproc np (fun q => q <| prev_thread := Some me |>) ;;
  p <- getproc me ;;
  setproc np (fun q => q <| next_thread := next_thread p |>) ;;
  setproc me (fun q => q <| next_thread := Some np |>).

(** [--nextpid]: a thread uses the pid of its process. *)
Definition undo_pid : M K unit :=
  modify (fun k => k <| k_nextpid ::= fun n => i32 (n - 1) |>).

Definition thread_create (start_routine arg : Z) : M K (Z * Z) :=
  me <- myproc ;;
  me <- deref me ;;
  np <- allocproc ;;
  match np with
  | None => ret (-1, 0)
  | Some np =>
      undo_pid ;;
      h <- get_highest_master me ;;
      acquire_memlock ;;
      hm <- getproc h ;;
      setproc me (fun p => p <| sz := sz hm |>) ;;
      base <- (if 0 <? emptystackcnt hm then
                 b <- deref (zlookup (emptystacks hm) (emptystackcnt hm - 1)) ;;
                 setproc h (fun p => p <| emptystackcnt ::= Z.add (-1) |>) ;;
                 ret b
               else ret (sz hm)) ;;
      p <- getproc me ;;
      s <- env (allocuvm (pgdir p) base (u32 (base + 2 * PGSIZE))) ;;
      if s =? 0 then ret (-1, 0) else
      when (sz p <? s)
        (setproc me (fun p => p <| sz := s |>) ;; setproc h (fun p => p <| sz := s |>)) ;;
      release_memlock ;;
      p <- getproc me ;;
      setproc np (fun q => q <| pgdir := pgdir p |> <| master := Some me |> <| tf := tf p |>
        <| sz := s |> <| originalbase := u32 (s - 2 * PGSIZE) |> <| pid := pid p |>) ;;
      switchuvm me ;;
      env (clearpteu (pgdir p) (u32 (s - 2 * PGSIZE))) ;;
      env (store32 (u32 (s - 4)) arg) ;;
      env (store32 (u32 (s - 8)) 4294967295) ;;
      setproc np (fun q => q <| tf ::= fun t =>
        t <| esp := u32 (s - 8) |> <| ebp := s |> <| eip := start_routine |> |>) ;;
      dup_files me np ;;
      p <- getproc me ;;
      c <- deref (cwd p) ;;
      env (idup c) ;;
      t <- gets k_nexttid ;;
      setproc np (fun q => q <| cwd := Some c |> <| name := name16 (name p) |> <| tid := t |>) ;;
      modify (fun k => k <| k_nexttid := u32 (t + 1) |>) ;;
      acquire_ptable ;;
      link_thread me np ;;
      p <- getproc me ;;
      setproc np (fun q => q <| state := RUNNABLE |> <| schedmode := schedmode p |>) ;;
      when (schedmode p =? 2)
        (m <- allocmlfqnode np ;;
         h0 <- header0 ;;
         h0 <- deref h0 ;;
         zoom k_slabs (Mlfq.insertafter h0 m)) ;;
      l <- getminpathlevel ;;
      setproc np (fun q => q <| pathlevel := l |> <| retval := 0 |>) ;;
      release_ptable ;;
      ret (0, t)
  end.

Definition thread_exit (v : Z) : M K unit :=
  me <- myproc ;;
  me <- deref me ;;
  close_files me ;;
  put_cwd me ;;
  setproc me (fun p => p <| retval := v |>) ;;
  acquire_ptable ;;
  p <- getproc me ;;
  wakeup1 (ChProc <$> master p) ;;
  wakeup1 (ChProc <$> parent p) ;;
  setproc me (fun p => p <| state := ZOMBIE |>) ;;
  sched_out ;;
  ret tt.

(** The walk of [thread_join]: the value of a zombie thread with id [t], or
    whether a thread [t] was seen. *)
Fixpoint join_scan (fuel : nat) (p : option nat) (t : Z) (found : bool) : M K (Z + bool) :=
  match p with
  | None => ret (inr found)
  | Some i =>
      match fuel with
      | O => spin
      | S fuel' =>
          q <- getproc i ;;
          if (tid q =? t) && bool_decide (state q = ZOMBIE) then
            dealloc_thread i ;;
            q <- getproc i ;;
            setproc i (fun p => p <| retval := 0 |>) ;;
            release_ptable ;;
            ret (inl (retval q))
          else join_scan fuel' (next_thread q) t (found || (tid q =? t))
      end
  end.

(** The loop of [thread_join] from its head; [found] is never reset. The first
    result is the return value, the second what is stored through [retval]. *)
Definition join_loop (t : Z) (found : bool) : M K (stage (Z * option Z) * bool) :=
  me <- myproc ;;
  me <- deref me ;;
  p <- getproc me ;;
  r <- join_scan (S NPROC) (next_thread p) t found ;;
  match r with
  | inl v => ret (Done (0, Some v), true)
  | inr found =>
      p <- getproc me ;;
      if negb found || killed p then release_ptable ;; ret (Done (-1, None), found) else
      ie <- sleep_out (ChProc me) (Some LkPtable) ;;
      ret (Asleep ie, found)
  end.
Definition thread_join (t : Z) : M K (stage (Z * option Z) * bool) :=
  acquire_ptable ;; join_loop t false.
Definition join_again (t : Z) (found ie : bool) : M K (stage (Z * option Z) * bool) :=
  sleep_in LkPtable ie ;; join_loop t found.

(** The walk of [dealloc_other_threads]: every thread is made a zombie and
    freed at once, so that its test for others never succeeds. *)
Fixpoint dealloc_all (fuel : nat) (p : option nat) : M K unit :=
  match p with
  | None => ret tt
  | Some i =>
      match fuel with
      | O => spin
      | S fuel' =>
          setproc i (fun p => p <| state := ZOMBIE |>) ;;
          dealloc_thread i ;;
          q <- getproc i ;;
          dealloc_all fuel' (next_thread q)
      end
  end.

(** Before [exec]: the calling thread [t] becomes the only one. *)
Definition dealloc_other_threads (t : nat) : M K (stage unit) :=
  acquire_ptable ;;
  pt <- getproc t ;;
  if bool_decide (is_Some (master pt)) then
    p <- get_highest_master t ;;
    hp <- getproc p ;;
    setproc t (fun q => q <| parent := parent hp |>) ;;
    setproc p (fun q => q <| parent := Some t |>) ;;
    q <- getproc t ;;
    match next_thread q with
    | Some b => setproc b (fun r => r <| prev_thread := prev_thread q |>)
    | None => ret tt
    end ;;
    q <- getproc t ;;
    match prev_thread q with
    | Some a => setproc a (fun r => r <| next_thread := next_thread q |>)
    | None => ret tt
    end ;;
    setproc t (fun q => q <| prev_thread := None |> <| next_thread := None |>
      <| master := None |>) ;;
    setproc p (fun q => q <| killed := true |>
      <| state ::= fun st => if bool_decide (st = SLEEPING) then RUNNABLE else st |>) ;;
    release_ptable ;;
    r <- wait_begin ;;
    ret (match r with Done _ => Done tt | Asleep ie => Asleep ie end)
  else
    dealloc_all (S NPROC) (next_thread pt) ;;
    release_ptable ;;
    ret (Done tt).

(** ** Lemmas *)

(** *** Updates of single processes *)
Lemma setproc_run i f k p :
  k_procs k !! i = Some p -> setproc i f k = Ok tt (k <| k_procs ::= alter f i |>).
Proof. intros Hp. unfold setproc. by rewrite (bind_Ok _ _ _ _ _ (getproc_run _ _ _ Hp)). Qed.

Lemma forM_procs_run (f : nat -> M K unit) (g : nat -> proc -> proc) (P : K -> Prop) l :
  (forall i k p, P k -> i ∈ l -> k_procs k !! i = Some p ->
     exists k', f i k = Ok tt k' /\ k' = k <| k_procs ::= alter (g i) i |> /\ P k') ->
  forall k, P k -> (forall i, i ∈ l -> is_Some (k_procs k !! i)) -> NoDup l ->
  exists k', forM l f k = Ok tt k' /\ P k' /\
    k' = k <| k_procs := imap (fun i p => if decide (i ∈ l) then g i p else p) (k_procs k) |>.
Proof.
  induction l as [|i l IH]; intros Hf k HP Hin Hnd.
  { exists k. split_and!; [done..|].
    assert (imap (fun i p => if decide (i ∈ []) then g i p else p) (k_procs k) = k_procs k) as ->.
    { apply list_eq. intros j. rewrite list_lookup_imap. destruct (k_procs k !! j); cbn; [|done].
      rewrite decide_False; set_solver. }
    by destruct k. }
  apply NoDup_cons in Hnd as [Hi Hnd].
  destruct (Hin i) as [p Hp]; [by left|].
  destruct (Hf i k p HP ltac:(by left) Hp) as (k1&Hr&->&HP1).
  set (k1 := k <| k_procs ::= alter (g i) i |>) in *.
  destruct (IH ltac:(intros ??????; eapply Hf; [done|by right|done]) k1 HP1) as (k2&Hr2&HP2&->); [|done|].
  { intros j Hj. unfold k1. proj_upd. rewrite lookup_lt_is_Some, length_alter, <- lookup_lt_is_Some.
    apply Hin. by right. }
  eexists. split_and!; [cbn [forM]; by rewrite (bind_Ok _ _ _ _ _ Hr)|done|].
  unfold k1. kernel_eq. apply list_eq. intros j. rewrite !list_lookup_imap.
  destruct (decide (i = j)) as [<-|].
  - rewrite list_lookup_alter_eq. destruct (k_procs k !! i); cbn; [|done].
    by rewrite decide_False, decide_True by set_solver.
  - rewrite list_lookup_alter_ne by done. destruct (k_procs k !! j); cbn; [|done].
    f_equal. destruct (decide (j ∈ l)); [rewrite decide_True|rewrite decide_False]; set_solver.
Qed.

(** *** Wakeup *)

(** What [wakeup1(c)] does to one process. *)
Definition woken (c : option channel) (p : proc) : proc :=
  if bool_decide (state p = SLEEPING) && bool_decide (chan p = c)
  then p <| state := RUNNABLE |> else p.

Lemma imap_all {X} (f : X -> X) (l : list X) n :
  length l = n -> imap (fun i x => if decide (i ∈ seq 0 n) then f x else x) l = f <$> l.
Proof.
  intros Hn. apply list_eq. intros j. rewrite list_lookup_imap, list_lookup_fmap.
  destruct (l !! j) eqn:Hj; cbn; [|done]. rewrite decide_True; [done|].
  apply elem_of_seq. apply lookup_lt_Some in Hj. lia.
Qed.

Lemma wakeup1_run c k :
  length (k_procs k) = NPROC -> wakeup1 c k = Ok tt (k <| k_procs ::= fmap (woken c) |>).
Proof.
  intros Hlen. unfold wakeup1.
  destruct (forM_procs_run (fun i =>
    p <- getproc i ;;
    when (bool_decide (state p = SLEEPING) && bool_decide (chan p = c))
      (setproc i (fun p => p <| state := RUNNABLE |>))) (fun _ => woken c) (fun _ => True)
    all_procs) with (k := k) as (k'&Hr&_&->); [|done|..].
  - intros i k1 p _ _ Hp. rewrite (bind_Ok _ _ _ _ _ (getproc_run _ _ _ Hp)). eexists.
    split_and!; [|done|done]. unfold when. destruct (_ && _) eqn:Eb.
    + rewrite (setproc_run _ _ _ _ Hp). f_equal. kernel_eq.
      rewrite !(alter_as_insert _ _ _ _ Hp). unfold woken. by rewrite Eb.
    + unfold ret. f_equal. kernel_eq.
      rewrite (alter_as_insert _ _ _ _ Hp). unfold woken. rewrite Eb. by rewrite list_insert_id.
  - intros i Hi%elem_of_seq. apply lookup_lt_is_Some. lia.
  - apply NoDup_seq.
  - rewrite Hr. f_equal. kernel_eq.
    exact (imap_all (woken c) _ _ Hlen).
Qed.

(** *** Critical sections *)

(** The CPU inside and after a section protected by [ptable.lock]. *)
Definition enter_cpu (c : cpu) : cpu :=
  mkCpu (c_id c) (1 + ncli c) (if ncli c =? 0 then c_if c else intena c) false.
Definition leave_cpu (c : cpu) : cpu :=
  mkCpu (c_id c) (ncli c) (if ncli c =? 0 then c_if c else intena c) (c_if c).
Definition taken (c : cpu) : spinlock := mkLock true (Some (c_id c)).
(** The lock is free and the CPU's interrupt state consistent. *)
Definition unlocked (k : K) : Prop := cpu_inv (k_cpu k) /\ locked (k_ptlock k) = false.
Definition entered (k : K) : K := k <| k_cpu ::= enter_cpu |> <| k_ptlock := taken (k_cpu k) |>.

Lemma acquire_ptable_run k : unlocked k -> acquire_ptable k = Ok tt (entered k).
Proof.
  intros [Hc Hl]. unfold acquire_ptable, with_lock. by rewrite acquire_free.
Qed.

Lemma release_ptable_run c k :
  cpu_inv c -> k_cpu k = enter_cpu c -> k_ptlock k = taken c ->
  release_ptable k = Ok tt (k <| k_cpu := leave_cpu c |> <| k_ptlock := initlock |>).
Proof.
  intros [Hn Hif] Hc Hl. unfold release_ptable, with_lock. rewrite Hc, Hl.
  rewrite release_held; [|split; cbn; lia|cbn; lia|done|done].
  assert (mkCpu (c_id c) (-1 + (1 + ncli c)) (if ncli c =? 0 then c_if c else intena c)
    ((-1 + (1 + ncli c) =? 0) && (if ncli c =? 0 then c_if c else intena c)) = leave_cpu c) as Er.
  { unfold leave_cpu. replace (-1 + (1 + ncli c)) with (ncli c) by lia. f_equal.
    destruct (Z.eqb_spec (ncli c) 0); cbn; [done|]. symmetry. apply Hif. lia. }
  cbn [v_cpu v_lk c_id ncli intena enter_cpu]. by rewrite Er.
Qed.

Lemma leave_unlocked c k :
  cpu_inv c -> unlocked (k <| k_cpu := leave_cpu c |> <| k_ptlock := initlock |>).
Proof. intros [??]. split; [|done]. by split. Qed.

(** [wakeup(c)] makes every process that sleeps on [c] runnable and changes
    nothing else of the process table; the lock is free again afterwards. *)
Theorem wakeup_correct c k :
  unlocked k -> length (k_procs k) = NPROC ->
  exists k', wakeup c k = Ok tt k' /\ unlocked k' /\ k_procs k' = woken c <$> k_procs k.
Proof.
  intros Hu Hlen. unfold wakeup. rewrite (bind_Ok _ _ _ _ _ (acquire_ptable_run _ Hu)).
  rewrite (bind_Ok _ _ _ _ _ (wakeup1_run c (entered k) Hlen)).
  rewrite (release_ptable_run (k_cpu k)) by (done || apply Hu).
  eexists. split_and!; [done| |done]. apply leave_unlocked, Hu.
Qed.

(** *** Allocation *)

(** The first slot that [P] accepts. *)
Definition first_slot (P : proc -> bool) (ps : list proc) : option nat :=
  fst <$> list_find (fun p => P p = true) ps.

Lemma first_slot_cons P p ps :
  first_slot P (p :: ps) = if P p then Some 0%nat else S <$> first_slot P ps.
Proof.
  unfold first_slot. cbn. destruct (P p) eqn:Hp.
  - rewrite decide_True by done. done.
  - rewrite decide_False by congruence. destruct (list_find _ ps) as [[]|]; done.
Qed.

Lemma forR_procs (P : proc -> bool) k l n :
  drop n (k_procs k) = l ->
  forR (seq n (length l)) (fun i => p <- getproc i ;; ret (if P p then Some i else None)) k
  = Ok (Nat.add n <$> first_slot P l) k.
Proof.
  revert n. induction l as [|p l IH]; intros n Hl; [done|].
  cbn [length seq forR]. assert (k_procs k !! n = Some p) as Hn.
  { rewrite <- (Nat.add_0_r n), <- lookup_drop, Hl. done. }
  rewrite bind_bind, (bind_Ok _ _ _ _ _ (getproc_run _ _ _ Hn)), bind_ret, first_slot_cons.
  destruct (P p); [cbn; by rewrite Nat.add_0_r|].
  rewrite (IH (S n)).
  - f_equal. destruct (first_slot P l); cbn; [|done]. f_equal. lia.
  - rewrite <- Nat.add_1_r, <- drop_drop, Hl. done.
Qed.

Definition is_unused (p : proc) : bool := bool_decide (state p = UNUSED).

Lemma find_unused_run k :
  length (k_procs k) = NPROC -> find_unused k = Ok (first_slot is_unused (k_procs k)) k.
Proof.
  intros Hlen. unfold find_unused, all_procs. rewrite <- Hlen.
  etrans; [exact (forR_procs is_unused k (k_procs k) 0 eq_refl)|]. f_equal.
  by destruct (first_slot _ _).
Qed.

Lemma first_slot_Some P ps i :
  first_slot P ps = Some i -> exists p, ps !! i = Some p /\ P p = true.
Proof.
  unfold first_slot. destruct (list_find _ ps) as [[j p]|] eqn:Hf; [|done].
  intros [= ->]. apply list_find_Some in Hf as (?&?&_). eauto.
Qed.

Lemma first_slot_None P ps i p : first_slot P ps = None -> ps !! i = Some p -> P p = false.
Proof.
  unfold first_slot. destruct (list_find _ ps) as [[j q]|] eqn:Hf; [done|].
  intros _ Hp. apply list_find_None in Hf. rewrite Forall_lookup in Hf.
  destruct (P p) eqn:E1; [|done]. by destruct (Hf i p Hp).
Qed.

(** A slot handed out by [allocproc]. *)
Definition embryo (npid ks : Z) (p : proc) : proc :=
  let top := u32 (ks + KSTACKSIZE) in
  p <| state := EMBRYO |> <| pid := npid |> <| kstack := ks |>
    <| tf_at := u32 (top - sizeof_tf) |>
    <| context_at := u32 (u32 (u32 (top - sizeof_tf) - 4) - sizeof_context) |>
    <| context := mkContext 0 0 0 0 forkret |>.

Lemma allocproc_full k :
  unlocked k -> length (k_procs k) = NPROC -> first_slot is_unused (k_procs k) = None ->
  allocproc k = Ok None (k <| k_cpu ::= leave_cpu |> <| k_ptlock := initlock |>).
Proof.
  intros Hu Hlen Hf. unfold allocproc. rewrite (bind_Ok _ _ _ _ _ (acquire_ptable_run _ Hu)).
  rewrite (bind_Ok _ _ _ _ _ (find_unused_run (entered k) Hlen)).
  change (k_procs (entered k)) with (k_procs k). rewrite Hf.
  erewrite bind_Ok; [|apply (release_ptable_run (k_cpu k)); [apply Hu|done|done]].
  done.
Qed.

Lemma env_run {A} (m : M E A) k a e' :
  m (k_env k) = Ok a e' -> env m k = Ok a (k <| k_env := e' |>).
Proof. intros Hm. unfold env, zoom. by rewrite Hm. Qed.

Lemma alter_alter {X} (f g : X -> X) i (l : list X) :
  alter f i (alter g i l) = alter (f ∘ g) i l.
Proof.
  apply list_eq. intros j. destruct (decide (i = j)) as [<-|].
  - rewrite !list_lookup_alter_eq. by destruct (l !! i).
  - by rewrite !list_lookup_alter_ne.
Qed.

Lemma alter_is_Some {X} (f : X -> X) i j (l : list X) : is_Some (alter f i l !! j) <-> is_Some (l !! j).
Proof. by rewrite !lookup_lt_is_Some, length_alter. Qed.

(** Steps on a single slot: the state is the one before with that slot
    changed, and the next update of the same slot composes. *)
Definition on_slot (i : nat) (f : proc -> proc) (k : K) : K := k <| k_procs ::= alter f i |>.

Lemma setproc_on_slot i f k :
  is_Some (k_procs k !! i) -> setproc i f k = Ok tt (on_slot i f k).
Proof. intros [p Hp]. by apply (setproc_run _ _ _ _ Hp). Qed.

Lemma allocproc_run k i ks e1 :
  unlocked k -> length (k_procs k) = NPROC -> first_slot is_unused (k_procs k) = Some i ->
  kalloc (k_env k) = Ok ks e1 ->
  let k1 := k <| k_cpu ::= leave_cpu |> <| k_ptlock := initlock |>
              <| k_nextpid ::= fun n => i32 (n + 1) |> in
  (ks = 0 -> allocproc k = Ok None (k1 <| k_env := e1 |>
     <| k_procs ::= alter (fun p => p <| pid := k_nextpid k |> <| kstack := 0 |>
                                      <| state := UNUSED |>) i |>)) /\
  (forall e2, ks <> 0 ->
     store32 (u32 (u32 (u32 (ks + KSTACKSIZE) - sizeof_tf) - 4)) trapret e1 = Ok tt e2 ->
     allocproc k = Ok (Some i) (k1 <| k_env := e2 |>
       <| k_procs ::= alter (embryo (k_nextpid k) ks) i |>)).
Proof.
  intros Hu Hlen Hf Hk k1.
  assert (is_Some (k_procs k !! i)) as Hi by (apply first_slot_Some in Hf as (?&?&_); eauto).
  unfold allocproc. rewrite (bind_Ok _ _ _ _ _ (acquire_ptable_run _ Hu)).
  rewrite (bind_Ok _ _ _ _ _ (find_unused_run (entered k) Hlen)).
  change (k_procs (entered k)) with (k_procs k). rewrite Hf, bind_gets.
  rewrite (bind_Ok _ _ _ _ _ (setproc_on_slot i _ (entered k) Hi)), bind_modify.
  erewrite bind_Ok; [|apply (release_ptable_run (k_cpu k)); [apply Hu|done|done]].
  erewrite bind_Ok; [|apply env_run; exact Hk].
  erewrite bind_Ok; [|apply setproc_on_slot; unfold on_slot; proj_upd; by rewrite alter_is_Some].
  split.
  - intros ->. cbn [Z.eqb].
    erewrite bind_Ok; [|apply setproc_on_slot; unfold on_slot; proj_upd; by rewrite !alter_is_Some].
    unfold ret. f_equal. unfold k1, on_slot, entered. kernel_eq. by rewrite !alter_alter.
  - intros e2 Hks Hst. rewrite (proj2 (Z.eqb_neq _ _)) by done.
    erewrite bind_Ok; [|apply setproc_on_slot; unfold on_slot; proj_upd; by rewrite !alter_is_Some].
    erewrite bind_Ok; [|apply env_run; exact Hst].
    erewrite bind_Ok; [|apply setproc_on_slot; unfold on_slot; proj_upd; by rewrite !alter_is_Some].
    unfold ret. f_equal. unfold k1, on_slot, entered. kernel_eq. by rewrite !alter_alter.
Qed.

(** [allocproc] takes the first unused slot and no other, gives it the next
    process id and lays out its kernel stack: the trap frame ends at the top of
    the stack, the return address of [trapret] lies below it and the context,
    which starts in [forkret], below that, all inside the stack page.  Without
    an unused slot, or without memory, the table keeps its unused slots. *)
Theorem allocproc_correct k ks e1 e2 :
  unlocked k -> length (k_procs k) = NPROC -> kalloc (k_env k) = Ok ks e1 ->
  0 < ks -> ks + KSTACKSIZE < 2 ^ 32 -> store32 (ks + 4016) trapret e1 = Ok tt e2 ->
  match first_slot is_unused (k_procs k) with
  | None => exists k', allocproc k = Ok None k' /\ unlocked k' /\ k_procs k' = k_procs k
  | Some i => exists k' p p', allocproc k = Ok (Some i) k' /\ unlocked k' /\
      k_procs k !! i = Some p /\ k_procs k' !! i = Some p' /\
      (forall j, j <> i -> k_procs k' !! j = k_procs k !! j) /\
      state p' = EMBRYO /\ pid p' = k_nextpid k /\ kstack p' = ks /\
      tf_at p' + sizeof_tf = ks + KSTACKSIZE /\
      context_at p' + sizeof_context + 4 = tf_at p' /\ ks <= context_at p' /\
      x_eip (context p') = forkret
  end.
Proof.
  intros Hu Hlen Hk Hks Hks' Hst. destruct (first_slot is_unused (k_procs k)) as [i|] eqn:Hf.
  - assert (forall x, 0 <= x <= KSTACKSIZE -> u32 (ks + x) = ks + x) as Hw.
    { unfold KSTACKSIZE in *. intros x Hx. apply u32_small. lia. }
    assert (u32 (ks + KSTACKSIZE) = ks + KSTACKSIZE) as E1 by (apply Hw; unfold KSTACKSIZE; lia).
    assert (u32 (ks + KSTACKSIZE - sizeof_tf) = ks + 4020) as E2.
    { replace (ks + KSTACKSIZE - sizeof_tf) with (ks + 4020) by (unfold KSTACKSIZE, sizeof_tf; lia).
      apply Hw. unfold KSTACKSIZE. lia. }
    assert (u32 (ks + 4020 - 4) = ks + 4016) as E3.
    { replace (ks + 4020 - 4) with (ks + 4016) by lia. apply Hw. unfold KSTACKSIZE. lia. }
    assert (u32 (ks + 4016 - sizeof_context) = ks + 3996) as E4.
    { replace (ks + 4016 - sizeof_context) with (ks + 3996) by (unfold sizeof_context; lia).
      apply Hw. unfold KSTACKSIZE. lia. }
    destruct (allocproc_run k i ks e1 Hu Hlen Hf Hk) as [_ Hrun].
    rewrite E1, E2, E3 in Hrun. specialize (Hrun e2 ltac:(lia) Hst).
    destruct (first_slot_Some _ _ _ Hf) as (p&Hp&_).
    eexists _, p, (embryo (k_nextpid k) ks p). split; [exact Hrun|]. split.
    { apply (leave_unlocked (k_cpu k)), Hu. }
    split; [done|]. proj_upd. split; [by rewrite list_lookup_alter_eq, Hp|].
    split; [intros j Hj; by rewrite list_lookup_alter_ne|]. unfold embryo. cbv zeta. proj_upd.
    rewrite E1, E2, E3, E4. unfold sizeof_tf, sizeof_context, KSTACKSIZE.
    split_and!; try done; lia.
  - eexists. split; [by apply allocproc_full|]. split; [|done]. apply (leave_unlocked (k_cpu k)), Hu.
Qed.

(** *** Giving up the CPU *)

Lemma holding_ptable c k :
  cpu_inv c -> k_cpu k = enter_cpu c -> k_ptlock k = taken c ->
  with_lock k_ptlock holding k = Ok true k.
Proof.
  intros [Hn Hif] Hc Hl. unfold with_lock. rewrite holding_run.
  - cbn [v_cpu v_lk]. rewrite Hl, Hc. cbn [locked lk_cpu taken enter_cpu c_id andb].
    rewrite bool_decide_true by done. f_equal. kernel_eq; done.
  - cbn [v_cpu]. rewrite Hc. split; cbn; lia.
  - cbn [v_cpu]. rewrite Hc. cbn. lia.
Qed.

(** [sched] with only [ptable.lock] held, by a process that is not running. *)
Lemma sched_out_run c k me p :
  cpu_inv c -> ncli c = 0 -> k_cpu k = enter_cpu c -> k_ptlock k = taken c ->
  k_curproc k = Some me -> k_procs k !! me = Some p -> state p <> RUNNING ->
  sched_out k = Ok (intena (enter_cpu c)) k.
Proof.
  intros Hi Hn Hc Hl Hme Hp Hst. unfold sched_out, myproc. rewrite bind_gets, Hme.
  rewrite (bind_Ok _ _ _ _ _ (holding_ptable c k Hi Hc Hl)). cbn [negb].
  rewrite bind_gets, Hc. cbn [enter_cpu ncli c_if intena]. rewrite Hn.
  change (1 + 0 =? 1) with true. cbn [negb]. rewrite bind_deref, (bind_Ok _ _ _ _ _ (getproc_run _ _ _ Hp)).
  by rewrite bool_decide_false by done.
Qed.

Definition asleep (ch : channel) (p : proc) : proc :=
  p <| chan := Some ch |> <| state := SLEEPING |>.

Lemma sleep_ptable_run c ch k me :
  cpu_inv c -> ncli c = 0 -> k_cpu k = enter_cpu c -> k_ptlock k = taken c ->
  k_curproc k = Some me -> is_Some (k_procs k !! me) ->
  sleep_out ch (Some LkPtable) k = Ok (intena (enter_cpu c)) (on_slot me (asleep ch) k).
Proof.
  intros Hi Hn Hc Hl Hme [p Hp]. unfold sleep_out, myproc. rewrite bind_gets, Hme.
  cbn [is_ptable negb]. rewrite bind_when_false.
  rewrite (bind_Ok _ _ _ _ _ (setproc_on_slot me (asleep ch) k ltac:(eauto))).
  eapply sched_out_run with (p := asleep ch p); try done.
  unfold on_slot. proj_upd. by rewrite list_lookup_alter_eq, Hp.
Qed.

(** *** Waiting *)

Definition is_child (me : nat) (p : proc) : bool := bool_decide (parent p = Some me).
Definition zombie_child (me : nat) (p : proc) : bool :=
  is_child me p && bool_decide (state p = ZOMBIE).
(** A slot given back by [wait]. *)
Definition reaped (p : proc) : proc :=
  p <| kstack := 0 |> <| pid := 0 |> <| parent := None |> <| name := "" |>
    <| killed := false |> <| state := UNUSED |> <| emptystackcnt := 0 |>.

Lemma wait_scan_run me k l : forall n hk,
  drop n (k_procs k) = l ->
  wait_scan (seq n (length l)) me hk k =
  match first_slot (zombie_child me) l with
  | Some j => (v <- reap (n + j) ;; release_ptable ;; ret (inl v)) k
  | None => Ok (inr (hk || existsb (is_child me) l)) k
  end.
Proof.
  induction l as [|p l IH]; intros n hk Hl; [by cbn; rewrite orb_false_r|].
  cbn [length seq wait_scan]. assert (k_procs k !! n = Some p) as Hn.
  { rewrite <- (Nat.add_0_r n), <- lookup_drop, Hl. done. }
  assert (drop (S n) (k_procs k) = l) as Hl'.
  { rewrite <- Nat.add_1_r, <- drop_drop, Hl. done. }
  rewrite (bind_Ok _ _ _ _ _ (getproc_run _ _ _ Hn)), first_slot_cons.
  unfold zombie_child at 1, is_child at 1.
  destruct (bool_decide (parent p = Some me)) eqn:Hc; cbn [negb andb].
  - destruct (bool_decide (state p = ZOMBIE)); [by rewrite Nat.add_0_r|].
    rewrite (IH (S n) true Hl'). destruct (first_slot _ l) as [j|]; cbn.
    + by rewrite Nat.add_succ_r.
    + unfold is_child. rewrite Hc. cbn. by rewrite orb_true_r.
  - rewrite (IH (S n) hk Hl'). destruct (first_slot _ l) as [j|]; cbn.
    + by rewrite Nat.add_succ_r.
    + unfold is_child. by rewrite Hc.
Qed.

Lemma reap_run i k p e1 e2 :
  k_procs k !! i = Some p -> kfree (kstack p) (k_env k) = Ok tt e1 ->
  freevm (pgdir p) e1 = Ok tt e2 ->
  reap i k = Ok (pid p) (on_slot i reaped (k <| k_env := e2 |>)).
Proof.
  intros Hp Hf Hv. unfold reap. rewrite (bind_Ok _ _ _ _ _ (getproc_run _ _ _ Hp)).
  erewrite bind_Ok; [|by apply env_run].
  erewrite bind_Ok; [|apply setproc_on_slot; proj_upd; by eexists].
  erewrite bind_Ok; [|by apply env_run].
  erewrite bind_Ok;
    [|apply setproc_on_slot; unfold on_slot; proj_upd; rewrite alter_is_Some; by eexists].
  unfold ret, on_slot. f_equal. kernel_eq. by rewrite alter_alter.
Qed.

(** [wait]: the first zombie child is reaped, its memory given back and its
    slot emptied, and its pid returned; without a zombie child the caller gets
    -1 if it has no children or was killed, and else goes to sleep on itself
    with [ptable.lock] held up to the switch. *)
Theorem wait_correct k me pme :
  unlocked k -> ncli (k_cpu k) = 0 -> length (k_procs k) = NPROC ->
  k_curproc k = Some me -> k_procs k !! me = Some pme ->
  match first_slot (zombie_child me) (k_procs k) with
  | Some i => forall p e1 e2, k_procs k !! i = Some p ->
      kfree (kstack p) (k_env k) = Ok tt e1 -> freevm (pgdir p) e1 = Ok tt e2 ->
      exists k', wait_begin k = Ok (Done (pid p)) k' /\ unlocked k' /\
        k_procs k' = alter reaped i (k_procs k)
  | None =>
      if negb (existsb (is_child me) (k_procs k)) || killed pme
      then exists k', wait_begin k = Ok (Done (-1)) k' /\ unlocked k' /\
             k_procs k' = k_procs k
      else exists k' ie, wait_begin k = Ok (Asleep ie) k' /\
             k_ptlock k' = taken (k_cpu k) /\
             k_procs k' = alter (asleep (ChProc me)) me (k_procs k)
  end.
Proof.
  intros Hu Hn Hlen Hme Hp. unfold wait_begin, wait_loop, myproc.
  rewrite (bind_Ok _ _ _ _ _ (acquire_ptable_run _ Hu)), bind_gets.
  change (k_curproc (entered k)) with (k_curproc k). rewrite Hme, bind_deref.
  pose proof (wait_scan_run me (entered k) (k_procs k) 0 false eq_refl) as Hscan.
  rewrite Hlen in Hscan. change (seq 0 NPROC) with all_procs in Hscan.
  destruct (first_slot (zombie_child me) (k_procs k)) as [i|] eqn:Hf.
  - intros p e1 e2 Hpi Hkf Hfv. cbn [Nat.add] in Hscan.
    rewrite (bind_Ok _ _ _ _ _ (reap_run i (entered k) p e1 e2 Hpi Hkf Hfv)) in Hscan.
    erewrite bind_Ok in Hscan; [|apply (release_ptable_run (k_cpu k)); [apply Hu|done|done]].
    rewrite (bind_Ok _ _ _ _ _ Hscan). eexists. split; [done|].
    split; [apply leave_unlocked, Hu|done].
  - rewrite (bind_Ok _ _ _ _ _ Hscan). cbn [orb].
    rewrite (bind_Ok _ _ _ _ _ (getproc_run me (entered k) pme Hp)).
    destruct (negb (existsb (is_child me) (k_procs k)) || killed pme).
    + erewrite bind_Ok; [|apply (release_ptable_run (k_cpu k)); [apply Hu|done|done]].
      eexists. split; [done|]. split; [apply leave_unlocked, Hu|done].
    + erewrite bind_Ok; [|apply (sleep_ptable_run (k_cpu k)); [apply Hu|try done..]; by eexists].
      eexists _, _. split; [done|]. done.
Qed.

(** *** Process ids *)

Lemma with_lock_inv {A} (m : M view A) k a k' :
  with_lock k_ptlock m k = Ok a k' ->
  exists c lk, k' = k <| k_cpu := c |> <| k_ptlock := lk |>.
Proof. unfold with_lock. destruct (m _) as [b v| | | |]; intros [= <- <-]. eauto. Qed.

Lemma forR_getproc_inv {B} (g : nat -> proc -> option B) l : forall k r k',
  forR l (fun i => p <- getproc i ;; ret (g i p)) k = Ok r k' -> k' = k /\
  forall b, r = Some b -> exists i p, k_procs k !! i = Some p /\ g i p = Some b.
Proof.
  induction l as [|i l IH]; intros k r k'; cbn [forR].
  { intros [= <- <-]. done. }
  intros (o&?&(p&?&(->&Hp)%getproc_inv&[= <- <-])%bind_inv&Er)%bind_inv.
  destruct (g i p) eqn:Hg; [|by apply IH]. injection Er as <- <-. split; [done|].
  intros ? [= <-]. eauto.
Qed.

(** What a successful [allocproc] did. *)
Lemma allocproc_inv k i k' :
  allocproc k = Ok (Some i) k' ->
  exists p ks, k_procs k !! i = Some p /\ state p = UNUSED /\
    k_procs k' = alter (embryo (k_nextpid k) ks) i (k_procs k) /\
    k_nextpid k' = i32 (k_nextpid k + 1).
Proof.
  unfold allocproc. intros (?&k1&(c1&l1&->)%with_lock_inv&Er)%bind_inv.
  apply bind_inv in Er as (o&?&Ef&Er). unfold find_unused in Ef.
  apply (forR_getproc_inv (fun i p => if bool_decide (state p = UNUSED) then Some i else None))
    in Ef as [-> Hf].
  destruct o as [j|]; [|by apply bind_inv in Er as (?&?&_&?)]. rewrite bind_gets in Er.
  apply bind_inv in Er as (?&?&[Hj ->]%setproc_inv&Er). rewrite bind_modify in Er.
  apply bind_inv in Er as (?&?&(c2&l2&->)%with_lock_inv&Er).
  apply bind_inv in Er as (ks&k3&Ek&Er). unfold env, zoom in Ek.
  destruct (kalloc _) as [a e| | | |]; try done. injection Ek as -> <-.
  apply bind_inv in Er as (?&?&[_ ->]%setproc_inv&Er).
  destruct (ks =? 0); [by apply bind_inv in Er as (?&?&_&?)|].
  apply bind_inv in Er as (?&?&[_ ->]%setproc_inv&Er).
  apply bind_inv in Er as (?&k4&Es&Er). unfold env, zoom in Es.
  destruct (store32 _ _ _) as [? e'| | | |]; try done. injection Es as <- <-.
  apply bind_inv in Er as (?&?&[_ ->]%setproc_inv&[= <- <-]).
  destruct (Hf j eq_refl) as (j'&p&Hp&Hg). case_bool_decide; [|done]. injection Hg as ->.
  exists p, ks. proj_upd. split_and!; [done..| |done]. by rewrite !alter_alter.
Qed.

(** [thread_create] takes a process id and gives it back without holding
    [ptable.lock] in between: if another process is created in that window,
    the next process created after it gets the same process id. *)
Theorem thread_create_pid_race k k1 k2 k3 k4 i j l :
  allocproc k = Ok (Some i) k1 -> allocproc k1 = Ok (Some j) k2 ->
  undo_pid k2 = Ok tt k3 -> allocproc k3 = Ok (Some l) k4 ->
  exists pj pl, k_procs k4 !! j = Some pj /\ k_procs k4 !! l = Some pl /\ j <> l /\
    pid pj = pid pl.
Proof.
  intros (p1&s1&_&_&E1&N1)%allocproc_inv (p2&s2&Hp2&U2&E2&N2)%allocproc_inv [= <-]
    (p3&s3&Hp3&U3&E3&N3)%allocproc_inv. proj_upd in Hp3. proj_upd in E3.
  assert (k_procs k2 !! j = Some (embryo (k_nextpid k1) s2 p2)) as Hj
    by (by rewrite E2, list_lookup_alter_eq, Hp2).
  assert (j <> l) as Hjl.
  { intros ->. rewrite Hj in Hp3. injection Hp3 as <-. done. }
  eexists _, _. rewrite E3, list_lookup_alter_ne, Hj, list_lookup_alter_eq, Hp3 by done.
  split_and!; [done..|]. unfold embryo. cbv zeta. proj_upd.
  rewrite N2. replace (i32 (k_nextpid k1 + 1) - 1) with (i32 (k_nextpid k1 + 1) + -1) by lia.
  rewrite i32_add_l. rewrite N1. replace (i32 (k_nextpid k + 1) + 1 + -1)
    with (i32 (k_nextpid k + 1) + 0) by lia. rewrite i32_add_l. f_equal. lia.
Qed.
End proc.

(** ** Example: a shell (process 0) with a zombie child (process 1) and a
    process (2) that sleeps until the next tick *)

Definition demo_procs : list proc :=
  [proc0 <| state := RUNNING |> <| pid := 1 |> <| kstack := 4096 |> <| pgdir := 8192 |>;
   proc0 <| state := ZOMBIE |> <| pid := 2 |> <| parent := Some 0%nat |>;
   proc0 <| state := SLEEPING |> <| pid := 3 |> <| chan := Some ChTicks |>]
  ++ replicate 61 proc0.
Definition demo : kernel Z :=
  (kernel0 (mkCpu 0 0 true true) 65536) <| k_procs := demo_procs |> <| k_curproc := Some 0%nat |>
    <| k_nextpid := 4 |>.

Lemma demo_unlocked : unlocked demo.
Proof. split; [split|]; by vm_compute. Qed.
Lemma demo_length : length (k_procs demo) = NPROC.
Proof. by vm_compute. Qed.

Lemma wakeup_correct_witness :
  exists k', wakeup (Some ChTicks) demo = Ok tt k' /\
    state <$> k_procs k' !! 2%nat = Some RUNNABLE.
Proof.
  destruct (wakeup_correct (Some ChTicks) demo demo_unlocked demo_length) as (k'&Hr&_&Hp).
  exists k'. split; [done|]. rewrite Hp. by vm_compute.
Defined.

Lemma allocproc_correct_witness :
  exists k' p', allocproc demo = Ok (Some 3%nat) k' /\ k_procs k' !! 3%nat = Some p' /\ pid p' = 4.
Proof.
  assert (first_slot is_unused (k_procs demo) = Some 3%nat) as Hf by (by vm_compute).
  assert (kalloc (k_env demo) = Ok 65536 69632) as Hk by (by vm_compute).
  assert (k_nextpid demo = 4) as Hn by (by vm_compute).
  pose proof (allocproc_correct demo 65536 69632 69632 demo_unlocked demo_length Hk) as Ha.
  rewrite Hf, Hn in Ha.
  destruct Ha as (k'&p&p'&Hr&_&_&Hp'&_&_&Hpid&_); [lia|by vm_compute|by vm_compute|].
  exists k', p'. exact (conj Hr (conj Hp' Hpid)).
Defined.

Lemma wait_correct_witness :
  exists k', wait_begin demo = Ok (Done 2) k' /\ state <$> k_procs k' !! 1%nat = Some UNUSED.
Proof.
  assert (first_slot (zombie_child 0) (k_procs demo) = Some 1%nat) as Hf by (by vm_compute).
  set (p0 := default proc0 (k_procs demo !! 0%nat)).
  set (p1 := default proc0 (k_procs demo !! 1%nat)).
  assert (k_procs demo !! 0%nat = Some p0) as H0 by (by vm_compute).
  assert (k_procs demo !! 1%nat = Some p1) as H1 by (by vm_compute).
  assert (ncli (k_cpu demo) = 0) as Hn by (by vm_compute).
  assert (k_curproc demo = Some 0%nat) as Hc by (by vm_compute).
  pose proof (wait_correct demo 0 p0 demo_unlocked Hn demo_length Hc H0) as Hw.
  rewrite Hf in Hw. destruct (Hw p1 65536 65536 H1) as (k'&Hr&_&Hp).
  - by vm_compute.
  - by vm_compute.
  - assert (pid p1 = 2) as Ep by (by vm_compute). rewrite Ep in Hr.
    exists k'. split; [exact Hr|]. rewrite Hp. by vm_compute.
Defined.

Definition final {S A} (s0 : S) (o : outcome S A) : S := match o with Ok _ s => s | _ => s0 end.

Lemma thread_create_pid_race_witness :
  exists (k : kernel Z) pj pl, k_procs k !! 4%nat = Some pj /\ k_procs k !! 5%nat = Some pl /\ pid pj = pid pl.
Proof.
  set (k1 := final demo (allocproc demo)). set (k2 := final demo (allocproc k1)).
  set (k3 := final demo (undo_pid k2)). set (k4 := final demo (allocproc k3)).
  destruct (thread_create_pid_race demo k1 k2 k3 k4 3 4 5) as (pj&pl&?&?&_&?).
  - by vm_compute.
  - by vm_compute.
  - by vm_compute.
  - by vm_compute.
  - exists k4, pj, pl. split_and!; assumption.
Defined.
End Proc.
