(* ===== verification/Threads.v ===== *)
(** * Threads (xv6-public/proc.c:1064-1300)

    The threads of a process form a doubly linked list through [prev_thread]
    and [next_thread], the main thread at its head.  [link_thread] and
    [unlink_thread], the list operations of [thread_create] and
    [dealloc_thread], keep it one. *)

From S2P Require Import Prelude Dll Spinlock Double Procdef Mlfq Sched Proc.

Module Threads.
Import Sched Proc.

Section threads.
Context {E : Type} `{KernelEnv E}.
Abbreviation K := (kernel E).
Implicit Types (k : K).

(** The threads [l] of a process, the main thread first. *)
Definition threads (k : K) (l : list nat) : Prop := dlist (links (k_procs k)) l.

Lemma links_getproc k i a b :
  links (k_procs k) i = Some (a, b) ->
  exists p, k_procs k !! i = Some p /\ getproc i k = Ok p k /\
    prev_thread p = a /\ next_thread p = b.
Proof.
  unfold links. destruct (k_procs k !! i) as [p|] eqn:Hp; [|done]. intros [= <- <-].
  exists p. split_and!; try done. by apply getproc_run.
Qed.

(** One pointer store through a possibly null pointer. *)
Lemma set_prev_opt k o v :
  (forall x, o = Some x -> is_Some (k_procs k !! x)) ->
  exists k', match o with
    | Some x => setproc x (fun q => q <| prev_thread := v |>)
    | None => ret tt end k = Ok tt k' /\
    forall j, links (k_procs k') j = set_prev_of o v (links (k_procs k)) j.
Proof.
  intros Ho. destruct o as [x|]; [|by exists k].
  eexists. split; [apply setproc_on_slot, Ho; done|]. intros j.
  unfold on_slot. proj_upd. exact (links_set_nprev (k_procs k) x v j).
Qed.
Lemma set_next_opt k o v :
  (forall x, o = Some x -> is_Some (k_procs k !! x)) ->
  exists k', match o with
    | Some x => setproc x (fun q => q <| next_thread := v |>)
    | None => ret tt end k = Ok tt k' /\
    forall j, links (k_procs k') j = set_next_of o v (links (k_procs k)) j.
Proof.
  intros Ho. destruct o as [x|]; [|by exists k].
  eexists. split; [apply setproc_on_slot, Ho; done|]. intros j.
  unfold on_slot. proj_upd. exact (links_set_nnext (k_procs k) x v j).
Qed.

Lemma unlink_thread_run k l1 w l2 :
  threads k (l1 ++ w :: l2) ->
  exists k', unlink_thread w k = Ok tt k' /\ threads k' (l1 ++ l2).
Proof.
  intros Hl. destruct (dlist_neighbours _ _ _ _ Hl) as (Hw&Hne&_&Hp&Hn&_).
  destruct (links_getproc _ _ _ _ Hw) as (p&_&Hg&Hpp&Hpn).
  unfold unlink_thread. rewrite (bind_Ok _ _ _ _ _ Hg), Hpp, Hpn.
  destruct (set_next_opt k (last_of l1 None) (first_of l2 None) Hp) as (k1&R1&L1).
  rewrite (bind_Ok _ _ _ _ _ R1).
  destruct (links_getproc k1 w (last_of l1 None) (first_of l2 None)) as (p1&_&Hg1&Hpp1&Hpn1).
  { rewrite L1, set_next_of_ne by done. done. }
  rewrite (bind_Ok _ _ _ _ _ Hg1), Hpp1, Hpn1.
  destruct (set_prev_opt k1 (first_of l2 None) (last_of l1 None)) as (k2&R2&L2).
  { intros x Hx. destruct (Hn x Hx) as [px Hpx]. apply links_Some_slot.
    rewrite L1. apply set_next_of_is_Some. apply links_is_Some. by eapply lookup_lt_Some. }
  exists k2. split; [done|]. eapply dlist_frame; [|exact (dlist_unlink _ _ _ _ Hl)].
  intros j _. rewrite L2. symmetry. apply set_prev_of_ext. intros j'. by rewrite L1.
Qed.

Lemma link_thread_run k l1 me l2 np :
  threads k (l1 ++ me :: l2) -> np ∉ l1 ++ me :: l2 -> is_Some (k_procs k !! np) ->
  exists k', link_thread me np k = Ok tt k' /\ threads k' (l1 ++ me :: np :: l2).
Proof.
  intros Hl Hnew Hnp. destruct (dlist_neighbours _ _ _ _ Hl) as (Hme&_&Hne&_&Hn&Hmes&_).
  assert (np <> me) as Hd by (intros ->; set_solver).
  assert (first_of l2 None <> Some np) as Hfn.
  { intros E1. apply Hnew. eapply first_of_in in E1; set_solver. }
  destruct (links_getproc _ _ _ _ Hme) as (p&_&Hg&_&Hpn).
  unfold link_thread. rewrite (bind_Ok _ _ _ _ _ Hg), Hpn.
  destruct (set_prev_opt k (first_of l2 None) (Some np) Hn) as (k1&R1&L1).
  rewrite (bind_Ok _ _ _ _ _ R1).
  assert (forall x, is_Some (k_procs k !! x) -> is_Some (k_procs k1 !! x)) as Hk1.
  { intros x [q Hx]. apply links_Some_slot. rewrite L1. apply set_prev_of_is_Some, links_is_Some.
    by eapply lookup_lt_Some. }
  destruct (set_prev_opt k1 (Some np) (Some me)) as (k2&R2&L2); [by intros ? [= <-]; apply Hk1|].
  rewrite (bind_Ok _ _ _ _ _ R2).
  assert (forall x, is_Some (k_procs k !! x) -> is_Some (k_procs k2 !! x)) as Hk2.
  { intros x Hx. destruct (Hk1 x Hx) as [q Hq]. apply links_Some_slot. rewrite L2.
    apply set_prev_of_is_Some, links_is_Some. by eapply lookup_lt_Some. }
  destruct (links_getproc k2 me (last_of l1 None) (first_of l2 None)) as (p2&_&Hg2&_&Hpn2).
  { rewrite L2, set_prev_of_ne, L1, set_prev_of_ne by congruence. done. }
  rewrite (bind_Ok _ _ _ _ _ Hg2), Hpn2.
  destruct (set_next_opt k2 (Some np) (first_of l2 None)) as (k3&R3&L3);
    [by intros ? [= <-]; apply Hk2|].
  rewrite (bind_Ok _ _ _ _ _ R3).
  destruct (set_next_opt k3 (Some me) (Some np)) as (k4&R4&L4).
  { intros ? [= <-]. destruct (Hk2 me Hmes) as [q Hq]. apply links_Some_slot. rewrite L3.
    apply set_next_of_is_Some, links_is_Some. by eapply lookup_lt_Some. }
  exists k4. split; [exact R4|].
  eapply dlist_frame; [|exact (dlist_insert_after _ _ _ _ np Hl Hnew)].
  intros j _. rewrite L4. destruct (decide (j = np)) as [->|].
  - rewrite setl_eq, set_next_of_ne, L3, set_next_of_eq, L2, set_prev_of_eq by congruence.
    rewrite L1, set_prev_of_ne by done.
    destruct (links_is_Some (k_procs k) np) as [[a b] ->]; [by apply lookup_lt_is_Some|done].
  - rewrite setl_ne by done.
    assert (links (k_procs k3) j = set_prev_of (first_of l2 None) (Some np) (links (k_procs k)) j)
      as Hj by (by rewrite L3, set_next_of_ne, L2, set_prev_of_ne, L1 by congruence).
    destruct (decide (j = me)) as [->|]; [by rewrite !set_next_of_eq, Hj|].
    by rewrite !set_next_of_ne by congruence.
Qed.

(** What the routines do before they touch the list leaves it alone. *)
Definition same_links (k k' : K) : Prop :=
  forall j, links (k_procs k') j = links (k_procs k) j.
#[local] Instance same_links_preorder : PreOrder same_links.
Proof. split; [done|]. intros k1 k2 k3 H1 H2 j. by rewrite H2. Qed.

Lemma same_links_threads k k' l : same_links k k' -> threads k l -> threads k' l.
Proof. intros Hs Hl. eapply dlist_frame; [|exact Hl]. intros x _. apply Hs. Qed.

Lemma links_setproc i f :
  (forall p, prev_thread (f p) = prev_thread p) -> (forall p, next_thread (f p) = next_thread p) ->
  keeps same_links (setproc i f).
Proof.
  intros Hp Hn k u k' [_ ->]%setproc_inv j. proj_upd. by apply (links_alter_same (k_procs k)).
Qed.
Lemma links_getproc_keeps i : keeps same_links (getproc i).
Proof. unfold getproc. keeps_tac. Qed.
Lemma links_env {A} (m : M E A) : keeps same_links (env m).
Proof. by apply keeps_zoom. Qed.
Lemma links_memlock (m : M view unit) : keeps same_links (with_lock k_memlock m).
Proof.
  intros k u k'. unfold with_lock. destruct (m _); intros [= _ <-]. done.
Qed.
#[local] Hint Resolve links_getproc_keeps links_env links_memlock : keeps.
#[local] Hint Extern 1 (keeps same_links (setproc _ _)) =>
  apply links_setproc; intros; reflexivity : keeps.
#[local] Hint Extern 1 (keeps same_links acquire_memlock) => apply links_memlock : keeps.
#[local] Hint Extern 1 (keeps same_links release_memlock) => apply links_memlock : keeps.

Lemma links_highest_master i : keeps same_links (get_highest_master i).
Proof.
  unfold get_highest_master. generalize (S NPROC). intros fuel. revert i.
  induction fuel; intros i; cbn [highest_master_from]; keeps_tac.
Qed.
#[local] Hint Resolve links_highest_master : keeps.

(** [dealloc_thread], of a thread with a master, up to its list operation. *)
Lemma dealloc_thread_inv w k k' :
  dealloc_thread w k = Ok 0 k' ->
  exists k1, same_links k k1 /\ unlink_thread w k1 = Ok tt k'.
Proof.
  unfold dealloc_thread. intros (p&?&(->&Hp)%getproc_inv&Er)%bind_inv.
  destruct (bool_decide _); [done|].
  repeat match type of Er with
  | bind (unlink_thread _) _ _ = _ => fail 1
  | bind ?m _ ?s = _ =>
      let s' := fresh "k" in let Em := fresh "Em" in
      apply bind_inv in Er as (?&s'&Em&Er);
      assert (same_links s s') by (revert Em; cut (keeps same_links m); [eauto|keeps_tac]);
      clear Em
  end.
  apply bind_inv in Er as ([]&?&Eu&[= <-]). eexists. split; [|exact Eu].
  repeat (etrans; [eassumption|]). reflexivity.
Qed.

(** freeing a thread takes it out of the thread list of its process and
    leaves the other threads linked in the same order. *)
Theorem dealloc_thread_unlinks w k k' l1 l2 :
  threads k (l1 ++ w :: l2) -> dealloc_thread w k = Ok 0 k' -> threads k' (l1 ++ l2).
Proof.
  intros Hl (k1&Hs&Hu)%dealloc_thread_inv.
  destruct (unlink_thread_run k1 l1 w l2) as (k2&Hr&Hl2); [by eapply same_links_threads|].
  rewrite Hr in Hu. by injection Hu as <-.
Qed.

(** the list operation of [thread_create] links the new thread in directly
    behind the thread that created it, whatever the length of the list. *)
Theorem link_thread_correct k l1 me l2 np :
  threads k (l1 ++ me :: l2) -> np ∉ l1 ++ me :: l2 -> is_Some (k_procs k !! np) ->
  exists k', link_thread me np k = Ok tt k' /\ threads k' (l1 ++ me :: np :: l2).
Proof. apply link_thread_run. Qed.
End threads.

(** ** Example: a process with one finished thread *)
Definition demo : kernel Z :=
  (kernel0 (mkCpu 0 1 true false) 65536) <| k_curproc := Some 0%nat |>
    <| k_procs ::= fun ps =>
        [proc0 <| state := RUNNING |> <| pid := 1 |> <| sz := 16384 |>
               <| next_thread := Some 1%nat |>;
         proc0 <| state := ZOMBIE |> <| pid := 1 |> <| tid := 1 |> <| master := Some 0%nat |>
               <| originalbase := 8192 |> <| prev_thread := Some 0%nat |>]
        ++ drop 2 ps |>.

Lemma demo_threads : threads demo [0; 1]%nat.
Proof. split; [apply (bool_decide_unpack _); by vm_compute|]. repeat split; by vm_compute. Qed.

Lemma dealloc_thread_unlinks_witness :
  exists k', dealloc_thread 1 demo = Ok 0 k' /\ threads k' [0%nat].
Proof.
  exists (final demo (dealloc_thread 1 demo)).
  assert (dealloc_thread 1 demo = Ok 0 (final demo (dealloc_thread 1 demo))) as Hr
    by (by vm_compute).
  split; [exact Hr|]. exact (dealloc_thread_unlinks 1 demo _ [0%nat] [] demo_threads Hr).
Defined.

Lemma link_thread_correct_witness :
  exists k', link_thread 0 2 demo = Ok tt k' /\ threads k' [0; 2; 1]%nat.
Proof.
  apply (link_thread_correct demo [] 0 [1%nat] 2 demo_threads).
  - set_solver.
  - by eexists.
Defined.
End Threads.
