(* ===== verification/Trap.v ===== *)
(** * Traps (xv6-public/trap.c)

    The dispatch of system calls, device interrupts and faults, and what every
    one of them does before the interrupted code goes on: a killed process exits
    instead of returning to user mode, and the timer takes the CPU from the
    process.  A call that leaves the CPU is cut at the switch, as in [Proc]: [trap] ends
    in [Yielding], and [trap_again] is what follows when the process is chosen
    again. *)

From S2P Require Import Prelude Dll Spinlock Double Procdef Mlfq Sched Proc.

Module Trap.
Import Sched Proc.

Abbreviation T_SYSCALL := 64 (only parsing).
Abbreviation T_IRQ0 := 32 (only parsing).
Abbreviation IRQ_TIMER := 0 (only parsing).
Abbreviation IRQ_KBD := 1 (only parsing).
Abbreviation IRQ_COM1 := 4 (only parsing).
Abbreviation IRQ_IDE := 14 (only parsing).
Abbreviation IRQ_SPURIOUS := 31 (only parsing).

(** How [trap] ends: back to the interrupted code, in [exit], or off the CPU. *)
Inductive leave :=
| Return
| Exiting (r : stage unit)
| Yielding (ie : bool).

Section trap.
Context {E : Type} `{KernelEnv E}.
Abbreviation K := (kernel E).

(** The kernel with the clock. *)
Record clocked := mkClocked { t_kernel : K; t_ticks : Z }.
#[export] Instance eta_clocked : Eta clocked := fun s => mkClocked (t_kernel s) (t_ticks s).
#[export] Instance set_t_kernel : Setter t_kernel.
Proof. build_setter. Defined.
#[export] Instance set_t_ticks : Setter t_ticks.
Proof. build_setter. Defined.

(** The system call dispatcher, the interrupt handlers of the devices, the
    acknowledgement of an interrupt and the messages on the console. *)
Context (syscall ideintr kbdintr uartintr lapiceoi cprintf : M K unit).

Definition kernelM {A} (m : M K A) : M clocked A := zoom t_kernel m.

(** [exit()] ends the trap. *)
Definition leave_by_exit : M K leave := r <- exit_begin ;; ret (Exiting r).

(** [myproc() && myproc()->killed]. *)
Definition am_killed : M K bool :=
  me <- myproc ;;
  match me with
  | None => ret false
  | Some i => p <- getproc i ;; ret (killed p)
  end.

Definition trap_syscall (tf' : trapframe) : M K leave :=
  me <- myproc ;; me <- deref me ;;
  p <- getproc me ;;
  if killed p then leave_by_exit else
  setproc me (fun p => p <| tf := tf' |>) ;;
  syscall ;;
  me <- myproc ;; me <- deref me ;;
  p <- getproc me ;;
  if killed p then leave_by_exit else ret Return.

(** The case of the timer: the first CPU keeps the time. *)
Definition trap_timer : M clocked unit :=
  c <- gets (fun s => c_id (k_cpu (t_kernel s))) ;;
  when (c =? 0)%nat
    (modify (fun s => s <| t_ticks := u32 (t_ticks s + 1) |>) ;;
     kernelM (wakeup (Some ChTicks))) ;;
  kernelM lapiceoi.

(** The other traps: a fault in the kernel is fatal, one of a process kills it. *)
Definition trap_default (tf' : trapframe) : M K unit :=
  me <- myproc ;;
  match me with
  | None => panic "trap"
  | Some i =>
      if Z.land (cs tf') 3 =? 0 then panic "trap" else
      cprintf ;;
      setproc i (fun p => p <| killed := true |>)
  end.

Definition trap_switch (tf' : trapframe) : M clocked unit :=
  let n := trapno tf' in
  if n =? T_IRQ0 + IRQ_TIMER then trap_timer
  else if n =? T_IRQ0 + IRQ_IDE then kernelM (ideintr ;; lapiceoi)
  else if n =? T_IRQ0 + IRQ_IDE + 1 then ret tt
  else if n =? T_IRQ0 + IRQ_KBD then kernelM (kbdintr ;; lapiceoi)
  else if n =? T_IRQ0 + IRQ_COM1 then kernelM (uartintr ;; lapiceoi)
  else if (n =? T_IRQ0 + 7) || (n =? T_IRQ0 + IRQ_SPURIOUS) then kernelM (cprintf ;; lapiceoi)
  else kernelM (trap_default tf').

(** Force the exit of a killed process that is in user space. *)
Definition exit_if_killed (tf' : trapframe) : M K leave :=
  k <- am_killed ;;
  if k && (Z.land (cs tf') 3 =? DPL_USER) then leave_by_exit else ret Return.

Definition am_running : M K bool :=
  me <- myproc ;;
  match me with
  | None => ret false
  | Some i => p <- getproc i ;; ret (bool_decide (state p = RUNNING))
  end.

(** The end of [trap], up to the switch of [yield]. *)
Definition trap_end (tf' : trapframe) : M K leave :=
  l <- exit_if_killed tf' ;;
  match l with
  | Return =>
      r <- am_running ;;
      if r && (trapno tf' =? T_IRQ0 + IRQ_TIMER) then ie <- yield_out ;; ret (Yielding ie)
      else exit_if_killed tf'
  | _ => ret l
  end.

Definition trap (tf' : trapframe) : M clocked leave :=
  if trapno tf' =? T_SYSCALL then kernelM (trap_syscall tf')
  else trap_switch tf' ;; kernelM (trap_end tf').
(** Back from [yield]. *)
Definition trap_again (tf' : trapframe) (ie : bool) : M K leave := yield_in ie ;; exit_if_killed tf'.

(** ** No killed process returns to user mode *)

(** The current process is not killed. *)
Definition spared (k : K) : Prop :=
  forall i p, k_curproc k = Some i -> k_procs k !! i = Some p -> killed p = false.

Lemma getproc_same i (k : K) p k' : getproc i k = Ok p k' -> k' = k /\ k_procs k !! i = Some p.
Proof. unfold getproc. mstep. destruct (k_procs k !! i); [|done]. by intros [= -> ->]. Qed.

Lemma exit_if_killed_spared tf' k k' :
  exit_if_killed tf' k = Ok Return k' -> Z.land (cs tf') 3 = DPL_USER -> spared k'.
Proof.
  unfold exit_if_killed, am_killed, leave_by_exit, myproc. mstep. intros Hr Hcs.
  destruct (k_curproc k) as [i|] eqn:Ei.
  - rewrite bind_bind in Hr. apply bind_inv in Hr as (p & k1 & [-> Hp]%getproc_same & Hr). revert Hr. mstep.
    rewrite Hcs. cbn [Z.eqb]. change (DPL_USER =? DPL_USER) with true. rewrite andb_true_r.
    destruct (killed p) eqn:Ek.
    + intros (r & k2 & _ & [=])%bind_inv.
    + intros [= <-] j q Hj Hq. congruence.
  - revert Hr. mstep. intros [= <-] j q Hj. congruence.
Qed.

(** [myproc()->killed] at the end of a system call. *)
Lemma syscall_end_spared (k k' : K) :
  (me <- myproc ;; me <- deref me ;; p <- getproc me ;; if killed p then leave_by_exit else ret Return) k =
    Ok Return k' -> spared k'.
Proof.
  unfold myproc, leave_by_exit. mstep. destruct (k_curproc k) as [i|] eqn:Ei; [|done]. mstep.
  intros (p & k1 & [-> Hp]%getproc_same & Hr)%bind_inv. destruct (killed p) eqn:Ek.
  - by apply bind_inv in Hr as (r & k2 & _ & [=]).
  - injection Hr as <-. intros j q Hj Hq. congruence.
Qed.

(** C23: a killed process does not return to user mode.  Whatever the system call or the
    handlers of the devices do, when [trap] lets the interrupted process go on in user
    mode, or goes on after the timer took the CPU from it, the process is not
    marked as killed. *)
Theorem trap_spares_no_killed tf' :
  (trapno tf' = T_SYSCALL \/ Z.land (cs tf') 3 = DPL_USER) ->
  (forall s s', trap tf' s = Ok Return s' -> spared (t_kernel s')) /\
  (forall ie k k', Z.land (cs tf') 3 = DPL_USER -> trap_again tf' ie k = Ok Return k' -> spared k').
Proof.
  intros Htf. split.
  - intros s s'. unfold trap, kernelM. destruct (Z.eqb_spec (trapno tf') T_SYSCALL) as [_|Hne].
    + unfold zoom. destruct (trap_syscall tf' (t_kernel s)) as [l k| | | |] eqn:Et; try done. intros [= -> <-].
      proj_upd. unfold trap_syscall in Et.
      apply bind_inv in Et as (me & k1 & _ & Et). apply bind_inv in Et as (i & k2 & _ & Et).
      apply bind_inv in Et as (p & k3 & _ & Et).
      destruct (killed p); [by apply bind_inv in Et as (r & k4 & _ & [=])|].
      apply bind_inv in Et as (? & k4 & _ & Et). apply bind_inv in Et as (? & k5 & _ & Et).
      exact (syscall_end_spared k5 k Et).
    + intros (u & s1 & _ & Hr)%bind_inv. unfold zoom in Hr.
      destruct (trap_end tf' (t_kernel s1)) as [l k| | | |] eqn:Et; try done. injection Hr as -> <-. proj_upd.
      destruct Htf as [?|Hcs]; [done|]. unfold trap_end in Et. apply bind_inv in Et as (l & k1 & H1 & Et).
      destruct l as [|r|ie]; [|by injection Et..].
      apply bind_inv in Et as (b & k2 & _ & Et). destruct (b && _).
      * by apply bind_inv in Et as (ie & k3 & _ & [=]).
      * by eapply exit_if_killed_spared.
  - intros ie k k' Hcs (u & k1 & _ & Hr)%bind_inv. by eapply exit_if_killed_spared.
Qed.

(** ** The timer *)

Lemma wakeup_run c (k : K) : unlocked k -> length (k_procs k) = NPROC ->
  wakeup c k = Ok tt (k <| k_procs ::= fmap (woken c) |> <| k_cpu ::= leave_cpu |> <| k_ptlock := initlock |>).
Proof.
  intros Hu Hlen. unfold wakeup. rewrite (bind_Ok _ _ _ _ _ (acquire_ptable_run _ Hu)).
  rewrite (bind_Ok _ _ _ _ _ (wakeup1_run c (entered k) Hlen)).
  rewrite (release_ptable_run (k_cpu k)) by (done || apply Hu). done.
Qed.

Lemma yield_out_run (k : K) me p : unlocked k -> ncli (k_cpu k) = 0 -> k_curproc k = Some me ->
  k_procs k !! me = Some p ->
  yield_out k = Ok (c_if (k_cpu k)) ((entered k) <| k_procs ::= alter (fun p => p <| state := RUNNABLE |>) me |>).
Proof.
  intros Hu Hn Hme Hp. unfold yield_out, myproc. rewrite (bind_Ok _ _ _ _ _ (acquire_ptable_run _ Hu)). mstep.
  change (k_curproc (entered k)) with (k_curproc k). rewrite Hme. mstep.
  rewrite (bind_Ok _ _ _ _ _ (setproc_run me _ (entered k) p Hp)).
  set (k1 := (entered k) <| k_procs ::= alter (fun p => p <| state := RUNNABLE |>) me |>).
  assert (Hc : k_cpu k1 = enter_cpu (k_cpu k)) by done.
  assert (Hh : with_lock k_ptlock holding k1 = Ok true k1).
  { unfold with_lock. rewrite holding_run; [|rewrite Hc; split; cbn; [lia|done]|rewrite Hc; cbn; lia].
    cbn [v_lk v_cpu]. rewrite Hc. change (k_ptlock k1) with (taken (k_cpu k)). cbn.
    rewrite bool_decide_true by done. done. }
  unfold sched_out, myproc. mstep. rewrite (bind_Ok _ _ _ _ _ Hh). cbn [negb]. mstep.
  rewrite Hc. cbn [ncli enter_cpu]. rewrite Hn. change (negb (1 + 0 =? 1)) with false. cbv iota. change (k_curproc k1) with (k_curproc k).
  rewrite Hme. mstep. assert (Hp1 : k_procs k1 !! me = Some (p <| state := RUNNABLE |>)).
  { unfold k1. proj_upd. rewrite list_lookup_alter_eq. change (k_procs (entered k)) with (k_procs k). by rewrite Hp. }
  rewrite (bind_Ok _ _ _ _ _ (getproc_run _ _ _ Hp1)). rewrite bool_decide_false by done.
  unfold ret, enter_cpu. cbn [c_if intena]. by rewrite Hn.
Qed.

Hypothesis Heoi : forall k, lapiceoi k = Ok tt k.

(** C32: the timer.  On the first CPU a tick advances the clock, makes every process
    that sleeps until a tick runnable, and takes the CPU from the running
    process: it is runnable again, and the scheduler gets [ptable.lock] locked. *)
Theorem trap_timer_correct tf' s me p (k := t_kernel s) :
  trapno tf' = T_IRQ0 + IRQ_TIMER -> c_id (k_cpu k) = 0%nat -> ncli (k_cpu k) = 0 -> unlocked k ->
  length (k_procs k) = NPROC -> k_curproc k = Some me -> k_procs k !! me = Some p ->
  state p = RUNNING -> killed p = false ->
  exists s', trap tf' s = Ok (Yielding (c_if (k_cpu k))) s' /\ t_ticks s' = u32 (t_ticks s + 1) /\
    k_procs (t_kernel s') =
      alter (fun p => p <| state := RUNNABLE |>) me (woken (Some ChTicks) <$> k_procs k) /\
    locked (k_ptlock (t_kernel s')) = true /\ ncli (k_cpu (t_kernel s')) = 1.
Proof.
  intros Ht Hid Hn Hu Hlen Hme Hp Hst Hkl. unfold trap. rewrite Ht. change (T_IRQ0 + IRQ_TIMER =? T_SYSCALL) with false. cbv iota.
  set (k1 := k <| k_procs ::= fmap (woken (Some ChTicks)) |> <| k_cpu ::= leave_cpu |> <| k_ptlock := initlock |>).
  assert (Hsw : trap_switch tf' s = Ok tt (mkClocked k1 (u32 (t_ticks s + 1)))).
  { unfold trap_switch. rewrite Ht. change (T_IRQ0 + IRQ_TIMER =? T_IRQ0 + IRQ_TIMER) with true. cbv zeta.
    unfold trap_timer, kernelM, zoom. mstep. fold k. rewrite Hid. cbn [Nat.eqb]. mstep.
    unfold bind at 1. proj_upd. fold k. rewrite wakeup_run by done. rewrite Heoi. done. }
  rewrite (bind_Ok _ _ _ _ _ Hsw).
  assert (Hp1 : k_procs k1 !! me = Some p).
  { unfold k1. proj_upd. rewrite list_lookup_fmap, Hp. cbn. unfold woken. rewrite Hst. by rewrite bool_decide_false by done. }
  assert (Hu1 : unlocked k1) by (apply (leave_unlocked (k_cpu k)), Hu).
  assert (Hend : trap_end tf' k1 = Ok (Yielding (c_if (k_cpu k)))
     ((entered k1) <| k_procs ::= alter (fun p => p <| state := RUNNABLE |>) me |>)).
  { unfold trap_end, exit_if_killed, am_killed, am_running, myproc. mstep.
    change (k_curproc k1) with (k_curproc k). rewrite Hme. mstep.
    rewrite (bind_Ok _ _ _ _ _ (getproc_run _ _ _ Hp1)). mstep. rewrite Hkl. cbn [andb]. mstep.
    change (k_curproc k1) with (k_curproc k). rewrite Hme. mstep.
    rewrite (bind_Ok _ _ _ _ _ (getproc_run _ _ _ Hp1)). mstep. rewrite Hst, bool_decide_true by done.
    rewrite Ht. change (T_IRQ0 + IRQ_TIMER =? T_IRQ0 + IRQ_TIMER) with true. cbn [andb].
    rewrite (bind_Ok _ _ _ _ _ (yield_out_run k1 me p Hu1 Hn Hme Hp1)). done. }
  unfold kernelM, zoom. cbn [t_kernel]. rewrite Hend. eexists. split; [reflexivity|]. split_and!; [done..|].
  cbn. change (1 + ncli (k_cpu k) = 1). lia.
Qed.
End trap.

(** A tick while the first process runs and the third one sleeps until it. *)
Definition tick_tf : trapframe := tf0 <| trapno := 32 |> <| cs := 27 |>.

Lemma trap_timer_correct_witness : exists s',
  trap (ret tt) (ret tt) (ret tt) (ret tt) (ret tt) (ret tt) tick_tf (mkClocked demo 4294967295) = Ok (Yielding true) s' /\
  t_ticks s' = 0 /\ state <$> k_procs (t_kernel s') !! 2%nat = Some RUNNABLE.
Proof.
  destruct (trap_timer_correct (ret tt) (ret tt) (ret tt) (ret tt) (ret tt) (ret tt) (fun _ => eq_refl)
    tick_tf (mkClocked demo 4294967295) 0 (proc0 <| state := RUNNING |> <| pid := 1 |> <| kstack := 4096 |> <| pgdir := 8192 |>) eq_refl eq_refl eq_refl demo_unlocked demo_length
    eq_refl eq_refl eq_refl eq_refl) as (s' & Hr & Ht & Hp & _).
  exists s'. split; [exact Hr|]. split; [exact Ht|]. rewrite Hp. vm_compute. reflexivity.
Defined.

(** A fault of a process in user mode; the process returns only if it is not killed. *)
Lemma trap_spares_no_killed_witness :
  (forall s s', trap (ret tt) (ret tt) (ret tt) (ret tt) (ret tt) (ret tt) tick_tf s = Ok Return s' ->
     spared (E := Z) (t_kernel s')) /\ cs tick_tf = 27.
Proof.
  split; [|reflexivity].
  exact (proj1 (trap_spares_no_killed (ret tt) (ret tt) (ret tt) (ret tt) (ret tt) (ret tt) tick_tf (or_intror eq_refl))).
Defined.

Example user_fault_exits :
  match trap (ret tt) (ret tt) (ret tt) (ret tt) (ret tt) (ret tt) (tick_tf <| trapno := 14 |>) (mkClocked demo 0) with
  | Ok (Exiting _) s' => True
  | _ => False
  end.
Proof. vm_compute. exact I. Qed.

Example kernel_fault_panics :
  trap (ret tt) (ret tt) (ret tt) (ret tt) (ret tt) (ret tt) (tick_tf <| trapno := 14 |> <| cs := 8 |>) (mkClocked demo 0) =
  Panic "trap".
Proof. vm_compute. reflexivity. Qed.
End Trap.
