(* ===== verification/Str.v ===== *)
(** * Memory and strings (xv6-public/string.c, ulib.c)

    Memory is an array of bytes, a pointer an index into it; an access outside
    faults.  [memmove] is shown to copy correctly when the two ranges overlap,
    [memset] to do the same in its word-wise and its byte-wise branch, and the
    string routines to respect their bounds. *)

From S2P Require Import Prelude.

Module Str.

Abbreviation mem := (list Z).

Definition load (a : Z) : M mem Z := fun m => deref (zlookup m a) m.
Definition store (a v : Z) : M mem unit := fun m =>
  match zlookup m a with
  | Some _ => Ok tt (<[Z.to_nat a := u8 v]> m)
  | None => Fault
  end.

(** A [char] read as a signed value. *)
Definition schar (b : Z) : Z := if b <? 128 then b else b - 256.

(** ** string.c *)

(** [stosb] and [stosl]: [n] bytes or little-endian words from [a] up. *)
Fixpoint stosb (a c : Z) (n : nat) : M mem unit :=
  match n with
  | O => ret tt
  | S n' => store a c ;; stosb (a + 1) c n'
  end.
Fixpoint stosl (a w : Z) (n : nat) : M mem unit :=
  match n with
  | O => ret tt
  | S n' =>
      store a w ;; store (a + 1) (Z.shiftr w 8) ;; store (a + 2) (Z.shiftr w 16) ;;
      store (a + 3) (Z.shiftr w 24) ;; stosl (a + 4) w n'
  end.

Definition memset (dst c n : Z) : M mem unit :=
  if (dst mod 4 =? 0) && (n mod 4 =? 0) then
    let c := Z.land c 255 in
    stosl dst (u32 (Z.lor (Z.lor (Z.shiftl c 24) (Z.shiftl c 16)) (Z.lor (Z.shiftl c 8) c)))
      (Z.to_nat (n / 4))
  else stosb dst c (Z.to_nat n).

Fixpoint memcmp_loop (v1 v2 : Z) (n : nat) : M mem Z :=
  match n with
  | O => ret 0
  | S n' =>
      a <- load v1 ;; b <- load v2 ;;
      if negb (a =? b) then ret (a - b) else memcmp_loop (v1 + 1) (v2 + 1) n'
  end.
Definition memcmp (v1 v2 n : Z) : M mem Z := memcmp_loop v1 v2 (Z.to_nat n).

(** [while(n-- > 0) *--d = *--s] and [while(n-- > 0) *d++ = *s++]. *)
Fixpoint copy_down (d s : Z) (n : nat) : M mem unit :=
  match n with
  | O => ret tt
  | S n' => v <- load (s - 1) ;; store (d - 1) v ;; copy_down (d - 1) (s - 1) n'
  end.
Fixpoint copy_up (d s : Z) (n : nat) : M mem unit :=
  match n with
  | O => ret tt
  | S n' => v <- load s ;; store d v ;; copy_up (d + 1) (s + 1) n'
  end.
Definition memmove (dst src n : Z) : M mem Z :=
  (if (src <? dst) && (dst <? src + n) then copy_down (dst + n) (src + n) (Z.to_nat n)
   else copy_up dst src (Z.to_nat n)) ;;
  ret dst.
Definition memcpy : Z -> Z -> Z -> M mem Z := memmove.

Fixpoint strncmp (p q : Z) (n : nat) : M mem Z :=
  match n with
  | O => ret 0
  | S n' =>
      a <- load p ;; b <- load q ;;
      if negb (a =? 0) && (a =? b) then strncmp (p + 1) (q + 1) n' else ret (a - b)
  end.

(** The copying loop stops behind the first zero byte; the rest is zeroed. *)
Fixpoint strncpy_loop (s t : Z) (n : nat) : M mem unit :=
  match n with
  | O => ret tt
  | S n' =>
      v <- load t ;; store s v ;;
      if v =? 0 then stosb (s + 1) 0 n' else strncpy_loop (s + 1) (t + 1) n'
  end.
Definition strncpy (s t n : Z) : M mem Z := strncpy_loop s t (Z.to_nat n) ;; ret s.

(** [n'] is the number of bytes that may still be copied before the last one. *)
Fixpoint safestrcpy_loop (s t : Z) (n' : nat) : M mem unit :=
  match n' with
  | O => store s 0
  | S n'' =>
      v <- load t ;; store s v ;;
      if v =? 0 then store (s + 1) 0 else safestrcpy_loop (s + 1) (t + 1) n''
  end.
Definition safestrcpy (s t n : Z) : M mem Z :=
  if n <=? 0 then ret s else safestrcpy_loop s t (Z.to_nat (n - 1)) ;; ret s.

(** [fuel]: a string ends inside memory. *)
Fixpoint strlen_from (fuel : nat) (s n : Z) : M mem Z :=
  match fuel with
  | O => fault
  | S fuel' => v <- load (s + n) ;; if v =? 0 then ret n else strlen_from fuel' s (n + 1)
  end.
Definition strlen (s : Z) : M mem Z := fun m => strlen_from (S (length m)) s 0 m.

(** ** Reading memory *)

Definition rd (m : mem) (a : Z) : option Z := zlookup m a.
Definition msize (m : mem) : Z := Z.of_nat (length m).
Definition bytes (m : mem) : Prop := forall a v, rd m a = Some v -> 0 <= v < 256.

Lemma rd_Some m a : is_Some (rd m a) <-> 0 <= a < msize m.
Proof.
  unfold rd, zlookup, msize. destruct (Z.ltb_spec a 0).
  - split; [by intros [? ?]|lia].
  - rewrite lookup_lt_is_Some. lia.
Qed.

Lemma rd_insert m a v b :
  0 <= a < msize m -> rd (<[Z.to_nat a := v]> m) b = if b =? a then Some v else rd m b.
Proof.
  intros Ha. unfold rd, zlookup, msize in *.
  destruct (Z.eqb_spec b a) as [->|].
  - destruct (Z.ltb_spec a 0); [lia|]. apply list_lookup_insert_eq. lia.
  - destruct (Z.ltb_spec b 0); [done|]. apply list_lookup_insert_ne. lia.
Qed.

Lemma load_run m a v : rd m a = Some v -> load a m = Ok v m.
Proof. intros Hv. unfold load. unfold rd in Hv. by rewrite Hv. Qed.

Lemma store_run m a v :
  0 <= a < msize m ->
  exists m', store a v m = Ok tt m' /\ msize m' = msize m /\
    forall b, rd m' b = if b =? a then Some (u8 v) else rd m b.
Proof.
  intros Ha. unfold store. destruct (proj2 (rd_Some m a) Ha) as [x Hx].
  unfold rd in Hx. rewrite Hx. eexists. split; [done|]. unfold msize.
  rewrite length_insert. split; [done|]. intros b. by apply rd_insert.
Qed.

Lemma u8_byte v : 0 <= v < 256 -> u8 v = v.
Proof. intros. apply Z.mod_small. lia. Qed.

(** What the bytes of the range [[d, d+n)] are after a routine that writes
    [f i] at offset [i] and nothing elsewhere. *)
Definition filled (m m' : mem) (d n : Z) (f : Z -> option Z) : Prop :=
  msize m' = msize m /\
  forall a, rd m' a = if (d <=? a) && (a <? d + n) then f (a - d) else rd m a.

Lemma in_range d n a : (d <=? a) && (a <? d + n) = true <-> d <= a < d + n.
Proof. rewrite andb_true_iff, Z.leb_le, Z.ltb_lt. done. Qed.

Ltac range_case :=
  repeat match goal with
  | |- context [(?d <=? ?a) && (?a <? ?e)] =>
      destruct (Z.leb_spec d a), (Z.ltb_spec a e); cbn [andb]
  | |- context [?b =? ?a] => destruct (Z.eqb_spec b a)
  end; try lia; try done.

Lemma copy_up_run n : forall m d s,
  bytes m -> 0 <= s -> 0 <= d -> s + Z.of_nat n <= msize m -> d + Z.of_nat n <= msize m ->
  (d <= s \/ s + Z.of_nat n <= d) ->
  exists m', copy_up d s n m = Ok tt m' /\
    filled m m' d (Z.of_nat n) (fun i => rd m (s + i)).
Proof.
  induction n as [|n IH]; intros m d s Hb Hs Hd Hsn Hdn Hov.
  { exists m. split; [done|]. split; [done|]. intros a. range_case. }
  cbn [copy_up]. destruct (proj2 (rd_Some m s)) as [v Hv]; [lia|].
  rewrite (bind_Ok _ _ _ _ _ (load_run _ _ _ Hv)).
  destruct (store_run m d v) as (m1&R1&L1&H1); [lia|]. rewrite (bind_Ok _ _ _ _ _ R1).
  rewrite u8_byte in H1 by (by eapply Hb).
  destruct (IH m1 (d + 1) (s + 1)) as (m2&R2&L2&H2); try lia.
  { intros a w. rewrite H1. destruct (a =? d); [intros [= <-]; by eapply Hb|apply Hb]. }
  exists m2. split; [done|]. split; [congruence|]. intros a. rewrite H2.
  range_case; rewrite H1; range_case; subst.
  - f_equal. lia.
  - rewrite <- Hv. f_equal. lia.
Qed.

Lemma copy_down_run n : forall m d s,
  bytes m -> 0 <= s - Z.of_nat n -> 0 <= d - Z.of_nat n -> s <= msize m -> d <= msize m ->
  (s <= d \/ d + Z.of_nat n <= s) ->
  exists m', copy_down d s n m = Ok tt m' /\
    filled m m' (d - Z.of_nat n) (Z.of_nat n) (fun i => rd m (s - Z.of_nat n + i)).
Proof.
  induction n as [|n IH]; intros m d s Hb Hs Hd Hsn Hdn Hov.
  { exists m. split; [done|]. split; [done|]. intros a. range_case. }
  cbn [copy_down]. destruct (proj2 (rd_Some m (s - 1))) as [v Hv]; [lia|].
  rewrite (bind_Ok _ _ _ _ _ (load_run _ _ _ Hv)).
  destruct (store_run m (d - 1) v) as (m1&R1&L1&H1); [lia|]. rewrite (bind_Ok _ _ _ _ _ R1).
  rewrite u8_byte in H1 by (by eapply Hb).
  destruct (IH m1 (d - 1) (s - 1)) as (m2&R2&L2&H2); try lia.
  { intros a w. rewrite H1. destruct (a =? d - 1); [intros [= <-]; by eapply Hb|apply Hb]. }
  exists m2. split; [done|]. split; [congruence|]. intros a. rewrite H2.
  range_case; rewrite H1; range_case; subst.
  - f_equal. lia.
  - rewrite <- Hv. f_equal. lia.
Qed.

Lemma stosb_run n : forall m a c,
  0 <= a -> a + Z.of_nat n <= msize m ->
  exists m', stosb a c n m = Ok tt m' /\ filled m m' a (Z.of_nat n) (fun _ => Some (u8 c)).
Proof.
  induction n as [|n IH]; intros m a c Ha Hn.
  { exists m. split; [done|]. split; [done|]. intros b. range_case. }
  cbn [stosb]. destruct (store_run m a c) as (m1&R1&L1&H1); [lia|].
  rewrite (bind_Ok _ _ _ _ _ R1). destruct (IH m1 (a + 1) c) as (m2&R2&L2&H2); [lia..|].
  exists m2. split; [done|]. split; [congruence|]. intros b. rewrite H2.
  range_case; rewrite H1; range_case.
Qed.

Lemma stosl_run n : forall m a w c,
  u8 w = c -> u8 (Z.shiftr w 8) = c -> u8 (Z.shiftr w 16) = c -> u8 (Z.shiftr w 24) = c ->
  0 <= a -> a + 4 * Z.of_nat n <= msize m ->
  exists m', stosl a w n m = Ok tt m' /\ filled m m' a (4 * Z.of_nat n) (fun _ => Some c).
Proof.
  induction n as [|n IH]; intros m a w c W0 W1 W2 W3 Ha Hn.
  { exists m. split; [done|]. split; [done|]. intros b. range_case. }
  cbn [stosl].
  destruct (store_run m a w) as (m1&R1&L1&H1); [lia|]. rewrite (bind_Ok _ _ _ _ _ R1).
  destruct (store_run m1 (a + 1) (Z.shiftr w 8)) as (m2&R2&L2&H2); [lia|].
  rewrite (bind_Ok _ _ _ _ _ R2).
  destruct (store_run m2 (a + 2) (Z.shiftr w 16)) as (m3&R3&L3&H3); [lia|].
  rewrite (bind_Ok _ _ _ _ _ R3).
  destruct (store_run m3 (a + 3) (Z.shiftr w 24)) as (m4&R4&L4&H4); [lia|].
  rewrite (bind_Ok _ _ _ _ _ R4). rewrite W0 in H1. rewrite W1 in H2. rewrite W2 in H3.
  rewrite W3 in H4. destruct (IH m4 (a + 4) w c W0 W1 W2 W3) as (m5&R5&L5&H5); [lia..|].
  exists m5. split; [done|]. split; [congruence|]. intros b. rewrite H5.
  range_case; rewrite H4, H3, H2, H1; range_case.
Qed.

(** The word of four equal bytes. *)
Definition spread (c : Z) : Z :=
  u32 (Z.lor (Z.lor (Z.shiftl c 24) (Z.shiftl c 16)) (Z.lor (Z.shiftl c 8) c)).
Lemma spread_bytes c :
  0 <= c < 256 ->
  u8 (spread c) = c /\ u8 (Z.shiftr (spread c) 8) = c /\ u8 (Z.shiftr (spread c) 16) = c /\
  u8 (Z.shiftr (spread c) 24) = c.
Proof.
  intros Hc. assert (forallb (fun c => (u8 (spread c) =? c) && (u8 (Z.shiftr (spread c) 8) =? c)
    && (u8 (Z.shiftr (spread c) 16) =? c) && (u8 (Z.shiftr (spread c) 24) =? c))
    (Z.of_nat <$> seq 0 256) = true) as Hall by (by vm_compute).
  rewrite forallb_forall in Hall.
  assert (In c (Z.of_nat <$> seq 0 256)) as Hin.
  { apply list_elem_of_In, list_elem_of_fmap. exists (Z.to_nat c).
    rewrite elem_of_seq. split; lia. }
  specialize (Hall c Hin). rewrite !andb_true_iff, !Z.eqb_eq in Hall. tauto.
Qed.

(** [memset] sets every byte of the range to [c] mod 256 and no other byte,
    in its word-wise branch as in its byte-wise one. *)
Theorem memset_correct m dst c n :
  0 <= dst -> 0 <= n -> dst + n <= msize m ->
  exists m', memset dst c n m = Ok tt m' /\ filled m m' dst n (fun _ => Some (u8 c)).
Proof.
  intros Hd Hn Hr. unfold memset. destruct (_ && _) eqn:Ea.
  - bool_hyps. fold (spread (Z.land c 255)).
    assert (Z.land c 255 = u8 c) as -> by exact (Z.land_ones c 8 ltac:(lia)).
    destruct (spread_bytes (u8 c)) as (W0&W1&W2&W3); [apply Z.mod_pos_bound; lia|].
    assert (n = 4 * (n / 4)) as En by (apply Z_div_exact_full_2; lia).
    destruct (stosl_run (Z.to_nat (n / 4)) m dst _ _ W0 W1 W2 W3) as (m'&R&Hf); [lia..|].
    exists m'. split; [done|]. by replace (4 * Z.of_nat (Z.to_nat (n / 4))) with n in Hf by lia.
  - destruct (stosb_run (Z.to_nat n) m dst c) as (m'&R&Hf); [lia..|].
    exists m'. split; [done|]. by rewrite Z2Nat.id in Hf by lia.
Qed.

Lemma memset_correct_witness :
  exists m', memset 4 7 8 (replicate 16 0) = Ok tt m' /\
    filled (replicate 16 0) m' 4 8 (fun _ => Some 7).
Proof. apply (memset_correct (replicate 16 0) 4 7 8); [lia|lia|by vm_compute]. Defined.

(** [memmove] copies [n] bytes correctly also when the ranges overlap, and
    changes nothing outside the destination. *)
Theorem memmove_correct m dst src n :
  bytes m -> 0 <= src -> 0 <= dst -> 0 <= n -> src + n <= msize m -> dst + n <= msize m ->
  exists m', memmove dst src n m = Ok dst m' /\ filled m m' dst n (fun i => rd m (src + i)).
Proof.
  intros Hb Hs Hd Hn Hsn Hdn. unfold memmove. destruct (_ && _) eqn:Ea.
  - bool_hyps. destruct (copy_down_run (Z.to_nat n) m (dst + n) (src + n)) as (m'&R&Hf);
      [done|lia..|].
    rewrite (bind_Ok _ _ _ _ _ R). exists m'. split; [done|]. rewrite Z2Nat.id in Hf by lia.
    replace (dst + n - n) with dst in Hf by lia.
    by replace (src + n - n) with src in Hf by lia.
  - destruct (copy_up_run (Z.to_nat n) m dst src) as (m'&R&Hf); [done|lia..| |].
    { apply andb_false_iff in Ea as [Ea|Ea]; bool_hyps; lia. }
    rewrite (bind_Ok _ _ _ _ _ R). exists m'. split; [done|]. by rewrite Z2Nat.id in Hf by lia.
Qed.

Lemma bytes_b m : forallb (fun v => (0 <=? v) && (v <? 256)) m = true -> bytes m.
Proof.
  intros Hm a v Hv. unfold rd, zlookup in Hv. destruct (a <? 0); [done|].
  pose proof (forallb_lookup _ _ _ _ Hm Hv) as Hr. cbn in Hr. bool_hyps. lia.
Qed.

(** An overlapping copy. *)
Lemma memmove_correct_witness :
  exists m', memmove 1 0 4 [1; 2; 3; 4; 5; 6] = Ok 1 m' /\ rd m' 4 = Some 4.
Proof.
  destruct (memmove_correct [1; 2; 3; 4; 5; 6] 1 0 4) as (m'&R&_&Hf).
  - by apply bytes_b.
  - lia.
  - lia.
  - lia.
  - by vm_compute.
  - by vm_compute.
  - exists m'. split; [done|]. rewrite Hf. by vm_compute.
Defined.

(** ** Strings *)

(** The string [l] at [a]: no zero byte inside, one behind. *)
Definition cstr (m : mem) (a : Z) (l : list Z) : Prop :=
  (forall i v, l !! i = Some v -> rd m (a + Z.of_nat i) = Some v /\ v <> 0) /\
  rd m (a + Z.of_nat (length l)) = Some 0.

Lemma cstr_nil m a : cstr m a [] -> rd m a = Some 0.
Proof. intros [_ H0]. cbn in H0. by rewrite Z.add_0_r in H0. Qed.

Lemma cstr_cons m a x l : cstr m a (x :: l) -> rd m a = Some x /\ x <> 0 /\ cstr m (a + 1) l.
Proof.
  intros [Hl H0]. destruct (Hl 0%nat x eq_refl) as [Hx ?]. rewrite Z.add_0_r in Hx.
  split_and!; [done..|]. split.
  - intros i v Hi. destruct (Hl (S i) v Hi) as [Hv ?]. split; [|done].
    by replace (a + 1 + Z.of_nat i) with (a + Z.of_nat (S i)) by lia.
  - cbn [length] in H0. by replace (a + 1 + Z.of_nat (length l)) with (a + Z.of_nat (S (length l))) by lia.
Qed.

Lemma cstr_intro m a x l : rd m a = Some x -> x <> 0 -> cstr m (a + 1) l -> cstr m a (x :: l).
Proof.
  intros Hx Hx0 [Hl H0]. split.
  - intros [|i] v Hi; cbn in Hi.
    + rewrite Z.add_0_r. by simplify_eq.
    + replace (a + Z.of_nat (S i)) with (a + 1 + Z.of_nat i) by lia. by apply Hl.
  - cbn [length]. by replace (a + Z.of_nat (S (length l))) with (a + 1 + Z.of_nat (length l)) by lia.
Qed.

Lemma cstr_size m a l : 0 <= a -> cstr m a l -> a + Z.of_nat (length l) < msize m.
Proof. intros Ha [_ H0]. apply mk_is_Some, rd_Some in H0. lia. Qed.

Lemma strlen_from_run m l : forall a n fuel,
  (length l < fuel)%nat -> cstr m (a + n) l ->
  strlen_from fuel a n m = Ok (n + Z.of_nat (length l)) m.
Proof.
  induction l as [|x l IH]; intros a n fuel Hf Hs; (destruct fuel as [|fuel]; [cbn in Hf; lia|]);
    cbn [strlen_from].
  - rewrite (bind_Ok _ _ _ _ _ (load_run _ _ _ (cstr_nil _ _ Hs))). cbn. by rewrite Z.add_0_r.
  - destruct (cstr_cons _ _ _ _ Hs) as (Hx&Hx0&Hs').
    rewrite (bind_Ok _ _ _ _ _ (load_run _ _ _ Hx)), (proj2 (Z.eqb_neq _ _)) by done.
    rewrite IH; [f_equal; cbn [length]; lia|cbn in Hf; lia|by rewrite Z.add_assoc].
Qed.

Lemma strlen_run m a l : 0 <= a -> cstr m a l -> strlen a m = Ok (Z.of_nat (length l)) m.
Proof.
  intros Ha Hs. unfold strlen. rewrite (strlen_from_run m l a 0); [done| |by rewrite Z.add_0_r].
  pose proof (cstr_size _ _ _ Ha Hs). unfold msize in *. lia.
Qed.

(** [strncmp] compares at most [n] bytes and returns 0 exactly when the two
    strings agree on them. *)
Theorem strncmp_correct m n : forall p q l1 l2,
  cstr m p l1 -> cstr m q l2 ->
  exists v, strncmp p q n m = Ok v m /\ (v = 0 <-> take n l1 = take n l2).
Proof.
  induction n as [|n IH]; intros p q l1 l2 Hp Hq.
  { exists 0. by rewrite !take_0. }
  assert (forall a l, cstr m a l -> exists v, rd m a = Some v /\ (v = 0 <-> l = [])) as Hhd.
  { intros a [|x l] Hl; [exists 0; split; [by apply cstr_nil|done]|].
    destruct (cstr_cons _ _ _ _ Hl) as (?&?&_). by exists x. }
  destruct (Hhd _ _ Hp) as (a&Ha&Ea), (Hhd _ _ Hq) as (b&Hb&Eb). cbn [strncmp].
  rewrite (bind_Ok _ _ _ _ _ (load_run _ _ _ Ha)), (bind_Ok _ _ _ _ _ (load_run _ _ _ Hb)).
  destruct (negb (a =? 0) && (a =? b)) eqn:Et.
  - bool_hyps. subst b. destruct l1 as [|x l1]; [tauto|]. destruct l2 as [|y l2]; [tauto|].
    destruct (cstr_cons _ _ _ _ Hp) as (Hx&_&Hp'), (cstr_cons _ _ _ _ Hq) as (Hy&_&Hq').
    simplify_eq. destruct (IH _ _ _ _ Hp' Hq') as (v&Hr&Hv). exists v. split; [done|].
    cbn. rewrite Hv. split; [by intros ->|by intros [= ?]].
  - exists (a - b). split; [done|]. apply andb_false_iff in Et.
    destruct l1 as [|x l1], l2 as [|y l2]; cbn.
    + rewrite (proj2 Ea), (proj2 Eb) by done. done.
    + rewrite (proj2 Ea) by done. destruct (cstr_cons _ _ _ _ Hq) as (?&?&_). simplify_eq.
      split; [lia|done].
    + rewrite (proj2 Eb) by done. destruct (cstr_cons _ _ _ _ Hp) as (?&?&_). simplify_eq.
      split; [lia|done].
    + destruct (cstr_cons _ _ _ _ Hp) as (?&?&_), (cstr_cons _ _ _ _ Hq) as (?&?&_). simplify_eq.
      destruct Et as [Et|Et]; bool_hyps; [done|]. split; [lia|]. intros [= ? _]. done.
Qed.

Lemma strncmp_correct_witness :
  exists v, strncmp 0 3 2 [97; 98; 0; 97; 99; 0] = Ok v [97; 98; 0; 97; 99; 0] /\
    (v = 0 <-> [97; 98] = [97; 99]).
Proof.
  assert (forall a x y, cstr [97; 98; 0; 97; 99; 0] a [x; y] <->
    rd [97; 98; 0; 97; 99; 0] a = Some x /\ x <> 0 /\
    rd [97; 98; 0; 97; 99; 0] (a + 1) = Some y /\ y <> 0 /\
    rd [97; 98; 0; 97; 99; 0] (a + 1 + 1) = Some 0) as Hc.
  { intros a x y. split.
    - intros (?&?&(?&?&H0%cstr_nil)%cstr_cons)%cstr_cons. done.
    - intros (?&?&?&?&?). do 2 (apply cstr_intro; [done..|]). split; [done|].
      by rewrite Z.add_0_r. }
  apply (strncmp_correct [97; 98; 0; 97; 99; 0] 2 0 3 [97; 98] [97; 99]); by apply Hc.
Defined.

(** Memory outside [[s, s+n)] is as before. *)
Definition untouched (m m' : mem) (s n : Z) : Prop :=
  msize m' = msize m /\ forall a, a < s \/ s + n <= a -> rd m' a = rd m a.

Lemma untouched_cstr m m' s n a l :
  untouched m m' s n -> cstr m a l ->
  (a + Z.of_nat (length l) < s \/ s + n <= a) -> cstr m' a l.
Proof.
  intros [_ Hu] [Hl H0] Hd. split.
  - intros i v Hi. rewrite Hu; [by apply Hl|]. apply lookup_lt_Some in Hi. lia.
  - rewrite Hu; [done|lia].
Qed.

Lemma safestrcpy_loop_run l : forall n m s t,
  bytes m -> 0 <= s -> s + Z.of_nat (S n) <= msize m -> cstr m t l ->
  (t + Z.of_nat (length l) < s \/ s + Z.of_nat (S n) <= t) ->
  exists m', safestrcpy_loop s t n m = Ok tt m' /\ untouched m m' s (Z.of_nat (S n)) /\
    cstr m' s (take n l).
Proof.
  induction l as [|x l IH]; intros n m s t Hb Hs Hn Ht Hd.
  - destruct n as [|n]; cbn [safestrcpy_loop].
    + destruct (store_run m s 0) as (m1&R1&L1&H1); [lia|]. exists m1. split_and!; [done| |].
      * split; [done|]. intros a Ha. rewrite H1. range_case.
      * split; [done|]. cbn. rewrite Z.add_0_r, H1. range_case.
    + rewrite (bind_Ok _ _ _ _ _ (load_run _ _ _ (cstr_nil _ _ Ht))).
      destruct (store_run m s 0) as (m1&R1&L1&H1); [lia|]. rewrite (bind_Ok _ _ _ _ _ R1).
      cbn [Z.eqb]. destruct (store_run m1 (s + 1) 0) as (m2&R2&L2&H2); [lia|].
      exists m2. split_and!; [done| |].
      * split; [congruence|]. intros a Ha. rewrite H2, H1. range_case.
      * split; [done|]. cbn. rewrite Z.add_0_r, H2, H1. range_case.
  - destruct (cstr_cons _ _ _ _ Ht) as (Hx&Hx0&Ht'). destruct n as [|n]; cbn [safestrcpy_loop].
    + destruct (store_run m s 0) as (m1&R1&L1&H1); [lia|]. exists m1. split_and!; [done| |].
      * split; [done|]. intros a Ha. rewrite H1. range_case.
      * split; [done|]. cbn. rewrite Z.add_0_r, H1. range_case.
    + rewrite (bind_Ok _ _ _ _ _ (load_run _ _ _ Hx)).
      destruct (store_run m s x) as (m1&R1&L1&H1); [lia|]. rewrite (bind_Ok _ _ _ _ _ R1).
      rewrite u8_byte in H1 by (by eapply Hb). rewrite (proj2 (Z.eqb_neq _ _)) by done.
      cbn [length] in Hd.
      destruct (IH n m1 (s + 1) (t + 1)) as (m2&R2&[L2 H2]&Hc); [|lia|lia| |lia|].
      * intros a v. rewrite H1. destruct (a =? s); [intros [= <-]; by eapply Hb|apply Hb].
      * eapply (untouched_cstr m m1 s 1); [|done|lia]. split; [done|].
        intros a Ha. rewrite H1. range_case.
      * exists m2. split_and!; [done| |].
        -- split; [congruence|]. intros a Ha. rewrite H2 by lia. rewrite H1. range_case.
        -- cbn [take]. apply cstr_intro; [|done|done]. rewrite H2 by lia. rewrite H1. range_case.
Qed.

(** [safestrcpy] leaves a terminated string of at most [n - 1] bytes, the
    beginning of the source, and writes nothing outside the [n] bytes of the
    destination. *)
Theorem safestrcpy_correct m s t n l :
  bytes m -> 0 < n -> 0 <= s -> s + n <= msize m -> cstr m t l ->
  (t + Z.of_nat (length l) < s \/ s + n <= t) ->
  exists m', safestrcpy s t n m = Ok s m' /\ untouched m m' s n /\
    cstr m' s (take (Z.to_nat (n - 1)) l).
Proof.
  intros Hb Hn Hs Hsn Ht Hd. unfold safestrcpy. rewrite (proj2 (Z.leb_gt _ _)) by lia.
  destruct (safestrcpy_loop_run l (Z.to_nat (n - 1)) m s t) as (m'&R&Hu&Hc); [done|lia|lia|done|lia|].
  rewrite (bind_Ok _ _ _ _ _ R). exists m'. split_and!; [done| |done].
  by replace (Z.of_nat (S (Z.to_nat (n - 1)))) with n in Hu by lia.
Qed.

Lemma safestrcpy_correct_witness :
  exists m', safestrcpy 3 0 2 [97; 98; 0; 1; 1; 1] = Ok 3 m' /\ cstr m' 3 [97].
Proof.
  destruct (safestrcpy_correct [97; 98; 0; 1; 1; 1] 3 0 2 [97; 98]) as (m'&R&_&Hc).
  - by apply bytes_b.
  - lia.
  - lia.
  - by vm_compute.
  - do 2 (apply cstr_intro; [by vm_compute|lia|]). split; [done|]. by vm_compute.
  - left. by vm_compute.
  - by exists m'.
Defined.

(** [strncpy] fills its [n] bytes: the source up to its end, then zeros. *)
Lemma strncpy_loop_run l : forall n m s t,
  bytes m -> 0 <= s -> s + Z.of_nat n <= msize m -> cstr m t l ->
  (t + Z.of_nat (length l) < s \/ s + Z.of_nat n <= t) ->
  exists m', strncpy_loop s t n m = Ok tt m' /\
    filled m m' s (Z.of_nat n) (fun i => Some (default 0 (l !! Z.to_nat i))).
Proof.
  induction l as [|x l IH]; intros n m s t Hb Hs Hn Ht Hd;
    (destruct n as [|n]; cbn [strncpy_loop];
      [exists m; split; [done|]; split; [done|]; intros a; range_case|]).
  - rewrite (bind_Ok _ _ _ _ _ (load_run _ _ _ (cstr_nil _ _ Ht))).
    destruct (store_run m s 0) as (m1&R1&L1&H1); [lia|]. rewrite (bind_Ok _ _ _ _ _ R1).
    cbn [Z.eqb]. destruct (stosb_run n m1 (s + 1) 0) as (m2&R2&L2&H2); [lia..|].
    exists m2. split; [done|]. split; [congruence|]. intros a. rewrite H2.
    range_case; rewrite ?H1; range_case.
  - destruct (cstr_cons _ _ _ _ Ht) as (Hx&Hx0&Ht'). rewrite (bind_Ok _ _ _ _ _ (load_run _ _ _ Hx)).
    destruct (store_run m s x) as (m1&R1&L1&H1); [lia|]. rewrite (bind_Ok _ _ _ _ _ R1).
    rewrite u8_byte in H1 by (by eapply Hb). rewrite (proj2 (Z.eqb_neq _ _)) by done.
    cbn [length] in Hd.
    destruct (IH n m1 (s + 1) (t + 1)) as (m2&R2&L2&H2); [|lia|lia| |lia|].
    + intros a v. rewrite H1. destruct (a =? s); [intros [= <-]; by eapply Hb|apply Hb].
    + eapply (untouched_cstr m m1 s 1); [|done|lia]. split; [done|].
      intros a Ha. rewrite H1. range_case.
    + exists m2. split; [done|]. split; [congruence|]. intros a. rewrite H2.
      range_case; rewrite ?H1; range_case.
      * replace (Z.to_nat (a - s)) with (S (Z.to_nat (a - (s + 1)))) by lia. done.
      * subst. by rewrite Z.sub_diag.
Qed.
End Str.
