(* ===== verification/Ulib.v ===== *)
(** * The C library of user programs (xv6-public/ulib.c, printf.c)

    The routines of ulib.c on the memory of [Str], [gets] on the bytes that
    [read] of descriptor 0 gives, and [printf] as the bytes it writes.  A number
    printed by [printint] is read back by [atoi]; [gets] stores one line, stays
    inside its buffer and leaves the rest of the input. *)

From S2P Require Import Prelude Str.
Import Str.

Module Ulib.

Definition NL : Z := 10.
Definition CR : Z := 13.

(** ** ulib.c *)

Fixpoint strcpy_loop (fuel : nat) (s t : Z) : M mem unit :=
  match fuel with
  | O => spin
  | S fuel' =>
      c <- load t ;; store s c ;;
      if c =? 0 then ret tt else strcpy_loop fuel' (s + 1) (t + 1)
  end.
Definition strcpy (s t : Z) : M mem Z := fun m => (strcpy_loop (S (length m)) s t ;; ret s) m.

Fixpoint strcmp_loop (fuel : nat) (p q : Z) : M mem Z :=
  match fuel with
  | O => spin
  | S fuel' =>
      a <- load p ;;
      if a =? 0 then b <- load q ;; ret (a - b) else
      b <- load q ;;
      if a =? b then strcmp_loop fuel' (p + 1) (q + 1) else ret (a - b)
  end.
Definition strcmp (p q : Z) : M mem Z := fun m => strcmp_loop (S (length m)) p q m.

Fixpoint strlen_loop (fuel : nat) (s n : Z) : M mem Z :=
  match fuel with
  | O => spin
  | S fuel' => c <- load (s + n) ;; if c =? 0 then ret n else strlen_loop fuel' s (n + 1)
  end.
Definition strlen (s : Z) : M mem Z := fun m => strlen_loop (S (length m)) s 0 m.

Definition memset (dst c n : Z) : M mem Z := stosb dst c (Z.to_nat n) ;; ret dst.

Fixpoint strchr_loop (fuel : nat) (s c : Z) : M mem Z :=
  match fuel with
  | O => spin
  | S fuel' =>
      a <- load s ;;
      if a =? 0 then ret 0 else if a =? c then ret s else strchr_loop fuel' (s + 1) c
  end.
Definition strchr (s c : Z) : M mem Z := fun m => strchr_loop (S (length m)) s c m.

Fixpoint atoi_loop (fuel : nat) (s n : Z) : M mem Z :=
  match fuel with
  | O => spin
  | S fuel' =>
      c <- load s ;;
      if (48 <=? schar c) && (schar c <=? 57) then atoi_loop fuel' (s + 1) (i32 (n * 10 + schar c - 48))
      else ret n
  end.
Definition atoi (s : Z) : M mem Z := fun m => atoi_loop (S (length m)) s 0 m.

(** Upwards, whatever the two ranges are. *)
Definition memmove (vdst vsrc n : Z) : M mem Z := copy_up vdst vsrc (Z.to_nat n) ;; ret vdst.

(** Memory and the bytes that descriptor 0 still has. *)
Record uio := mkUio { io_mem : mem; io_in : list Z }.
#[export] Instance eta_uio : Eta uio := fun r => mkUio (io_mem r) (io_in r).
#[export] Instance set_io_mem : Setter io_mem.
Proof. build_setter. Defined.
#[export] Instance set_io_in : Setter io_in.
Proof. build_setter. Defined.

(** [read(0, &c, 1)] with its byte: 1, or 0 at the end. *)
Definition read1 : M uio (Z * Z) :=
  l <- Prelude.gets io_in ;;
  match l with
  | [] => ret (0, 0)
  | c :: l' => modify (fun s => s <| io_in := l' |>) ;; ret (1, c)
  end.

Fixpoint gets_loop (fuel : nat) (buf max i : Z) : M uio Z :=
  match fuel with
  | O => spin
  | S fuel' =>
      if i + 1 <? max then
        r <- read1 ;;
        let c := r.2 in
        if r.1 <? 1 then ret i else
        zoom io_mem (store (buf + i) c) ;;
        if (c =? NL) || (c =? CR) then ret (i + 1) else gets_loop fuel' buf max (i + 1)
      else ret i
  end.
Definition gets (buf max : Z) : M uio Z :=
  i <- gets_loop (S (Z.to_nat max)) buf max 0 ;;
  zoom io_mem (store (buf + i) 0) ;;
  ret buf.

(** [stat], over the system calls. *)
Section stat.
Context {S St : Type} (open : list Z -> Z -> M S Z) (fstat : Z -> M S (Z * St)) (close : Z -> M S Z).
Definition stat (n : list Z) : M S (Z * option St) :=
  fd <- open n 0 ;;
  if fd <? 0 then ret (-1, None) else
  r <- fstat fd ;;
  close fd ;;
  ret (r.1, Some r.2).
End stat.

(** ** printf.c *)

(** The bytes written so far. *)
Definition putc (c : Z) : M (list Z) unit := modify (fun out => out ++ [u8 c]).

Definition digits_upper : list Z := [48;49;50;51;52;53;54;55;56;57;65;66;67;68;69;70].
Definition digits_lower : list Z := [48;49;50;51;52;53;54;55;56;57;97;98;99;100;101;102].

(** [buf[i++] = c] in a buffer of 16 bytes. *)
Definition push {S} (buf : list Z) (c : Z) : M S (list Z) :=
  if (length buf <? 16)%nat then ret (buf ++ [c]) else fault.
Fixpoint digit_loop {S} (fuel : nat) (digits : list Z) (x base : Z) (buf : list Z) : M S (list Z) :=
  match fuel with
  | O => spin
  | Datatypes.S fuel' =>
      d <- deref (zlookup digits (x mod base)) ;;
      buf <- push buf d ;;
      if x / base =? 0 then ret buf else digit_loop fuel' digits (x / base) base buf
  end.
(** With the routine that puts one character. *)
Definition printint_with {S} (put : Z -> M S unit) (digits : list Z) (xx base : Z) (sgn : bool) : M S unit :=
  let neg := sgn && (xx <? 0) in
  let x := if neg then u32 (- xx) else u32 xx in
  buf <- digit_loop 32 digits x base [] ;;
  buf <- (if neg then push buf 45 else ret buf) ;;
  forM (rev buf) put.
Definition printint : list Z -> Z -> Z -> bool -> M (list Z) unit := printint_with putc.

(** The strings that the arguments point to. *)
Section printf.
Variable str : Z -> option (list Z).

(** The argument at [ap] and [ap++]. *)
Definition arg (ap : list Z) : M (list Z) (Z * list Z) :=
  match ap with a :: ap' => ret (a, ap') | [] => fault end.
Definition null_text : list Z := [40;110;117;108;108;41].
Definition puts (a : Z) : M (list Z) unit :=
  if a =? 0 then forM null_text putc else s <- deref (str a) ;; forM s putc.

(** The loop over [fmt], the list of its bytes; [esc] is [state == '%']. *)
Fixpoint printf_loop (fmt : list Z) (esc : bool) (ap : list Z) : M (list Z) unit :=
  match fmt with
  | [] => ret tt
  | c :: fmt' =>
      if negb esc then
        if c =? 37 then printf_loop fmt' true ap else putc c ;; printf_loop fmt' false ap
      else if c =? 100 then
        r <- arg ap ;; printint digits_upper (i32 r.1) 10 true ;; printf_loop fmt' false r.2
      else if (c =? 120) || (c =? 112) then
        r <- arg ap ;; printint digits_upper (i32 r.1) 16 false ;; printf_loop fmt' false r.2
      else if c =? 115 then
        r <- arg ap ;; puts r.1 ;; printf_loop fmt' false r.2
      else if c =? 99 then
        r <- arg ap ;; putc r.1 ;; printf_loop fmt' false r.2
      else if c =? 37 then putc c ;; printf_loop fmt' false ap
      else putc 37 ;; putc c ;; printf_loop fmt' false ap
  end.
Definition printf (fmt ap : list Z) : M (list Z) unit := printf_loop fmt false ap.
End printf.

(** ** Numbers *)

(** Digits from the lowest one up. *)
Definition numval (base : Z) (ds : list Z) : Z := foldr (fun d a => d + base * a) 0 ds.
Definition glyph (digits : list Z) (d : Z) : Z := default 0 (zlookup digits d).

Lemma numval_app base l1 l2 :
  numval base (l1 ++ l2) = numval base l1 + base ^ Z.of_nat (length l1) * numval base l2.
Proof.
  unfold numval. induction l1 as [|d l1 IH]; cbn [app foldr length].
  - change (Z.of_nat 0) with 0. rewrite Z.pow_0_r. ring.
  - rewrite IH, Nat2Z.inj_succ, Z.pow_succ_r by lia. ring.
Qed.

Section digits.
Context (digits : list Z) (base : Z).
Hypothesis Hlen : length digits = 16%nat.
Hypothesis Hbase : 2 <= base <= 16.

Lemma glyph_run {S} d (out : S) : 0 <= d < base -> deref (zlookup digits d) out = Ok (glyph digits d) out.
Proof.
  intros Hd. unfold glyph. destruct (zlookup digits d) as [g|] eqn:E; [done|].
  unfold zlookup in E. destruct (Z.ltb_spec d 0); [lia|]. apply lookup_ge_None in E. lia.
Qed.

(** [n] digits are enough. *)
Lemma digit_loop_run {S} n : forall fuel x buf (out : S),
  (n < fuel)%nat -> (length buf + n < 16)%nat -> 0 <= x < base ^ (Z.of_nat n + 1) ->
  exists ds, digit_loop fuel digits x base buf out = Ok (buf ++ map (glyph digits) ds) out /\
    numval base ds = x /\ Forall (fun d => 0 <= d < base) ds /\ (length ds <= n + 1)%nat /\
    (exists l d, ds = l ++ [d] /\ (d = 0 -> l = [])).
Proof.
  induction n as [|n IH]; intros [|fuel] x buf out Hf Hb Hx; try lia; cbn [digit_loop].
  all: pose proof (Z.mod_pos_bound x base ltac:(lia)) as Hm; pose proof (Z.div_mod x base ltac:(lia)) as Hdm;
    rewrite (bind_Ok _ _ _ _ _ (glyph_run _ out Hm)); unfold push;
    (destruct (Nat.ltb_spec (length buf) 16); [|lia]); mstep.
  - change (Z.of_nat 0 + 1) with 1 in Hx. rewrite Z.pow_1_r in Hx. rewrite Z.div_small, Z.mod_small by lia. cbn.
    exists [x]. cbn. split_and!; [done|lia|constructor; [lia|constructor]|lia|]. exists [], x. done.
  - destruct (Z.eqb_spec (x / base) 0) as [E0|Hne].
    + exists [x mod base]. cbn. split_and!; [done|lia|constructor; [lia|constructor]|lia|]. exists [], (x mod base). done.
    + rewrite Nat2Z.inj_succ, <- Z.add_1_r, Z.pow_add_r, Z.pow_1_r, Z.mul_comm in Hx by lia.
      destruct (IH fuel (x / base) (buf ++ [glyph digits (x mod base)]) out) as (ds & Hr & Hv & Hd & Hl & l & d & -> & Hld);
        [lia|rewrite length_app; cbn; lia|split; [apply Z.div_pos; lia|apply Z.div_lt_upper_bound; lia]|].
      exists (x mod base :: l ++ [d]). split_and!.
      * by rewrite Hr, <- app_assoc.
      * cbn [numval foldr]. fold (numval base (l ++ [d])). lia.
      * by constructor.
      * cbn. lia.
      * exists (x mod base :: l), d. split; [done|]. intros ->. rewrite Hld in Hv by done. cbn in Hv. lia.
Qed.
End digits.

Lemma forM_putc l : forall out, Forall (fun c => 0 <= c < 256) l -> forM l putc out = Ok tt (out ++ l).
Proof.
  induction l as [|c l IH]; intros out Hl; cbn [forM]; [by rewrite app_nil_r|].
  apply Forall_cons in Hl as [Hc Hl]. unfold putc at 1. mstep. rewrite u8_byte by done.
  by rewrite IH, <- app_assoc.
Qed.

Lemma glyph_decimal d : 0 <= d < 10 -> glyph digits_upper d = 48 + d.
Proof.
  intros H. assert (Hd : d = 0 \/ d = 1 \/ d = 2 \/ d = 3 \/ d = 4 \/ d = 5 \/ d = 6 \/ d = 7 \/ d = 8 \/ d = 9) by lia.
  repeat destruct Hd as [->|Hd]; try reflexivity. subst. reflexivity.
Qed.

Lemma i32_shift n : exists k, i32 n = n + k * 2 ^ 32.
Proof.
  exists (- ((n + 2 ^ 31) / 2 ^ 32)). unfold i32. pose proof (Z.div_mod (n + 2 ^ 31) (2 ^ 32)). lia.
Qed.
Lemma i32_plus n k : i32 (n + k * 2 ^ 32) = i32 n.
Proof.
  unfold i32. replace (n + k * 2 ^ 32 + 2 ^ 31) with (n + 2 ^ 31 + k * 2 ^ 32) by lia.
  by rewrite Z_mod_plus by lia.
Qed.

(** The loop of [atoi], highest digit first. *)
Lemma atoi_loop_run ds : forall m a n fuel, 0 <= a -> Forall (fun d => 0 <= d < 10) ds ->
  cstr m a (map (fun d => 48 + d) ds) -> (length ds < fuel)%nat ->
  atoi_loop fuel a (i32 n) m = Ok (i32 (n * 10 ^ Z.of_nat (length ds) + numval 10 (rev ds))) m.
Proof.
  induction ds as [|d ds IH]; intros m a n [|fuel] Ha Hd Hs Hf; cbn in Hf; try lia; cbn [atoi_loop map] in *.
  - rewrite (bind_Ok _ _ _ _ _ (load_run _ _ _ (cstr_nil _ _ Hs))). cbn. do 2 f_equal. lia.
  - apply cstr_cons in Hs as (Hx & _ & Hs). apply Forall_cons in Hd as [Hd0 Hd].
    rewrite (bind_Ok _ _ _ _ _ (load_run _ _ _ Hx)). unfold schar.
    replace (48 + d <? 128) with true by lia. replace ((48 <=? 48 + d) && (48 + d <=? 57)) with true by lia.
    replace (i32 (i32 n * 10 + (48 + d) - 48)) with (i32 (n * 10 + d)).
    + rewrite IH by (done || lia). cbn [rev length]. rewrite numval_app, length_rev, Nat2Z.inj_succ, Z.pow_succ_r by lia.
      cbn [numval foldr]. do 2 f_equal. lia.
    + destruct (i32_shift n) as [k ->]. rewrite <- (i32_plus _ (k * 10)). f_equal. lia.
Qed.



(** ** Strings *)

(** The order of the first bytes that differ, the end of a string being a 0. *)
Fixpoint cmp (l1 l2 : list Z) : Z :=
  match l1, l2 with
  | [], [] => 0
  | [], b :: _ => - b
  | a :: _, [] => a
  | a :: l1', b :: l2' => if a =? b then cmp l1' l2' else a - b
  end.

Lemma strcmp_loop_run m l1 : forall l2 p q fuel, cstr m p l1 -> cstr m q l2 -> (length l1 < fuel)%nat ->
  strcmp_loop fuel p q m = Ok (cmp l1 l2) m.
Proof.
  induction l1 as [|a l1 IH]; intros l2 p q [|fuel] H1 H2 Hf; cbn in Hf; try lia; cbn [strcmp_loop].
  - rewrite (bind_Ok _ _ _ _ _ (load_run _ _ _ (cstr_nil _ _ H1))). cbn [Z.eqb].
    destruct l2 as [|b l2].
    + by rewrite (bind_Ok _ _ _ _ _ (load_run _ _ _ (cstr_nil _ _ H2))).
    + apply cstr_cons in H2 as (Hb & _). by rewrite (bind_Ok _ _ _ _ _ (load_run _ _ _ Hb)).
  - apply cstr_cons in H1 as (Ha & Ha0 & H1). rewrite (bind_Ok _ _ _ _ _ (load_run _ _ _ Ha)).
    rewrite (proj2 (Z.eqb_neq a 0)) by done. destruct l2 as [|b l2].
    + rewrite (bind_Ok _ _ _ _ _ (load_run _ _ _ (cstr_nil _ _ H2))).
      rewrite (proj2 (Z.eqb_neq a 0)) by done. cbn. unfold ret. f_equal. lia.
    + apply cstr_cons in H2 as (Hb & _ & H2). rewrite (bind_Ok _ _ _ _ _ (load_run _ _ _ Hb)). cbn [cmp].
      destruct (a =? b); [apply IH; [done..|lia]|done].
Qed.

(** [strcmp] is 0 on equal strings only. *)
Lemma strcmp_correct m p q l1 l2 : 0 <= p -> cstr m p l1 -> cstr m q l2 ->
  exists r, strcmp p q m = Ok r m /\ r = cmp l1 l2 /\ (r = 0 <-> l1 = l2).
Proof.
  intros Hp H1 H2. exists (cmp l1 l2). split_and!; [|done|].
  - unfold strcmp. apply strcmp_loop_run; [done..|]. pose proof (cstr_size _ _ _ Hp H1). unfold msize in *. lia.
  - destruct H1 as [H1 _], H2 as [H2 _].
    assert (Hn1 : Forall (fun c => c <> 0) l1) by (apply Forall_lookup; intros i c Hi; by apply (H1 i)).
    assert (Hn2 : Forall (fun c => c <> 0) l2) by (apply Forall_lookup; intros i c Hi; by apply (H2 i)).
    clear H1 H2. revert l2 Hn2. induction l1 as [|a l1 IH]; intros [|b l2] Hn2; cbn; [done|..].
    + apply Forall_cons in Hn2 as [? _]. split; [lia|done].
    + apply Forall_cons in Hn1 as [? _]. split; [lia|done].
    + apply Forall_cons in Hn1 as [? Hn1], Hn2 as [? Hn2]. destruct (Z.eqb_spec a b) as [->|].
      * rewrite (IH Hn1 l2 Hn2). split; [by intros ->|by intros [=]].
      * split; [lia|]. by intros [=].
Qed.

Lemma strcpy_loop_run l : forall m s t fuel, bytes m -> 0 <= s -> s + Z.of_nat (S (length l)) <= msize m ->
  cstr m t l -> (t + Z.of_nat (length l) < s \/ s + Z.of_nat (S (length l)) <= t) -> (length l < fuel)%nat ->
  exists m', strcpy_loop fuel s t m = Ok tt m' /\ untouched m m' s (Z.of_nat (S (length l))) /\ cstr m' s l.
Proof.
  induction l as [|x l IH]; intros m s t [|fuel] Hb Hs Hn Ht Hd Hf; cbn [length] in *; try lia; cbn [strcpy_loop].
  - rewrite (bind_Ok _ _ _ _ _ (load_run _ _ _ (cstr_nil _ _ Ht))).
    destruct (store_run m s 0) as (m1 & R1 & L1 & H1); [lia|]. rewrite (bind_Ok _ _ _ _ _ R1). exists m1.
    split_and!; [done| |].
    + split; [done|]. intros a Ha. rewrite H1. range_case.
    + split; [done|]. cbn. rewrite Z.add_0_r, H1. range_case.
  - destruct (cstr_cons _ _ _ _ Ht) as (Hx & Hx0 & Ht').
    rewrite (bind_Ok _ _ _ _ _ (load_run _ _ _ Hx)).
    destruct (store_run m s x) as (m1 & R1 & L1 & H1); [lia|]. rewrite (bind_Ok _ _ _ _ _ R1).
    rewrite u8_byte in H1 by (by eapply Hb). rewrite (proj2 (Z.eqb_neq _ _)) by done.
    destruct (IH m1 (s + 1) (t + 1) fuel) as (m2 & R2 & [L2 H2] & Hc); [|lia|lia| |lia|lia|].
    + intros a v. rewrite H1. destruct (a =? s); [intros [= <-]; by eapply Hb|apply Hb].
    + eapply (untouched_cstr m m1 s 1); [|done|lia]. split; [done|].
      intros a Ha. rewrite H1. range_case.
    + exists m2. split_and!; [done| |].
      * split; [congruence|]. intros a Ha. rewrite H2 by lia. rewrite H1. range_case.
      * apply cstr_intro; [|done|done]. rewrite H2 by lia. rewrite H1. range_case.
Qed.

(** The copy of [memmove] is right when the destination lies below the source; above
    it, inside the range, the source is overwritten first. *)
Example memmove_overlap : memmove 1 0 2 [1; 2; 3] = Ok 1 [1; 1; 1].
Proof. reflexivity. Qed.

(** ** [gets] *)

(** The line that fits into [n] bytes, with its terminator. *)
Fixpoint line_of (n : nat) (l : list Z) : list Z :=
  match n, l with
  | S n', c :: l' => c :: (if (c =? NL) || (c =? CR) then [] else line_of n' l')
  | _, _ => []
  end.

Lemma line_of_length n : forall l, (length (line_of n l) <= n)%nat.
Proof.
  induction n as [|n IH]; intros [|c l]; cbn [line_of length]; try lia.
  specialize (IH l). destruct ((c =? NL) || (c =? CR)); cbn [length]; lia.
Qed.
Lemma line_of_elem n : forall l v, v ∈ line_of n l -> v ∈ l.
Proof.
  induction n as [|n IH]; intros [|c l] v; cbn [line_of]; try set_solver.
  intros [->|Hi]%elem_of_cons; [left|right]. destruct ((c =? NL) || (c =? CR)); [set_solver|auto].
Qed.

Lemma gets_loop_run l : forall fuel m buf max i,
  Forall (fun c => 0 <= c < 256) l -> 0 <= buf -> 0 <= i < max -> buf + max <= msize m -> max - i < Z.of_nat fuel ->
  exists m', gets_loop fuel buf max i (mkUio m l) =
      Ok (i + Z.of_nat (length (line_of (Z.to_nat (max - i - 1)) l)))
         (mkUio m' (drop (length (line_of (Z.to_nat (max - i - 1)) l)) l)) /\
    msize m' = msize m /\
    (forall k c, line_of (Z.to_nat (max - i - 1)) l !! k = Some c -> rd m' (buf + i + Z.of_nat k) = Some c) /\
    (forall a, a < buf + i \/ buf + max <= a -> rd m' a = rd m a).
Proof.
  induction l as [|c l IH]; intros [|fuel] m buf max i Hl Hb Hi Hm Hf; cbn [gets_loop]; try lia.
  - destruct (Z.ltb_spec (i + 1) max).
    + exists m. unfold read1. mstep. cbn. destruct (Z.to_nat (max - i - 1)); cbn; rewrite Z.add_0_r; split_and!; done.
    + exists m. replace (Z.to_nat (max - i - 1)) with 0%nat by lia. cbn. rewrite Z.add_0_r. split_and!; done.
  - destruct (Z.ltb_spec (i + 1) max).
    + replace (Z.to_nat (max - i - 1)) with (S (Z.to_nat (max - (i + 1) - 1))) by lia.
      apply Forall_cons in Hl as [Hc Hl]. unfold read1. mstep. cbn [io_in]. mstep. cbn [fst snd Z.ltb]. cbv zeta.
      change (1 <? 1) with false. cbn [line_of].
      destruct (store_run m (buf + i) c) as (m1 & R1 & L1 & H1); [lia|]. rewrite u8_byte in H1 by done.
      assert (Hz : zoom io_mem (store (buf + i) c) ((mkUio m (c :: l)) <| io_in := l |>) = Ok tt (mkUio m1 l)).
      { unfold zoom. proj_upd. cbn [io_mem]. by rewrite R1. }
      rewrite (bind_Ok _ _ _ _ _ Hz). destruct ((c =? NL) || (c =? CR)).
      * exists m1. split_and!; [done|lia| |].
        -- intros [|k] e; cbn; [intros [= <-]|done]. rewrite Z.add_0_r, H1. range_case.
        -- intros a Ha. rewrite H1. range_case.
      * destruct (IH fuel m1 buf max (i + 1)) as (m2 & R2 & L2 & Hin & Hout); [done|lia..|].
        exists m2. rewrite R2. cbn [length drop]. split_and!; [f_equal; lia|lia| |].
        -- intros [|k] e; cbn [lookup]; [intros [= <-]|].
           ++ rewrite Hout by lia. rewrite H1. range_case.
           ++ intros Hk. rewrite <- (Hin k e Hk). f_equal. lia.
        -- intros a Ha. rewrite Hout by lia. rewrite H1. range_case.
    + exists m. replace (Z.to_nat (max - i - 1)) with 0%nat by lia. cbn. rewrite Z.add_0_r. split_and!; done.
Qed.

(** [gets] stores the first line of the input, as far as [max - 1] bytes hold
    it, ended by a 0, writes nothing outside its buffer and leaves the rest of
    the input. *)
Lemma gets_correct m l buf max : Forall (fun c => 0 < c < 256) l -> 0 <= buf -> 0 < max -> buf + max <= msize m ->
  let line := line_of (Z.to_nat (max - 1)) l in
  exists m', gets buf max (mkUio m l) = Ok buf (mkUio m' (drop (length line) l)) /\
    cstr m' buf line /\ untouched m m' buf max.
Proof.
  intros Hl Hb Hm Hsz line. unfold gets.
  assert (Hl' : Forall (fun c => 0 <= c < 256) l) by (eapply Forall_impl; [exact Hl|]; cbn; lia).
  destruct (gets_loop_run l (S (Z.to_nat max)) m buf max 0) as (m1 & R1 & L1 & Hin & Hout); [done|lia..|].
  rewrite Z.sub_0_r in R1, Hin. fold line in R1, Hin.
  assert (Hlen : Z.of_nat (length line) <= max - 1).
  { unfold line. pose proof (line_of_length (Z.to_nat (max - 1)) l). lia. }
  rewrite (bind_Ok _ _ _ _ _ R1). rewrite Z.add_0_l.
  destruct (store_run m1 (buf + Z.of_nat (length line)) 0) as (m2 & R2 & L2 & H2); [lia|].
  assert (Hz : zoom io_mem (store (buf + Z.of_nat (length line)) 0) (mkUio m1 (drop (length line) l)) =
               Ok tt (mkUio m2 (drop (length line) l))).
  { unfold zoom. cbn [io_mem]. by rewrite R2. }
  rewrite (bind_Ok _ _ _ _ _ Hz). exists m2. split_and!; [done| |].
  - split.
    + intros i v Hi. pose proof (lookup_lt_Some _ _ _ Hi). rewrite H2.
      replace (buf + Z.of_nat i =? buf + Z.of_nat (length line)) with false by lia.
      pose proof (Hin i v Hi) as Hv. rewrite Z.add_0_r in Hv. split; [done|].
      assert (Hv' : v ∈ l) by (eapply line_of_elem, list_elem_of_lookup_2, Hi).
      rewrite Forall_forall in Hl. specialize (Hl v Hv'). lia.
    + rewrite H2. range_case.
  - split; [lia|]. intros a Ha. rewrite H2, Hout by lia. range_case.
Qed.
End Ulib.
