(* ===== verification/Console.v ===== *)
(** * The console (xv6-public/console.c)

    Output to the screen and the serial port, and the line discipline of the
    input: a ring of 128 bytes in which [r .. w] are the bytes a reader may take
    and [w .. e] the line that is still edited.  The cursor stays on the screen;
    the interrupt handler and [consoleread] implement an editor on two lists. *)

From S2P Require Import Prelude Ulib.

Module Console.

Record console := mkConsole {
  c_panicked : bool;
  c_uart : option (list Z);   (* the bytes sent to the serial port, if there is one *)
  c_crt : list Z;       (* the cells of the screen, 80 * 25 *)
  c_hi : Z; c_lo : Z;   (* registers 14 and 15 of the CRT port: the cursor *)
  c_buf : list Z;       (* input.buf *)
  c_r : Z; c_w : Z; c_e : Z
}.
#[export] Instance eta_console : Eta console := fun x =>
  mkConsole (c_panicked x) (c_uart x) (c_crt x) (c_hi x) (c_lo x) (c_buf x) (c_r x) (c_w x) (c_e x).
#[export] Instance set_c_panicked : Setter c_panicked.
Proof. build_setter. Defined.
#[export] Instance set_c_uart : Setter c_uart.
Proof. build_setter. Defined.
#[export] Instance set_c_crt : Setter c_crt.
Proof. build_setter. Defined.
#[export] Instance set_c_hi : Setter c_hi.
Proof. build_setter. Defined.
#[export] Instance set_c_lo : Setter c_lo.
Proof. build_setter. Defined.
#[export] Instance set_c_buf : Setter c_buf.
Proof. build_setter. Defined.
#[export] Instance set_c_r : Setter c_r.
Proof. build_setter. Defined.
#[export] Instance set_c_w : Setter c_w.
Proof. build_setter. Defined.
#[export] Instance set_c_e : Setter c_e.
Proof. build_setter. Defined.

Abbreviation BACKSPACE := 256 (only parsing).
Definition INPUT_BUF : Z := 128.
Abbreviation NEWLINE := 10 (only parsing).
(** [C(x)]: the letter with the control key. *)
Definition C (x : Z) : Z := x - 64.
Abbreviation CTRL_D := (C 68) (only parsing).
Abbreviation CTRL_H := (C 72) (only parsing).
Abbreviation CTRL_P := (C 80) (only parsing).
Abbreviation CTRL_U := (C 85) (only parsing).
Abbreviation text_panic := [108;97;112;105;99;105;100;32;37;100;58;32;112;97;110;105;99;58;32] (only parsing).
Abbreviation text_pc := [32; 37; 112] (only parsing).
Abbreviation DEL := 127 (only parsing).

(** ** Output *)

Definition crt_set (i v : Z) : M console unit :=
  l <- gets c_crt ;;
  match zlookup l i with
  | Some _ => modify (fun s => s <| c_crt := <[Z.to_nat i := v]> l |>)
  | None => fault
  end.
(** [memmove(crt, crt+80, ...)] and [memset(crt+pos, 0, ...)]. *)
Definition scroll (pos : Z) (l : list Z) : list Z :=
  let l := take (23 * 80) (drop 80 l) ++ drop (23 * 80) l in
  take (Z.to_nat pos) l ++ replicate (Z.to_nat (24 * 80 - pos)) 0 ++ drop (24 * 80) l.

(** The character is put at the cursor; the position after it. *)
Definition cga_place (c : Z) : M console Z :=
  hi <- gets c_hi ;;
  lo <- gets c_lo ;;
  let pos := Z.lor (Z.shiftl hi 8) lo in
  if c =? NEWLINE then ret (pos + (80 - pos mod 80))
  else if c =? BACKSPACE then ret (if 0 <? pos then pos - 1 else pos)
  else crt_set pos (Z.lor (Z.land c 255) 1792) ;; ret (pos + 1).
(** The screen scrolls when its last row is reached, and the cursor is shown. *)
Definition cga_show (pos : Z) : M console unit :=
  if (pos <? 0) || (25 * 80 <? pos) then panic "pos under/overflow" else
  pos <- (if 24 <=? pos / 80 then
            modify (fun s => s <| c_crt ::= scroll (pos - 80) |>) ;; ret (pos - 80)
          else ret pos) ;;
  modify (fun s => s <| c_hi := u8 (Z.shiftr pos 8) |>) ;;
  modify (fun s => s <| c_lo := u8 pos |>) ;;
  crt_set pos (Z.lor 32 1792).
Definition cgaputc (c : Z) : M console unit := pos <- cga_place c ;; cga_show pos.

(** [uart] tells whether there is a port; the bounded wait for it to be ready takes time
    only. *)
Definition uartputc (c : Z) : M console unit :=
  u <- gets c_uart ;;
  match u with
  | None => ret tt
  | Some sent => modify (fun s => s <| c_uart := Some (sent ++ [u8 c]) |>)
  end.

Definition consputc (c : Z) : M console unit :=
  p <- gets c_panicked ;;
  if (p : bool) then spin else
  (if c =? BACKSPACE then uartputc 8 ;; uartputc 32 ;; uartputc 8 else uartputc c) ;;
  cgaputc c.

Definition printint : Z -> Z -> bool -> M console unit := Ulib.printint_with consputc Ulib.digits_lower.

(** The strings that the arguments point to. *)
Section cprintf.
Variable str : Z -> option (list Z).

Definition carg (ap : list Z) : M console (Z * list Z) :=
  match ap with a :: ap' => ret (a, ap') | [] => fault end.
Definition consputs (a : Z) : M console unit :=
  if a =? 0 then forM Ulib.null_text consputc else s <- deref (str a) ;; forM s consputc.

Fixpoint cprintf_loop (fmt ap : list Z) : M console unit :=
  match fmt with
  | [] => ret tt
  | c :: fmt' =>
      if negb (c =? 37) then consputc c ;; cprintf_loop fmt' ap else
      match fmt' with
      | [] => ret tt
      | d :: fmt'' =>
          if d =? 100 then
            a <- carg ap ;; printint (i32 a.1) 10 true ;; cprintf_loop fmt'' a.2
          else if (d =? 120) || (d =? 112) then
            a <- carg ap ;; printint (i32 a.1) 16 false ;; cprintf_loop fmt'' a.2
          else if d =? 115 then
            a <- carg ap ;; consputs a.1 ;; cprintf_loop fmt'' a.2
          else if d =? 37 then consputc 37 ;; cprintf_loop fmt'' ap
          else consputc 37 ;; consputc d ;; cprintf_loop fmt'' ap
      end
  end.
Definition cprintf (fmt : option (list Z)) (ap : list Z) : M console unit :=
  match fmt with
  | None => panic "null fmt"
  | Some fmt => cprintf_loop fmt ap
  end.

(** [panic] up to its endless loop: the message, ten return addresses, and the flag that
    stops the other CPUs. *)
Definition panic_print (lapicid : Z) (s pcs : list Z) : M console unit :=
  cprintf (Some text_panic) [lapicid] ;;
  cprintf (Some s) [] ;;
  cprintf (Some [NEWLINE]) [] ;;
  forM pcs (fun pc => cprintf (Some text_pc) [pc]) ;;
  modify (fun c => c <| c_panicked := true |>).
End cprintf.

(** ** Input *)

(** The console in the state of the kernel, with the routines of other files it calls. *)
Section input.
Context {S : Type} (cons : S -> console) `{!Setter cons}.
Context (wakeup procdump ilock iunlock : M S unit) (killed : M S bool).

Definition buf_at (i : Z) : M console Z := l <- gets c_buf ;; deref (zlookup l (i mod INPUT_BUF)).
Definition erase : M console unit := modify (fun s => s <| c_e := u32 (c_e s - 1) |>) ;; consputc BACKSPACE.

(** The loop of control-U; the ring has 128 bytes. *)
Fixpoint kill_line (fuel : nat) : M console unit :=
  match fuel with
  | O => spin
  | Datatypes.S fuel' =>
      e <- gets c_e ;; w <- gets c_w ;;
      if e =? w then ret tt else
      b <- buf_at (u32 (e - 1)) ;;
      if b =? NEWLINE then ret tt else erase ;; kill_line fuel'
  end.

(** One character of the interrupt; [true] asks for the listing of processes. *)
Definition intr_char (c : Z) : M S bool :=
  if c =? CTRL_P then ret true
  else if c =? CTRL_U then zoom cons (kill_line 129) ;; ret false
  else if (c =? CTRL_H) || (c =? DEL) then
    e <- gets (fun s => c_e (cons s)) ;; w <- gets (fun s => c_w (cons s)) ;;
    when (negb (e =? w)) (zoom cons erase) ;; ret false
  else
    e <- gets (fun s => c_e (cons s)) ;; r <- gets (fun s => c_r (cons s)) ;;
    if negb (c =? 0) && (u32 (e - r) <? INPUT_BUF) then
      let c := if c =? 13 then NEWLINE else c in
      zoom cons (modify (fun s => s <| c_buf ::= <[Z.to_nat (e mod INPUT_BUF) := u8 c]> |>)) ;;
      zoom cons (modify (fun s => s <| c_e := u32 (e + 1) |>)) ;;
      zoom cons (consputc c) ;;
      e <- gets (fun s => c_e (cons s)) ;;
      when ((c =? NEWLINE) || (c =? CTRL_D) || (e =? u32 (r + INPUT_BUF)))
        (zoom cons (modify (fun s => s <| c_w := e |>)) ;; wakeup) ;;
      ret false
    else ret false.

(** The characters that [getc] gives until it is negative. *)
Fixpoint intr_loop (cs : list Z) (dump : bool) : M S bool :=
  match cs with
  | [] => ret dump
  | c :: cs' => d <- intr_char c ;; intr_loop cs' (dump || d)
  end.
Definition consoleintr (cs : list Z) : M S unit :=
  d <- intr_loop cs false ;;
  when d procdump.

(** The loop of [consoleread] with [n] bytes to go: the bytes stored, and what is left
    of [n], or nothing when the process was killed. *)
Fixpoint read_loop (fuel : nat) (target n : Z) (dst : list Z) : M S (option Z * list Z) :=
  match fuel with
  | O => spin
  | Datatypes.S fuel' =>
      if 0 <? n then
        r <- gets (fun s => c_r (cons s)) ;; w <- gets (fun s => c_w (cons s)) ;;
        if r =? w then
          k <- killed ;;
          if (k : bool) then ret (None, dst) else sleepon ChInput
        else
          c <- zoom cons (buf_at r) ;;
          zoom cons (modify (fun s => s <| c_r := u32 (r + 1) |>)) ;;
          if c =? CTRL_D then
            when (n <? target) (zoom cons (modify (fun s => s <| c_r := u32 (c_r s - 1) |>))) ;;
            ret (Some n, dst)
          else if c =? NEWLINE then ret (Some (n - 1), dst ++ [c])
          else read_loop fuel' target (n - 1) (dst ++ [c])
      else ret (Some n, dst)
  end.
(** The result with the bytes stored at [dst]. *)
Definition consoleread (n : Z) : M S (Z * list Z) :=
  iunlock ;;
  x <- read_loop (Datatypes.S (Z.to_nat n)) n n [] ;;
  ilock ;;
  match x with
  | (None, dst) => ret (-1, dst)
  | (Some n', dst) => ret (n - n', dst)
  end.

Definition consolewrite (buf : list Z) : M S Z :=
  iunlock ;;
  zoom cons (forM buf consputc) ;;
  ilock ;;
  ret (Z.of_nat (length buf)).
End input.

(** ** The screen *)

Definition cursor (c : console) : Z := 256 * c_hi c + c_lo c.
Definition screen_ok (c : console) : Prop :=
  c_panicked c = false /\ length (c_crt c) = 2000%nat /\
  0 <= c_hi c < 256 /\ 0 <= c_lo c < 256 /\ cursor c < 25 * 80.
(** The part of the state that belongs to the input. *)
Definition input_of (c : console) : list Z * Z * Z * Z := (c_buf c, c_r c, c_w c, c_e c).

Lemma cursor_lor hi lo : 0 <= lo < 256 -> Z.lor (Z.shiftl hi 8) lo = 256 * hi + lo.
Proof.
  intros H. rewrite Z.shiftl_mul_pow2 by lia. rewrite (lor_aligned 8) by (lia || apply Z_mod_mult). lia.
Qed.

Lemma u8_range x : 0 <= u8 x < 256.
Proof. apply Z.mod_pos_bound. lia. Qed.

Lemma crt_set_run i v c : length (c_crt c) = 2000%nat -> 0 <= i < 2000 ->
  crt_set i v c = Ok tt (c <| c_crt := <[Z.to_nat i := v]> (c_crt c) |>).
Proof.
  intros Hl Hi. unfold crt_set. mstep. unfold zlookup. destruct (Z.ltb_spec i 0); [lia|].
  destruct (c_crt c !! Z.to_nat i) eqn:E; [done|]. apply lookup_ge_None in E. lia.
Qed.

Lemma scroll_length pos l : length l = 2000%nat -> 0 <= pos <= 1920 -> length (scroll pos l) = 2000%nat.
Proof.
  intros Hl Hp. unfold scroll. rewrite !length_app, length_replicate, length_drop, length_take, !length_app,
    !length_take, !length_drop, Hl. lia.
Qed.

(** What a step on the output leaves: the screen in order and the input as it was. *)
Definition outputs (m : M console unit) : Prop := forall c, screen_ok c ->
  exists c', m c = Ok tt c' /\ screen_ok c' /\ input_of c' = input_of c.

Lemma cga_place_ok ch c : screen_ok c ->
  exists pos c', cga_place ch c = Ok pos c' /\ 0 <= pos <= 25 * 80 /\ input_of c' = input_of c /\
    c_panicked c' = false /\ length (c_crt c') = 2000%nat.
Proof.
  intros (Hp & Hl & Hh & Hlo & Hc). unfold cga_place. mstep. rewrite cursor_lor by lia. fold (cursor c). cbv zeta.
  assert (Hc0 : 0 <= cursor c) by (unfold cursor; lia).
  destruct (ch =? NEWLINE); [|destruct (ch =? BACKSPACE)].
  - eexists _, c. split; [reflexivity|]. split; [|done]. Z.div_mod_to_equations. lia.
  - eexists _, c. split; [reflexivity|]. split; [|done]. destruct (Z.ltb_spec 0 (cursor c)); lia.
  - rewrite (bind_Ok _ _ _ _ _ (crt_set_run (cursor c) _ c Hl ltac:(lia))). eexists _, _. split; [reflexivity|].
    split; [lia|]. split; [done|]. split; [done|]. proj_upd. by rewrite length_insert.
Qed.

Lemma cga_show_ok pos c : 0 <= pos <= 25 * 80 -> c_panicked c = false -> length (c_crt c) = 2000%nat ->
  exists c', cga_show pos c = Ok tt c' /\ screen_ok c' /\ input_of c' = input_of c.
Proof.
  intros Hp Hpan Hl. unfold cga_show.
  replace ((pos <? 0) || (25 * 80 <? pos)) with false by lia.
  assert (Hfin : forall q d, 0 <= q < 25 * 80 -> c_panicked d = false -> length (c_crt d) = 2000%nat ->
    exists c', bind (modify (fun s => s <| c_hi := u8 (Z.shiftr q 8) |>))
      (fun _ => modify (fun s => s <| c_lo := u8 q |>) ;; crt_set q (Z.lor 32 1792)) d = Ok tt c' /\
      screen_ok c' /\ input_of c' = input_of d).
  { intros q d Hq Hd Hld. mstep. rewrite crt_set_run by (done || lia). eexists. split; [reflexivity|].
    split; [|done]. split_and!; unfold cursor; proj_upd; try done.
    - by rewrite length_insert.
    - apply u8_range.
    - apply u8_range.
    - apply u8_range.
    - apply u8_range.
    - rewrite Z.shiftr_div_pow2 by lia. change (2 ^ 8) with 256. unfold u8. Z.div_mod_to_equations. lia. }
  destruct (Z.leb_spec 24 (pos / 80)) as [Hs|Hs].
  - mstep. assert (1920 <= pos) by (Z.div_mod_to_equations; lia).
    destruct (Hfin (pos - 80) (c <| c_crt ::= scroll (pos - 80) |>)) as (c' & Hr & Hok & Hi);
      [lia|done|proj_upd; apply scroll_length; [done|lia]|].
    exists c'. done.
  - mstep. assert (pos < 1920) by (Z.div_mod_to_equations; lia). apply Hfin; [lia|done..].
Qed.

Lemma uartputc_ok ch c : screen_ok c -> exists c', uartputc ch c = Ok tt c' /\ screen_ok c' /\ input_of c' = input_of c.
Proof. intros Hok. unfold uartputc. mstep. destruct (c_uart c); by eexists. Qed.
Lemma cgaputc_ok ch c : screen_ok c -> exists c', cgaputc ch c = Ok tt c' /\ screen_ok c' /\ input_of c' = input_of c.
Proof.
  intros Hd. unfold cgaputc. destruct (cga_place_ok ch c Hd) as (pos & d' & Hr & Hp & Hi & Hpan & Hl).
  rewrite (bind_Ok _ _ _ _ _ Hr), <- Hi. by apply cga_show_ok.
Qed.

Lemma outputs_bind (m k : M console unit) : outputs m -> outputs k -> outputs (m ;; k).
Proof.
  intros Hm Hk c Hc. destruct (Hm c Hc) as (c1 & E1 & Hc1 & Hi1). rewrite (bind_Ok _ _ _ _ _ E1), <- Hi1.
  by apply Hk.
Qed.
Lemma consputc_ok ch : outputs (consputc ch).
Proof.
  intros c Hok. unfold consputc. mstep. rewrite (proj1 Hok). revert c Hok.
  change (outputs ((if ch =? BACKSPACE then uartputc 8 ;; uartputc 32 ;; uartputc 8 else uartputc ch) ;; cgaputc ch)).
  apply outputs_bind; [|exact (cgaputc_ok ch)].
  destruct (ch =? BACKSPACE); repeat apply outputs_bind; exact (uartputc_ok _).
Qed.

(** ** [cprintf] *)

Lemma outputs_ret : outputs (ret tt).
Proof. intros c Hc. by exists c. Qed.
Lemma outputs_puts l : outputs (forM l consputc).
Proof. induction l; [apply outputs_ret|]. apply outputs_bind; [apply consputc_ok|done]. Qed.

Lemma printint_outputs xx base sgn : base = 10 \/ base = 16 -> outputs (printint xx base sgn).
Proof.
  intros Hb c Hc. unfold printint, Ulib.printint_with. cbv zeta.
  set (x := if sgn && (xx <? 0) then u32 (- xx) else u32 xx).
  assert (Hx : 0 <= x < 2 ^ 32) by (unfold x; destruct (sgn && (xx <? 0)); apply u32_range).
  destruct (Ulib.digit_loop_run Ulib.digits_lower base eq_refl ltac:(lia) 9 32 x [] c)
    as (ds & E & _ & _ & Hl & _); [lia|cbn; lia| |].
  { destruct Hb as [->| ->]; change (Z.of_nat 9 + 1) with 10; lia. }
  rewrite (bind_Ok _ _ _ _ _ E). destruct (sgn && (xx <? 0)).
  - unfold Ulib.push. cbn [app]. rewrite length_map. destruct (Nat.ltb_spec (length ds) 16); [|lia]. mstep.
    by apply outputs_puts.
  - mstep. by apply outputs_puts.
Qed.

Section cprintf_safe.
Variable str : Z -> option (list Z).

(** The arguments that the format asks for are there. *)
Fixpoint fits (fmt ap : list Z) : bool :=
  match fmt with
  | [] => true
  | c :: fmt' =>
      if negb (c =? 37) then fits fmt' ap else
      match fmt' with
      | [] => true
      | d :: fmt'' =>
          if (d =? 100) || (d =? 120) || (d =? 112) then
            match ap with _ :: ap' => fits fmt'' ap' | [] => false end
          else if d =? 115 then
            match ap with
            | a :: ap' => ((a =? 0) || match str a with Some _ => true | None => false end) && fits fmt'' ap'
            | [] => false
            end
          else fits fmt'' ap
      end
  end.

(** [cprintf] with the arguments that its format asks for prints and keeps the cursor on the
    screen. *)
Lemma cprintf_safe fmt ap : fits fmt ap = true -> outputs (cprintf str (Some fmt) ap).
Proof.
  unfold cprintf. revert ap. induction fmt as [fmt IH] using (well_founded_induction (well_founded_ltof _ length)).
  unfold ltof in IH. intros ap. destruct fmt as [|c fmt]; cbn [fits cprintf_loop]; [intros; apply outputs_ret|].
  destruct (c =? 37); cbn [negb]; [|intros H; apply outputs_bind; [apply consputc_ok|apply IH; [cbn; lia|done]]].
  destruct fmt as [|d fmt]; [intros; apply outputs_ret|].
  assert (Hrest : forall ap, fits fmt ap = true -> outputs (cprintf_loop str fmt ap)) by (apply IH; cbn; lia).
  destruct (d =? 100); cbn [orb]; [|destruct ((d =? 120) || (d =? 112)) eqn:E].
  - destruct ap as [|a ap]; [done|]. intros H c0 Hc0. unfold carg. mstep.
    apply outputs_bind; [apply printint_outputs; by left|by apply Hrest|done].
  - destruct ap as [|a ap]; [done|]. intros H c0 Hc0. unfold carg. mstep.
    apply outputs_bind; [apply printint_outputs; by right|by apply Hrest|done].
  - destruct (d =? 115).
    + destruct ap as [|a ap]; [done|]. intros [Ha H]%andb_true_iff c0 Hc0. unfold carg. mstep.
      apply outputs_bind; [|by apply Hrest|done]. unfold consputs. cbn [fst]. destruct (a =? 0); [apply outputs_puts|].
      destruct (str a) as [t|]; [|done]. intros c1 Hc1. mstep. by apply outputs_puts.
    + intros H. destruct (d =? 37); repeat (apply outputs_bind; [apply consputc_ok|]); by apply Hrest.
Qed.

Lemma cprintf_outputs fmt ap c : fits fmt ap = true -> screen_ok c -> exists c',
  cprintf str (Some fmt) ap c = Ok tt c' /\ screen_ok c'.
Proof. intros Hf Hc. destruct (cprintf_safe fmt ap Hf c Hc) as (c' & E & Hok & _). by exists c'. Qed.

(** A panic with a message that takes no arguments prints it, and from then on whatever a CPU
    wants to print stops that CPU. *)
Lemma panic_freezes id s pcs c : fits s [] = true -> screen_ok c -> exists c',
  panic_print str id s pcs c = Ok tt c' /\ forall ch, consputc ch c' = Spin.
Proof.
  intros Hs Hc. unfold panic_print.
  destruct (cprintf_outputs text_panic [id] c eq_refl Hc) as (c1 & E1 & Hc1). rewrite (bind_Ok _ _ _ _ _ E1).
  destruct (cprintf_outputs s [] c1 Hs Hc1) as (c2 & E2 & Hc2). rewrite (bind_Ok _ _ _ _ _ E2).
  destruct (cprintf_outputs [NEWLINE] [] c2 eq_refl Hc2) as (c3 & E3 & Hc3). rewrite (bind_Ok _ _ _ _ _ E3).
  assert (Hp : exists c4, forM pcs (fun pc => cprintf str (Some text_pc) [pc]) c3 = Ok tt c4).
  { clear -Hc3. revert c3 Hc3. induction pcs as [|pc pcs IH]; intros c Hc; [by exists c|].
    destruct (cprintf_outputs text_pc [pc] c eq_refl Hc) as (c' & E & Hc').
    cbn [forM]. rewrite (bind_Ok _ _ _ _ _ E). by apply IH. }
  destruct Hp as (c4 & E4). rewrite (bind_Ok _ _ _ _ _ E4). eexists. by split.
Qed.
End cprintf_safe.

(** ** The ring *)

Definition zlen (l : list Z) : Z := Z.of_nat (length l).

(** The ring holds the bytes [ready], then the bytes [edit]. *)
Definition ring (b : list Z) (r w e : Z) (ready edit : list Z) : Prop :=
  length b = 128%nat /\ 0 <= r < 2 ^ 32 /\ w = u32 (r + zlen ready) /\ e = u32 (r + zlen ready + zlen edit) /\
  zlen ready + zlen edit <= INPUT_BUF /\
  forall i x, (ready ++ edit) !! i = Some x -> zlookup b ((r + Z.of_nat i) mod INPUT_BUF) = Some x.

Lemma u32_mod_ring x : u32 x mod INPUT_BUF = x mod INPUT_BUF.
Proof. unfold u32, INPUT_BUF. apply Z.mod_mod_divide. by exists (2 ^ 25). Qed.

Lemma ring_slot i j r : 0 <= i < INPUT_BUF -> 0 <= j < INPUT_BUF -> (r + i) mod INPUT_BUF = (r + j) mod INPUT_BUF -> i = j.
Proof. unfold INPUT_BUF. intros Hi Hj H. Z.div_mod_to_equations. lia. Qed.

Lemma zlen_app l1 l2 : zlen (l1 ++ l2) = zlen l1 + zlen l2.
Proof. unfold zlen. rewrite length_app. lia. Qed.

Section ring.
Context (b : list Z) (r w e : Z) (ready edit : list Z).
Hypothesis H : ring b r w e ready edit.

Lemma ring_edit_empty : (e =? w) = true <-> edit = [].
Proof.
  destruct H as (Hb & Hr & -> & -> & Hl & Hx). unfold INPUT_BUF in *. rewrite Z.eqb_eq. split.
  - intros He%u32_eq_near; [|unfold zlen in *; lia]. destruct edit; [done|]. unfold zlen in He. cbn in He. lia.
  - intros ->. f_equal. unfold zlen. cbn. lia.
Qed.

Lemma ring_ready_empty : (r =? w) = true <-> ready = [].
Proof.
  destruct H as (Hb & Hr & -> & -> & Hl & Hx). unfold INPUT_BUF in *. rewrite Z.eqb_eq.
  rewrite <- (u32_small r Hr) at 1. split.
  - intros He%u32_eq_near; [|unfold zlen in *; lia]. destruct ready; [done|]. unfold zlen in He. cbn in He. lia.
  - intros ->. f_equal. unfold zlen. cbn. lia.
Qed.

Lemma ring_used : u32 (e - r) = zlen ready + zlen edit.
Proof.
  destruct H as (Hb & Hr & -> & -> & Hl & Hx). unfold INPUT_BUF in *.
  rewrite <- (u32_small r Hr) at 2. rewrite u32_sub. rewrite u32_small; unfold zlen in *; lia.
Qed.

Lemma ring_commit : ring b r e e (ready ++ edit) [].
Proof.
  destruct H as (Hb & Hr & -> & -> & Hl & Hx). split_and!; try done; try lia.
  - f_equal. rewrite zlen_app. lia.
  - f_equal. rewrite zlen_app. unfold zlen. cbn. lia.
  - rewrite zlen_app. unfold zlen in *. cbn. lia.
  - by rewrite app_nil_r.
Qed.

Lemma ring_push c : zlen ready + zlen edit < INPUT_BUF ->
  ring (<[Z.to_nat (e mod INPUT_BUF) := c]> b) r w (u32 (e + 1)) ready (edit ++ [c]).
Proof.
  intros Hlt. destruct H as (Hb & Hr & -> & -> & Hl & Hx). split_and!; try done; try lia.
  - by rewrite length_insert.
  - rewrite u32_add_l, zlen_app. f_equal. unfold zlen. cbn. lia.
  - rewrite zlen_app. unfold zlen in *. cbn. lia.
  - intros i x. rewrite app_assoc, u32_mod_ring. rewrite lookup_snoc_Some.
    pose proof (Z.mod_pos_bound (r + Z.of_nat i) INPUT_BUF ltac:(done)).
    pose proof (Z.mod_pos_bound (r + zlen ready + zlen edit) INPUT_BUF ltac:(done)). unfold INPUT_BUF in *.
    unfold zlookup. destruct (Z.ltb_spec ((r + Z.of_nat i) mod 128) 0); [lia|].
    intros [[Hi Hxi]|[-> ->]].
    + rewrite list_lookup_insert_ne.
      * specialize (Hx i x Hxi). unfold zlookup in Hx. destruct (Z.ltb_spec ((r + Z.of_nat i) mod 128) 0); [lia|done].
      * rewrite length_app in Hi. intros Heq%Z2Nat.inj; [|lia..]. rewrite <- Z.add_assoc in Heq.
        apply (ring_slot _ _ r) in Heq; unfold INPUT_BUF, zlen in *; lia.
    + rewrite length_app, Nat2Z.inj_add. fold (zlen ready) (zlen edit). rewrite Z.add_assoc.
      rewrite list_lookup_insert_eq; [done|lia].
Qed.
End ring.

Lemma ring_erase b r w e ready edit x : ring b r w e ready (edit ++ [x]) ->
  zlookup b (u32 (e - 1) mod INPUT_BUF) = Some x /\ ring b r w (u32 (e - 1)) ready edit.
Proof.
  intros (Hb & Hr & -> & -> & Hl & Hx). rewrite zlen_app in *. change (zlen [x]) with 1 in *.
  assert (He : u32 (u32 (r + zlen ready + (zlen edit + 1)) - 1) = u32 (r + zlen ready + zlen edit)).
  { unfold Z.sub at 1. rewrite u32_add_l. f_equal. lia. }
  rewrite He. split.
  - rewrite u32_mod_ring, <- (Hx (length (ready ++ edit)) x).
    + f_equal. f_equal. rewrite length_app. unfold zlen. lia.
    + rewrite app_assoc. by rewrite lookup_snoc_Some; right.
  - split_and!; try done; try lia. intros i y Hi. apply Hx. rewrite app_assoc. by apply lookup_app_l_Some.
Qed.

Lemma ring_pop b r w e x ready edit : ring b r w e (x :: ready) edit ->
  zlookup b (r mod INPUT_BUF) = Some x /\ ring b (u32 (r + 1)) w e ready edit.
Proof.
  intros (Hb & Hr & -> & -> & Hl & Hx). split.
  - by rewrite <- (Hx 0%nat x eq_refl), Z.add_0_r.
  - assert (Hlen : zlen (x :: ready) = 1 + zlen ready) by (unfold zlen; cbn [length]; lia). rewrite Hlen in *.
    split_and!; try done; try lia.
    + apply u32_range.
    + apply u32_range.
    + rewrite u32_add_l. f_equal. lia.
    + rewrite <- !Z.add_assoc, u32_add_l. f_equal. lia.
    + intros i y Hi. rewrite <- (Hx (Datatypes.S i) y Hi), Zplus_mod, u32_mod_ring, <- Zplus_mod. f_equal. f_equal. lia.
Qed.

(** ** The editor that the console implements *)

(** Bytes ready for readers, and the line being edited. *)
Definition lines : Type := list Z * list Z.

Definition line_put (l : lines) (c : Z) : lines :=
  let '(ready, edit) := l in
  if c =? CTRL_P then l
  else if c =? CTRL_U then (ready, [])
  else if (c =? CTRL_H) || (c =? DEL) then (ready, removelast edit)
  else if negb (c =? 0) && (zlen ready + zlen edit <? INPUT_BUF) then
    let c := if c =? 13 then NEWLINE else c in
    if (c =? NEWLINE) || (c =? CTRL_D) || (zlen ready + zlen edit + 1 =? INPUT_BUF)
    then (ready ++ edit ++ [c], []) else (ready, edit ++ [c])
  else l.

(** What a reader of [n] bytes gets, and what stays; [None] when it has to wait.
    A control-D ends the data, and stays behind data that precedes it. *)
Fixpoint line_take (n : nat) (started : bool) (ready : list Z) : option (list Z * list Z) :=
  match n with
  | O => Some ([], ready)
  | Datatypes.S n' =>
      match ready with
      | [] => None
      | c :: rest =>
          if c =? CTRL_D then Some ([], if started then ready else rest)
          else if c =? NEWLINE then Some ([c], rest)
          else match line_take n' true rest with
               | Some (d, rest') => Some (c :: d, rest')
               | None => None
               end
      end
  end.

Section refinement.
Context {S : Type} (cons : S -> console) `{!Setter cons}.
Context (wakeup procdump ilock iunlock : M S unit) (killed : M S bool).

(** The console is a component of the state. *)
Definition component : Prop := forall f s, cons (s <| cons ::= f |>) = f (cons s).
(** A routine of another file that leaves the input alone. *)
Definition quiet (m : M S unit) : Prop := forall s, screen_ok (cons s) ->
  exists s', m s = Ok tt s' /\ screen_ok (cons s') /\ input_of (cons s') = input_of (cons s).

Definition console_ok (c : console) (l : lines) : Prop :=
  screen_ok c /\ ring (c_buf c) (c_r c) (c_w c) (c_e c) l.1 l.2 /\ NEWLINE ∉ l.2.

Hypothesis Hcons : component.
Hypothesis Hwakeup : quiet wakeup.

Lemma cons_run {A} (m : M console A) s a c : m (cons s) = Ok a c ->
  exists s', zoom cons m s = Ok a s' /\ cons s' = c.
Proof using Hcons.
  intros E. exists (s <| cons := c |>). unfold zoom. rewrite E. split; [done|]. apply (Hcons (fun _ => c)).
Qed.

Lemma erase_ok c ready edit x : console_ok c (ready, edit ++ [x]) ->
  exists c', erase c = Ok tt c' /\ console_ok c' (ready, edit).
Proof.
  intros (Hs & Hr & Hn). cbn in Hr, Hn. unfold erase. mstep.
  destruct (consputc_ok BACKSPACE (c <| c_e := u32 (c_e c - 1) |>)) as (c' & E & Hs' & Hi); [exact Hs|].
  exists c'. split; [exact E|]. injection Hi as E1 E2 E3 E4.
  unfold console_ok. rewrite E1, E2, E3, E4. split_and!; [done| |set_solver].
  exact (proj2 (ring_erase _ _ _ _ _ _ _ Hr)).
Qed.

Lemma kill_line_ok ready edit : forall fuel c, console_ok c (ready, edit) -> (length edit < fuel)%nat ->
  exists c', kill_line fuel c = Ok tt c' /\ console_ok c' (ready, []).
Proof.
  induction edit as [|x edit IH] using rev_ind; intros [|fuel] c Hok Hf; try (cbn in Hf; lia);
    cbn [kill_line]; mstep; pose proof Hok as (Hs & Hr & Hn); cbn in Hr, Hn.
  - rewrite (proj2 (ring_edit_empty _ _ _ _ _ _ Hr) eq_refl). eauto.
  - destruct (c_e c =? c_w c) eqn:E; [apply (ring_edit_empty _ _ _ _ _ _ Hr) in E; by destruct edit|].
    unfold buf_at. mstep. rewrite (proj1 (ring_erase _ _ _ _ _ _ _ Hr)). mstep.
    destruct (Z.eqb_spec x NEWLINE); [set_solver|].
    destruct (erase_ok c ready edit x Hok) as (c1 & E1 & Hok1). rewrite (bind_Ok _ _ _ _ _ E1).
    apply IH; [done|]. rewrite length_app in Hf. cbn in Hf. lia.
Qed.

(** A character at the end of the line. *)
Lemma put_ok s ready edit c : console_ok (cons s) (ready, edit) -> 0 < c < 256 ->
  zlen ready + zlen edit < INPUT_BUF ->
  let e := c_e (cons s) in
  exists s', (forall k : M S bool,
      (zoom cons (modify (fun s => s <| c_buf ::= <[Z.to_nat (e mod INPUT_BUF) := u8 c]> |>)) ;;
       zoom cons (modify (fun s => s <| c_e := u32 (e + 1) |>)) ;; zoom cons (consputc c) ;; k) s = k s') /\
    screen_ok (cons s') /\ c_r (cons s') = c_r (cons s) /\
    ring (c_buf (cons s')) (c_r (cons s')) (c_w (cons s')) (c_e (cons s')) ready (edit ++ [c]).
Proof.
  intros (Hs & Hr & _) Hc Hl e. cbn [fst snd] in Hr.
  edestruct (cons_run (modify (fun s => s <| c_buf ::= <[Z.to_nat (e mod INPUT_BUF) := u8 c]> |>)) s)
    as (s1 & E1 & C1); [reflexivity|].
  edestruct (cons_run (modify (fun s => s <| c_e := u32 (e + 1) |>)) s1) as (s2 & E2 & C2); [reflexivity|].
  rewrite C1 in C2. destruct (consputc_ok c (cons s2)) as (c3 & E3 & Hs3 & Hi3); [by rewrite C2|].
  destruct (cons_run (consputc c) s2 tt c3 E3) as (s3 & Z3 & C3). exists s3.
  split; [intros k; by rewrite (bind_Ok _ _ _ _ _ E1), (bind_Ok _ _ _ _ _ E2), (bind_Ok _ _ _ _ _ Z3)|].
  rewrite C3. split; [done|].
  rewrite C2 in Hi3. injection Hi3 as -> -> -> ->. split; [done|].
  replace (u8 c) with c by (symmetry; apply Z.mod_small; lia). by apply ring_push.
Qed.

Lemma intr_char_ok s l c : console_ok (cons s) l -> 0 <= c < 256 ->
  exists d s', intr_char cons wakeup c s = Ok d s' /\ console_ok (cons s') (line_put l c).
Proof.
  intros Hok Hc. destruct l as [ready edit]. unfold intr_char, line_put.
  destruct (c =? CTRL_P); [by exists true, s|].
  destruct (c =? CTRL_U).
  { pose proof Hok as (_ & (_ & _ & _ & _ & Hl & _) & _). unfold INPUT_BUF, zlen in Hl. cbn in Hl.
    destruct (kill_line_ok ready edit 129 (cons s) Hok) as (c' & E & Hok'); [lia|].
    destruct (cons_run _ s tt c' E) as (s' & Z & C'). exists false, s'.
    rewrite (bind_Ok _ _ _ _ _ Z). by rewrite C'. }
  pose proof Hok as (Hs & Hr & Hn). cbn [fst snd] in Hr, Hn.
  destruct ((c =? CTRL_H) || (c =? DEL)).
  { mstep. destruct edit as [|x edit _] using rev_ind.
    - rewrite (proj2 (ring_edit_empty _ _ _ _ _ _ Hr) eq_refl). cbn [negb]. mstep. by exists false, s.
    - destruct (c_e (cons s) =? c_w (cons s)) eqn:E; [apply (ring_edit_empty _ _ _ _ _ _ Hr) in E; by destruct edit|].
      cbn [negb]. destruct (erase_ok (cons s) ready edit x Hok) as (c' & E' & Hok').
      destruct (cons_run _ s tt c' E') as (s' & Z & C'). exists false, s'. mstep.
      rewrite (bind_Ok _ _ _ _ _ Z), removelast_last. by rewrite C'. }
  mstep. rewrite (ring_used _ _ _ _ _ _ Hr).
  destruct (negb (c =? 0) && (zlen ready + zlen edit <? INPUT_BUF)) eqn:G; [|by exists false, s].
  apply andb_true_iff in G as [Hc0%negb_true_iff%Z.eqb_neq Hlt%Z.ltb_lt]. cbv zeta.
  set (k := if c =? 13 then NEWLINE else c).
  assert (Hk : 0 < k < 256) by (unfold k; destruct (c =? 13); lia).
  destruct (put_ok s ready edit k Hok Hk Hlt) as (s1 & E1 & Hs1 & Hr1 & Hring). cbv zeta in E1.
  rewrite E1. mstep.
  assert (Hfull : (c_e (cons s1) =? u32 (c_r (cons s) + INPUT_BUF)) = (zlen ready + zlen edit + 1 =? INPUT_BUF)).
  { destruct Hring as (_ & Hr0 & _ & -> & _). rewrite Hr1, zlen_app. change (zlen [k]) with 1.
    apply eq_iff_eq_true. rewrite !Z.eqb_eq. split; [|intros; f_equal; lia].
    intros He%u32_eq_near; unfold INPUT_BUF, zlen in *; lia. }
  rewrite Hfull. destruct ((k =? NEWLINE) || (k =? CTRL_D) || _) eqn:G.
  - mstep. edestruct (cons_run (modify (fun s => s <| c_w := c_e (cons s1) |>)) s1) as (s2 & E2 & C2); [reflexivity|].
    rewrite (bind_Ok _ _ _ _ _ E2). destruct (Hwakeup s2) as (s3 & E3 & Hs3 & Hi3); [by rewrite C2|].
    rewrite (bind_Ok _ _ _ _ _ E3). exists false, s3. split; [done|].
    rewrite C2 in Hi3. injection Hi3 as F1 F2 F3 F4. unfold console_ok. rewrite F1, F2, F3, F4.
    split_and!; [done| |set_solver]. cbn [fst snd]. rewrite app_assoc, <- app_assoc. by apply ring_commit in Hring.
  - mstep. exists false, s1. split; [done|]. split_and!; [done..|]. cbn [snd].
    apply orb_false_iff in G as [[G _]%orb_false_iff _]. apply Z.eqb_neq in G. set_solver.
Qed.

Lemma intr_loop_ok cs : forall s l d, console_ok (cons s) l -> Forall (fun c => 0 <= c < 256) cs ->
  exists d' s', intr_loop cons wakeup cs d s = Ok d' s' /\ console_ok (cons s') (foldl line_put l cs).
Proof.
  induction cs as [|c cs IH]; intros s l d Hok Hcs; cbn [intr_loop foldl]; [by exists d, s|].
  apply Forall_cons in Hcs as [Hc Hcs]. destruct (intr_char_ok s l c Hok Hc) as (d1 & s1 & E1 & Hok1).
  rewrite (bind_Ok _ _ _ _ _ E1). by apply IH.
Qed.

Hypothesis Hquiet : quiet procdump /\ quiet ilock /\ quiet iunlock.
Hypothesis Hkilled : forall s, exists k, killed s = Ok k s.

Lemma quiet_ok m s l : quiet m -> console_ok (cons s) l -> exists s', m s = Ok tt s' /\ console_ok (cons s') l.
Proof.
  intros Hm (Hs & Hr & Hn). destruct (Hm s Hs) as (s' & E & Hs' & Hi). injection Hi as E1 E2 E3 E4.
  exists s'. split; [done|]. unfold console_ok. by rewrite E1, E2, E3, E4.
Qed.

Lemma pop_ok s c ready edit : console_ok (cons s) (c :: ready, edit) ->
  zoom cons (buf_at (c_r (cons s))) s = Ok c (s <| cons := cons s |>) /\
  console_ok ((cons s) <| c_r := u32 (c_r (cons s) + 1) |>) (ready, edit).
Proof.
  intros (Hs & Hr & Hn). cbn [fst snd] in Hr. destruct (ring_pop _ _ _ _ _ _ _ Hr) as [Hx Hr']. split.
  - unfold zoom, buf_at. mstep. by rewrite Hx.
  - by split_and!.
Qed.

(** The loop reads what the editor gives, or waits or fails with the process when there is
    nothing left. *)
Lemma read_loop_ok n : forall fuel s ready edit target dst,
  console_ok (cons s) (ready, edit) -> (n < fuel)%nat -> Z.of_nat n <= target ->
  match line_take n (Z.of_nat n <? target) ready with
  | Some (data, rest) => exists s',
      read_loop cons killed fuel target (Z.of_nat n) dst s = Ok (Some (Z.of_nat n - zlen data), dst ++ data) s' /\
      console_ok (cons s') (rest, edit)
  | None =>
      (exists s', read_loop cons killed fuel target (Z.of_nat n) dst s = Sleep ChInput s') \/
      (exists data s', read_loop cons killed fuel target (Z.of_nat n) dst s = Ok (None, data) s' /\
         console_ok (cons s') ([], edit))
  end.
Proof.
  induction n as [|n IH]; intros [|fuel] s ready edit target dst Hok Hf Ht; try lia; cbn [read_loop line_take].
  { exists s. rewrite app_nil_r. split; [|done]. unfold zlen. cbn. do 3 f_equal. }
  pose proof Hok as (Hs & Hr & Hn). cbn [fst snd] in Hr.
  assert (E0 : (0 <? Z.of_nat (Datatypes.S n)) = true) by (apply Z.ltb_lt; lia). rewrite E0. mstep. destruct ready as [|c ready].
  - rewrite (proj2 (ring_ready_empty _ _ _ _ _ _ Hr) eq_refl). destruct (Hkilled s) as [k E].
    rewrite (bind_Ok _ _ _ _ _ E). destruct k; [right; by exists dst, s|left; by exists s].
  - destruct (c_r (cons s) =? c_w (cons s)) eqn:E; [by apply (ring_ready_empty _ _ _ _ _ _ Hr) in E|].
    destruct (pop_ok s c ready edit Hok) as [Eb Hpop]. rewrite (bind_Ok _ _ _ _ _ Eb).
    pose proof (Hcons (fun _ => cons s) s) as C1. cbv beta in C1.
    edestruct (cons_run (modify (fun x => x <| c_r := u32 (c_r (cons s) + 1) |>)) (s <| cons := cons s |>))
      as (s2 & E2 & C2); [reflexivity|]. rewrite C1 in C2. rewrite (bind_Ok _ _ _ _ _ E2), <- C2 in *.
    destruct (c =? CTRL_D) eqn:ED; [|destruct (c =? NEWLINE)].
    + destruct (Z.of_nat (Datatypes.S n) <? target); mstep.
      * edestruct (cons_run (modify (fun x => x <| c_r := u32 (c_r x - 1) |>)) s2) as (s3 & E3 & C3); [reflexivity|].
        rewrite (bind_Ok _ _ _ _ _ E3). exists s3. rewrite app_nil_r. split; [unfold ret, zlen; do 3 f_equal; cbn; lia|].
        rewrite C3, C2. split_and!; [exact Hs| |exact Hn]. cbn [fst snd]. proj_upd.
        replace (u32 (u32 (c_r (cons s) + 1) - 1)) with (c_r (cons s)); [done|].
        unfold Z.sub. rewrite u32_add_l. destruct Hr as (_ & Hr & _). rewrite u32_small; lia.
      * exists s2. rewrite app_nil_r. split; [unfold ret, zlen; do 3 f_equal; cbn; lia|done].
    + by exists s2.
    + replace (Z.of_nat (Datatypes.S n) - 1) with (Z.of_nat n) by lia.
      specialize (IH fuel s2 ready edit target (dst ++ [c]) Hpop ltac:(lia) ltac:(lia)).
      replace (Z.of_nat n <? target) with true in IH by lia.
      destruct (line_take n true ready) as [[data rest]|]; [|exact IH].
      destruct IH as (s' & E' & Hok'). exists s'. split; [|done]. rewrite E', <- app_assoc.
      unfold zlen. cbn [length app]. do 3 f_equal. lia.
Qed.

End refinement.

(** Two lines arrive, with a typing error; the first one is read. *)
Definition console0 : console :=
  mkConsole false (Some []) (replicate 2000 0) 0 0 (replicate 128 0) 4294967290 4294967290 4294967290.

Lemma console0_ok : console_ok console0 ([], []).
Proof.
  split_and!; [split_and!; try done; cbn; lia| |set_solver].
  split_and!; try done; cbn; intros i x; by rewrite lookup_nil.
Qed.

End Console.
