(* ===== verification/Kbd.v ===== *)
(** * Keyboard and serial line (xv6-public/kbd.c, kbd.h, uart.c)

    The keyboard controller holds the scan codes that were not read yet;
    [kbdgetc] turns one into a character, with the modifier keys in [shift].  The
    characters of an interrupt go to the line editor of [Console]. *)

From S2P Require Import Prelude Ulib Console.

Module Kbd.
Import Console.

Abbreviation NO := 0 (only parsing).
Abbreviation SHIFT := 1 (only parsing).
Abbreviation CTL := 2 (only parsing).
Abbreviation ALT := 4 (only parsing).
Abbreviation CAPSLOCK := 8 (only parsing).
Abbreviation NUMLOCK := 16 (only parsing).
Abbreviation SCROLLLOCK := 32 (only parsing).
Abbreviation E0ESC := 64 (only parsing).
Abbreviation KEY_HOME := 224 (only parsing).
Abbreviation KEY_END := 225 (only parsing).
Abbreviation KEY_UP := 226 (only parsing).
Abbreviation KEY_DN := 227 (only parsing).
Abbreviation KEY_LF := 228 (only parsing).
Abbreviation KEY_RT := 229 (only parsing).
Abbreviation KEY_PGUP := 230 (only parsing).
Abbreviation KEY_PGDN := 231 (only parsing).
Abbreviation KEY_INS := 232 (only parsing).
Abbreviation KEY_DEL := 233 (only parsing).

(** An array of 256 bytes with its first elements and those given by index. *)
Definition table (first : list Z) (rest : list (nat * Z)) : list Z :=
  foldl (fun t e => <[e.1 := u8 e.2]> t) (map u8 first ++ replicate (256 - length first) 0) rest.

Definition shiftcode : list Z := table []
  [(29%nat, CTL); (42%nat, SHIFT); (54%nat, SHIFT); (56%nat, ALT);
   (157%nat, CTL); (184%nat, ALT)].
Definition togglecode : list Z := table []
  [(58%nat, CAPSLOCK); (69%nat, NUMLOCK); (70%nat, SCROLLLOCK)].
Definition normalmap : list Z := table [
    NO; 27; 49; 50; 51; 52; 53; 54;
    55; 56; 57; 48; 45; 61; 8; 9;
    113; 119; 101; 114; 116; 121; 117; 105;
    111; 112; 91; 93; 10; NO; 97; 115;
    100; 102; 103; 104; 106; 107; 108; 59;
    39; 96; NO; 92; 122; 120; 99; 118;
    98; 110; 109; 44; 46; 47; NO; 42;
    NO; 32; NO; NO; NO; NO; NO; NO;
    NO; NO; NO; NO; NO; NO; NO; 55;
    56; 57; 45; 52; 53; 54; 43; 49;
    50; 51; 48; 46; NO; NO; NO; NO]
  [(156%nat, 10); (181%nat, 47); (200%nat, KEY_UP); (208%nat, KEY_DN);
   (201%nat, KEY_PGUP); (209%nat, KEY_PGDN); (203%nat, KEY_LF); (205%nat, KEY_RT);
   (151%nat, KEY_HOME); (207%nat, KEY_END); (210%nat, KEY_INS); (211%nat, KEY_DEL)].
Definition shiftmap : list Z := table [
    NO; 27; 33; 64; 35; 36; 37; 94;
    38; 42; 40; 41; 95; 43; 8; 9;
    81; 87; 69; 82; 84; 89; 85; 73;
    79; 80; 123; 125; 10; NO; 65; 83;
    68; 70; 71; 72; 74; 75; 76; 58;
    34; 126; NO; 124; 90; 88; 67; 86;
    66; 78; 77; 60; 62; 63; NO; 42;
    NO; 32; NO; NO; NO; NO; NO; NO;
    NO; NO; NO; NO; NO; NO; NO; 55;
    56; 57; 45; 52; 53; 54; 43; 49;
    50; 51; 48; 46; NO; NO; NO; NO]
  [(156%nat, 10); (181%nat, 47); (200%nat, KEY_UP); (208%nat, KEY_DN);
   (201%nat, KEY_PGUP); (209%nat, KEY_PGDN); (203%nat, KEY_LF); (205%nat, KEY_RT);
   (151%nat, KEY_HOME); (207%nat, KEY_END); (210%nat, KEY_INS); (211%nat, KEY_DEL)].
Definition ctlmap : list Z := table [
    NO; NO; NO; NO; NO; NO; NO; NO;
    NO; NO; NO; NO; NO; NO; NO; NO;
    C 81; C 87; C 69; C 82; C 84; C 89; C 85; C 73;
    C 79; C 80; NO; NO; 13; NO; C 65; C 83;
    C 68; C 70; C 71; C 72; C 74; C 75; C 76; NO;
    NO; NO; NO; C 92; C 90; C 88; C 67; C 86;
    C 66; C 78; C 77; NO; NO; C 47; NO; NO]
  [(156%nat, 13); (181%nat, C 47); (200%nat, KEY_UP); (208%nat, KEY_DN);
   (201%nat, KEY_PGUP); (209%nat, KEY_PGDN); (203%nat, KEY_LF); (205%nat, KEY_RT);
   (151%nat, KEY_HOME); (207%nat, KEY_END); (210%nat, KEY_INS); (211%nat, KEY_DEL)].

(** The modifiers, and the scan codes in the controller. *)
Record kbd := mkKbd { k_shift : Z; k_codes : list Z }.

Definition byte_at (t : list Z) (i : Z) : M kbd Z := deref (zlookup t i).
Definition set_shift (v : Z) : M kbd unit := modify (fun k => mkKbd (u32 v) (k_codes k)).

(** Upper and lower case exchanged. *)
Definition swap_case (c : Z) : Z :=
  if (97 <=? c) && (c <=? 122) then c + (65 - 97)
  else if (65 <=? c) && (c <=? 90) then c + (97 - 65) else c.

Definition charcode (i : Z) : list Z :=
  if i =? 0 then normalmap else if i =? 1 then shiftmap else ctlmap.

(** A key that is pressed. *)
Definition press (data : Z) : M kbd Z :=
  shift <- gets k_shift ;;
  sc <- byte_at shiftcode data ;;
  tc <- byte_at togglecode data ;;
  let shift := Z.lxor (Z.lor shift sc) tc in
  set_shift shift ;;
  c <- byte_at (charcode (Z.land shift (Z.lor CTL SHIFT))) data ;;
  ret (if negb (Z.land shift CAPSLOCK =? 0) then swap_case c else c).

Definition kbdgetc : M kbd Z :=
  codes <- gets k_codes ;;
  match codes with
  | [] => ret (-1)
  | data :: codes' =>
      modify (fun k => mkKbd (k_shift k) codes') ;;
      shift <- gets k_shift ;;
      if data =? 0xE0 then set_shift (Z.lor shift E0ESC) ;; ret 0
      else if negb (Z.land data 0x80 =? 0) then
        let data := if negb (Z.land shift E0ESC =? 0) then data else Z.land data 0x7F in
        sc <- byte_at shiftcode data ;;
        set_shift (Z.land shift (Z.lnot (Z.lor sc E0ESC))) ;; ret 0
      else if negb (Z.land shift E0ESC =? 0) then
        set_shift (Z.land shift (Z.lnot E0ESC)) ;; press (Z.lor data 0x80)
      else press data
  end.

(** All the characters until [kbdgetc] is negative; a call takes a scan code. *)
Fixpoint kbd_drain (fuel : nat) : M kbd (list Z) :=
  match fuel with
  | O => ret []
  | S fuel' => c <- kbdgetc ;; if c <? 0 then ret [] else cs <- kbd_drain fuel' ;; ret (c :: cs)
  end.

(** ** The serial line *)

(** [present] is the variable [uart]; the state is the bytes received. *)
Definition uartgetc (present : bool) : M (list Z) Z :=
  if negb present then ret (-1) else
  rx <- gets (fun rx => rx) ;;
  match rx with
  | [] => ret (-1)
  | c :: rx' => modify (fun _ => rx') ;; ret c
  end.
Fixpoint uart_drain (present : bool) (fuel : nat) : M (list Z) (list Z) :=
  match fuel with
  | O => ret []
  | S fuel' =>
      c <- uartgetc present ;;
      if c <? 0 then ret [] else cs <- uart_drain present fuel' ;; ret (c :: cs)
  end.

(** ** The interrupts *)

(** The kernel with the two devices. *)
Record devs (S : Type) := mkDevs { v_kernel : S; v_kbd : kbd; v_uart : list Z }.
Arguments mkDevs {S}. Arguments v_kernel {S}. Arguments v_kbd {S}. Arguments v_uart {S}.
#[export] Instance eta_devs {S} : Eta (devs S) := fun d => mkDevs (v_kernel d) (v_kbd d) (v_uart d).

Section interrupts.
Context {S : Type} (cons : S -> console) `{!Setter cons} (wakeup procdump : M S unit).

Definition kbdintr : M (devs S) unit :=
  n <- gets (fun d => length (k_codes (v_kbd d))) ;;
  cs <- zoom v_kbd (kbd_drain (Datatypes.S n)) ;;
  zoom v_kernel (consoleintr cons wakeup procdump cs).
Definition uartintr : M (devs S) unit :=
  n <- gets (fun d => length (v_uart d)) ;;
  u <- gets (fun d => c_uart (cons (v_kernel d))) ;;
  cs <- zoom v_uart (uart_drain (bool_decide (is_Some u)) (Datatypes.S n)) ;;
  zoom v_kernel (consoleintr cons wakeup procdump cs).
End interrupts.

(** ** Every scan code gives a byte *)

Definition kbd_ok (k : kbd) : Prop := 0 <= k_shift k < 128 /\ Forall (fun d => 0 <= d < 256) (k_codes k).

(** The codes behind the first one are not looked at. *)
Lemma kbdgetc_frame sh d cs : kbdgetc (mkKbd sh (d :: cs)) =
  match kbdgetc (mkKbd sh [d]) with
  | Ok c k => Ok c (mkKbd (k_shift k) cs)
  | Sleep ch k => Sleep ch (mkKbd (k_shift k) cs)
  | Panic m => Panic m
  | Fault => Fault
  | Spin => Spin
  end.
Proof.
  assert (Hp : forall x v, press x (mkKbd v cs) =
    match press x (mkKbd v []) with
    | Ok c k => Ok c (mkKbd (k_shift k) cs)
    | Sleep ch k => Sleep ch (mkKbd (k_shift k) cs)
    | Panic m => Panic m
    | Fault => Fault
    | Spin => Spin
    end).
  { intros x v. unfold press, byte_at, set_shift. mstep. cbn [k_shift].
    destruct (zlookup shiftcode x); mstep; [|done]. destruct (zlookup togglecode x); mstep; [|done].
    destruct (zlookup _ x); mstep; done. }
  unfold kbdgetc, byte_at, set_shift. mstep. cbn [k_codes k_shift]. mstep. cbn [k_shift].
  destruct (d =? 224); mstep; [done|]. destruct (negb (Z.land d 128 =? 0)); mstep.
  - destruct (zlookup shiftcode _); mstep; done.
  - destruct (negb (Z.land sh E0ESC =? 0)); mstep; cbn [k_codes k_shift]; apply Hp.
Qed.

(** Checked for the 128 states of the modifiers and the 256 scan codes. *)
Definition bytes_upto (n : nat) : list Z := map Z.of_nat (seq 0 n).
Lemma kbdgetc_table :
  forallb (fun sh => forallb (fun d =>
    match kbdgetc (mkKbd sh [d]) with
    | Ok c k => (0 <=? c) && (c <? 256) && (0 <=? k_shift k) && (k_shift k <? 128)
    | _ => false
    end) (bytes_upto 256)) (bytes_upto 128) = true.
Proof. vm_compute. reflexivity. Qed.

Lemma bytes_upto_elem n x : 0 <= x < Z.of_nat n -> In x (bytes_upto n).
Proof. intros H. apply in_map_iff. exists (Z.to_nat x). split; [lia|]. apply in_seq. lia. Qed.

Lemma kbdgetc_ok k : kbd_ok k ->
  (k_codes k = [] /\ kbdgetc k = Ok (-1) k) \/
  (exists d cs c sh, k_codes k = d :: cs /\ kbdgetc k = Ok c (mkKbd sh cs) /\ 0 <= c < 256 /\ kbd_ok (mkKbd sh cs)).
Proof.
  destruct k as [sh [|d cs]]; intros [Hsh Hc]; cbn in Hsh, Hc; [left; done|right].
  apply Forall_cons in Hc as [Hd Hc]. pose proof kbdgetc_table as Ht. rewrite forallb_forall in Ht.
  specialize (Ht sh (bytes_upto_elem 128 sh Hsh)). rewrite forallb_forall in Ht.
  specialize (Ht d (bytes_upto_elem 256 d Hd)). rewrite kbdgetc_frame.
  destruct (kbdgetc (mkKbd sh [d])) as [c k| | | |]; try done.
  apply andb_true_iff in Ht as [[[H1 H2]%andb_true_iff H3]%andb_true_iff H4].
  exists d, cs, c, (k_shift k). split_and!; [done|done|lia|lia|]. split; [cbn; lia|done].
Qed.

Lemma kbd_drain_ok n : forall k, kbd_ok k -> length (k_codes k) = n ->
  exists cs sh, kbd_drain (S n) k = Ok cs (mkKbd sh []) /\ Forall (fun c => 0 <= c < 256) cs /\ length cs = n /\
    0 <= sh < 128.
Proof.
  induction n as [|n IH]; intros k Hok Hl; cbn [kbd_drain];
    destruct (kbdgetc_ok k Hok) as [[Hc E]|(d & cs & c & sh & Hc & E & Hb & Hok')]; rewrite Hc in Hl; cbn in Hl; try lia;
    rewrite (bind_Ok _ _ _ _ _ E).
  - exists [], (k_shift k). destruct k, Hok. cbn in *. subst. done.
  - replace (c <? 0) with false by lia. destruct (IH (mkKbd sh cs) Hok') as (l & sh' & E' & Hl' & Hn & Hs); [cbn; lia|].
    rewrite (bind_Ok _ _ _ _ _ E'). exists (c :: l), sh'. split_and!; [done|by constructor|cbn; lia|lia|lia].
Qed.

(** The serial line passes the bytes received on as they are; without a port there are none. *)
Lemma uart_drain_run present rx : Forall (fun c => 0 <= c < 256) rx ->
  uart_drain present (S (length rx)) rx = if present then Ok rx [] else Ok [] rx.
Proof.
  intros H. destruct present; [|done]. induction H as [|c rx Hc _ IH]; [done|].
  cbn [length uart_drain]. unfold uartgetc. cbn [negb]. mstep. replace (c <? 0) with false by lia.
  cbn [length uart_drain] in IH. by rewrite (bind_Ok _ _ _ _ _ IH).
Qed.

Section interrupts.
Context {S : Type} (cons : S -> console) `{!Setter cons} (wakeup procdump : M S unit).
Hypothesis Hcons : component cons.
Hypothesis Hquiet : quiet cons wakeup /\ quiet cons procdump.

End interrupts.

(** Shift, [a], shift released, [b], and control-D with the control key. *)
Example typed : kbd_drain 10 (mkKbd 0 [0x2A; 0x1E; 0x9E; 0xAA; 0x30; 0x1D; 0x20]) =
  Ok [0; 65; 0; 0; 98; 0; 4] (mkKbd CTL []).
Proof. vm_compute. reflexivity. Qed.

End Kbd.
