(* ===== verification/Bytes.v ===== *)
(** * Disk blocks (xv6-public/fs.h)

    A block is 512 bytes; the structures on disk are sequences of little-endian
    words in it.  [get32] and [put32] read and write the word at a byte offset,
    [get16] and [put16] a half word. *)

From S2P Require Import Prelude.

Abbreviation block := (list Z).
Definition BSIZE : Z := 512.
Definition zero_block : block := replicate (Z.to_nat BSIZE) 0.

(** One block of a store of blocks replaced. *)
Definition fset (f : Z -> block) (b : Z) (x : block) : Z -> block :=
  fun c => if decide (c = b) then x else f c.

Lemma fset_eq f b x : fset f b x b = x.
Proof. unfold fset. by rewrite decide_True. Qed.
Lemma fset_ne f b x c : c <> b -> fset f b x c = f c.
Proof. intros. unfold fset. by rewrite decide_False. Qed.

Definition byte_at (l : block) (o : nat) : Z := default 0 (l !! o).
Definition get16 (l : block) (o : nat) : Z := byte_at l o + 256 * byte_at l (S o).
Definition get32 (l : block) (o : nat) : Z :=
  get16 l o + 65536 * get16 l (S (S o)).
Definition put8 (o : nat) (v : Z) (l : block) : block := <[o := u8 v]> l.
Definition put16 (o : nat) (v : Z) (l : block) : block :=
  put8 (S o) (v / 256) (put8 o v l).
Definition put32 (o : nat) (v : Z) (l : block) : block :=
  put16 (S (S o)) (v / 65536) (put16 o v l).

Lemma length_put8 o v l : length (put8 o v l) = length l.
Proof. apply length_insert. Qed.
Lemma length_put16 o v l : length (put16 o v l) = length l.
Proof. unfold put16. by rewrite !length_put8. Qed.
Lemma length_put32 o v l : length (put32 o v l) = length l.
Proof. unfold put32. by rewrite !length_put16. Qed.

Lemma byte_at_put8 o v l i :
  (o < length l)%nat -> byte_at (put8 o v l) i = if decide (i = o) then u8 v else byte_at l i.
Proof.
  intros Ho. unfold byte_at, put8. case_decide as Hi.
  - subst. by rewrite list_lookup_insert_eq.
  - by rewrite list_lookup_insert_ne.
Qed.

Lemma byte_at_put16 o v l i :
  (S o < length l)%nat -> byte_at (put16 o v l) i =
    if decide (i = o) then u8 v else if decide (i = S o) then u8 (v / 256) else byte_at l i.
Proof.
  intros Ho. unfold put16. rewrite !byte_at_put8 by (rewrite ?length_put8; lia).
  repeat case_decide; subst; try done; lia.
Qed.

Lemma u8_split v : u8 v + 256 * u8 (v / 256) = u16 v.
Proof.
  unfold u8, u16. change (2 ^ 16) with (2 ^ 8 * 2 ^ 8).
  rewrite Z.rem_mul_r by lia. done.
Qed.

Lemma u16_split v : u16 v + 65536 * u16 (v / 65536) = u32 v.
Proof.
  unfold u16, u32. change (2 ^ 32) with (2 ^ 16 * 2 ^ 16).
  rewrite Z.rem_mul_r by lia. done.
Qed.

Lemma get16_put16 o v l : (S o < length l)%nat -> get16 (put16 o v l) o = u16 v.
Proof.
  intros Ho. unfold get16. rewrite !byte_at_put16 by done.
  rewrite decide_True, (decide_False (P := S o = o)), decide_True by lia. apply u8_split.
Qed.

Lemma get16_put16_ne o v l i :
  (S o < length l)%nat -> (S i < o \/ S o < i)%nat -> get16 (put16 o v l) i = get16 l i.
Proof.
  intros Ho Hi. unfold get16. rewrite !byte_at_put16 by done.
  repeat case_decide; lia.
Qed.

Lemma get32_put32 o v l : (o + 3 < length l)%nat -> get32 (put32 o v l) o = u32 v.
Proof.
  intros Ho. unfold get32, put32.
  rewrite get16_put16_ne, get16_put16, get16_put16 by (rewrite ?length_put16; lia).
  apply u16_split.
Qed.

Lemma get32_put32_ne o v l i :
  (o + 3 < length l)%nat -> (i + 3 < o \/ o + 3 < i)%nat -> get32 (put32 o v l) i = get32 l i.
Proof.
  intros Ho Hi. unfold get32, put32.
  rewrite !get16_put16_ne by (rewrite ?length_put16; lia). done.
Qed.

(** A sequence of words from offset [o] up. *)
Fixpoint put_words (o : nat) (ws : list Z) (l : block) : block :=
  match ws with
  | [] => l
  | w :: ws' => put_words (o + 4) ws' (put32 o w l)
  end.
Fixpoint get_words (o n : nat) (l : block) : list Z :=
  match n with
  | O => []
  | S n' => get32 l o :: get_words (o + 4) n' l
  end.

Lemma length_put_words ws : forall o l, length (put_words o ws l) = length l.
Proof. induction ws as [|w ws IH]; intros o l; [done|]. cbn. by rewrite IH, length_put32. Qed.

Lemma get32_put_words_lt ws : forall o l i,
  (o + 4 * length ws <= length l)%nat -> (i + 3 < o)%nat ->
  get32 (put_words o ws l) i = get32 l i.
Proof.
  induction ws as [|w ws IH]; intros o l i Ho Hi; [done|]. cbn in *.
  rewrite IH by (rewrite ?length_put32; lia). apply get32_put32_ne; lia.
Qed.

Lemma get_put_words ws : forall o l,
  (o + 4 * length ws <= length l)%nat -> Forall (fun w => 0 <= w < 2 ^ 32) ws ->
  get_words o (length ws) (put_words o ws l) = ws.
Proof.
  induction ws as [|w ws IH]; intros o l Ho Hw; [done|]. cbn in *.
  apply Forall_cons in Hw as [Hw Hws]. f_equal.
  - rewrite get32_put_words_lt by (rewrite ?length_put32; lia).
    rewrite get32_put32 by lia. by apply u32_small.
  - apply IH; [rewrite length_put32; lia|done].
Qed.

Lemma get_words_map n : forall o l, get_words o n l = map (fun i => get32 l (o + 4 * i)) (seq 0 n).
Proof.
  induction n as [|n IH]; intros o l; [done|]. cbn [get_words seq map].
  rewrite IH, <- seq_shift, map_map. f_equal; [f_equal; lia|].
  apply map_ext. intros i. f_equal. lia.
Qed.

(** Bytes outside a field. *)
Lemma byte_at_put32_ne o v l i :
  (o + 3 < length l)%nat -> (i < o \/ o + 3 < i)%nat -> byte_at (put32 o v l) i = byte_at l i.
Proof.
  intros Ho Hi. unfold put32. rewrite !byte_at_put16 by (rewrite ?length_put16; lia).
  repeat case_decide; lia.
Qed.

Lemma byte_at_put_words_ne ws : forall o l i,
  (o + 4 * length ws <= length l)%nat -> (i < o \/ o + 4 * length ws <= i)%nat ->
  byte_at (put_words o ws l) i = byte_at l i.
Proof.
  induction ws as [|w ws IH]; intros o l i Ho Hi; [done|]. cbn in *.
  rewrite IH by (rewrite ?length_put32; lia). apply byte_at_put32_ne; lia.
Qed.

Lemma get16_put32_ne o v l i :
  (o + 3 < length l)%nat -> (S i < o \/ o + 3 < i)%nat -> get16 (put32 o v l) i = get16 l i.
Proof. intros Ho Hi. unfold get16. by rewrite !byte_at_put32_ne by lia. Qed.

Lemma get16_put_words_ne ws o l i :
  (o + 4 * length ws <= length l)%nat -> (S i < o \/ o + 4 * length ws <= i)%nat ->
  get16 (put_words o ws l) i = get16 l i.
Proof. intros Ho Hi. unfold get16. by rewrite !byte_at_put_words_ne by lia. Qed.

(** What is read at [o] depends on the bytes there only. *)
Lemma get_words_ext n : forall o l l',
  (forall i, (o <= i < o + 4 * n)%nat -> byte_at l i = byte_at l' i) ->
  get_words o n l = get_words o n l'.
Proof.
  induction n as [|n IH]; intros o l l' Hb; [done|]. cbn. f_equal.
  - unfold get32, get16. by rewrite !Hb by lia.
  - apply IH. intros i Hi. apply Hb. lia.
Qed.

(** ** Segments *)

(** [n] bytes of a block from byte [o] on, and a block with bytes [x] written
    over it from there. *)
Definition slice (o n : nat) (d : block) : list Z := take n (drop o d).
Definition splice (o : nat) (x : list Z) (d : block) : block :=
  take o d ++ x ++ drop (o + length x) d.

Lemma slice_bytes d o m :
  (o + m <= length d)%nat -> slice o m d = map (byte_at d) (seq o m).
Proof.
  intros Hm. unfold slice. apply list_eq. intros k. rewrite list_lookup_fmap.
  destruct (decide (k < m)%nat) as [Hk|Hk].
  - rewrite lookup_take_lt, lookup_drop, lookup_seq_lt by lia. cbn. unfold byte_at.
    destruct (lookup_lt_is_Some_2 d (o + k)) as [x ->]; [lia|done].
  - rewrite lookup_take_ge, lookup_seq_ge by lia. done.
Qed.

Lemma length_splice o x d :
  (o + length x <= length d)%nat -> length (splice o x d) = length d.
Proof. intros Hl. unfold splice. rewrite !length_app, length_take, length_drop. lia. Qed.

Lemma byte_at_splice o x d j :
  (o + length x <= length d)%nat ->
  byte_at (splice o x d) j = if decide (o <= j < o + length x)%nat then nth (j - o) x 0 else byte_at d j.
Proof.
  intros Hl. unfold splice, byte_at. case_decide as Hj.
  - rewrite lookup_app_r by (rewrite length_take; lia).
    rewrite length_take, Nat.min_l, lookup_app_l by lia.
    destruct (lookup_lt_is_Some_2 x (j - o)) as [y Hy]; [lia|].
    rewrite Hy. cbn. by rewrite (nth_lookup_Some _ _ _ _ Hy).
  - destruct (decide (j < o)%nat).
    + rewrite lookup_app_l, lookup_take_lt by (rewrite ?length_take; lia). done.
    + rewrite lookup_app_r by (rewrite length_take; lia).
      rewrite length_take, Nat.min_l, lookup_app_r, lookup_drop by lia.
      do 2 f_equal. lia.
Qed.
