(* ===== verification/Bufcache.v ===== *)
(** * What the buffer cache promises (bio.c's contract)

    The file system code sees the disk through buffers: it reads a block into a
    locked buffer, changes the data, writes the buffer back or pins it, and
    releases it.  [view] is what that code can rely on: the contents of every
    block as seen through the cache, the blocks on disk, the history of disk
    writes, the pinned blocks and the buffers held.  [BufCache] states the
    operations and their laws against it; Bio.v provides them, Log.v and Fs.v
    use nothing else. *)

From S2P Require Import Prelude Bytes.

Record view := mkBview {
  v_mem : Z -> block;
  v_disk : gmap Z block;
  v_trace : list (Z * block);
  v_pinned : gset Z;
  v_held : gmap nat Z
}.
#[export] Instance eta_bview : Eta view := fun r =>
  mkBview (v_mem r) (v_disk r) (v_trace r) (v_pinned r) (v_held r).

Lemma view_eq (v w : view) :
  v_mem v = v_mem w -> v_disk v = v_disk w -> v_trace v = v_trace w ->
  v_pinned v = v_pinned w -> v_held v = v_held w -> v = w.
Proof. destruct v, w. cbn. by intros -> -> -> -> ->. Qed.

(** A block on disk; what was never written reads as zeros. *)
Definition disk_block (d : gmap Z block) (b : Z) : block := default zero_block (d !! b).

Definition held_blocks (v : view) : gset Z := map_img (v_held v).

(** The effects of the operations. *)
Definition v_take (i : nat) (b : Z) (v : view) : view := v <| v_held ::= <[i := b]> |>.
Definition v_drop (i : nat) (v : view) : view := v <| v_held ::= delete i |>.
Definition v_set (b : Z) (x : block) (v : view) : view := v <| v_mem ::= fun f => fset f b x |>.
Definition v_write (b : Z) (v : view) : view :=
  v <| v_disk ::= <[b := v_mem v b]> |> <| v_trace ::= fun t => t ++ [(b, v_mem v b)] |>
    <| v_pinned ::= fun p => p ∖ {[b]} |>.
Definition v_pin (b : Z) (v : view) : view := v <| v_pinned ::= union {[b]} |>.

(** Number of buffers of the cache. *)
Definition NBUF : nat := 60.

Class BufCache (S : Type) := {
  bread : Z -> Z -> M S nat;
  blockno : nat -> M S Z;
  data : nat -> M S block;
  set_data : nat -> block -> M S unit;
  bwrite : nat -> M S unit;
  pin : nat -> M S unit;
  brelse : nat -> M S unit;

  repr : Z -> S -> view -> Prop;   (* disk size, state, view *)

  bread_law n s v b :
    repr n s v -> 0 <= b < n -> b ∉ held_blocks v ->
    (size ({[b]} ∪ v_pinned v ∪ held_blocks v) <= NBUF)%nat ->
    exists i s', bread 1 b s = Ok i s' /\ v_held v !! i = None /\ repr n s' (v_take i b v);
  blockno_law n s v i b :
    repr n s v -> v_held v !! i = Some b -> blockno i s = Ok b s;
  data_law n s v i b :
    repr n s v -> v_held v !! i = Some b -> data i s = Ok (v_mem v b) s;
  set_data_law n s v i b x :
    repr n s v -> v_held v !! i = Some b -> length x = length (v_mem v b) ->
    exists s', set_data i x s = Ok tt s' /\ repr n s' (v_set b x v);
  bwrite_law n s v i b :
    repr n s v -> v_held v !! i = Some b ->
    exists s', bwrite i s = Ok tt s' /\ repr n s' (v_write b v);
  pin_law n s v i b :
    repr n s v -> v_held v !! i = Some b ->
    exists s', pin i s = Ok tt s' /\ repr n s' (v_pin b v);
  (* a buffer may be let go only when its contents are safe *)
  brelse_law n s v i b :
    repr n s v -> v_held v !! i = Some b ->
    b ∈ v_pinned v \/ v_mem v b = disk_block (v_disk v) b ->
    exists s', brelse i s = Ok tt s' /\ repr n s' (v_drop i v);
  (* what is neither pinned nor held is on disk *)
  repr_clean n s v b :
    repr n s v -> b ∉ v_pinned v -> b ∉ held_blocks v -> v_mem v b = disk_block (v_disk v) b;
  repr_range n s v i b : repr n s v -> v_held v !! i = Some b -> 0 <= b < n;
  repr_length n s v b : repr n s v -> length (v_mem v b) = Z.to_nat BSIZE
}.

(** ** The interface has a model: a cache that is its own view *)
Module Ideal.

Definition with_held {A} (i : nat) (f : Z -> M view A) : M view A :=
  h <- gets v_held ;; b <- deref (h !! i) ;; f b.

Record good (n : Z) (v : view) : Prop := mkGood {
  gd_length b : length (v_mem v b) = Z.to_nat BSIZE;
  gd_clean b : b ∉ v_pinned v -> b ∉ held_blocks v -> v_mem v b = disk_block (v_disk v) b;
  gd_range i b : v_held v !! i = Some b -> 0 <= b < n
}.

Lemma with_held_run {A} i (f : Z -> M view A) v b :
  v_held v !! i = Some b -> with_held i f v = f b v.
Proof. intros Hb. unfold with_held. mstep. rewrite Hb. by mstep. Qed.

Lemma held_blocks_elem v b : b ∈ held_blocks v <-> exists i, v_held v !! i = Some b.
Proof. apply elem_of_map_img. Qed.

Lemma good_take n v i b :
  good n v -> 0 <= b < n -> v_held v !! i = None -> good n (v_take i b v).
Proof.
  intros [Hl Hc Hr] Hb Hi. split; [exact Hl| |].
  - intros c Hp Hh. apply Hc; [exact Hp|]. rewrite held_blocks_elem in *. intros [j Hj].
    apply Hh. exists j. unfold v_take. proj_upd. rewrite lookup_insert_ne; [done|congruence].
  - intros j c. unfold v_take. proj_upd. rewrite lookup_insert_Some. naive_solver.
Qed.

Lemma good_set n v i b x :
  good n v -> v_held v !! i = Some b -> length x = Z.to_nat BSIZE -> good n (v_set b x v).
Proof.
  intros [Hl Hc Hr] Hi Hx. split; unfold v_set.
  - intros c. proj_upd. unfold fset. by case_decide.
  - intros c Hp Hh. proj_upd. rewrite fset_ne; [by apply Hc|]. intros ->. apply Hh.
    apply held_blocks_elem. by exists i.
  - exact Hr.
Qed.

Lemma good_write n v b : good n v -> good n (v_write b v).
Proof.
  intros [Hl Hc Hr]. split; unfold v_write; [exact Hl| |exact Hr].
  intros c. proj_upd. unfold disk_block. destruct (decide (c = b)) as [->|Hne].
  - intros _ _. by rewrite lookup_insert_eq.
  - rewrite lookup_insert_ne by done. intros Hp. apply Hc. set_solver.
Qed.

Lemma good_drop n v i b :
  good n v -> v_held v !! i = Some b ->
  b ∈ v_pinned v \/ v_mem v b = disk_block (v_disk v) b -> good n (v_drop i v).
Proof.
  intros [Hl Hc Hr] Hi Hb. split; unfold v_drop; [exact Hl| |].
  - intros c Hp Hh. destruct (decide (c = b)) as [->|Hne]; [by destruct Hb|].
    apply Hc; [exact Hp|]. rewrite held_blocks_elem in *. intros [j Hj]. apply Hh. exists j.
    proj_upd. rewrite lookup_delete_ne; [done|congruence].
  - intros j c. proj_upd. intros [_ ?]%lookup_delete_Some. by eapply Hr.
Qed.

#[export] Program Instance ideal : BufCache view := {|
  bread _ b := h <- gets v_held ;; let i := fresh (dom h) in modify (v_take i b) ;; ret i;
  blockno i := with_held i ret;
  data i := with_held i (fun b => gets (fun v => v_mem v b));
  set_data i x := with_held i (fun b => modify (v_set b x));
  bwrite i := with_held i (fun b => modify (v_write b));
  pin i := with_held i (fun b => modify (v_pin b));
  brelse i := with_held i (fun _ => modify (v_drop i));
  repr n s v := s = v /\ good n v
|}.
Next Obligation.
  intros n s v b [-> Hg] Hb Hh _. exists (fresh (dom (v_held v))), (v_take (fresh (dom (v_held v))) b v).
  assert (v_held v !! fresh (dom (v_held v)) = None) as Hf by (apply not_elem_of_dom, is_fresh).
  split; [done|]. split; [done|]. split; [done|]. by apply good_take.
Qed.
Next Obligation. intros n s v i b [-> Hg] Hi. by rewrite (with_held_run _ _ _ _ Hi). Qed.
Next Obligation. intros n s v i b [-> Hg] Hi. by rewrite (with_held_run _ _ _ _ Hi). Qed.
Next Obligation.
  intros n s v i b x [-> Hg] Hi Hx. rewrite (with_held_run _ _ _ _ Hi). eexists. split; [done|].
  split; [done|]. eapply good_set; [done|done|]. by rewrite Hx, (gd_length n v Hg).
Qed.
Next Obligation.
  intros n s v i b [-> Hg] Hi. rewrite (with_held_run _ _ _ _ Hi). eexists. split; [done|].
  split; [done|]. by apply good_write.
Qed.
Next Obligation.
  intros n s v i b [-> [Hl Hc Hr]] Hi. rewrite (with_held_run _ _ _ _ Hi). eexists. split; [done|].
  split; [done|]. split; [exact Hl| |exact Hr]. intros c Hp. apply Hc.
  unfold v_pin in Hp. proj_upd in Hp. set_solver.
Qed.
Next Obligation.
  intros n s v i b [-> Hg] Hi Hb. rewrite (with_held_run _ _ _ _ Hi). eexists. split; [done|].
  split; [done|]. by eapply good_drop.
Qed.
Next Obligation. intros n s v b [-> Hg]. by apply (gd_clean n v Hg). Qed.
Next Obligation. intros n s v i b [-> Hg]. by apply (gd_range n v Hg). Qed.
Next Obligation. intros n s v b [-> Hg]. by apply (gd_length n v Hg). Qed.
End Ideal.
