(* ===== verification/Bio.v ===== *)
(** * The buffer cache (xv6-public/bio.c, memide.c, buf.h)

    The cache is an array of [NBUF] buffers on a circular list headed by the
    extra node [HEAD], most recently used first.  [iderw] is the one of
    memide.c: the disk answers at once.  Every disk write is also recorded in
    [s_trace], from which the states a crash can leave behind are read off in
    Log.v.  A section under [bcache.lock] is one step. *)

From S2P Require Import Prelude Dll Spinlock Bytes.

Module Bio.
Import Sleeplock.

Definition NBUF : nat := 60.
Definition HEAD : nat := NBUF.
Definition B_VALID : Z := 2.
Definition B_DIRTY : Z := 4.

Record buf := mkBuf {
  b_flags : Z;
  b_dev : Z;
  b_blockno : Z;
  b_lock : sleeplock;
  b_refcnt : Z;
  b_prev : option nat;
  b_next : option nat;
  b_data : block
}.
#[export] Instance eta_buf : Eta buf := fun r =>
  mkBuf (b_flags r) (b_dev r) (b_blockno r) (b_lock r) (b_refcnt r) (b_prev r) (b_next r)
    (b_data r).
Definition buf0 : buf := mkBuf 0 0 0 initsleeplock 0 None None zero_block.

#[export, refine] Instance buf_node : Node buf := {|
  nprev := b_prev; nnext := b_next;
  set_nprev o b := b <| b_prev := o |>;
  set_nnext o b := b <| b_next := o |>
|}.
Proof. all: done. Defined.

Definition valid (b : buf) : bool := negb (Z.land (b_flags b) B_VALID =? 0).
Definition dirty (b : buf) : bool := negb (Z.land (b_flags b) B_DIRTY =? 0).

(** The cache, the disk and its write history; [s_pid] is the running
    process. *)
Record storage := mkStorage {
  s_bufs : list buf;
  s_disk : gmap Z block;
  s_disksize : Z;
  s_trace : list (Z * block);
  s_pid : Z
}.
#[export] Instance eta_storage : Eta storage := fun r =>
  mkStorage (s_bufs r) (s_disk r) (s_disksize r) (s_trace r) (s_pid r).
#[export] Instance set_s_bufs : Setter s_bufs.
Proof. build_setter. Defined.
#[export] Instance set_s_disk : Setter s_disk.
Proof. build_setter. Defined.
#[export] Instance set_s_trace : Setter s_trace.
Proof. build_setter. Defined.
#[export] Instance set_s_pid : Setter s_pid.
Proof. build_setter. Defined.

Definition disk_block (d : gmap Z block) (b : Z) : block := default zero_block (d !! b).

Definition getbuf (i : nat) : M storage buf := bs <- gets s_bufs ;; deref (bs !! i).
Definition setbuf (i : nat) (f : buf -> buf) : M storage unit :=
  getbuf i ;; modify (fun s => s <| s_bufs ::= alter f i |>).

(** The buffers linked behind the head one after the other, so that the last
    one is the most recently used. *)
Definition binit : M storage unit :=
  setbuf HEAD (fun b => b <| b_prev := Some HEAD |>) ;;
  setbuf HEAD (fun b => b <| b_next := Some HEAD |>) ;;
  forM (seq 0 NBUF) (fun i =>
    h <- getbuf HEAD ;;
    setbuf i (fun b => b <| b_next := b_next h |> <| b_prev := Some HEAD |>
                         <| b_lock := initsleeplock |>) ;;
    n <- deref (b_next h) ;;
    setbuf n (fun b => b <| b_prev := Some i |>) ;;
    setbuf HEAD (fun b => b <| b_next := Some i |>)).

(** [acquiresleep(&b->lock)] and its companions. *)
Definition lock_buf (i : nat) : M storage unit :=
  b <- getbuf i ;;
  me <- gets s_pid ;;
  if sl_locked (b_lock b) then sleepon (ChBuf i) else
  setbuf i (fun b => b <| b_lock := mkSleeplock true me |>).
Definition unlock_buf (i : nat) : M storage unit :=
  setbuf i (fun b => b <| b_lock := mkSleeplock false 0 |>).
Definition holding_buf (i : nat) : M storage bool :=
  b <- getbuf i ;; me <- gets s_pid ;; ret (holdingsleep me (b_lock b)).

(** The two walks of [bget], forwards for the block and backwards for a buffer
    to recycle. *)
Fixpoint find_cached (fuel : nat) (p : option nat) (dev blockno : Z) : M storage (option nat) :=
  match fuel with
  | O => spin
  | S fuel' =>
      i <- deref p ;;
      if (i =? HEAD)%nat then ret None else
      b <- getbuf i ;;
      if (b_dev b =? dev) && (b_blockno b =? blockno) then ret (Some i)
      else find_cached fuel' (b_next b) dev blockno
  end.
Fixpoint find_unused (fuel : nat) (p : option nat) : M storage (option nat) :=
  match fuel with
  | O => spin
  | S fuel' =>
      i <- deref p ;;
      if (i =? HEAD)%nat then ret None else
      b <- getbuf i ;;
      if (b_refcnt b =? 0) && negb (dirty b) then ret (Some i)
      else find_unused fuel' (b_prev b)
  end.

Definition bget (dev blockno : Z) : M storage nat :=
  h <- getbuf HEAD ;;
  o <- find_cached (S (S NBUF)) (b_next h) dev blockno ;;
  match o with
  | Some i =>
      setbuf i (fun b => b <| b_refcnt ::= fun c => u32 (c + 1) |>) ;;
      lock_buf i ;;
      ret i
  | None =>
      o <- find_unused (S (S NBUF)) (b_prev h) ;;
      match o with
      | Some i =>
          setbuf i (fun b => b <| b_dev := dev |> <| b_blockno := blockno |>
                               <| b_flags := 0 |> <| b_refcnt := 1 |>) ;;
          lock_buf i ;;
          ret i
      | None => panic "bget: no buffers"
      end
  end.

Definition iderw (i : nat) : M storage unit :=
  h <- holding_buf i ;;
  if negb h then panic "iderw: buf not locked" else
  b <- getbuf i ;;
  if Z.land (b_flags b) (Z.lor B_VALID B_DIRTY) =? B_VALID then panic "iderw: nothing to do" else
  if negb (b_dev b =? 1) then panic "iderw: request not for disk 1" else
  n <- gets s_disksize ;;
  if n <=? b_blockno b then panic "iderw: block out of range" else
  (if dirty b then
     setbuf i (fun b => b <| b_flags ::= fun f => Z.land f (Z.lnot B_DIRTY) |>) ;;
     modify (fun s => s <| s_disk ::= <[b_blockno b := b_data b]> |>
                        <| s_trace ::= fun t => t ++ [(b_blockno b, b_data b)] |>)
   else
     d <- gets s_disk ;;
     setbuf i (fun b => b <| b_data := disk_block d (b_blockno b) |>)) ;;
  setbuf i (fun b => b <| b_flags ::= fun f => Z.lor f B_VALID |>).

Definition bread (dev blockno : Z) : M storage nat :=
  i <- bget dev blockno ;;
  b <- getbuf i ;;
  when (negb (valid b)) (iderw i) ;;
  ret i.

Definition bwrite (i : nat) : M storage unit :=
  h <- holding_buf i ;;
  if negb h then panic "bwrite" else
  setbuf i (fun b => b <| b_flags ::= fun f => Z.lor f B_DIRTY |>) ;;
  iderw i.

Definition brelse (i : nat) : M storage unit :=
  h <- holding_buf i ;;
  if negb h then panic "brelse" else
  unlock_buf i ;;
  setbuf i (fun b => b <| b_refcnt ::= fun c => u32 (c - 1) |>) ;;
  b <- getbuf i ;;
  when (b_refcnt b =? 0)
    (n <- deref (b_next b) ;;
     setbuf n (fun c => c <| b_prev := b_prev b |>) ;;
     b <- getbuf i ;;
     p <- deref (b_prev b) ;;
     setbuf p (fun c => c <| b_next := b_next b |>) ;;
     h <- getbuf HEAD ;;
     setbuf i (fun b => b <| b_next := b_next h |> <| b_prev := Some HEAD |>) ;;
     n <- deref (b_next h) ;;
     setbuf n (fun c => c <| b_prev := Some i |>) ;;
     setbuf HEAD (fun c => c <| b_next := Some i |>)).
End Bio.
