(* ===== verification/Ide.v ===== *)
(** * The disk driver (xv6-public/ide.c)

    The driver keeps its requests in a linked queue, hands the first one to the
    disk and is told of its end by an interrupt.  The disk is a device with registers
    behind ports; [dev_finish] is the step in which it carries out the command
    it was given.  Every interrupt is shown to have the effect that the driver of
    memide.c, on which the buffer cache is built, has at once. *)

From S2P Require Import Prelude Dll Spinlock Bytes Bio.

Module Ide.
Import Sleeplock Bio.

Abbreviation FSSIZE := 40000 (only parsing).
Abbreviation SECTOR_SIZE := 512 (only parsing).
Abbreviation IDE_CMD_READ := 0x20 (only parsing).
Abbreviation IDE_CMD_WRITE := 0x30 (only parsing).
Abbreviation IDE_CMD_RDMUL := 0xc4 (only parsing).
Abbreviation IDE_CMD_WRMUL := 0xc5 (only parsing).

(** The driver, the registers of the disk, and the buffers whose process was woken. *)
Record ide := mkIde {
  i_store : storage;
  i_head : option nat;              (* idequeue *)
  i_qnext : gmap nat (option nat);  (* b->qnext *)
  i_have1 : bool;                   (* havedisk1 *)
  i_wakes : list nat;
  d_count : Z; d_lba0 : Z; d_lba1 : Z; d_lba2 : Z; d_lba3 : Z;
  d_cmd : Z;
  d_data : block;
  d_busy : bool;
  d_err : bool
}.
#[export] Instance eta_ide : Eta ide := fun s =>
  mkIde (i_store s) (i_head s) (i_qnext s) (i_have1 s) (i_wakes s) (d_count s) (d_lba0 s) (d_lba1 s) (d_lba2 s)
    (d_lba3 s) (d_cmd s) (d_data s) (d_busy s) (d_err s).
#[export] Instance set_i_store : Setter i_store.
Proof. build_setter. Defined.

(** ** The device *)

Definition outb (port v : Z) : M ide unit :=
  if port =? 0x1f2 then modify (fun s => s <| d_count := u8 v |>)
  else if port =? 0x1f3 then modify (fun s => s <| d_lba0 := u8 v |>)
  else if port =? 0x1f4 then modify (fun s => s <| d_lba1 := u8 v |>)
  else if port =? 0x1f5 then modify (fun s => s <| d_lba2 := u8 v |>)
  else if port =? 0x1f6 then modify (fun s => s <| d_lba3 := u8 v |>)
  else if port =? 0x1f7 then modify (fun s => s <| d_cmd := u8 v |> <| d_busy := true |>)
  else ret tt.
Definition outsl (data : block) : M ide unit := modify (fun s => s <| d_data := data |>).
Definition insl : M ide block := gets d_data.

(** The sector in the registers. *)
Definition lba (s : ide) : Z :=
  d_lba0 s + Z.shiftl (d_lba1 s) 8 + Z.shiftl (d_lba2 s) 16 + Z.shiftl (Z.land (d_lba3 s) 15) 24.

(** The disk carries out its command, or fails. *)
Definition dev_finish (err : bool) : M ide unit :=
  b <- gets d_busy ;;
  if negb b then ret tt else
  c <- gets d_cmd ;; n <- gets lba ;; data <- gets d_data ;; d <- gets (fun s => s_disk (i_store s)) ;;
  when (negb err && (c =? IDE_CMD_WRITE))
    (modify (fun s => s <| i_store ::= fun st => st <| s_disk ::= <[n := data]> |>
                                                  <| s_trace ::= fun t => t ++ [(n, data)] |> |>)) ;;
  when (negb err && (c =? IDE_CMD_READ)) (modify (fun s => s <| d_data := disk_block d n |>)) ;;
  modify (fun s => s <| d_busy := false |> <| d_err := err |>).

(** ** The driver *)

Definition getb (i : nat) : M ide buf := zoom i_store (getbuf i).
Definition setb (i : nat) (f : buf -> buf) : M ide unit := zoom i_store (setbuf i f).

(** Waits for the disk: one that stays busy is waited for without end. *)
Definition idewait (checkerr : bool) : M ide Z :=
  b <- gets d_busy ;; e <- gets d_err ;;
  if (b : bool) then spin else ret (if checkerr && e then -1 else 0).

Definition idestart (o : option nat) : M ide unit :=
  match o with
  | None => panic "idestart"
  | Some i =>
      b <- getb i ;;
      if FSSIZE <=? b_blockno b then panic "incorrect blockno" else
      let sector_per_block := BSIZE / SECTOR_SIZE in
      let sector := b_blockno b * sector_per_block in
      let read_cmd := if sector_per_block =? 1 then IDE_CMD_READ else IDE_CMD_RDMUL in
      let write_cmd := if sector_per_block =? 1 then IDE_CMD_WRITE else IDE_CMD_WRMUL in
      if 7 <? sector_per_block then panic "idestart" else
      idewait false ;;
      outb 0x3f6 0 ;;
      outb 0x1f2 sector_per_block ;;
      outb 0x1f3 (Z.land sector 0xff) ;;
      outb 0x1f4 (Z.land (Z.shiftr sector 8) 0xff) ;;
      outb 0x1f5 (Z.land (Z.shiftr sector 16) 0xff) ;;
      outb 0x1f6 (Z.lor 0xe0 (Z.lor (Z.shiftl (Z.land (b_dev b) 1) 4) (Z.land (Z.shiftr sector 24) 0x0f))) ;;
      if dirty b then outb 0x1f7 write_cmd ;; outsl (b_data b)
      else outb 0x1f7 read_cmd
  end.

(** The data of a read. *)
Definition ide_fetch (i : nat) : M ide unit :=
  b <- getb i ;;
  if negb (dirty b) then
    r <- idewait true ;;
    when (0 <=? r) (data <- insl ;; setb i (fun b => b <| b_data := data |>))
  else ret tt.
(** The request is done: [wakeup(b)]. *)
Definition ide_done (i : nat) : M ide unit :=
  setb i (fun b => b <| b_flags ::= fun f => Z.lor f B_VALID |>) ;;
  setb i (fun b => b <| b_flags ::= fun f => Z.land f (Z.lnot B_DIRTY) |>) ;;
  modify (fun s => s <| i_wakes ::= fun l => l ++ [i] |>).

Definition ideintr : M ide unit :=
  h <- gets i_head ;;
  match h with
  | None => ret tt
  | Some i =>
      q <- gets i_qnext ;;
      n <- deref (q !! i) ;;
      modify (fun s => s <| i_head := n |>) ;;
      ide_fetch i ;;
      ide_done i ;;
      h <- gets i_head ;;
      when (bool_decide (is_Some h)) (idestart h)
  end.

(** The walk along [qnext] to the end of the queue, where [i] is linked. *)
Fixpoint enqueue (fuel : nat) (j i : nat) : M ide unit :=
  match fuel with
  | O => spin
  | S fuel' =>
      q <- gets i_qnext ;;
      n <- deref (q !! j) ;;
      match n with
      | None => modify (fun s => s <| i_qnext ::= <[j := Some i]> |>)
      | Some j' => enqueue fuel' j' i
      end
  end.

(** The loop of [iderw]: is the request done? *)
Definition iderw_done (i : nat) : M ide bool :=
  b <- getb i ;; ret (Z.land (b_flags b) (Z.lor B_VALID B_DIRTY) =? B_VALID).

(** [iderw] up to its first [sleep]; it goes on with [iderw_done] when it is woken. *)
Definition iderw_begin (i : nat) : M ide bool :=
  h <- zoom i_store (holding_buf i) ;;
  if negb h then panic "iderw: buf not locked" else
  b <- getb i ;;
  if Z.land (b_flags b) (Z.lor B_VALID B_DIRTY) =? B_VALID then panic "iderw: nothing to do" else
  h1 <- gets i_have1 ;;
  if negb (b_dev b =? 0) && negb h1 then panic "iderw: ide disk 1 not present" else
  modify (fun s => s <| i_qnext ::= <[i := None]> |>) ;;
  h <- gets i_head ;;
  q <- gets i_qnext ;;
  match h with
  | None => modify (fun s => s <| i_head := Some i |>)
  | Some j => enqueue (S (size q)) j i
  end ;;
  h <- gets i_head ;;
  when (bool_decide (h = Some i)) (idestart h) ;;
  iderw_done i.

(** ** The queue *)

Fixpoint chain (qn : gmap nat (option nat)) (o : option nat) (q : list nat) : Prop :=
  match q with
  | [] => o = None
  | i :: q' => o = Some i /\ exists n, qn !! i = Some n /\ chain qn n q'
  end.

Lemma chain_insert qn o q j n : j ∉ q -> chain qn o q -> chain (<[j := n]> qn) o q.
Proof.
  revert o. induction q as [|i q IH]; intros o Hj; cbn; [done|]. intros [-> (m & Hm & Hc)].
  split; [done|]. exists m. split; [rewrite lookup_insert_ne by set_solver; done|]. apply IH; [set_solver|done].
Qed.

Lemma chain_size qn o q : NoDup q -> chain qn o q -> (length q <= size qn)%nat.
Proof.
  intros Hn Hc. rewrite <- (size_list_to_set (C := gset nat)) by exact Hn. rewrite <- (size_dom qn).
  apply subseteq_size. clear Hn. revert o Hc. induction q as [|i q IH]; intros o; cbn; [set_solver|].
  intros (-> & n & Hi & Hc). apply elem_of_dom_2 in Hi. specialize (IH _ Hc). set_solver.
Qed.

Lemma enqueue_run i q : forall fuel j s, (length q < fuel)%nat -> NoDup (j :: q) -> i ∉ j :: q ->
  i_qnext s !! i = Some None -> chain (i_qnext s) (Some j) (j :: q) ->
  exists s', enqueue fuel j i s = Ok tt s' /\ chain (i_qnext s') (Some j) (j :: q ++ [i]) /\
    s' = s <| i_qnext := i_qnext s' |>.
Proof.
  induction q as [|k q IH]; intros [|fuel] j s Hf Hnd Hi Hni Hc; cbn in Hf; try lia; cbn [enqueue]; mstep;
    destruct Hc as [_ (n & Hj & Hc)]; rewrite Hj; mstep.
  - cbn in Hc. subst n. eexists. split; [reflexivity|]. split; [|by destruct s]. proj_upd.
    split; [done|]. exists (Some i). rewrite lookup_insert_eq. split; [done|]. cbn. split; [done|].
    exists None. rewrite lookup_insert_ne by set_solver. done.
  - destruct Hc as [-> (m & Hk & Hc)]. apply NoDup_cons in Hnd as [Hjq Hnd].
    destruct (IH fuel k s) as (s' & Hr & Hc' & Hs'); [lia|done|set_solver|done|by split; eauto|].
    exists s'. split; [done|]. split; [|done]. split; [done|]. exists (Some k). split; [|done].
    (* the cell of [j] is not written *)
    clear -Hr Hjq Hj Hi. assert (Hkeep : forall fuel k s, j <> i -> enqueue fuel k i s = Ok tt s' ->
      (forall n, i_qnext s !! j = Some n -> n <> None) -> i_qnext s' !! j = i_qnext s !! j).
    { clear. induction fuel as [|fuel IH]; intros k s Hji; cbn [enqueue]; [done|]. mstep.
      destruct (i_qnext s !! k) as [n|] eqn:Ek; [|done]. mstep. destruct n as [k'|]; [by apply IH|].
      intros [= <-] Hn. proj_upd. rewrite lookup_insert_ne; [done|]. intros ->. by apply (Hn None). }
    rewrite (Hkeep _ _ _ ltac:(set_solver) Hr); [done|]. intros n Hn. congruence.
Qed.

(** ** The registers *)

Lemma u8_land x : u8 (Z.land x 255) = x mod 256.
Proof. change 255 with (Z.ones 8). rewrite Z.land_ones by lia. unfold u8. by rewrite Z.mod_mod. Qed.

Lemma lba3_low d n : 0 <= n < FSSIZE ->
  Z.land (u8 (Z.lor 0xe0 (Z.lor (Z.shiftl (Z.land d 1) 4) (Z.land (Z.shiftr n 24) 0x0f)))) 15 = 0.
Proof.
  intros Hn. assert (Z.shiftr n 24 = 0) as ->.
  { rewrite Z.shiftr_div_pow2 by lia. apply Z.div_small. lia. }
  change (Z.land d 1) with (Z.land d (Z.ones 1)). rewrite Z.land_ones by lia. change (2 ^ 1) with 2.
  pose proof (Z.mod_pos_bound d 2 ltac:(lia)). destruct (Z.eq_dec (d mod 2) 0) as [->|]; [done|].
  replace (d mod 2) with 1 by lia. done.
Qed.

Lemma lba_bytes n : 0 <= n < FSSIZE ->
  u8 (Z.land n 255) + Z.shiftl (u8 (Z.land (Z.shiftr n 8) 255)) 8 + Z.shiftl (u8 (Z.land (Z.shiftr n 16) 255)) 16 = n.
Proof.
  intros Hn. rewrite !u8_land, !Z.shiftl_mul_pow2, !Z.shiftr_div_pow2 by lia.
  change (2 ^ 8) with 256. change (2 ^ 16) with 65536. Z.div_mod_to_equations. lia.
Qed.

Definition request (b : buf) : Prop :=
  0 <= b_blockno b < FSSIZE /\ b_dev b = 1 /\ sl_locked (b_lock b) = true /\
  (Z.land (b_flags b) (Z.lor B_VALID B_DIRTY) =? B_VALID) = false.

(** The disk works on the request of [b]. *)
Definition serving (s : ide) (b : buf) : Prop :=
  d_busy s = true /\ lba s = b_blockno b /\
  if dirty b then d_cmd s = IDE_CMD_WRITE /\ d_data s = b_data b else d_cmd s = IDE_CMD_READ.

Lemma getb_run i b s : s_bufs (i_store s) !! i = Some b -> getb i s = Ok b s.
Proof.
  intros E. unfold getb, zoom, getbuf. mstep. rewrite E. unfold deref, ret. f_equal. by destruct s.
Qed.

Lemma setb_run i f b s : s_bufs (i_store s) !! i = Some b ->
  setb i f s = Ok tt (s <| i_store ::= fun st => st <| s_bufs ::= alter f i |> |>).
Proof. intros E. unfold setb, zoom, setbuf, getbuf. mstep. rewrite E. mstep. done. Qed.

Lemma idestart_run i b s : s_bufs (i_store s) !! i = Some b -> request b -> d_busy s = false ->
  exists s', idestart (Some i) s = Ok tt s' /\ serving s' b /\ i_store s' = i_store s /\ i_head s' = i_head s /\
    i_qnext s' = i_qnext s /\ i_have1 s' = i_have1 s /\ i_wakes s' = i_wakes s.
Proof.
  intros Eb (Hn & Hd & Hl & Hf) Hb. unfold idestart. rewrite (bind_Ok _ _ _ _ _ (getb_run _ _ _ Eb)).
  replace (FSSIZE <=? b_blockno b) with false by lia. change (BSIZE / SECTOR_SIZE) with 1. cbv zeta.
  change (7 <? 1) with false. change (1 =? 1) with true. cbv iota. unfold idewait. mstep. rewrite Hb. mstep.
  rewrite Z.mul_1_r. unfold outb. cbn [Z.eqb Pos.eqb]. mstep.
  destruct (dirty b) eqn:Ed; mstep; (eexists; split; [reflexivity|]; split; [|done]); unfold serving; rewrite Ed;
    (split; [done|]; split; [|done]); unfold lba; proj_upd; rewrite lba3_low, lba_bytes by done;
    rewrite Z.shiftl_0_l; lia.
Qed.

(** ** The driver and the disk *)

(** The requests [q] wait in the queue and the disk works on the first one. *)
Record ide_ok (s : ide) (q : list nat) : Prop := {
  io_chain : chain (i_qnext s) (i_head s) q;
  io_nodup : NoDup q;
  io_req : forall i, i ∈ q -> exists b, s_bufs (i_store s) !! i = Some b /\ request b;
  io_dev : match q with
           | [] => d_busy s = false
           | i :: _ => exists b, s_bufs (i_store s) !! i = Some b /\ serving s b
           end;
  io_size : s_disksize (i_store s) = FSSIZE;
  io_have1 : i_have1 s = true
}.

(** A request of the process that holds the buffer is put at the end of the queue. *)
Lemma submit_ok s q i b : ide_ok s q -> i ∉ q -> s_bufs (i_store s) !! i = Some b -> request b ->
  sl_pid (b_lock b) = s_pid (i_store s) ->
  exists s', iderw_begin i s = Ok false s' /\ ide_ok s' (q ++ [i]) /\ i_store s' = i_store s.
Proof.
  intros Hok Hi Eb Hreq Hpid. pose proof Hreq as (Hn & Hd & Hl & Hf). unfold iderw_begin.
  assert (Hh : zoom i_store (holding_buf i) s = Ok true s).
  { unfold zoom, holding_buf, getbuf. mstep. rewrite Eb. mstep. unfold holdingsleep. rewrite Hl, Hpid, Z.eqb_refl.
    unfold ret. f_equal. by destruct s. }
  rewrite (bind_Ok _ _ _ _ _ Hh). cbn [negb]. rewrite (bind_Ok _ _ _ _ _ (getb_run _ _ _ Eb)). rewrite Hf. mstep.
  rewrite (io_have1 _ _ Hok). rewrite andb_false_r. mstep. proj_upd.
  set (s1 := s <| i_qnext ::= <[i := None]> |>).
  assert (Hc1 : chain (i_qnext s1) (i_head s) q) by (apply chain_insert; [done|apply (io_chain _ _ Hok)]).
  assert (Hq1 : i_qnext s1 !! i = Some None) by apply lookup_insert_eq.
  assert (Hfin : forall s2, ide_ok s2 (q ++ [i]) -> i_store s2 = i_store s ->
    exists s', iderw_done i s2 = Ok false s' /\ ide_ok s' (q ++ [i]) /\ i_store s' = i_store s).
  { intros s2 Hok2 Hst. exists s2. unfold iderw_done. rewrite (bind_Ok _ _ _ _ _ (getb_run i b s2 ltac:(by rewrite Hst))).
    by rewrite Hf. }
  assert (Hreq' : forall j, j ∈ q ++ [i] -> exists b, s_bufs (i_store s) !! j = Some b /\ request b).
  { intros j [Hj| ->%list_elem_of_singleton]%elem_of_app; [by apply (io_req _ _ Hok)|by exists b]. }
  assert (Hnd : NoDup (q ++ [i])).
  { apply NoDup_app. split_and!; [apply (io_nodup _ _ Hok)|set_solver|apply NoDup_singleton]. }
  destruct q as [|j q]; cbn [app] in *.
  - pose proof (io_chain _ _ Hok) as Hhd. cbn in Hhd. rewrite Hhd. mstep. proj_upd.
    rewrite bool_decide_true by done. cbn [when].
    destruct (idestart_run i b (s1 <| i_head := Some i |>)) as (s2 & E2 & Hserv & H1 & H2 & H3 & H4 & H5);
      [done|done|exact (io_dev _ _ Hok)|].
    rewrite (bind_Ok _ _ _ _ _ E2). apply Hfin; [|exact H1]. split; [|done| | | |].
    + rewrite H2, H3. split; [done|]. by exists None.
    + rewrite H1. exact Hreq'.
    + exists b. rewrite H1. by split.
    + rewrite H1. apply (io_size _ _ Hok).
    + rewrite H4. apply (io_have1 _ _ Hok).
  - destruct Hc1 as [Hhd Hc1]. rewrite Hhd.
    assert (Hc2 : chain (i_qnext s1) (Some j) (j :: q)) by (by split).
    pose proof (chain_size _ _ _ (io_nodup _ _ Hok) Hc2) as Hsz. cbn in Hsz.
    destruct (enqueue_run i q (S (size (i_qnext s1))) j s1) as (s2 & E2 & Hc3 & Hs2);
      [lia|apply (io_nodup _ _ Hok)|done|done|done|].
    rewrite (bind_Ok _ _ _ _ _ E2). mstep.
    assert (Hhead : i_head s2 = Some j) by (rewrite Hs2; exact Hhd). rewrite Hhead, bool_decide_false by set_solver. mstep.
    apply Hfin; [|by rewrite Hs2]. split; [by rewrite Hhead|done| | | |].
    + rewrite Hs2. exact Hreq'.
    + destruct (io_dev _ _ Hok) as (b' & Hb' & Hserv). exists b'. by rewrite Hs2.
    + rewrite Hs2. apply (io_size _ _ Hok).
    + rewrite Hs2. apply (io_have1 _ _ Hok).
Qed.

Lemma flags_done f : Z.land (Z.lor f B_VALID) (Z.lnot B_DIRTY) = Z.lor (Z.land f (Z.lnot B_DIRTY)) B_VALID.
Proof. unfold B_VALID, B_DIRTY. rewrite Z.land_lor_distr_l. done. Qed.

Lemma flags_clean f : Z.land f B_DIRTY = 0 -> Z.land f (Z.lnot B_DIRTY) = f.
Proof.
  intros H. rewrite <- (Z.lor_0_r (Z.land f _)), <- H, <- Z.land_lor_distr_r. change (Z.lor (Z.lnot B_DIRTY) B_DIRTY) with (-1).
  apply Z.land_m1_r.
Qed.

Lemma flags_valid f : (Z.land (Z.land (Z.lor f B_VALID) (Z.lnot B_DIRTY)) (Z.lor B_VALID B_DIRTY) =? B_VALID) = true.
Proof.
  rewrite flags_done. apply Z.eqb_eq. rewrite Z.land_lor_distr_l, <- Z.land_assoc.
  change (Z.land (Z.lnot B_DIRTY) (Z.lor B_VALID B_DIRTY)) with B_VALID.
  change (Z.land B_VALID (Z.lor B_VALID B_DIRTY)) with B_VALID.
  apply Z.bits_inj. intros k. rewrite Z.lor_spec, Z.land_spec.
  by destruct (Z.testbit f k), (Z.testbit B_VALID k).
Qed.

(** The state of the buffer and the disk after a request, as both drivers leave it. *)
Definition served (d : gmap Z block) (b : buf) : buf :=
  (if dirty b then b else b <| b_data := disk_block d (b_blockno b) |>)
    <| b_flags := Z.land (Z.lor (b_flags b) B_VALID) (Z.lnot B_DIRTY) |>.
Definition effect (i : nat) (b : buf) (st : storage) : storage :=
  let st' := st <| s_bufs ::= <[i := served (s_disk st) b]> |> in
  if dirty b then st' <| s_disk ::= <[b_blockno b := b_data b]> |> <| s_trace ::= fun t => t ++ [(b_blockno b, b_data b)] |>
  else st'.

Lemma clean_flags b : dirty b = false -> Z.land (b_flags b) B_DIRTY = 0.
Proof. unfold dirty. intros H%negb_false_iff%Z.eqb_eq. done. Qed.

Lemma memide_run i b st : s_bufs st !! i = Some b -> request b -> s_disksize st = FSSIZE ->
  s_pid st = sl_pid (b_lock b) -> iderw i st = Ok tt (effect i b st).
Proof.
  intros Eb (Hn & Hd & Hl & Hf) Hsz Hp. unfold iderw, holding_buf, getbuf. mstep. rewrite Eb. mstep.
  unfold holdingsleep. rewrite Hl, Hp, Z.eqb_refl. cbn [andb negb]. mstep. rewrite Eb. mstep. rewrite Hf, Hd. cbn [Z.eqb Pos.eqb negb].
  mstep. rewrite Hsz. replace (FSSIZE <=? b_blockno b) with false by lia.
  destruct st as [bs dk n tr pd]. cbn in Eb.
  assert (Hset : forall f x bs dk tr, bs !! i = Some x ->
    setbuf i f (mkStorage bs dk n tr pd) = Ok tt (mkStorage (<[i := f x]> bs) dk n tr pd)).
  { intros f x bs' dk' tr' Ex. unfold setbuf, getbuf. mstep. cbn [s_bufs]. rewrite Ex. mstep.
    by rewrite <- (alter_as_insert f bs' i x Ex). }
  assert (Hat : forall x, <[i := x]> bs !! i = Some x) by (intros; apply list_lookup_insert_eq; by eapply lookup_lt_Some).
  unfold effect, served. destruct (dirty b) eqn:Ed; cbv iota.
  - rewrite bind_bind, (bind_Ok _ _ _ _ _ (Hset _ b bs dk tr Eb)), bind_modify.
    etransitivity; [exact (Hset _ _ _ (<[b_blockno b := b_data b]> dk) (tr ++ [(b_blockno b, b_data b)]) (Hat _))|].
    rewrite list_insert_insert_eq, flags_done. reflexivity.
  - mstep. cbn [s_disk]. rewrite (bind_Ok _ _ _ _ _ (Hset _ b bs dk tr Eb)).
    rewrite (Hset _ _ _ _ _ (Hat _)), list_insert_insert_eq, flags_done, (flags_clean _ (clean_flags _ Ed)). reflexivity.
Qed.

(** The disk part of [effect]. *)
Definition on_disk (b : buf) (st : storage) : storage :=
  if dirty b then st <| s_disk ::= <[b_blockno b := b_data b]> |> <| s_trace ::= fun t => t ++ [(b_blockno b, b_data b)] |>
  else st.

Lemma finish_run s b : serving s b -> exists s1, dev_finish false s = Ok tt s1 /\
  d_busy s1 = false /\ d_err s1 = false /\ i_store s1 = on_disk b (i_store s) /\
  (dirty b = false -> d_data s1 = disk_block (s_disk (i_store s)) (b_blockno b)) /\
  i_head s1 = i_head s /\ i_qnext s1 = i_qnext s /\ i_have1 s1 = i_have1 s /\ i_wakes s1 = i_wakes s.
Proof.
  intros (Hb & Hl & Hc). unfold dev_finish, on_disk. mstep. rewrite Hb. cbn [negb]. mstep. rewrite Hl.
  destruct (dirty b); [destruct Hc as [-> ->]|rewrite Hc]; cbn [Z.eqb Pos.eqb andb negb]; mstep;
    (eexists; split; [reflexivity|]; by split_and!).
Qed.

(** The driver's part of a state, without the storage. *)
Definition rest_of (s : ide) : option nat * gmap nat (option nat) * bool * bool := (i_head s, i_qnext s, i_have1 s, d_busy s).

Lemma bufs_ext g h (st : storage) : g (s_bufs st) = h (s_bufs st) -> st <| s_bufs ::= g |> = st <| s_bufs ::= h |>.
Proof. destruct st. unfold upd, set_s_bufs. cbn. by intros ->. Qed.

Lemma bufs_twice i x y (st : storage) :
  st <| s_bufs ::= <[i := x]> |> <| s_bufs ::= <[i := y]> |> = st <| s_bufs ::= <[i := y]> |>.
Proof. destruct st. unfold upd, set_s_bufs. cbn. by rewrite list_insert_insert_eq. Qed.

Lemma setb_at i f b s : s_bufs (i_store s) !! i = Some b ->
  exists s', setb i f s = Ok tt s' /\ i_store s' = (i_store s) <| s_bufs ::= <[i := f b]> |> /\
    rest_of s' = rest_of s /\ i_wakes s' = i_wakes s.
Proof.
  intros E. rewrite (setb_run _ _ _ _ E). eexists. split; [reflexivity|]. split_and!; [|done..].
  proj_upd. apply bufs_ext. by apply alter_as_insert.
Qed.

Lemma fetch_run i b d s : s_bufs (i_store s) !! i = Some b -> d_busy s = false -> d_err s = false ->
  (dirty b = false -> d_data s = disk_block d (b_blockno b)) ->
  exists s', ide_fetch i s = Ok tt s' /\ rest_of s' = rest_of s /\ i_wakes s' = i_wakes s /\
    i_store s' = (i_store s) <| s_bufs ::= <[i := if dirty b then b else b <| b_data := disk_block d (b_blockno b) |>]> |>.
Proof.
  intros Eb Hb He Hd. unfold ide_fetch. rewrite (bind_Ok _ _ _ _ _ (getb_run _ _ _ Eb)).
  destruct (dirty b); cbn [negb].
  - exists s. split_and!; [done..|]. transitivity ((i_store s) <| s_bufs ::= fun l => l |>); [by destruct (i_store s)|].
    apply bufs_ext. by rewrite list_insert_id.
  - unfold idewait, insl. mstep. rewrite Hb, He. cbn [andb]. mstep. change (0 <=? 0) with true. cbn [when]. mstep.
    destruct (setb_at i (fun x => x <| b_data := d_data s |>) b s Eb) as (s' & Hr & Hst & Hre & Hw).
    exists s'. rewrite Hr, Hst, (Hd eq_refl). done.
Qed.

Lemma done_run i b s : s_bufs (i_store s) !! i = Some b ->
  exists s', ide_done i s = Ok tt s' /\ rest_of s' = rest_of s /\ i_wakes s' = i_wakes s ++ [i] /\
    i_store s' = (i_store s) <| s_bufs ::= <[i := b <| b_flags := Z.land (Z.lor (b_flags b) B_VALID) (Z.lnot B_DIRTY) |>]> |>.
Proof.
  intros Eb. unfold ide_done. pose proof (lookup_lt_Some _ _ _ Eb) as Hlt.
  destruct (setb_at i (fun b => b <| b_flags ::= fun f => Z.lor f B_VALID |>) b s Eb) as (s1 & E1 & St1 & R1 & W1).
  rewrite (bind_Ok _ _ _ _ _ E1).
  destruct (setb_at i (fun b => b <| b_flags ::= fun f => Z.land f (Z.lnot B_DIRTY) |>)
    (b <| b_flags ::= fun f => Z.lor f B_VALID |>) s1) as (s2 & E2 & St2 & R2 & W2).
  { rewrite St1. by apply list_lookup_insert_eq. }
  rewrite (bind_Ok _ _ _ _ _ E2). eexists. split; [reflexivity|].
  split_and!; [exact (eq_trans R2 R1)|proj_upd; by rewrite W2, W1|]. proj_upd. rewrite St2, St1.
  by rewrite bufs_twice.
Qed.

(** The disk ends the first request: the interrupt has the effect of memide.c, wakes the process
    that waits and starts the next request. *)
Lemma complete_ok s i q b : ide_ok s (i :: q) -> s_bufs (i_store s) !! i = Some b ->
  exists s1 s', dev_finish false s = Ok tt s1 /\ ideintr s1 = Ok tt s' /\ ide_ok s' q /\
    i_wakes s' = i_wakes s ++ [i] /\ i_store s' = effect i b (i_store s).
Proof.
  intros Hok Eb. pose proof (io_nodup _ _ Hok) as [Hi Hnd]%NoDup_cons.
  destruct (io_chain _ _ Hok) as [Hh (n & Hn & Hc)].
  destruct (io_dev _ _ Hok) as (b' & Eb' & Hserv). rewrite Eb in Eb'. injection Eb' as <-.
  destruct (finish_run s b Hserv) as (s1 & E1 & Hb1 & He1 & St1 & Hd1 & Hh1 & Hq1 & Hv1 & Hw1).
  set (s2 := s1 <| i_head := n |>).
  assert (Hbufs : s_bufs (i_store s1) = s_bufs (i_store s)) by (rewrite St1; unfold on_disk; by destruct (dirty b)).
  destruct (fetch_run i b (s_disk (i_store s)) s2) as (s3 & E3 & R3 & W3 & St3);
    [change (s_bufs (i_store s1) !! i = Some b); by rewrite Hbufs|exact Hb1|exact He1|exact Hd1|].
  change (i_store s2) with (i_store s1) in St3.
  set (b3 := if dirty b then b else b <| b_data := disk_block (s_disk (i_store s)) (b_blockno b) |>) in *.
  destruct (done_run i b3 s3) as (s4 & E4 & R4 & W4 & St4).
  { rewrite St3. proj_upd. rewrite Hbufs. apply list_lookup_insert_eq. by eapply lookup_lt_Some. }
  rewrite R3 in R4. injection R4 as H4h H4q H4v H4b. proj_upd in H4h.
  assert (Hst : i_store s4 = effect i b (i_store s)).
  { rewrite St4, St3, St1. unfold effect, served, on_disk, b3.
    destruct (dirty b); rewrite bufs_twice; reflexivity. }
  assert (Hintr : ideintr s1 = bind (gets i_head) (fun h => when (bool_decide (is_Some h)) (idestart h)) s4).
  { unfold ideintr. mstep. rewrite Hh1, Hh. mstep. rewrite Hq1, Hn. mstep. fold s2.
    by rewrite (bind_Ok _ _ _ _ _ E3), (bind_Ok _ _ _ _ _ E4). }
  assert (Hreq : forall j, j ∈ q -> exists x, s_bufs (i_store s4) !! j = Some x /\ request x).
  { intros j Hj. destruct (io_req _ _ Hok j ltac:(by right)) as (x & Hx & Hrx). exists x. split; [|done].
    rewrite Hst. unfold effect. destruct (dirty b); proj_upd; rewrite list_lookup_insert_ne; (done || set_solver). }
  assert (Hchain : chain (i_qnext s4) (i_head s4) q) by (rewrite H4h, H4q, <- Hq1 in *; exact Hc).
  assert (Hsize : s_disksize (i_store s4) = FSSIZE) by (rewrite Hst; unfold effect; destruct (dirty b); apply (io_size _ _ Hok)).
  assert (Hhave : i_have1 s4 = true) by (rewrite H4v; change (i_have1 s1 = true); rewrite Hv1; apply (io_have1 _ _ Hok)).
  assert (Hwk : i_wakes s4 = i_wakes s ++ [i]) by (rewrite W4, W3; change (i_wakes s2) with (i_wakes s1); by rewrite Hw1).
  exists s1. rewrite Hintr, bind_gets. destruct q as [|j q]; cbn in Hchain.
  - rewrite Hchain. cbn [when]. rewrite bool_decide_false by (by intros [? ?]). exists s4. split_and!; try done.
    split; [exact Hchain|done|done|by rewrite H4b|done|done].
  - destruct Hchain as [Hhd Hchain]. rewrite Hhd, bool_decide_true by eauto. cbn [when].
    destruct (Hreq j ltac:(left)) as (x & Hx & Hrx).
    destruct (idestart_run j x s4 Hx Hrx ltac:(by rewrite H4b)) as (s5 & E5 & Hserv5 & St5 & H5h & H5q & H5v & H5w).
    exists s5. split_and!; [done|done| |by rewrite H5w|by rewrite St5].
    split; [rewrite H5h, H5q; by split|done| | | |].
    + rewrite St5. exact Hreq.
    + exists x. by rewrite St5.
    + by rewrite St5.
    + by rewrite H5v.
Qed.


(** Two buffers: one to be written, one to be read. *)
Definition ide_bufs : list buf :=
  [buf0 <| b_flags := B_DIRTY |> <| b_dev := 1 |> <| b_blockno := 500 |> <| b_lock := mkSleeplock true 7 |> <| b_data := [1] |>;
   buf0 <| b_dev := 1 |> <| b_blockno := 500 |> <| b_lock := mkSleeplock true 7 |>].
Definition ide0 : ide :=
  mkIde (mkStorage ide_bufs ∅ FSSIZE [] 7) None ∅ true [] 0 0 0 0 0 0 [] false false.

Lemma ide0_ok : ide_ok ide0 [].
Proof. split; [done|constructor|set_solver|done..]. Qed.


(** The write is seen by the read queued behind it. *)
Example queue_in_order :
  match (iderw_begin 0 ;; iderw_begin 1 ;; dev_finish false ;; ideintr ;; dev_finish false ;; ideintr) ide0 with
  | Ok _ s => map b_data (s_bufs (i_store s)) = [[1]; [1]] /\ i_wakes s = [0; 1]%nat /\ i_head s = None
  | _ => False
  end.
Proof. vm_compute. done. Qed.

(** A failed command: the buffer that could not be read is marked valid with the data it had, and the
    block that could not be written is taken for written. *)
Example failed_read_valid :
  match (iderw_begin 1 ;; dev_finish true ;; ideintr ;; iderw_done 1) ide0 with
  | Ok r s => r = true /\ option_map b_data (s_bufs (i_store s) !! 1%nat) = Some zero_block
  | _ => False
  end.
Proof. vm_compute. done. Qed.
Example failed_write_lost :
  match (iderw_begin 0 ;; dev_finish true ;; ideintr ;; iderw_done 0) ide0 with
  | Ok r s => r = true /\ s_disk (i_store s) = ∅
  | _ => False
  end.
Proof. vm_compute. done. Qed.
End Ide.
