(* ===== verification/Log.v ===== *)
(** * The log (xv6-public/log.c, readsb of fs.c)

    Changed blocks are pinned in the cache and listed in the in-memory log
    header; [commit] writes them to the log, commits by writing the header,
    installs them at home and clears the header.  The routines are written
    against the interface [BufCache].  Crash states are the prefixes of the
    sequence of disk writes. *)

From S2P Require Import Prelude Bytes Bufcache.

Module Log.

Definition LOGSIZE : Z := 60.
Definition MAXOPBLOCKS : Z := 20.

(** [struct superblock]. *)
Record superblock := mkSb {
  sb_size : Z; sb_nblocks : Z; sb_ninodes : Z; sb_nlog : Z; sb_logstart : Z;
  sb_inodestart : Z; sb_bmapstart : Z
}.
Definition decode_sb (d : block) : superblock :=
  mkSb (get32 d 0) (get32 d 4) (get32 d 8) (get32 d 12) (get32 d 16) (get32 d 20) (get32 d 24).

(** [struct log] with the state below it. *)
Record logst (S : Type) := mkLog {
  lg_start : Z;
  lg_size : Z;
  lg_outstanding : Z;
  lg_committing : bool;
  lg_dev : Z;
  lg_n : Z;
  lg_block : list Z;
  lg_lock : bool;              (* log.lock is held *)
  lg_woken : list channel;     (* the channels woken so far, latest first *)
  lg_st : S
}.
Arguments mkLog {S}. Arguments lg_start {S}. Arguments lg_size {S}.
Arguments lg_outstanding {S}. Arguments lg_committing {S}. Arguments lg_dev {S}.
Arguments lg_n {S}. Arguments lg_block {S}. Arguments lg_lock {S}. Arguments lg_woken {S}. Arguments lg_st {S}.
#[export] Instance eta_logst {S} : Eta (logst S) := fun r =>
  mkLog (lg_start r) (lg_size r) (lg_outstanding r) (lg_committing r) (lg_dev r) (lg_n r)
    (lg_block r) (lg_lock r) (lg_woken r) (lg_st r).
#[export] Instance set_lg_start {S} : Setter (@lg_start S).
Proof. build_setter. Defined.
#[export] Instance set_lg_size {S} : Setter (@lg_size S).
Proof. build_setter. Defined.
#[export] Instance set_lg_outstanding {S} : Setter (@lg_outstanding S).
Proof. build_setter. Defined.
#[export] Instance set_lg_committing {S} : Setter (@lg_committing S).
Proof. build_setter. Defined.
#[export] Instance set_lg_dev {S} : Setter (@lg_dev S).
Proof. build_setter. Defined.
#[export] Instance set_lg_n {S} : Setter (@lg_n S).
Proof. build_setter. Defined.
#[export] Instance set_lg_block {S} : Setter (@lg_block S).
Proof. build_setter. Defined.
#[export] Instance set_lg_lock {S} : Setter (@lg_lock S).
Proof. build_setter. Defined.
#[export] Instance set_lg_woken {S} : Setter (@lg_woken S).
Proof. build_setter. Defined.
#[export] Instance set_lg_st {S} : Setter (@lg_st S).
Proof. build_setter. Defined.

Lemma logst_eq {S} (l m : logst S) :
  lg_start l = lg_start m -> lg_size l = lg_size m -> lg_outstanding l = lg_outstanding m ->
  lg_committing l = lg_committing m -> lg_dev l = lg_dev m -> lg_n l = lg_n m ->
  lg_block l = lg_block m -> lg_lock l = lg_lock m -> lg_woken l = lg_woken m ->
  lg_st l = lg_st m -> l = m.
Proof. destruct l, m. cbn. by intros -> -> -> -> -> -> -> -> -> ->. Qed.

(** The zero-initialised log. *)
Definition log0 {S} (s : S) : logst S :=
  mkLog 0 0 0 false 0 0 (replicate (Z.to_nat LOGSIZE) 0) false [] s.

Section log.
Context {S : Type} `{BufCache S}.
Abbreviation L := (logst S).

(** [bread] and the others on the device of the log. *)
Definition rd (b : Z) : M L nat := dev <- gets lg_dev ;; zoom lg_st (bread dev b).
Definition buf_data (i : nat) : M L block := zoom lg_st (data i).
Definition buf_set (i : nat) (x : block) : M L unit := zoom lg_st (set_data i x).
Definition buf_write (i : nat) : M L unit := zoom lg_st (bwrite i).
Definition buf_release (i : nat) : M L unit := zoom lg_st (brelse i).

Definition readsb (dev : Z) : M L superblock :=
  i <- zoom lg_st (bread dev 1) ;;
  d <- buf_data i ;;
  buf_release i ;;
  ret (decode_sb d).

(** Entry [i] of the header, inside the array. *)
Definition entry (i : nat) : M L Z := bs <- gets lg_block ;; deref (bs !! i).

(** The bodies of the two copy loops, and the loops. *)
Definition install_one (tail : nat) : M L unit :=
  start <- gets lg_start ;;
  lbuf <- rd (start + Z.of_nat tail + 1) ;;
  b <- entry tail ;;
  dbuf <- rd b ;;
  x <- buf_data lbuf ;;
  buf_set dbuf x ;;
  buf_write dbuf ;;
  buf_release lbuf ;;
  buf_release dbuf.
Definition install_trans : M L unit :=
  n <- gets lg_n ;; forM (seq 0 (Z.to_nat n)) install_one.

Definition log_one (tail : nat) : M L unit :=
  start <- gets lg_start ;;
  to <- rd (start + Z.of_nat tail + 1) ;;
  b <- entry tail ;;
  from <- rd b ;;
  x <- buf_data from ;;
  buf_set to x ;;
  buf_write to ;;
  buf_release from ;;
  buf_release to.
Definition write_log : M L unit :=
  n <- gets lg_n ;; forM (seq 0 (Z.to_nat n)) log_one.

(** [struct logheader] in a block: the count, then the block numbers. *)
Definition head_n (d : block) : Z := i32 (get32 d 0).
Definition head_block (d : block) (i : nat) : Z := i32 (get32 d (4 + 4 * i)).

Definition read_head : M L unit :=
  start <- gets lg_start ;;
  i <- rd start ;;
  d <- buf_data i ;;
  modify (fun l => l <| lg_n := head_n d |>) ;;
  forM (seq 0 (Z.to_nat (head_n d))) (fun j =>
    entry j ;;
    modify (fun l => l <| lg_block ::= <[j := head_block d j]> |>)) ;;
  buf_release i.

(** The header block with the count [n] and its entries written over [d]. *)
Definition put_head (n : Z) (bs : list Z) (d : block) : block :=
  put_words 4 (take (Z.to_nat n) bs) (put32 0 n d).

Definition write_head : M L unit :=
  start <- gets lg_start ;;
  i <- rd start ;;
  d <- buf_data i ;;
  n <- gets lg_n ;;
  bs <- gets lg_block ;;
  if (length bs <? Z.to_nat n)%nat then fault else
  buf_set i (put_head n bs d) ;;
  buf_write i ;;
  buf_release i.

Definition recover_from_log : M L unit :=
  read_head ;;
  install_trans ;;
  modify (fun l => l <| lg_n := 0 |>) ;;
  write_head.

Definition initlog (dev : Z) : M L unit :=
  if BSIZE <=? 4 + 4 * LOGSIZE then panic "initlog: too big logheader" else
  sb <- readsb dev ;;
  modify (fun l => l <| lg_start := i32 (sb_logstart sb) |> <| lg_size := i32 (sb_nlog sb) |>
                     <| lg_dev := dev |>) ;;
  recover_from_log.

(** [log.lock]; a sleeping process has let it go. *)
Definition acquire_log : M L unit :=
  h <- gets lg_lock ;;
  if h then panic "acquire" else modify (fun l => l <| lg_lock := true |>).
Definition release_log : M L unit :=
  h <- gets lg_lock ;;
  if h then modify (fun l => l <| lg_lock := false |>) else panic "release".
Definition sleep_log (c : channel) : M L unit := release_log ;; sleepon c.
Definition wake (c : channel) : M L unit := modify (fun l => l <| lg_woken ::= cons c |>).

(** [begin_op]; a process woken in its loop takes the lock and runs the loop
    from its head, which is [begin_op] again. *)
Definition begin_op : M L unit :=
  acquire_log ;;
  l <- gets id ;;
  if lg_committing l then sleep_log ChLog
  else if LOGSIZE <? lg_n l + (lg_outstanding l + 1) * MAXOPBLOCKS then sleep_log ChLog
  else modify (fun l => l <| lg_outstanding ::= Z.add 1 |>) ;; release_log.

Definition commit : M L unit :=
  n <- gets lg_n ;;
  when (0 <? n)
    (write_log ;;
     write_head ;;
     install_trans ;;
     modify (fun l => l <| lg_n := 0 |>) ;;
     write_head).

(** [sync]: the loop that waits for the outstanding operations, entered with
    the lock; what follows it; the whole.  A process woken in the loop goes on
    with [sync_again]. *)
Definition sync_wait : M L unit :=
  o <- gets lg_outstanding ;;
  if negb (o =? 0) then sleep_log ChSync else release_log.
Definition sync_finish : M L Z :=
  commit ;;
  acquire_log ;;
  modify (fun l => l <| lg_committing := false |>) ;;
  wake ChLog ;;
  release_log ;;
  ret 0.
Definition sync_again : M L Z := acquire_log ;; sync_wait ;; sync_finish.
Definition sync_enter : M L unit :=
  acquire_log ;;
  modify (fun l => l <| lg_committing := true |>) ;;
  sync_wait.
Definition sync : M L Z :=
  n <- gets lg_n ;;
  if 0 <? n then sync_enter ;; sync_finish else ret (-1).

Definition end_op : M L unit :=
  acquire_log ;;
  modify (fun l => l <| lg_outstanding ::= Z.add (-1) |>) ;;
  l <- gets id ;;
  let last := lg_outstanding l =? 0 in
  let do_commit := last && (LOGSIZE <? lg_n l + MAXOPBLOCKS) in
  when do_commit (modify (fun l => l <| lg_committing := true |>)) ;;
  when last (wake ChSync) ;;
  c <- gets lg_committing ;;
  when (negb c) (wake ChLog) ;;
  release_log ;;
  when do_commit (sync ;; ret tt).

(** The place of block [b] in the header: its own, or the first free one. *)
Fixpoint absorb (l : list Z) (b : Z) : nat :=
  match l with
  | [] => 0
  | x :: l' => if u32 x =? b then 0 else Datatypes.S (absorb l' b)
  end.

Definition log_write (i : nat) : M L unit :=
  l <- gets id ;;
  if (LOGSIZE <=? lg_n l) || (lg_size l - 1 <=? lg_n l) then panic "too big a transaction" else
  if lg_outstanding l <? 1 then panic "log_write outside of trans" else
  acquire_log ;;
  b <- zoom lg_st (blockno i) ;;
  let j := absorb (take (Z.to_nat (lg_n l)) (lg_block l)) b in
  entry j ;;
  modify (fun l => l <| lg_block ::= <[j := i32 b]> |>) ;;
  when (Z.of_nat j =? lg_n l) (modify (fun l => l <| lg_n ::= Z.add 1 |>)) ;;
  zoom lg_st (pin i) ;;
  release_log.

Definition get_log_num : M L Z := gets lg_n.
End log.

(** ** Copies between blocks, in views

    A copy [(dst, src)] reads block [src] and writes it to [dst]. *)
Definition v_copy (v : view) (p : Z * Z) : view := v_write p.1 (v_set p.1 (v_mem v p.2) v).
Fixpoint v_copies (l : list (Z * Z)) (v : view) : view :=
  match l with [] => v | p :: l' => v_copies l' (v_copy v p) end.
Fixpoint replay (d : gmap Z block) (ws : list (Z * block)) : gmap Z block :=
  match ws with [] => d | w :: ws' => replay (<[w.1 := w.2]> d) ws' end.
Definition copied (f : Z -> block) (l : list (Z * Z)) : list (Z * block) :=
  map (fun p => (p.1, f p.2)) l.
Definition v_head (start n : Z) (bs : list Z) (v : view) : view :=
  v_write start (v_set start (put_head n bs (v_mem v start)) v).

Lemma replay_app d ws ws' : replay d (ws ++ ws') = replay (replay d ws) ws'.
Proof. revert d. by induction ws as [|w ws IH]; intros d; [|apply IH]. Qed.

Lemma replay_ne ws : forall d b,
  b ∉ ws.*1 -> disk_block (replay d ws) b = disk_block d b.
Proof.
  induction ws as [|w ws IH]; intros d b Hb; [done|]. cbn in *.
  apply not_elem_of_cons in Hb as [Hw Hws]. rewrite IH by done.
  unfold disk_block. by rewrite lookup_insert_ne.
Qed.

Lemma replay_in ws : forall d b x,
  NoDup ws.*1 -> (b, x) ∈ ws -> disk_block (replay d ws) b = x.
Proof.
  induction ws as [|w ws IH]; intros d b x Hnd Hin; [by apply elem_of_nil in Hin|].
  cbn in *. apply NoDup_cons in Hnd as [Hw Hnd].
  apply elem_of_cons in Hin as [<-|Hin]; [|by apply IH].
  rewrite replay_ne by done. unfold disk_block. by rewrite lookup_insert_eq.
Qed.

Lemma copied_fst f l : (copied f l).*1 = l.*1.
Proof. unfold copied. rewrite <- list_fmap_compose. by apply list_fmap_ext. Qed.

Lemma copied_elem f l (p : Z * Z) : p ∈ l -> (p.1, f p.2) ∈ copied f l.
Proof.
  intros Hp. unfold copied. rewrite list_elem_of_In, in_map_iff.
  exists p. by rewrite <- list_elem_of_In.
Qed.

Lemma copied_ext f g l : (forall b, b ∈ l.*2 -> f b = g b) -> copied f l = copied g l.
Proof.
  intros Hfg. unfold copied. apply map_ext_in. intros p Hp%list_elem_of_In.
  f_equal. apply Hfg. by apply list_elem_of_fmap_2.
Qed.

Lemma v_copies_mem_ne l : forall v b, b ∉ l.*1 -> v_mem (v_copies l v) b = v_mem v b.
Proof.
  induction l as [|p l IH]; intros v b Hb; [done|]. cbn in *.
  apply not_elem_of_cons in Hb as [Hp Hl]. rewrite IH by done.
  unfold v_copy, v_write, v_set. proj_upd. by rewrite fset_ne.
Qed.

Lemma v_copies_mem_in l : forall v d b,
  NoDup l.*1 -> (forall c, c ∈ l.*2 -> c ∉ l.*1) -> (d, b) ∈ l ->
  v_mem (v_copies l v) d = v_mem v b.
Proof.
  induction l as [|p l IH]; intros v d b Hnd Hsep Hin; [by apply elem_of_nil in Hin|].
  cbn in *. apply NoDup_cons in Hnd as [Hp Hnd].
  assert (forall c, c ∈ l.*2 -> c <> p.1 /\ c ∉ l.*1) as Hsep'.
  { intros c Hc. specialize (Hsep c). rewrite !elem_of_cons in Hsep. naive_solver. }
  apply elem_of_cons in Hin as [<-|Hin].
  - rewrite v_copies_mem_ne by done. unfold v_copy, v_write, v_set. proj_upd. apply fset_eq.
  - rewrite (IH _ _ b) by naive_solver. unfold v_copy, v_write, v_set. proj_upd.
    rewrite fset_ne; [done|]. apply Hsep', (list_elem_of_fmap_2 snd _ (d, b)), Hin.
Qed.

Lemma v_copies_trace l : forall v,
  (forall c, c ∈ l.*2 -> c ∉ l.*1) ->
  v_trace (v_copies l v) = v_trace v ++ copied (v_mem v) l /\
  v_disk (v_copies l v) = replay (v_disk v) (copied (v_mem v) l).
Proof.
  induction l as [|p l IH]; intros v Hsep; [by rewrite app_nil_r|]. cbn in *.
  assert (forall c, c ∈ l.*2 -> c <> p.1 /\ c ∉ l.*1) as Hsep'.
  { intros c Hc. specialize (Hsep c). rewrite !elem_of_cons in Hsep. naive_solver. }
  destruct (IH (v_copy v p)) as [-> ->]; [naive_solver|].
  rewrite (copied_ext (v_mem (v_copy v p)) (v_mem v)).
  - unfold v_copy, v_write, v_set. proj_upd. by rewrite fset_eq, <- app_assoc.
  - intros b Hb. unfold v_copy, v_write, v_set. proj_upd. rewrite fset_ne; naive_solver.
Qed.

Lemma v_copies_pinned l : forall v, v_pinned (v_copies l v) = v_pinned v ∖ list_to_set l.*1.
Proof.
  induction l as [|p l IH]; intros v; cbn; [set_solver|]. rewrite IH.
  unfold v_copy, v_write, v_set. proj_upd. set_solver.
Qed.

Lemma v_copies_held l : forall v, v_held (v_copies l v) = v_held v.
Proof. induction l as [|p l IH]; intros v; [done|]. cbn. by rewrite IH. Qed.

(** ** The routines run, and what they do to the view *)

(** The copies that log the blocks [bs], as (log block, home block). *)
Definition log_pair (start : Z) (bs : list Z) (k : nat) : Z * Z :=
  (start + Z.of_nat k + 1, nth k bs 0).
Definition log_pairs (start : Z) (bs : list Z) : list (Z * Z) :=
  map (log_pair start bs) (seq 0 (length bs)).
Definition install_pair (start : Z) (bs : list Z) (k : nat) : Z * Z :=
  (nth k bs 0, start + Z.of_nat k + 1).
Definition install_pairs (start : Z) (bs : list Z) : list (Z * Z) :=
  map (install_pair start bs) (seq 0 (length bs)).

Lemma held_blocks_take i b v :
  v_held v !! i = None -> held_blocks (v_take i b v) = {[b]} ∪ held_blocks v.
Proof. intros Hi. unfold held_blocks, v_take. proj_upd. by apply map_img_insert_notin_L. Qed.

Lemma v_copied_dropped v i j b t p :
  v_held v !! i = None -> v_held v !! j = None -> i <> j ->
  v_drop j (v_drop i (v_copy (v_take i b (v_take j t v)) p)) = v_copy v p /\
  v_drop j (v_drop i (v_copy (v_take j t (v_take i b v)) p)) = v_copy v p.
Proof.
  intros Hi Hj Hij.
  assert (delete j (delete i (<[i := b]> (<[j := t]> (v_held v)))) = v_held v) as Hd.
  { rewrite delete_insert_id by (by rewrite lookup_insert_ne). by apply delete_insert_id. }
  assert (<[i := b]> (<[j := t]> (v_held v)) = <[j := t]> (<[i := b]> (v_held v))) as Hc
    by (by apply insert_insert_ne).
  split; apply view_eq; unfold v_copy, v_write, v_set, v_take, v_drop; proj_upd; try done.
  by rewrite <- Hc, Hd.
Qed.

Section runs.
Context {S : Type} `{BufCache S}.
Abbreviation L := (logst S).
Implicit Types (l : logst S) (s : S) (v : view) (N : Z).

Definition on l s : L := l <| lg_st := s |>.

Lemma zoom_run {A} (m : M S A) l s a s' :
  m s = Ok a s' -> zoom lg_st m (on l s) = Ok a (on l s').
Proof. intros E. unfold zoom, on. proj_upd. by rewrite E. Qed.

Lemma rd_run N l s v b :
  lg_dev l = 1 -> repr N s v -> 0 <= b < N -> b ∉ held_blocks v ->
  (size ({[b]} ∪ v_pinned v ∪ held_blocks v) <= NBUF)%nat ->
  exists i s', rd b (on l s) = Ok i (on l s') /\ v_held v !! i = None /\ repr N s' (v_take i b v).
Proof.
  intros Hd Hr Hb Hh Hs. destruct (bread_law N s v b) as (i&s'&E&Hi&Hr'); try done.
  exists i, s'. split; [|done]. unfold rd. mstep.
  change (lg_dev (on l s)) with (lg_dev l). rewrite Hd. by apply zoom_run.
Qed.

(** What both copy loops do once the two buffers are locked. *)
Definition copy_tail (i j : nat) : M L unit :=
  x <- buf_data i ;; buf_set j x ;; buf_write j ;; buf_release i ;; buf_release j.

Lemma copy_tail_run N l s w i j b t :
  repr N s w -> v_held w !! i = Some b -> v_held w !! j = Some t -> i <> j -> b <> t ->
  b ∈ v_pinned w \/ v_mem w b = disk_block (v_disk w) b ->
  exists s', copy_tail i j (on l s) = Ok tt (on l s') /\
    repr N s' (v_drop j (v_drop i (v_copy w (t, b)))).
Proof.
  intros Hr Hi Hj Hij Hbt Hclean. unfold copy_tail.
  rewrite (bind_Ok _ _ _ _ _ (zoom_run _ l s _ s (data_law N s w i b Hr Hi))). cbv beta.
  destruct (set_data_law N s w j t (v_mem w b) Hr Hj) as (s1&E1&R1).
  { by rewrite !(repr_length N s w _ Hr). }
  rewrite (bind_Ok _ _ _ _ _ (zoom_run _ l _ _ _ E1)).
  destruct (bwrite_law N s1 _ j t R1 Hj) as (s2&E2&R2).
  rewrite (bind_Ok _ _ _ _ _ (zoom_run _ l _ _ _ E2)).
  destruct (brelse_law N s2 _ i b R2 Hi) as (s3&E3&R3).
  { unfold v_write, v_set. proj_upd. unfold disk_block. rewrite fset_ne, lookup_insert_ne by done.
    destruct Hclean as [Hp|Hc]; [left; set_solver|by right]. }
  rewrite (bind_Ok _ _ _ _ _ (zoom_run _ l _ _ _ E3)).
  destruct (brelse_law N s3 _ j t R3) as (s4&E4&R4).
  { unfold v_drop, v_write, v_set. proj_upd. by rewrite lookup_delete_ne. }
  { right. unfold v_drop, v_write, v_set. proj_upd. unfold disk_block.
    by rewrite lookup_insert_eq. }
  exists s4. split; [exact (zoom_run _ l _ _ _ E4)|exact R4].
Qed.

(** Room in the cache for two more blocks. *)
Definition room (v : view) (b t : Z) : Prop :=
  (size ({[b]} ∪ ({[t]} ∪ (v_pinned v ∪ held_blocks v)) : gset Z) <= NBUF)%nat.

Lemma two_reads N l s v b t :
  lg_dev l = 1 -> repr N s v -> 0 <= b < N -> 0 <= t < N -> b <> t ->
  b ∉ held_blocks v -> t ∉ held_blocks v -> room v b t ->
  exists i s1 j s2, rd b (on l s) = Ok i (on l s1) /\ rd t (on l s1) = Ok j (on l s2) /\
    v_held v !! i = None /\ v_held v !! j = None /\ i <> j /\
    repr N s2 (v_take j t (v_take i b v)).
Proof.
  unfold room. intros Hd Hr Hb Ht Hbt Hhb Hht Hs.
  destruct (rd_run N l s v b) as (i&s1&E1&Hi&R1); [done..| |].
  { etrans; [|exact Hs]. apply subseteq_size. set_solver. }
  destruct (rd_run N l s1 (v_take i b v) t) as (j&s2&E2&Hj&R2); [done..| | |].
  { rewrite held_blocks_take by done. set_solver. }
  { rewrite held_blocks_take by done. etrans; [|exact Hs]. apply subseteq_size.
    unfold v_take. proj_upd. set_solver. }
  revert Hj. unfold v_take at 1. proj_upd. intros Hj.
  assert (i <> j) as Hij by (intros ->; by rewrite lookup_insert_eq in Hj).
  rewrite lookup_insert_ne in Hj by done. by exists i, s1, j, s2.
Qed.

Lemma clean_or_pinned N s v b :
  repr N s v -> b ∉ held_blocks v -> b ∈ v_pinned v \/ v_mem v b = disk_block (v_disk v) b.
Proof. intros Hr Hb. destruct (decide (b ∈ v_pinned v)); [by left|right; by eapply repr_clean]. Qed.

Lemma log_one_run N l s v k b :
  let t := lg_start l + Z.of_nat k + 1 in
  lg_dev l = 1 -> lg_block l !! k = Some b -> repr N s v ->
  0 <= b < N -> 0 <= t < N -> b <> t -> b ∉ held_blocks v -> t ∉ held_blocks v -> room v t b ->
  exists s', log_one k (on l s) = Ok tt (on l s') /\ repr N s' (v_copy v (t, b)).
Proof.
  intros t Hd Hk Hr Hb Ht Hbt Hhb Hht Hroom.
  destruct (two_reads N l s v t b) as (j&s1&i&s2&E1&E2&Hj&Hi&Hij&R2); [done..|].
  destruct (v_copied_dropped v i j b t (t, b) Hi Hj (not_eq_sym Hij)) as [Hv _].
  destruct (copy_tail_run N l s2 _ i j b t R2) as (s3&E3&R3); [| |congruence|done| |].
  { apply lookup_insert_eq. }
  { unfold v_take. proj_upd. rewrite lookup_insert_ne by done. apply lookup_insert_eq. }
  { exact (clean_or_pinned N s v b Hr Hhb). }
  exists s3. rewrite <- Hv. split; [|exact R3].
  unfold log_one. mstep. rewrite (bind_Ok _ _ _ _ _ E1). cbv beta. unfold entry. mstep.
  change (lg_block (on l s1)) with (lg_block l). rewrite Hk. mstep.
  rewrite (bind_Ok _ _ _ _ _ E2). exact E3.
Qed.

Lemma install_one_run N l s v k b :
  let t := lg_start l + Z.of_nat k + 1 in
  lg_dev l = 1 -> lg_block l !! k = Some b -> repr N s v ->
  0 <= b < N -> 0 <= t < N -> b <> t -> b ∉ held_blocks v -> t ∉ held_blocks v -> room v t b ->
  exists s', install_one k (on l s) = Ok tt (on l s') /\ repr N s' (v_copy v (b, t)).
Proof.
  intros t Hd Hk Hr Hb Ht Hbt Hhb Hht Hroom.
  destruct (two_reads N l s v t b) as (i&s1&j&s2&E1&E2&Hi&Hj&Hij&R2); [done..|].
  destruct (v_copied_dropped v i j t b (b, t) Hi Hj Hij) as [_ Hv].
  destruct (copy_tail_run N l s2 _ i j t b R2) as (s3&E3&R3); [| |done|congruence| |].
  { unfold v_take. proj_upd. rewrite lookup_insert_ne by done. apply lookup_insert_eq. }
  { apply lookup_insert_eq. }
  { exact (clean_or_pinned N s v t Hr Hht). }
  exists s3. rewrite <- Hv. split; [|exact R3].
  unfold install_one. mstep. rewrite (bind_Ok _ _ _ _ _ E1). cbv beta. unfold entry. mstep.
  change (lg_block (on l s1)) with (lg_block l). rewrite Hk. mstep.
  rewrite (bind_Ok _ _ _ _ _ E2). exact E3.
Qed.

Lemma copies_run N l (f : nat -> M L unit) (g : nat -> Z * Z) (P : view -> Prop) ks :
  (forall k s v, k ∈ ks -> repr N s v -> P v ->
    exists s', f k (on l s) = Ok tt (on l s') /\ repr N s' (v_copy v (g k))) ->
  (forall k v, k ∈ ks -> P v -> P (v_copy v (g k))) ->
  forall s v, repr N s v -> P v ->
    exists s', forM ks f (on l s) = Ok tt (on l s') /\ repr N s' (v_copies (map g ks) v).
Proof.
  intros Hf HP. induction ks as [|k ks IH]; intros s v Hr Hv; [by exists s|].
  destruct (Hf k s v) as (s1&E1&R1); [by left|done..|].
  destruct (IH ltac:(intros; apply Hf; [by right|done..]) ltac:(intros; apply HP; [by right|done])
    s1 (v_copy v (g k)) R1) as (s2&E2&R2); [apply HP; [by left|done]|].
  exists s2. split; [|done]. cbn [forM]. by rewrite (bind_Ok _ _ _ _ _ E1).
Qed.

(** The blocks of the transaction, and a well-formed list of them: distinct
    home blocks, outside the log, as many as the log has room for. *)
Definition blocks l : list Z := take (Z.to_nat (lg_n l)) (lg_block l).
Definition in_log (start size b : Z) : Prop := start <= b < start + size.

Record log_wf N (start size : Z) (bs : list Z) : Prop := mkWf {
  wf_region : 0 <= start /\ 0 < size /\ start + size <= N /\ N <= 2 ^ 31;
  wf_len : Z.of_nat (length bs) <= size - 1 /\ Z.of_nat (length bs) <= LOGSIZE;
  wf_nodup : NoDup bs;
  wf_home b : b ∈ bs -> 0 <= b < N /\ ~ in_log start size b
}.

(** The cache has a buffer for every logged block and one more. *)
Record roomy (start size : Z) (bs : list Z) (v : view) : Prop := mkRoomy {
  rm_held b : b ∈ held_blocks v -> ~ in_log start size b /\ b ∉ bs;
  rm_size b t : b ∈ bs -> room v t b
}.

Lemma roomy_copy start size bs v p : roomy start size bs v -> roomy start size bs (v_copy v p).
Proof.
  intros [Hh Hs]. split; [exact Hh|]. intros b t Hb. specialize (Hs b t Hb). unfold room in *.
  etrans; [|exact Hs]. apply subseteq_size. unfold held_blocks, v_copy, v_write, v_set. proj_upd.
  set_solver.
Qed.

Lemma blocks_nth l k :
  (k < length (blocks l))%nat -> lg_block l !! k = Some (nth k (blocks l) 0) /\
    nth k (blocks l) 0 ∈ blocks l.
Proof.
  intros Hk. destruct (lookup_lt_is_Some_2 (blocks l) k Hk) as [b Hb].
  rewrite (nth_lookup_Some _ _ _ _ Hb). split; [|by eapply list_elem_of_lookup_2].
  unfold blocks in Hb. by apply lookup_take_Some in Hb as [? _].
Qed.

Section loops.
Context (N : Z) (l : L).
Hypothesis Hdev : lg_dev l = 1.
Hypothesis Hwf : log_wf N (lg_start l) (lg_size l) (blocks l).
Hypothesis Hn : Z.to_nat (lg_n l) = length (blocks l).

Lemma pair_facts v k :
  roomy (lg_start l) (lg_size l) (blocks l) v -> k ∈ seq 0 (length (blocks l)) ->
  let b := nth k (blocks l) 0 in let t := lg_start l + Z.of_nat k + 1 in
  lg_block l !! k = Some b /\ 0 <= b < N /\ 0 <= t < N /\ b <> t /\
  (b ∉ held_blocks v) /\ (t ∉ held_blocks v) /\ room v t b.
Proof.
  intros [Hh Hs] Hk%elem_of_seq b t. destruct Hwf as [Hreg Hlen _ Hhome].
  destruct (blocks_nth l k) as [Hl Hb]; [lia|]. fold b in Hl, Hb.
  destruct (Hhome b Hb) as [Hr Hout].
  assert (in_log (lg_start l) (lg_size l) t) as Ht by (unfold in_log; lia).
  repeat split; try done; try lia.
  - intros Heq. by rewrite <- Heq in Ht.
  - intros Hin. by destruct (Hh b Hin).
  - intros Hin. by destruct (Hh t Hin).
  - by apply Hs.
Qed.

Lemma write_log_run s v :
  repr N s v -> roomy (lg_start l) (lg_size l) (blocks l) v ->
  exists s', write_log (on l s) = Ok tt (on l s') /\
    repr N s' (v_copies (log_pairs (lg_start l) (blocks l)) v).
Proof.
  intros Hr Hroom. unfold write_log. mstep. change (lg_n (on l s)) with (lg_n l). rewrite Hn.
  eapply (copies_run N l _ (log_pair (lg_start l) (blocks l))); [| |exact Hr|exact Hroom].
  - intros k s0 w Hk Hw Hrm. destruct (pair_facts w k Hrm Hk) as (?&?&?&?&?&?&?).
    by apply log_one_run.
  - intros k w _. apply roomy_copy.
Qed.

Lemma install_trans_run s v :
  repr N s v -> roomy (lg_start l) (lg_size l) (blocks l) v ->
  exists s', install_trans (on l s) = Ok tt (on l s') /\
    repr N s' (v_copies (install_pairs (lg_start l) (blocks l)) v).
Proof.
  intros Hr Hroom. unfold install_trans. mstep. change (lg_n (on l s)) with (lg_n l). rewrite Hn.
  eapply (copies_run N l _ (install_pair (lg_start l) (blocks l))); [| |exact Hr|exact Hroom].
  - intros k s0 w Hk Hw Hrm. destruct (pair_facts w k Hrm Hk) as (?&?&?&?&?&?&?).
    by apply install_one_run.
  - intros k w _. apply roomy_copy.
Qed.
End loops.

Lemma length_put_head n bs d : length (put_head n bs d) = length d.
Proof. unfold put_head. by rewrite length_put_words, length_put32. Qed.

Lemma write_head_run N l s v :
  lg_dev l = 1 -> 0 <= lg_start l < N -> (Z.to_nat (lg_n l) <= length (lg_block l))%nat ->
  repr N s v -> lg_start l ∉ held_blocks v ->
  (size ({[lg_start l]} ∪ v_pinned v ∪ held_blocks v) <= NBUF)%nat ->
  exists s', write_head (on l s) = Ok tt (on l s') /\
    repr N s' (v_head (lg_start l) (lg_n l) (lg_block l) v).
Proof.
  intros Hd Hs Hn Hr Hh Hsz. unfold write_head. mstep.
  change (lg_start (on l s)) with (lg_start l).
  destruct (rd_run N l s v (lg_start l)) as (i&s1&E1&Hi&R1); [done..|].
  set (w := v_take i (lg_start l) v) in *.
  assert (v_held w !! i = Some (lg_start l)) as Hw by apply lookup_insert_eq.
  rewrite (bind_Ok _ _ _ _ _ E1). cbv beta.
  rewrite (bind_Ok _ _ _ _ _ (zoom_run _ l s1 _ s1 (data_law N s1 w i _ R1 Hw))). mstep.
  change (lg_n (on l s1)) with (lg_n l). change (lg_block (on l s1)) with (lg_block l).
  rewrite (proj2 (Nat.ltb_ge _ _)) by done.
  destruct (set_data_law N s1 w i _ (put_head (lg_n l) (lg_block l) (v_mem w (lg_start l))) R1 Hw)
    as (s2&E2&R2); [apply length_put_head|].
  rewrite (bind_Ok _ _ _ _ _ (zoom_run _ l _ _ _ E2)).
  destruct (bwrite_law N s2 _ i _ R2 Hw) as (s3&E3&R3).
  rewrite (bind_Ok _ _ _ _ _ (zoom_run _ l _ _ _ E3)).
  destruct (brelse_law N s3 _ i _ R3 Hw) as (s4&E4&R4).
  { right. unfold v_write, v_set. proj_upd. unfold disk_block. by rewrite lookup_insert_eq. }
  exists s4. split; [exact (zoom_run _ l _ _ _ E4)|].
  enough (v_drop i (v_write (lg_start l) (v_set (lg_start l)
    (put_head (lg_n l) (lg_block l) (v_mem w (lg_start l))) w)) =
    v_head (lg_start l) (lg_n l) (lg_block l) v) as <- by done.
  apply view_eq; unfold v_head, w, v_drop, v_write, v_set, v_take; proj_upd; try done.
  by apply delete_insert_id.
Qed.

(** Entries of the header read back. *)
Definition head_list (d : block) : list Z :=
  map (head_block d) (seq 0 (Z.to_nat (head_n d))).

Lemma fill_list (g : nat -> Z) n : forall arr : list Z,
  (n <= length arr)%nat ->
  foldl (fun a j => <[j := g j]> a) arr (seq 0 n) = map g (seq 0 n) ++ drop n arr.
Proof.
  induction n as [|n IH]; intros arr Hn; [done|].
  rewrite seq_S, foldl_snoc, map_app, IH by lia. cbn.
  rewrite insert_app_r_alt by (rewrite length_map, length_seq; lia).
  rewrite length_map, length_seq, Nat.sub_diag.
  destruct (lookup_lt_is_Some_2 arr n) as [x Hx]; [lia|].
  rewrite (drop_S arr x n Hx). cbn. by rewrite <- app_assoc.
Qed.

Lemma read_entries_run d ks : forall l : L,
  Forall (fun j => j < length (lg_block l))%nat ks ->
  forM ks (fun j => entry j ;; modify (fun l => l <| lg_block ::= <[j := head_block d j]> |>)) l =
  Ok tt (l <| lg_block ::= fun a => foldl (fun a j => <[j := head_block d j]> a) a ks |>).
Proof.
  induction ks as [|j ks IH]; intros l Hk; [by destruct l|].
  apply Forall_cons in Hk as [Hj Hk]. cbn [forM]. rewrite bind_bind. unfold entry. mstep.
  destruct (lookup_lt_is_Some_2 (lg_block l) j Hj) as [x Hx]. rewrite Hx. mstep.
  rewrite IH; [by destruct l|].
  eapply Forall_impl; [exact Hk|]. intros i Hi. cbn beta in *. proj_upd. by rewrite length_insert.
Qed.

(** The state after the header has been read from block contents [d]. *)
Definition loaded (d : block) l : L :=
  l <| lg_n := head_n d |>
    <| lg_block := head_list d ++ drop (Z.to_nat (head_n d)) (lg_block l) |>.

Lemma loaded_blocks d l : blocks (loaded d l) = head_list d.
Proof.
  unfold blocks, loaded. proj_upd. apply take_app_length'. unfold head_list.
  by rewrite length_map, length_seq.
Qed.

Lemma read_head_run N l s v :
  lg_dev l = 1 -> 0 <= lg_start l < N -> repr N s v -> lg_start l ∉ held_blocks v ->
  (size ({[lg_start l]} ∪ v_pinned v ∪ held_blocks v) <= NBUF)%nat ->
  (Z.to_nat (head_n (v_mem v (lg_start l))) <= length (lg_block l))%nat ->
  exists s', read_head (on l s) = Ok tt (on (loaded (v_mem v (lg_start l)) l) s') /\ repr N s' v.
Proof.
  intros Hd Hs Hr Hh Hsz Hn. unfold read_head. mstep.
  change (lg_start (on l s)) with (lg_start l).
  destruct (rd_run N l s v (lg_start l)) as (i&s1&E1&Hi&R1); [done..|].
  set (w := v_take i (lg_start l) v) in *.
  assert (v_held w !! i = Some (lg_start l)) as Hw by apply lookup_insert_eq.
  rewrite (bind_Ok _ _ _ _ _ E1). cbv beta.
  rewrite (bind_Ok _ _ _ _ _ (zoom_run _ l s1 _ s1 (data_law N s1 w i _ R1 Hw))). mstep.
  change (v_mem w) with (v_mem v). set (d := v_mem v (lg_start l)) in *.
  set (l1 := (on l s1) <| lg_n := head_n d |>).
  assert (Forall (fun j => j < length (lg_block l1))%nat (seq 0 (Z.to_nat (head_n d)))) as Hall.
  { apply Forall_forall. intros j [_ Hj]%elem_of_seq. unfold l1, on. proj_upd. lia. }
  rewrite (bind_Ok _ _ _ _ _ (read_entries_run d _ _ Hall)).
  destruct (brelse_law N s1 w i _ R1 Hw (clean_or_pinned N s v _ Hr Hh)) as (s2&E2&R2).
  exists s2. split.
  - assert (l1 <| lg_block ::= fun a =>
      foldl (fun a j => <[j := head_block d j]> a) a (seq 0 (Z.to_nat (head_n d))) |>
      = on (loaded d l) s1) as ->.
    { apply logst_eq; unfold l1, on, loaded; proj_upd; try done. by apply fill_list. }
    exact (zoom_run _ _ _ _ _ E2).
  - enough (v_drop i w = v) as Hv by (by rewrite Hv in R2).
    apply view_eq; unfold w, v_drop, v_take; proj_upd; try done. by apply delete_insert_id.
Qed.

Definition cleared l : L := l <| lg_n := 0 |>.

(** The view after [commit] and after [recover_from_log]. *)
Definition commit_view (start n : Z) (arr : list Z) v : view :=
  let bs := take (Z.to_nat n) arr in
  v_head start 0 arr (v_copies (install_pairs start bs)
    (v_head start n arr (v_copies (log_pairs start bs) v))).
Definition recover_view (start : Z) v : view :=
  v_head start 0 [] (v_copies (install_pairs start (head_list (v_mem v start))) v).

Lemma roomy_head start size bs v c n arr :
  roomy start size bs v -> roomy start size bs (v_head c n arr v).
Proof.
  intros [Hh Hs]. split; [exact Hh|]. intros b t Hb. specialize (Hs b t Hb). unfold room in *.
  etrans; [|exact Hs]. apply subseteq_size. unfold held_blocks, v_head, v_write, v_set. proj_upd.
  set_solver.
Qed.

Lemma roomy_copies start size bs ps : forall v,
  roomy start size bs v -> roomy start size bs (v_copies ps v).
Proof. induction ps as [|p ps IH]; intros v Hv; [done|]. by apply IH, roomy_copy. Qed.

Lemma roomy_start start size bs v :
  0 < size -> bs <> [] -> roomy start size bs v ->
  (start ∉ held_blocks v) /\ (base.size ({[start]} ∪ v_pinned v ∪ held_blocks v) <= NBUF)%nat.
Proof.
  intros Hs Hbs [Hh Hr]. split.
  - intros Hin. destruct (Hh start Hin) as [[] _]. unfold in_log. lia.
  - destruct bs as [|b bs]; [done|]. etrans; [|apply (Hr b start); by left].
    apply subseteq_size. set_solver.
Qed.

Lemma commit_run N l s v :
  lg_dev l = 1 -> 0 < lg_n l -> (Z.to_nat (lg_n l) <= length (lg_block l))%nat ->
  log_wf N (lg_start l) (lg_size l) (blocks l) -> repr N s v ->
  roomy (lg_start l) (lg_size l) (blocks l) v ->
  exists s', commit (on l s) = Ok tt (on (cleared l) s') /\
    repr N s' (commit_view (lg_start l) (lg_n l) (lg_block l) v).
Proof.
  intros Hd Hn Harr Hwf Hr Hrm.
  assert (Z.to_nat (lg_n l) = length (blocks l)) as Hlen
    by (unfold blocks; rewrite length_take; lia).
  assert (blocks l <> []) as Hne by (intros Hnil; rewrite Hnil in Hlen; cbn in Hlen; lia).
  assert (0 <= lg_start l < N /\ 0 < lg_size l) as [Hst Hsz] by (destruct Hwf; lia).
  unfold commit. mstep. change (lg_n (on l s)) with (lg_n l).
  rewrite (proj2 (Z.ltb_lt 0 (lg_n l)) Hn). cbn [when].
  destruct (write_log_run N l Hd Hwf Hlen s v Hr Hrm) as (s1&E1&R1).
  rewrite (bind_Ok _ _ _ _ _ E1). apply (roomy_copies _ _ _ (log_pairs (lg_start l) (blocks l))) in Hrm.
  destruct (roomy_start _ _ _ _ Hsz Hne Hrm) as [Hh1 Hs1].
  destruct (write_head_run N l s1 _ Hd Hst Harr R1 Hh1 Hs1) as (s2&E2&R2).
  rewrite (bind_Ok _ _ _ _ _ E2).
  apply (roomy_head _ _ _ _ (lg_start l) (lg_n l) (lg_block l)) in Hrm.
  destruct (install_trans_run N l Hd Hwf Hlen s2 _ R2 Hrm) as (s3&E3&R3).
  rewrite (bind_Ok _ _ _ _ _ E3). mstep.
  apply (roomy_copies _ _ _ (install_pairs (lg_start l) (blocks l))) in Hrm.
  destruct (roomy_start _ _ _ _ Hsz Hne Hrm) as [Hh3 Hs3].
  destruct (write_head_run N (cleared l) s3 _ Hd Hst (Nat.le_0_l _) R3 Hh3 Hs3) as (s4&E4&R4).
  exists s4. by split.
Qed.

Lemma recover_run N l s v :
  lg_dev l = 1 -> length (lg_block l) = Z.to_nat LOGSIZE ->
  let hl := head_list (v_mem v (lg_start l)) in
  log_wf N (lg_start l) (lg_size l) hl -> repr N s v -> v_pinned v = ∅ -> v_held v = ∅ ->
  exists l' s', recover_from_log (on l s) = Ok tt (on l' s') /\ lg_n l' = 0 /\
    repr N s' (recover_view (lg_start l) v).
Proof.
  intros Hd Harr hl Hwf Hr Hp Hh.
  assert (0 <= lg_start l < N) as Hst by (destruct Hwf; lia).
  assert (held_blocks v = ∅) as Hhb by (unfold held_blocks; rewrite Hh; apply map_img_empty_L).
  assert (roomy (lg_start l) (lg_size l) hl v) as Hrm.
  { split; [rewrite Hhb; set_solver|]. intros b t _. unfold room. rewrite Hp, Hhb.
    trans (size ({[t; b]} : gset Z)); [apply subseteq_size; set_solver|].
    rewrite size_union_alt, size_singleton.
    trans (1 + size ({[b]} : gset Z))%nat; [apply Nat.add_le_mono_l, subseteq_size; set_solver|].
    rewrite size_singleton. unfold NBUF. lia. }
  unfold recover_from_log.
  destruct (read_head_run N l s v) as (s1&E1&R1); try done.
  { rewrite Hhb. set_solver. }
  { rewrite Hp, Hhb, !(right_id_L ∅ _), size_singleton. unfold NBUF. lia. }
  { destruct Hwf as [_ [_ Hl] _ _]. unfold hl, head_list in Hl.
    rewrite length_map, length_seq in Hl. lia. }
  rewrite (bind_Ok _ _ _ _ _ E1). set (l1 := loaded (v_mem v (lg_start l)) l) in *.
  assert (blocks l1 = hl) as Hbl by apply loaded_blocks.
  assert (Z.to_nat (lg_n l1) = length (blocks l1)) as Hlen.
  { rewrite Hbl. unfold hl, head_list. by rewrite length_map, length_seq. }
  rewrite <- Hbl in Hwf, Hrm.
  destruct (install_trans_run N l1 Hd Hwf Hlen s1 v R1 Hrm) as (s2&E2&R2).
  rewrite (bind_Ok _ _ _ _ _ E2). mstep.
  destruct (write_head_run N (cleared l1) s2 _ Hd Hst (Nat.le_0_l _) R2) as (s3&E3&R3).
  { unfold held_blocks. rewrite v_copies_held, Hh, map_img_empty_L. set_solver. }
  { unfold held_blocks. rewrite v_copies_held, v_copies_pinned, Hp, Hh, map_img_empty_L.
    trans (size ({[lg_start l]} : gset Z)); [apply subseteq_size; set_solver|].
    rewrite size_singleton. unfold NBUF. lia. }
  exists (cleared l1), s3. split; [done|]. split; [done|].
  rewrite Hbl in R3. exact R3.
Qed.
End runs.

(** ** Crashes

    [recovered start d] is what the blocks of disk [d] hold once the committed
    transaction its header names has been installed. *)
Definition recovered (start : Z) (d : gmap Z block) (b : Z) : block :=
  disk_block (replay d (copied (disk_block d)
    (install_pairs start (head_list (disk_block d start))))) b.

(** The disk writes of [commit] and of [recover_from_log], in order. *)
Definition commit_trace (start n : Z) (arr : list Z) (f : Z -> block) : list (Z * block) :=
  let bs := take (Z.to_nat n) arr in
  let h := put_head n arr (f start) in
  copied f (log_pairs start bs) ++ [(start, h)] ++ map (fun b => (b, f b)) bs ++
  [(start, put_head 0 [] h)].
Definition recover_trace (start : Z) (d : gmap Z block) : list (Z * block) :=
  copied (disk_block d) (install_pairs start (head_list (disk_block d start))) ++
  [(start, put_head 0 [] (disk_block d start))].

Lemma nths (bs : list Z) : map (fun k => nth k bs 0) (seq 0 (length bs)) = bs.
Proof.
  induction bs as [|b bs IH]; [done|]. cbn [length seq map nth].
  f_equal. rewrite <- seq_shift, map_map. exact IH.
Qed.

Lemma install_pairs_fst start bs : (install_pairs start bs).*1 = bs.
Proof.
  unfold install_pairs. change (fmap fst ?l) with (map fst l). rewrite map_map. apply nths.
Qed.
Lemma log_pairs_snd start bs : (log_pairs start bs).*2 = bs.
Proof. unfold log_pairs. change (fmap snd ?l) with (map snd l). rewrite map_map. apply nths. Qed.

Lemma log_blocks_elem start bs t :
  t ∈ (log_pairs start bs).*1 <->
  exists k, (k < length bs)%nat /\ t = start + Z.of_nat k + 1.
Proof.
  unfold log_pairs. change (fmap fst ?l) with (map fst l). rewrite map_map. cbn.
  rewrite list_elem_of_In, in_map_iff. split.
  - intros (k&<-&[_ Hk]%in_seq). by exists k.
  - intros (k&Hk&->). exists k. split; [done|]. apply in_seq. lia.
Qed.
Lemma install_blocks_elem start bs t :
  t ∈ (install_pairs start bs).*2 <->
  exists k, (k < length bs)%nat /\ t = start + Z.of_nat k + 1.
Proof.
  rewrite <- log_blocks_elem. unfold install_pairs, log_pairs.
  change (fmap snd ?l) with (map snd l). change (fmap fst ?l) with (map fst l).
  by rewrite !map_map.
Qed.

Lemma pair_elem start bs k :
  (k < length bs)%nat ->
  log_pair start bs k ∈ log_pairs start bs /\ install_pair start bs k ∈ install_pairs start bs.
Proof.
  intros Hk. unfold log_pairs, install_pairs. rewrite !list_elem_of_In, !in_map_iff.
  split; exists k; (split; [done|]); apply in_seq; lia.
Qed.

Lemma log_blocks_nodup start bs : NoDup (log_pairs start bs).*1.
Proof.
  unfold log_pairs. change (fmap fst ?l) with (map fst l). rewrite map_map.
  apply NoDup_fmap_2_strong; [|apply NoDup_seq]. cbn. intros. lia.
Qed.

Section header.
Context (n : Z) (arr : list Z) (d : block).
Hypothesis Hd : length d = Z.to_nat BSIZE.
Hypothesis Hn : 0 <= n <= LOGSIZE.
Hypothesis Harr : (Z.to_nat n <= length arr)%nat.
Hypothesis Hb : forall b, b ∈ take (Z.to_nat n) arr -> 0 <= b < 2 ^ 31.

Lemma head_n_put : head_n (put_head n arr d) = n.
Proof.
  unfold head_n, put_head. change (Z.to_nat BSIZE) with 512%nat in Hd. unfold LOGSIZE in Hn.
  rewrite get32_put_words_lt, get32_put32; rewrite ?length_put32, ?length_take; try lia.
  rewrite u32_small by lia. apply i32_small. lia.
Qed.

Lemma head_list_put : head_list (put_head n arr d) = take (Z.to_nat n) arr.
Proof.
  unfold head_list. rewrite head_n_put. set (ws := take (Z.to_nat n) arr) in *.
  assert (length ws = Z.to_nat n) as Hlen by (unfold ws; rewrite length_take; lia).
  change (Z.to_nat BSIZE) with 512%nat in Hd. unfold LOGSIZE in Hn.
  assert (get_words 4 (Z.to_nat n) (put_head n arr d) = ws) as Hw.
  { unfold put_head. fold ws. rewrite <- Hlen. apply get_put_words.
    - rewrite length_put32. lia.
    - apply Forall_forall. intros b Hin. specialize (Hb b Hin). lia. }
  rewrite get_words_map in Hw.
  unfold head_block. rewrite <- (map_map (fun i => get32 (put_head n arr d) (4 + 4 * i)) i32).
  rewrite Hw. rewrite <- (map_id ws) at 2. apply map_ext_in.
  intros b Hin%list_elem_of_In. apply i32_small. specialize (Hb b Hin). lia.
Qed.
End header.

(** The prefixes of a sequence of writes in the order of [commit]. *)
Lemma take_commit {X} k (A H : list X) x y :
  let T := A ++ [x] ++ H ++ [y] in
  ((k <= length A)%nat /\ take k T = take k A) \/
  ((length A < k)%nat /\ ((exists j, take k T = (A ++ [x]) ++ take j H) \/
                         take k T = ((A ++ [x]) ++ H) ++ [y])).
Proof.
  intros T. unfold T. destruct (decide (k <= length A)%nat) as [Hk|Hk]; [left|right].
  - split; [done|]. by apply take_app_le.
  - split; [lia|]. rewrite app_assoc. set (B := A ++ [x]).
    assert (length B = S (length A)) as HB by (unfold B; rewrite length_app; cbn; lia).
    rewrite take_app_ge by lia. destruct (decide (k - length B <= length H)%nat) as [Hj|Hj].
    + left. exists (k - length B)%nat. by rewrite take_app_le.
    + right. rewrite take_ge by (rewrite length_app; cbn; lia). by rewrite app_assoc.
Qed.

Section crash.
Context (N start size : Z) (bs : list Z).
Hypothesis Hwf : log_wf N start size bs.

Lemma log_block_in k :
  (k < length bs)%nat ->
  in_log start size (start + Z.of_nat k + 1) /\ (start + Z.of_nat k + 1 ∉ bs).
Proof.
  intros Hk. destruct Hwf as [Hr Hl _ Hh].
  assert (in_log start size (start + Z.of_nat k + 1)) as Hin by (unfold in_log; lia).
  split; [done|]. intros Hb. by destruct (Hh _ Hb).
Qed.

Lemma start_not_home : start ∉ bs.
Proof. intros Hb. destruct Hwf as [Hr _ _ Hh]. destruct (Hh _ Hb) as [_ []]. unfold in_log. lia. Qed.

Lemma log_sep :
  (forall c, c ∈ (log_pairs start bs).*2 -> c ∉ (log_pairs start bs).*1) /\
  (forall c, c ∈ (install_pairs start bs).*2 -> c ∉ (install_pairs start bs).*1).
Proof.
  rewrite log_pairs_snd, install_pairs_fst. split; intros c.
  - intros Hc (k&Hk&->)%log_blocks_elem. by destruct (log_block_in k Hk).
  - intros (k&Hk&->)%install_blocks_elem. by apply log_block_in.
Qed.

Lemma recovered_spec d f b :
  head_list (disk_block d start) = bs ->
  (forall k, (k < length bs)%nat -> disk_block d (start + Z.of_nat k + 1) = f (nth k bs 0)) ->
  recovered start d b = if decide (b ∈ bs) then f b else disk_block d b.
Proof.
  intros Hh Hf. unfold recovered. rewrite Hh. case_decide as Hb.
  - destruct (proj1 (list_elem_of_lookup bs b) Hb) as [k Hk].
    assert (k < length bs)%nat as Hlt by (by eapply lookup_lt_Some).
    apply replay_in; [rewrite copied_fst, install_pairs_fst; by destruct Hwf|].
    rewrite <- (nth_lookup_Some _ _ 0 _ Hk), <- (Hf k Hlt).
    apply (copied_elem (disk_block d) _ (install_pair start bs k)), pair_elem, Hlt.
  - apply replay_ne. by rewrite copied_fst, install_pairs_fst.
Qed.

Lemma recovered_empty d b :
  head_list (disk_block d start) = [] -> recovered start d b = disk_block d b.
Proof. intros Hh. unfold recovered. by rewrite Hh. Qed.

Lemma outside_log_writes f d b k :
  ~ in_log start size b \/ b = start ->
  disk_block (replay d (take k (copied f (log_pairs start bs)))) b = disk_block d b.
Proof.
  intros Hb. apply replay_ne. intros Hin.
  assert (b ∈ (log_pairs start bs).*1) as (i&Hi&->)%log_blocks_elem.
  { rewrite <- (copied_fst f). rewrite fmap_take in Hin. by apply elem_of_take in Hin as (?&?&?);
    eapply list_elem_of_lookup_2. }
  destruct (log_block_in i Hi). destruct Hb; [done|lia].
Qed.

(** A partly written home area, over a written log. *)
Lemma home_writes_recovered d f h j b :
  ~ in_log start size b -> head_list h = bs ->
  let d1 := replay d (copied f (log_pairs start bs) ++ [(start, h)]) in
  let d2 := replay d1 (take j (map (fun c => (c, f c)) bs)) in
  recovered start d2 b = (if decide (b ∈ bs) then f b else disk_block d b) /\
  disk_block d2 start = h.
Proof.
  intros Hb Hh d1 d2.
  assert (forall c, c ∉ bs -> disk_block d2 c = disk_block d1 c) as H2.
  { intros c Hc. apply replay_ne. rewrite fmap_take. intros (i&Hi&_)%elem_of_take.
    apply Hc. rewrite <- list_fmap_compose in Hi. apply list_elem_of_lookup_2 in Hi.
    by rewrite list_fmap_id in Hi. }
  assert (forall c, c <> start -> disk_block d1 c =
    disk_block (replay d (copied f (log_pairs start bs))) c) as H1.
  { intros c Hc. unfold d1. rewrite replay_app. cbn. unfold disk_block.
    by rewrite lookup_insert_ne. }
  assert (disk_block d2 start = h) as Hs2.
  { rewrite H2 by apply start_not_home. unfold d1. rewrite replay_app. cbn.
    unfold disk_block. by rewrite lookup_insert_eq. }
  split; [|done]. rewrite (recovered_spec d2 f b ltac:(by rewrite Hs2)).
  - case_decide as Hin; [done|]. assert (b <> start) as Hs.
    { intros ->. apply Hb. destruct Hwf. unfold in_log. lia. }
    rewrite H2, H1 by done. rewrite <- (take_ge (copied f (log_pairs start bs)) _ (le_n _)).
    apply outside_log_writes. by left.
  - intros k Hk. destruct (log_block_in k Hk) as [Hl Hnb]. rewrite H2, H1 by (done || lia).
    apply replay_in; [rewrite copied_fst; apply log_blocks_nodup|].
    apply (copied_elem f _ (log_pair start bs k)), pair_elem, Hk.
Qed.

Lemma wf_nil : log_wf N start size [].
Proof.
  destruct Hwf as [? [? ?] ? ?]. split; cbn; [lia|lia|constructor|].
  intros b Hb. by apply elem_of_nil in Hb.
Qed.

Lemma outside_not_start b : ~ in_log start size b -> b <> start.
Proof. intros Hb ->. apply Hb. destruct Hwf. unfold in_log. lia. Qed.

Lemma head_cleared arr h : length h = Z.to_nat BSIZE -> head_list (put_head 0 arr h) = [].
Proof.
  intros Hh. rewrite head_list_put; [done|done|unfold LOGSIZE; lia|cbn; lia|].
  by intros ? ?%elem_of_nil.
Qed.

Lemma all_written d f h b :
  ~ in_log start size b ->
  disk_block (replay d ((copied f (log_pairs start bs) ++ [(start, h)]) ++
    map (fun c => (c, f c)) bs)) b = if decide (b ∈ bs) then f b else disk_block d b.
Proof.
  intros Hb. rewrite replay_app. case_decide as Hin.
  - apply replay_in; [rewrite <- list_fmap_compose, list_fmap_id; by destruct Hwf|].
    by apply (list_elem_of_fmap_2 (fun c => (c, f c))).
  - rewrite replay_ne by (by rewrite <- list_fmap_compose, list_fmap_id).
    rewrite replay_app. cbn. unfold disk_block.
    rewrite lookup_insert_ne by (by apply not_eq_sym, outside_not_start).
    rewrite <- (take_ge (copied f (log_pairs start bs)) _ (le_n _)).
    apply outside_log_writes. by left.
Qed.

(** A crash at any point of [commit]: what recovery brings back is the old
    contents up to the write of the header, and the new ones after it. *)
Lemma commit_crash n arr d f k b :
  bs = take (Z.to_nat n) arr -> 0 <= n -> (Z.to_nat n <= length arr)%nat ->
  length (f start) = Z.to_nat BSIZE -> head_list (disk_block d start) = [] ->
  length (disk_block d start) = Z.to_nat BSIZE -> ~ in_log start size b ->
  let d' := replay d (take k (commit_trace start n arr f)) in
  recovered start d' b =
    (if decide (k <= length bs)%nat then disk_block d b
     else if decide (b ∈ bs) then f b else disk_block d b) /\
  log_wf N start size (head_list (disk_block d' start)) /\
  length (disk_block d' start) = Z.to_nat BSIZE.
Proof.
  intros Hbs Hn Harr Hf Hd Hdl Hb d'.
  assert (length (copied f (log_pairs start bs)) = length bs) as HlA.
  { unfold copied, log_pairs. by rewrite !length_map, length_seq. }
  set (h := put_head n arr (f start)).
  assert (head_list h = bs) as Hh.
  { rewrite Hbs. destruct Hwf as [HN Hl _ Hhome].
    assert (length bs = Z.to_nat n) as Hlen by (rewrite Hbs, length_take; lia).
    apply head_list_put; [done|lia|done|]. rewrite <- Hbs. intros c Hc. specialize (Hhome c Hc). lia. }
  assert (commit_trace start n arr f = copied f (log_pairs start bs) ++ [(start, h)] ++
    map (fun c => (c, f c)) bs ++ [(start, put_head 0 [] h)]) as HT
    by (unfold commit_trace; by rewrite <- Hbs).
  destruct (take_commit k (copied f (log_pairs start bs)) (map (fun c => (c, f c)) bs)
    (start, h) (start, put_head 0 [] h)) as [[Hk Ht]|[Hk [[j Ht]|Ht]]];
    rewrite <- HT in Ht; subst d'; rewrite Ht, HlA in *.
  - rewrite decide_True by done.
    rewrite (outside_log_writes f d start k) by (by right).
    rewrite recovered_empty by (by rewrite outside_log_writes by (by right)). rewrite Hd.
    split; [apply outside_log_writes; by left|]. split; [apply wf_nil|done].
  - rewrite decide_False by lia. rewrite replay_app.
    destruct (home_writes_recovered d f h j b Hb Hh) as [-> ->]. rewrite Hh.
    split; [done|]. split; [done|]. unfold h. by rewrite length_put_head.
  - rewrite decide_False by lia. rewrite replay_app. cbn [replay fst snd].
    set (d2 := replay d _).
    assert (disk_block (<[start := put_head 0 [] h]> d2) start = put_head 0 [] h) as Hh'
      by (unfold disk_block; by rewrite lookup_insert_eq).
    assert (head_list (put_head 0 [] h) = []) as Hc
      by (apply head_cleared; unfold h; by rewrite length_put_head).
    rewrite Hh', recovered_empty, Hc by (by rewrite Hh').
    split; [|split; [apply wf_nil|unfold h; by rewrite !length_put_head]].
    unfold disk_block at 1. rewrite lookup_insert_ne by (by apply not_eq_sym, outside_not_start).
    by apply all_written.
Qed.

(** A crash at any point of recovery changes nothing of what the next
    recovery brings back. *)
Lemma recover_crash d k b :
  head_list (disk_block d start) = bs -> length (disk_block d start) = Z.to_nat BSIZE ->
  ~ in_log start size b ->
  let d' := replay d (take k (recover_trace start d)) in
  recovered start d' b = recovered start d b /\
  log_wf N start size (head_list (disk_block d' start)) /\
  length (disk_block d' start) = Z.to_nat BSIZE.
Proof.
  intros Hd Hl Hb. cbv zeta. unfold recover_trace. rewrite Hd.
  set (W := copied (disk_block d) (install_pairs start bs)).
  assert (W.*1 = bs) as HW by (unfold W; by rewrite copied_fst, install_pairs_fst).
  destruct (decide (k <= length W)%nat) as [Hk|Hk].
  - rewrite take_app_le by done. set (d' := replay d (take k W)).
    assert (forall c, c ∉ bs -> disk_block d' c = disk_block d c) as Hsame.
    { intros c Hc. apply replay_ne. rewrite fmap_take, HW. intros (i&Hi&_)%elem_of_take.
      by apply Hc, (list_elem_of_lookup_2 _ i). }
    assert (disk_block d' start = disk_block d start) as Hst by (apply Hsame, start_not_home).
    rewrite Hst, Hd. split; [|done].
    set (f := disk_block (replay d W)).
    assert (forall j, (j < length bs)%nat ->
      disk_block d (start + Z.of_nat j + 1) = f (nth j bs 0)) as Hf.
    { intros j Hj. symmetry. apply replay_in; [rewrite HW; by destruct Hwf|].
      by apply (copied_elem (disk_block d) _ (install_pair start bs j)), pair_elem. }
    rewrite (recovered_spec d' f), (recovered_spec d f b Hd Hf);
      [|by rewrite Hst|intros j Hj; rewrite Hsame by (by apply log_block_in); by apply Hf].
    case_decide as Hin; [done|]. by apply Hsame.
  - rewrite take_ge by (rewrite length_app; cbn; lia). rewrite replay_app. cbn.
    set (h := put_head 0 [] (disk_block d start)).
    assert (disk_block (<[start := h]> (replay d W)) start = h) as Hst
      by (unfold disk_block at 1; by rewrite lookup_insert_eq).
    assert (head_list h = []) as Hh by (by apply head_cleared).
    rewrite Hst, Hh, recovered_empty by (by rewrite Hst). split.
    + unfold disk_block at 1. rewrite lookup_insert_ne by (by apply not_eq_sym, outside_not_start).
      unfold recovered. by rewrite Hd.
    + split; [apply wf_nil|]. unfold h. by rewrite length_put_head.
Qed.
End crash.

(** ** The invariant of the log between operations *)
Section invariant.
Context {S : Type} `{BufCache S}.
Implicit Types (l : logst S) (s : S) (v : view) (N : Z).

Record log_rep N l v : Prop := mkLogRep {
  lr_repr : repr N (lg_st l) v;
  lr_dev : lg_dev l = 1;
  lr_lock : lg_lock l = false;
  lr_arr : length (lg_block l) = Z.to_nat LOGSIZE;
  lr_n : 0 <= lg_n l <= LOGSIZE;
  lr_wf : log_wf N (lg_start l) (lg_size l) (blocks l);
  lr_pinned : v_pinned v = list_to_set (blocks l);
  lr_head : head_list (disk_block (v_disk v) (lg_start l)) = [];
  lr_held b : b ∈ held_blocks v -> ~ in_log (lg_start l) (lg_size l) b
}.

Lemma on_self l : on l (lg_st l) = l.
Proof. by destruct l. Qed.

Lemma log_rep_len N l v : log_rep N l v -> length (blocks l) = Z.to_nat (lg_n l).
Proof. intros Hl. destruct Hl. unfold blocks. rewrite length_take. lia. Qed.

(** No logged block is locked and the cache has a buffer to spare. *)
Definition quiet l v : Prop :=
  (forall b, b ∈ blocks l -> b ∉ held_blocks v) /\
  (size (v_pinned v ∪ held_blocks v) < NBUF)%nat.

Lemma quiet_roomy N l v :
  log_rep N l v -> quiet l v -> roomy (lg_start l) (lg_size l) (blocks l) v.
Proof.
  intros Hl [Hh Hs]. split.
  - intros b Hb. split; [by apply (lr_held _ _ _ Hl)|]. intros Hin. by apply (Hh b).
  - intros b t Hb. unfold room.
    assert (b ∈ v_pinned v) by (rewrite (lr_pinned _ _ _ Hl); by apply elem_of_list_to_set).
    trans (size ({[t]} ∪ (v_pinned v ∪ held_blocks v) : gset Z)).
    + apply subseteq_size. set_solver.
    + rewrite size_union_alt, size_singleton.
      trans (1 + size (v_pinned v ∪ held_blocks v))%nat; [|lia].
      apply Nat.add_le_mono_l, subseteq_size. set_solver.
Qed.

Lemma copied_install g f start bs :
  (forall k, (k < length bs)%nat -> g (start + Z.of_nat k + 1) = f (nth k bs 0)) ->
  copied g (install_pairs start bs) = map (fun b => (b, f b)) bs.
Proof.
  intros Hk. unfold copied, install_pairs. rewrite map_map.
  trans (map (fun b => (b, f b)) (map (fun k => nth k bs 0) (seq 0 (length bs))));
    [|by rewrite nths]. rewrite map_map. apply map_ext_in.
  intros k [_ Hlt]%in_seq. cbn. f_equal. by apply Hk.
Qed.

Section commit_view.
Context (N start size n : Z) (arr : list Z) (v : view).
Let bs := take (Z.to_nat n) arr.
Hypothesis Hwf : log_wf N start size bs.
Let v1 := v_copies (log_pairs start bs) v.
Let v2 := v_head start n arr v1.
Let v3 := v_copies (install_pairs start bs) v2.

Lemma start_not_logged : start ∉ (log_pairs start bs).*1.
Proof. intros (k&?&?)%log_blocks_elem. lia. Qed.

Lemma commit_mem1 : v_mem v1 start = v_mem v start /\
  (forall k, (k < length bs)%nat -> v_mem v1 (start + Z.of_nat k + 1) = v_mem v (nth k bs 0)).
Proof.
  destruct (log_sep N start size bs Hwf) as [Hs1 _]. split.
  - apply v_copies_mem_ne, start_not_logged.
  - intros k Hk. eapply v_copies_mem_in; [apply log_blocks_nodup|done|].
    by apply (pair_elem start bs k).
Qed.

Lemma commit_mem2 : v_mem v2 start = put_head n arr (v_mem v start) /\
  (forall c, c <> start -> v_mem v2 c = v_mem v1 c).
Proof.
  unfold v2, v_head, v_write, v_set. proj_upd. rewrite fset_eq, (proj1 commit_mem1).
  split; [done|]. intros c Hc. by apply fset_ne.
Qed.

Lemma commit_view_trace :
  v_trace (commit_view start n arr v) = v_trace v ++ commit_trace start n arr (v_mem v) /\
  v_disk (commit_view start n arr v) = replay (v_disk v) (commit_trace start n arr (v_mem v)).
Proof.
  destruct (log_sep N start size bs Hwf) as [Hs1 Hs2].
  destruct (v_copies_trace (log_pairs start bs) v Hs1) as [Ht1 Hd1]. fold v1 in Ht1, Hd1.
  destruct (v_copies_trace (install_pairs start bs) v2 Hs2) as [Ht3 Hd3].
  destruct commit_mem2 as [M2 M2'].
  assert (v_mem v3 start = put_head n arr (v_mem v start)) as M3.
  { rewrite <- M2. apply v_copies_mem_ne. rewrite install_pairs_fst.
    by apply (start_not_home N start size). }
  rewrite (copied_install (v_mem v2) (v_mem v)) in Ht3, Hd3.
  2,3: intros k Hk; rewrite M2' by lia; by apply commit_mem1.
  fold v3 in Ht3, Hd3.
  assert (v_trace v2 = v_trace v1 ++ [(start, v_mem v2 start)]) as Ht2.
  { rewrite M2, <- (proj1 commit_mem1). unfold v2, v_head, v_write, v_set. proj_upd.
    by rewrite fset_eq. }
  assert (v_disk v2 = <[start := v_mem v2 start]> (v_disk v1)) as Hd2.
  { rewrite M2, <- (proj1 commit_mem1). unfold v2, v_head, v_write, v_set. proj_upd.
    by rewrite fset_eq. }
  change (commit_view start n arr v) with (v_head start 0 arr v3).
  unfold v_head, v_write, v_set, commit_trace. fold bs. proj_upd. rewrite fset_eq, M3.
  rewrite Ht3, Ht2, Ht1, Hd3, Hd2, Hd1, M2. rewrite !replay_app. cbn [replay fst snd].
  split; [by rewrite <- !app_assoc|done].
Qed.

Lemma commit_view_rest :
  v_held (commit_view start n arr v) = v_held v /\
  v_pinned (commit_view start n arr v) =
    v_pinned v ∖ list_to_set ((log_pairs start bs).*1 ++ start :: bs) /\
  (forall b, ~ in_log start size b -> v_mem (commit_view start n arr v) b = v_mem v b).
Proof.
  change (commit_view start n arr v) with (v_head start 0 arr v3). split; [|split].
  - change (v_held v3 = v_held v). unfold v3. rewrite v_copies_held. apply v_copies_held.
  - unfold v_head, v_write, v_set. proj_upd. unfold v3. rewrite v_copies_pinned, install_pairs_fst.
    unfold v2, v_head, v_write, v_set. proj_upd. unfold v1. rewrite v_copies_pinned.
    rewrite list_to_set_app_L, list_to_set_cons.
    generalize (list_to_set (log_pairs start bs).*1 : gset Z) (list_to_set bs : gset Z).
    clear. set_solver.
  - intros b Hb. assert (b <> start) as Hs by (by eapply outside_not_start).
    unfold v_head, v_write, v_set. proj_upd. rewrite fset_ne by done.
    assert (v_mem v1 b = v_mem v b) as M1.
    { apply v_copies_mem_ne. intros (k&Hk&->)%log_blocks_elem. by apply Hb, (log_block_in N _ _ bs). }
    unfold v3. destruct (decide (b ∈ bs)) as [Hin|Hin].
    + destruct (proj1 (list_elem_of_lookup bs b) Hin) as [k Hk].
      assert (k < length bs)%nat as Hlt by (by eapply lookup_lt_Some).
      rewrite (v_copies_mem_in _ v2 b (start + Z.of_nat k + 1)).
      * rewrite (proj2 commit_mem2) by lia. rewrite (proj2 commit_mem1) by done.
        by rewrite (nth_lookup_Some _ _ 0 _ Hk).
      * rewrite install_pairs_fst. by destruct Hwf.
      * by apply (log_sep N start size bs).
      * rewrite <- (nth_lookup_Some _ _ 0 _ Hk). by apply (pair_elem start bs k).
    + rewrite v_copies_mem_ne by (by rewrite install_pairs_fst).
      by rewrite (proj2 commit_mem2).
Qed.
End commit_view.

Lemma commit_rep N l v :
  log_rep N l v -> quiet l v -> 0 < lg_n l ->
  exists s', let l' := on (cleared l) s' in
    let v' := commit_view (lg_start l) (lg_n l) (lg_block l) v in
    commit l = Ok tt l' /\ log_rep N l' v' /\ v_pinned v' = ∅.
Proof.
  intros Hl Hq Hn. pose proof (quiet_roomy N l v Hl Hq) as Hrm.
  destruct Hl as [Hr Hd Hlk Harr Hn' Hwf Hp Hhd Hh]. unfold LOGSIZE in *.
  destruct (commit_run N l (lg_st l) v) as (s'&E&R); [done..|lia|done|done|done|].
  exists s'. cbv zeta. rewrite on_self in E. split; [exact E|].
  destruct (commit_view_rest N (lg_start l) (lg_size l) (lg_n l) (lg_block l) v Hwf)
    as (Hheld&Hpin&_).
  destruct (commit_view_trace N (lg_start l) (lg_size l) (lg_n l) (lg_block l) v Hwf) as [_ Hdisk].
  fold (blocks l) in *.
  assert (v_pinned (commit_view (lg_start l) (lg_n l) (lg_block l) v) = ∅) as Hpe.
  { rewrite Hpin, Hp, list_to_set_app_L, list_to_set_cons. set_solver. }
  split; [|exact Hpe]. split; try done.
  - apply (wf_nil _ _ _ _ Hwf).
  - change (lg_start (on (cleared l) s')) with (lg_start l).
    rewrite Hdisk. unfold commit_trace. rewrite !app_assoc, replay_app. cbn. unfold disk_block.
    rewrite lookup_insert_eq. apply head_cleared. rewrite length_put_head.
    by apply (repr_length N (lg_st l) v).
  - intros b. unfold held_blocks. rewrite Hheld. apply Hh.
Qed.

(** C2: [commit] with a transaction in the log runs to completion; it writes
    the disk exactly in the order log blocks, header, home blocks, cleared
    header; afterwards every logged block is on disk at home with the contents
    the cache had, no other home block has changed, nothing is pinned, and the
    invariant of the log holds again with an empty transaction. *)
Theorem commit_correct N l v :
  log_rep N l v -> quiet l v -> 0 < lg_n l ->
  exists s' v', let l' := on (cleared l) s' in
    commit l = Ok tt l' /\ log_rep N l' v' /\ v_pinned v' = ∅ /\ v_held v' = v_held v /\
    v_trace v' = v_trace v ++ commit_trace (lg_start l) (lg_n l) (lg_block l) (v_mem v) /\
    forall b, ~ in_log (lg_start l) (lg_size l) b ->
      v_mem v' b = v_mem v b /\
      disk_block (v_disk v') b =
        if decide (b ∈ blocks l) then v_mem v b else disk_block (v_disk v) b.
Proof.
  intros Hl Hq Hn. destruct (commit_rep N l v Hl Hq Hn) as (s'&E&Hl'&Hp).
  exists s', (commit_view (lg_start l) (lg_n l) (lg_block l) v). cbv zeta in *.
  pose proof (lr_wf _ _ _ Hl) as Hwf.
  destruct (commit_view_rest N (lg_start l) (lg_size l) (lg_n l) (lg_block l) v Hwf)
    as (Hheld&_&Hmem).
  destruct (commit_view_trace N (lg_start l) (lg_size l) (lg_n l) (lg_block l) v Hwf)
    as [Ht Hdisk].
  do 5 (split; [done|]). intros b Hb. split; [by apply Hmem|]. rewrite Hdisk.
  unfold commit_trace. rewrite !app_assoc, replay_app. cbn [replay fst snd]. unfold disk_block at 1.
  rewrite lookup_insert_ne by (by apply not_eq_sym; eapply outside_not_start).
  by apply (all_written N (lg_start l) (lg_size l)).
Qed.

(** What a machine that has just started finds in the cache: the disk. *)
Definition cold (d : gmap Z block) : view := mkBview (disk_block d) d [] ∅ ∅.

(** The disks that crashes during recovery, any number of them, lead to. *)
Inductive reboots (start : Z) : gmap Z block -> gmap Z block -> Prop :=
  | reboots_none d : reboots start d d
  | reboots_crash d k d' :
      reboots start (replay d (take k (recover_trace start d))) d' -> reboots start d d'.

Definition log_disk N (start size : Z) (d : gmap Z block) : Prop :=
  log_wf N start size (head_list (disk_block d start)) /\
  length (disk_block d start) = Z.to_nat BSIZE.

Lemma reboots_recovered N start size d d' :
  reboots start d d' -> log_disk N start size d ->
  log_disk N start size d' /\
  forall b, ~ in_log start size b -> recovered start d' b = recovered start d b.
Proof.
  induction 1 as [d|d k d' Hr IH]; intros [Hwf Hlen]; [done|].
  destruct IH as [Hd' Hrec].
  - assert (~ in_log start size (start + size)) as Hout by (unfold in_log; lia).
    by destruct (recover_crash N start size _ Hwf d k (start + size)) as [_ ?].
  - split; [done|]. intros b Hb. rewrite Hrec by done.
    by apply (recover_crash N start size (head_list (disk_block d start))).
Qed.

Lemma recover_cold N l d :
  lg_dev l = 1 -> length (lg_block l) = Z.to_nat LOGSIZE ->
  log_disk N (lg_start l) (lg_size l) d -> repr N (lg_st l) (cold d) ->
  exists l' v', recover_from_log l = Ok tt l' /\ lg_n l' = 0 /\ repr N (lg_st l') v' /\
    head_list (disk_block (v_disk v') (lg_start l)) = [] /\
    v_trace v' = recover_trace (lg_start l) d /\
    forall b, ~ in_log (lg_start l) (lg_size l) b ->
      v_mem v' b = recovered (lg_start l) d b /\
      disk_block (v_disk v') b = recovered (lg_start l) d b.
Proof.
  intros Hd Harr [Hwf Hlen] Hr.
  destruct (recover_run N l (lg_st l) (cold d)) as (l'&s'&E&Hn&R); [done..|].
  rewrite on_self in E. exists (on l' s'), (recover_view (lg_start l) (cold d)).
  do 3 (split; [done|]).
  set (ps := install_pairs (lg_start l) (head_list (disk_block d (lg_start l)))).
  destruct (log_sep _ _ _ _ Hwf) as [_ Hs2].
  destruct (v_copies_trace ps (cold d) Hs2) as [Htr Hdisk].
  assert (v_mem (v_copies ps (cold d)) (lg_start l) = disk_block d (lg_start l)) as Hm.
  { apply v_copies_mem_ne. unfold ps. rewrite install_pairs_fst. by eapply start_not_home. }
  assert (forall b, v_mem (v_copies ps (cold d)) b =
    disk_block (v_disk (v_copies ps (cold d))) b) as Hmd.
  { intros b. rewrite Hdisk. destruct (decide (b ∈ ps.*1)) as [Hin|Hin].
    - apply list_elem_of_fmap in Hin as ([c t]&->&Hin). cbn [fst].
      assert (NoDup ps.*1) as Hnd by (unfold ps; rewrite install_pairs_fst; by destruct Hwf).
      rewrite (v_copies_mem_in ps (cold d) c t Hnd Hs2 Hin). symmetry. apply replay_in.
      + by rewrite copied_fst.
      + by apply (copied_elem _ _ (c, t)).
    - rewrite v_copies_mem_ne, replay_ne by (rewrite ?copied_fst; done). done. }
  unfold recover_view, v_head, v_write, v_set. proj_upd.
  change (v_mem (cold d)) with (disk_block d) in *. fold ps. rewrite fset_eq, Hm.
  split; [|split].
  - unfold disk_block at 1. rewrite lookup_insert_eq. by apply head_cleared.
  - by rewrite Htr.
  - intros b Hb. assert (b <> lg_start l) as Hs by (by eapply outside_not_start).
    rewrite fset_ne, Hmd by done. unfold disk_block at 2. rewrite lookup_insert_ne by done.
    fold (disk_block (v_disk (v_copies ps (cold d))) b). rewrite Hdisk. done.
Qed.

(** C19: recovery at start-up always completes on a disk whose log header is
    well formed; it leaves the log empty, every home block holds what the
    committed transaction says, and a crash at any of its writes, any number of
    times, does not change the result. *)
Theorem recover_correct N l d d' :
  lg_dev l = 1 -> length (lg_block l) = Z.to_nat LOGSIZE ->
  log_disk N (lg_start l) (lg_size l) d -> reboots (lg_start l) d d' ->
  repr N (lg_st l) (cold d') ->
  exists l' v', recover_from_log l = Ok tt l' /\ lg_n l' = 0 /\ repr N (lg_st l') v' /\
    head_list (disk_block (v_disk v') (lg_start l)) = [] /\
    v_trace v' = recover_trace (lg_start l) d' /\
    forall b, ~ in_log (lg_start l) (lg_size l) b ->
      disk_block (v_disk v') b = recovered (lg_start l) d b.
Proof.
  intros Hd Harr Hld Hrb Hr.
  destruct (reboots_recovered N _ _ d d' Hrb Hld) as [Hld' Hrec].
  destruct (recover_cold N l d' Hd Harr Hld' Hr) as (l'&v'&E&Hn&R&Hh&Ht&Hdisk).
  exists l', v'. do 5 (split; [done|]). intros b Hb. rewrite <- Hrec by done. by apply Hdisk.
Qed.

(** C1: a transaction is atomic across crashes.  If the machine stops after
    any number [k] of the disk writes of [commit], and then again any number of
    times while it recovers, the recovery that completes leaves every block
    outside the log with its contents before the transaction when the header
    had not been written yet, and with the contents of the transaction when it
    had. *)
Theorem commit_crash_safe N l v k d' (l0 : logst S) :
  log_rep N l v -> quiet l v -> 0 < lg_n l ->
  let T := commit_trace (lg_start l) (lg_n l) (lg_block l) (v_mem v) in
  reboots (lg_start l) (replay (v_disk v) (take k T)) d' ->
  lg_dev l0 = 1 -> length (lg_block l0) = Z.to_nat LOGSIZE ->
  lg_start l0 = lg_start l -> lg_size l0 = lg_size l -> repr N (lg_st l0) (cold d') ->
  (exists l1 v1, commit l = Ok tt l1 /\ repr N (lg_st l1) v1 /\ v_trace v1 = v_trace v ++ T) /\
  exists l' v', recover_from_log l0 = Ok tt l' /\ repr N (lg_st l') v' /\
    forall b, ~ in_log (lg_start l) (lg_size l) b ->
      disk_block (v_disk v') b =
        if decide (k <= length (blocks l))%nat then disk_block (v_disk v) b
        else if decide (b ∈ blocks l) then v_mem v b else disk_block (v_disk v) b.
Proof.
  intros Hl Hq Hn T Hrb Hd0 Ha0 Hst Hsz Hr0. split.
  { destruct (commit_rep N l v Hl Hq Hn) as (s'&E&Hl'&_). do 2 eexists.
    split; [exact E|]. split; [apply Hl'|].
    by apply (commit_view_trace N (lg_start l) (lg_size l)), Hl. }
  destruct Hl as [Hr Hd Hlk Harr Hnn Hwf Hp Hhd Hh]. unfold LOGSIZE in *.
  set (d := replay (v_disk v) (take k T)) in *.
  assert (length (v_mem v (lg_start l)) = Z.to_nat BSIZE) as Hlen
    by (by apply (repr_length N (lg_st l) v)).
  assert (lg_start l ∉ v_pinned v) as Hnp.
  { rewrite Hp, elem_of_list_to_set. by eapply start_not_home. }
  assert (lg_start l ∉ held_blocks v) as Hnh.
  { intros Hin. apply (Hh _ Hin). destruct Hwf. unfold in_log. lia. }
  pose proof (fun b => commit_crash N _ _ _ Hwf (lg_n l) (lg_block l) (v_disk v) (v_mem v) k b
    eq_refl (proj1 Hnn) ltac:(lia) Hlen Hhd
    ltac:(by rewrite <- (repr_clean N _ v _ Hr Hnp Hnh))) as Hcr. cbv zeta in Hcr. fold T d in Hcr.
  assert (log_disk N (lg_start l) (lg_size l) d) as Hld.
  { apply (Hcr (lg_start l + lg_size l)). unfold in_log. lia. }
  destruct (reboots_recovered N _ _ d d' Hrb Hld) as [Hld' Hrec].
  destruct (recover_cold N l0 d' Hd0 Ha0) as (l'&v'&E&_&R&_&_&Hdisk);
    [by rewrite Hst, Hsz|done|].
  exists l', v'. split; [done|]. split; [done|]. intros b Hb. rewrite Hst, Hsz in Hdisk.
  rewrite (proj2 (Hdisk b Hb)), Hrec by done. by apply Hcr.
Qed.

Lemma acquire_log_run l {B} (k : unit -> M (logst S) B) :
  lg_lock l = false -> bind acquire_log k l = k tt (l <| lg_lock := true |>).
Proof. intros Hl. unfold acquire_log. mstep. rewrite Hl. by mstep. Qed.
Lemma release_log_run l :
  lg_lock l = true -> release_log l = Ok tt (l <| lg_lock := false |>).
Proof. intros Hl. unfold release_log. mstep. by rewrite Hl. Qed.

Lemma release_log_bind l {B} (k : unit -> M (logst S) B) :
  lg_lock l = true -> bind release_log k l = k tt (l <| lg_lock := false |>).
Proof. intros Hl. by rewrite (bind_Ok _ _ _ _ _ (release_log_run l Hl)). Qed.

(** The entry of a block in the header. *)
Lemma absorb_spec (bs : list Z) b :
  (forall c, c ∈ bs -> 0 <= c < 2 ^ 31) ->
  if decide (b ∈ bs) then bs !! absorb bs b = Some b else absorb bs b = length bs.
Proof.
  induction bs as [|c bs IH]; intros Hr; [done|]. cbn [absorb].
  rewrite u32_small by (specialize (Hr c ltac:(left)); lia).
  specialize (IH ltac:(intros x Hx; apply Hr; by right)).
  destruct (Z.eqb_spec c b) as [->|Hne].
  - by rewrite decide_True by left.
  - destruct (decide (b ∈ bs)) as [Hin|Hin].
    + by rewrite decide_True by (by right).
    + rewrite decide_False by (rewrite elem_of_cons; naive_solver). cbn. by rewrite IH.
Qed.

Lemma take_append (arr : list Z) n b :
  (n < length arr)%nat -> take (Datatypes.S n) (<[n := b]> arr) = take n arr ++ [b].
Proof.
  intros Hn. rewrite (take_S_r _ n b) by (by apply list_lookup_insert_eq).
  by rewrite take_insert_ge by done.
Qed.

(** The transaction with block [b] in it, and the part of the log that
    [log_write] leaves alone. *)
Definition add_block (b : Z) (bs : list Z) : list Z := if decide (b ∈ bs) then bs else bs ++ [b].
Definition control l : Z * Z * Z * bool * list channel :=
  (lg_start l, lg_size l, lg_outstanding l, lg_committing l, lg_woken l).

Lemma add_block_wf N start size bs b :
  log_wf N start size bs -> 0 <= b < N -> ~ in_log start size b ->
  Z.of_nat (length bs) < size - 1 -> Z.of_nat (length bs) < LOGSIZE ->
  log_wf N start size (add_block b bs).
Proof.
  intros Hw Hb Hl H1 H2. unfold add_block. case_decide as Hin; [done|].
  destruct Hw as [Hr [Hl1 Hl2] Hnd Hh]. split; [done| | |].
  - rewrite length_app. cbn. lia.
  - apply NoDup_app. split; [done|]. split; [|apply NoDup_singleton].
    intros c Hc Hcb%list_elem_of_singleton. by subst.
  - intros c [Hc|Hc%list_elem_of_singleton]%elem_of_app; [by apply Hh|by subst].
Qed.

(** The header after the two writes of [log_write]. *)
Definition entered_in (b : Z) l : logst S :=
  let j := absorb (blocks l) b in
  let l1 := l <| lg_block ::= <[j := i32 b]> |> in
  if Z.of_nat j =? lg_n l then l1 <| lg_n ::= Z.add 1 |> else l1.

Lemma entered_in_blocks N l v b :
  log_rep N l v -> 0 <= b < N -> lg_n l < LOGSIZE ->
  blocks (entered_in b l) = add_block b (blocks l) /\
  length (lg_block (entered_in b l)) = Z.to_nat LOGSIZE /\
  0 <= lg_n (entered_in b l) <= LOGSIZE.
Proof.
  intros Hl Hb Hn. pose proof (log_rep_len N l v Hl) as Hlen.
  destruct Hl as [_ _ _ Harr [Hn0 _] [HN _ _ Hhome] _ _ _]. unfold LOGSIZE in *.
  assert (i32 b = b) as Hi by (apply i32_small; lia).
  pose proof (absorb_spec (blocks l) b ltac:(intros c Hc; specialize (Hhome c Hc); lia)) as Hj.
  unfold entered_in, add_block. rewrite Hi. set (j := absorb (blocks l) b) in *.
  case_decide as Hin.
  - assert (j < length (blocks l))%nat as Hlt by (by eapply lookup_lt_Some).
    rewrite (proj2 (Z.eqb_neq _ _)) by lia. unfold blocks at 1. proj_upd.
    rewrite length_insert. split; [|lia]. unfold blocks in Hj. apply lookup_take_Some in Hj as [Hj _].
    by rewrite list_insert_id.
  - rewrite (proj2 (Z.eqb_eq _ _)) by lia. unfold blocks at 1. proj_upd. rewrite length_insert.
    split; [|lia]. replace (Z.to_nat (1 + lg_n l)) with (Datatypes.S j) by lia.
    rewrite take_append by lia. unfold blocks. by replace j with (Z.to_nat (lg_n l)) by lia.
Qed.

Lemma entered_in_same b l (m := entered_in b l) :
  lg_start m = lg_start l /\ lg_size m = lg_size l /\ lg_dev m = lg_dev l /\
  lg_lock m = lg_lock l /\ lg_outstanding m = lg_outstanding l /\
  lg_committing m = lg_committing l /\ lg_woken m = lg_woken l.
Proof. unfold m, entered_in. destruct (_ =? _); proj_upd; done. Qed.

Lemma absorb_lt N l v b :
  log_rep N l v -> lg_n l < LOGSIZE -> (absorb (blocks l) b < length (lg_block l))%nat.
Proof.
  intros Hl Hn. pose proof (log_rep_len N l v Hl) as Hlen.
  destruct Hl as [_ _ _ Harr Hn0 [HN _ _ Hhome] _ _ _]. unfold LOGSIZE in *.
  pose proof (absorb_spec (blocks l) b ltac:(intros c Hc; specialize (Hhome c Hc); lia)) as Hs.
  case_decide; [apply lookup_lt_Some in Hs; lia|lia].
Qed.

Lemma log_write_run N l v i b :
  log_rep N l v -> v_held v !! i = Some b -> ~ in_log (lg_start l) (lg_size l) b ->
  lg_n l < LOGSIZE -> lg_n l < lg_size l - 1 -> 1 <= lg_outstanding l ->
  exists l', log_write i l = Ok tt l' /\ log_rep N l' (v_pin b v) /\
    blocks l' = add_block b (blocks l) /\ control l' = control l.
Proof.
  intros Hl Hi Hout H1 H2 H3. pose proof (lr_repr _ _ _ Hl) as Hr.
  pose proof (repr_range N _ v i b Hr Hi) as Hb.
  destruct (pin_law N _ v i b Hr Hi) as (s'&Epin&Rpin).
  destruct (entered_in_blocks N l v b Hl Hb H1) as (Hbl&Hal&Hnl).
  exists (on (entered_in b l) s'). split; [|split; [|split]].
  - unfold log_write. mstep. rewrite (proj2 (Z.leb_gt _ _)), (proj2 (Z.leb_gt _ _)) by (cbn; lia).
    cbn [orb]. unfold id. rewrite (proj2 (Z.ltb_ge _ _)) by lia.
    rewrite acquire_log_run by apply Hl. set (l1 := l <| lg_lock := true |>).
    change (bind (zoom lg_st (blockno i)) ?k l1)
      with (bind (zoom lg_st (blockno i)) k (on l1 (lg_st l))).
    rewrite (bind_Ok _ _ _ _ _ (zoom_run _ l1 _ _ _ (blockno_law N _ v i b Hr Hi))). cbv beta zeta.
    fold (blocks l). set (j := absorb (blocks l) b).
    assert (j < length (lg_block l))%nat as Hj by (by apply (absorb_lt N l v)).
    destruct (lookup_lt_is_Some_2 _ _ Hj) as [x Hx]. unfold entry. mstep.
    change (lg_block (on l1 (lg_st l))) with (lg_block l). rewrite Hx. mstep.
    assert (bind (when (Z.of_nat j =? lg_n l) (modify (fun l => l <| lg_n ::= Z.add 1 |>)))
      (fun _ => zoom lg_st (pin i) ;; release_log) ((on l1 (lg_st l)) <| lg_block ::= <[j := i32 b]> |>)
      = bind (zoom lg_st (pin i)) (fun _ => release_log)
          (on ((entered_in b l) <| lg_lock := true |>) (lg_st l))) as ->.
    { unfold entered_in. fold j. destruct (Z.of_nat j =? lg_n l); mstep; f_equal;
        apply logst_eq; unfold l1, on; proj_upd; done. }
    rewrite (bind_Ok _ _ _ _ _ (zoom_run _ _ _ _ _ Epin)), release_log_run by done. f_equal.
    apply logst_eq; unfold on; proj_upd; try done.
    unfold entered_in. pose proof (lr_lock _ _ _ Hl). by destruct (_ =? _); proj_upd.
  - pose proof (add_block_wf N _ _ _ b (lr_wf _ _ _ Hl) Hb Hout) as Hwf.
    pose proof (log_rep_len N l v Hl) as Hlen. destruct Hl as [_ Hd Hlk Harr Hn _ Hp Hhd Hh].
    destruct (entered_in_same b l) as (Es&Ez&Ed&Ek&_).
    split; unfold on; proj_upd; rewrite ?Es, ?Ez, ?Ed, ?Ek; try done.
    + change (log_wf N (lg_start l) (lg_size l) (blocks (entered_in b l))). rewrite Hbl.
      apply Hwf; lia.
    + change (v_pinned (v_pin b v) = list_to_set (blocks (entered_in b l))). rewrite Hbl.
      unfold v_pin. proj_upd. rewrite Hp. unfold add_block. case_decide.
      * assert (b ∈ (list_to_set (blocks l) : gset Z)) by (by apply elem_of_list_to_set).
        set_solver.
      * rewrite list_to_set_app_L, list_to_set_cons. set_solver.
  - exact Hbl.
  - destruct (entered_in_same b l) as (Es&Ez&Ed&Ek&Eo&Ec&Ew).
    unfold control, on. proj_upd. by rewrite Es, Ez, Eo, Ec, Ew.
Qed.

(** [log_write] on a locked buffer of block [b] outside the log: it panics
    when the header is full or no operation is open; otherwise it returns, the
    transaction holds [b] exactly once, behind the blocks it had before, the
    block is pinned in the cache and the invariant of the log is kept. *)
Theorem log_write_correct N l v i b :
  log_rep N l v -> v_held v !! i = Some b -> ~ in_log (lg_start l) (lg_size l) b ->
  if (LOGSIZE <=? lg_n l) || (lg_size l - 1 <=? lg_n l)
  then log_write i l = Panic "too big a transaction"
  else if lg_outstanding l <? 1 then log_write i l = Panic "log_write outside of trans"
  else exists l', log_write i l = Ok tt l' /\ log_rep N l' (v_pin b v) /\
    blocks l' = (if decide (b ∈ blocks l) then blocks l else blocks l ++ [b]) /\
    control l' = control l.
Proof.
  intros Hl Hi Hb. destruct ((LOGSIZE <=? lg_n l) || (lg_size l - 1 <=? lg_n l)) eqn:E1.
  - unfold log_write. mstep. unfold id. by rewrite E1.
  - destruct (lg_outstanding l <? 1) eqn:E2.
    + unfold log_write. mstep. unfold id. by rewrite E1, E2.
    + bool_hyps. apply log_write_run; [done..|lia|lia|lia].
Qed.

(** Fields the invariant does not mention may change. *)
Lemma log_rep_control N l v o c w :
  log_rep N l v ->
  log_rep N (l <| lg_outstanding := o |> <| lg_committing := c |> <| lg_woken := w |>) v.
Proof. intros Hl. by destruct Hl. Qed.

Lemma sync_finish_run N l v :
  log_rep N l v -> quiet l v -> 0 < lg_n l ->
  exists s', let l' := (on (cleared l) s') <| lg_committing := false |>
      <| lg_woken := ChLog :: lg_woken l |> in
    let v' := commit_view (lg_start l) (lg_n l) (lg_block l) v in
    sync_finish l = Ok 0 l' /\ log_rep N l' v' /\ v_pinned v' = ∅.
Proof.
  intros Hl Hq Hn. destruct (commit_rep N l v Hl Hq Hn) as (s'&E&Hl'&Hp). exists s'. cbv zeta in *.
  split; [|split; [|done]].
  - unfold sync_finish. rewrite (bind_Ok _ _ _ _ _ E), acquire_log_run by apply Hl'. mstep.
    unfold wake. mstep. rewrite release_log_bind by done.
    unfold ret. f_equal. pose proof (lr_lock _ _ _ Hl') as Hlk.
    apply logst_eq; unfold on, cleared in *; proj_upd; done.
  - by destruct Hl'.
Qed.

(** C26: [sync] makes the file system durable.  With nothing logged it returns
    -1 and changes nothing.  While operations are outstanding it closes the log
    to new ones and sleeps, with the lock released.  Otherwise it returns 0
    with the log open again and every process waiting for it woken, and then
    every block outside the log that no process holds is on disk as the cache
    has it. *)
Theorem sync_correct N l v :
  log_rep N l v -> quiet l v ->
  if lg_n l =? 0 then sync l = Ok (-1) l
  else if negb (lg_outstanding l =? 0) then sync l = Sleep ChSync (l <| lg_committing := true |>)
  else exists l' v', sync l = Ok 0 l' /\ log_rep N l' v' /\ lg_n l' = 0 /\
    lg_committing l' = false /\ lg_woken l' = ChLog :: lg_woken l /\
    forall b, ~ in_log (lg_start l) (lg_size l) b -> b ∉ held_blocks v ->
      v_mem v' b = v_mem v b /\ disk_block (v_disk v') b = v_mem v b.
Proof.
  intros Hl Hq. unfold sync. mstep.
  destruct (Z.eqb_spec (lg_n l) 0) as [Hn|Hn].
  { by rewrite (proj2 (Z.ltb_ge _ _)) by lia. }
  pose proof (lr_n _ _ _ Hl) as Hn0. rewrite (proj2 (Z.ltb_lt _ _)) by lia.
  unfold sync_enter. rewrite bind_bind, acquire_log_run by apply Hl. mstep. unfold sync_wait. mstep.
  proj_upd. pose proof (lr_lock _ _ _ Hl) as Hlk.
  set (l1 := l <| lg_committing := true |>).
  assert (forall m, m = l <| lg_lock := true |> <| lg_committing := true |> ->
    m <| lg_lock := false |> = l1) as Hl1.
  { intros m ->. apply logst_eq; unfold l1; proj_upd; done. }
  destruct (negb (lg_outstanding l =? 0)).
  - unfold sleep_log. rewrite bind_bind, release_log_bind by done.
    unfold sleepon, bind. by rewrite Hl1.
  - rewrite release_log_bind, Hl1 by done.
    assert (log_rep N l1 v) as Hr1 by (by destruct Hl).
    destruct (sync_finish_run N l1 v Hr1 Hq) as (s'&E&Hl'&Hp); [change (0 < lg_n l); lia|].
    do 2 eexists. split; [exact E|]. split; [exact Hl'|]. do 3 (split; [done|]).
    intros b Hb Hh. change (lg_start l1) with (lg_start l) in *.
    change (lg_n l1) with (lg_n l) in *. change (lg_block l1) with (lg_block l) in *.
    destruct (commit_view_rest N _ _ _ _ v (lr_wf _ _ _ Hl)) as (Hheld&_&Hmem).
    split; [by apply Hmem|]. rewrite <- (repr_clean N _ _ b (lr_repr _ _ _ Hl')).
    + by apply Hmem.
    + rewrite Hp. set_solver.
    + unfold held_blocks. by rewrite Hheld.
Qed.

(** ** Reservations

    [begin_op] admits an operation when the log has room for MAXOPBLOCKS more
    blocks of every open operation.  [budgets]: the blocks each open operation
    may still write. *)
Record reserved l (budgets : list nat) : Prop := mkReserved {
  rs_open : lg_outstanding l = Z.of_nat (length budgets);
  rs_each m : m ∈ budgets -> Z.of_nat m <= MAXOPBLOCKS;
  rs_room : lg_n l + Z.of_nat (sum_list budgets) <= LOGSIZE
}.

Lemma sum_budgets (budgets : list nat) m :
  (forall k, k ∈ budgets -> (k <= m)%nat) -> (sum_list budgets <= length budgets * m)%nat.
Proof.
  induction budgets as [|k bs IH]; intros Hm; [done|]. cbn.
  specialize (Hm k ltac:(left)) as Hk.
  specialize (IH ltac:(intros j Hj; apply Hm; by right)). unfold id in *. lia.
Qed.

Lemma sum_spend budgets k m :
  budgets !! k = Some (Datatypes.S m) ->
  sum_list budgets = Datatypes.S (sum_list (<[k := m]> budgets)).
Proof.
  revert k. induction budgets as [|x bs IH]; intros [|k] Hk; cbn in *; [done..| |].
  - injection Hk as ->. unfold id. lia.
  - change (x + sum_list bs = Datatypes.S (x + sum_list (<[k := m]> bs)))%nat.
    rewrite (IH k Hk). lia.
Qed.

End invariant.

(** ** Examples, on the ideal cache *)

Import Ideal.

Definition demo_block : block := replicate (Z.to_nat BSIZE) 7.
Definition demo_disk : view := mkBview (fun _ => zero_block) ∅ [] ∅ ∅.
Definition demo_view : view :=
  mkBview (fset (fun _ => zero_block) 100 demo_block) ∅ [] {[100]} ∅.
Definition demo_log (n : Z) (arr : list Z) (v : view) : logst view :=
  mkLog 2 60 0 false 1 n arr false [] v.
Definition demo_arr : list Z := 100 :: replicate 59 0.

Lemma held_none (v : view) : v_held v = ∅ -> held_blocks v = ∅.
Proof. intros Hh. unfold held_blocks. rewrite Hh. apply map_img_empty_L. Qed.

Lemma demo_disk_good : good 200 demo_disk.
Proof. by split. Qed.
Lemma demo_view_good : good 200 demo_view.
Proof.
  split; [|intros b Hb _|by intros i b].
  - intros b. cbn. unfold fset. by case_decide.
  - cbn in *. rewrite fset_ne; [done|set_solver].
Qed.

Lemma demo_rep : log_rep 200 (demo_log 1 demo_arr demo_view) demo_view.
Proof.
  split; try done.
  - split; [done|apply demo_view_good].
  - split; [cbn; lia|split; vm_compute; congruence|apply NoDup_singleton|].
    intros b ->%list_elem_of_singleton. unfold in_log. cbn. lia.
Qed.

Lemma demo_quiet : quiet (demo_log 1 demo_arr demo_view) demo_view.
Proof.
  split; rewrite held_none by done; [set_solver|].
  cbn. rewrite (right_id_L ∅ _), size_singleton. unfold NBUF. lia.
Qed.

Lemma demo_out : ~ in_log 2 60 100.
Proof. unfold in_log. lia. Qed.

Lemma commit_correct_witness :
  exists l' v', commit (demo_log 1 demo_arr demo_view) = Ok tt l' /\ repr 200 (lg_st l') v' /\
    disk_block (v_disk v') 100 = demo_block.
Proof.
  destruct (commit_correct 200 _ _ demo_rep demo_quiet ltac:(done)) as (s'&v'&E&R&_&_&_&Hb).
  exists (on (cleared (demo_log 1 demo_arr demo_view)) s'), v'.
  split; [exact E|]. split; [apply R|].
  destruct (Hb 100 ltac:(unfold in_log; cbn; lia)) as [_ ->].
  rewrite decide_True by (cbn; left). apply fset_eq.
Defined.

Lemma demo_cold : repr 200 (cold ∅) (cold ∅).
Proof. split; [done|]. by split. Qed.

Lemma demo_disk_log : log_disk 200 2 60 ∅.
Proof.
  split; [|done]. split; [lia|split; vm_compute; congruence|vm_compute; constructor|].
  intros b Hb. by apply elem_of_nil in Hb.
Qed.

Lemma recover_correct_witness :
  exists l' v', recover_from_log (demo_log 0 (replicate 60 0) (cold ∅)) = Ok tt l' /\
    disk_block (v_disk v') 100 = zero_block.
Proof.
  destruct (recover_correct 200 (demo_log 0 (replicate 60 0) (cold ∅)) ∅ ∅ eq_refl eq_refl
    demo_disk_log (reboots_none _ _) demo_cold) as (l'&v'&E&_&_&_&_&Hb).
  exists l', v'. split; [exact E|]. apply (Hb 100). unfold in_log. cbn. lia.
Defined.

(** The machine stops before the first write of [commit]. *)
Lemma commit_crash_safe_witness :
  exists l' v', recover_from_log (demo_log 0 (replicate 60 0) (cold ∅)) = Ok tt l' /\
    disk_block (v_disk v') 100 = zero_block.
Proof.
  destruct (commit_crash_safe 200 _ _ 0 ∅ (demo_log 0 (replicate 60 0) (cold ∅)) demo_rep demo_quiet
    ltac:(done) (reboots_none _ _) eq_refl eq_refl eq_refl eq_refl
    demo_cold) as (_&l'&v'&E&_&Hb).
  exists l', v'. split; [exact E|]. apply (Hb 100). unfold in_log. cbn. lia.
Defined.

Lemma sync_correct_witness :
  exists l' v', sync (demo_log 1 demo_arr demo_view) = Ok 0 l' /\
    disk_block (v_disk v') 100 = demo_block.
Proof.
  pose proof (sync_correct 200 _ _ demo_rep demo_quiet) as Hs.
  change (lg_n _ =? 0) with false in Hs. change (negb (lg_outstanding _ =? 0)) with false in Hs.
  cbv iota in Hs. destruct Hs as (l'&v'&E&_&_&_&_&Hb). exists l', v'. split; [exact E|].
  assert (100 ∉ held_blocks demo_view) as Hh
    by (rewrite held_none by done; apply not_elem_of_empty).
  destruct (Hb 100 demo_out Hh) as [_ Hd]. rewrite Hd. apply fset_eq.
Defined.

(** An open operation holds block 101. *)
Definition open_view : view := demo_view <| v_held := {[0%nat := 101]} |>.
Definition open_log (size : Z) : logst view :=
  mkLog 2 size 1 false 1 1 demo_arr false [] open_view.

Lemma open_rep size : 60 <= size <= 61 -> log_rep 200 (open_log size) open_view.
Proof.
  intros Hs. split; try done.
  - split; [done|]. destruct demo_view_good as [Hl Hc _]. split; [exact Hl| |].
    + intros b Hb _. apply Hc; [exact Hb|]. rewrite held_none by done. set_solver.
    + intros i b. unfold open_view. proj_upd. intros [_ <-]%lookup_singleton_Some. lia.
  - split; [cbn; lia|change (1 <= size - 1 /\ 1 <= LOGSIZE); unfold LOGSIZE; lia|apply NoDup_singleton|].
    intros b ->%list_elem_of_singleton. unfold in_log. cbn. lia.
  - intros b [i Hi]%held_blocks_elem. unfold open_view in Hi. proj_upd in Hi.
    apply lookup_singleton_Some in Hi as [_ <-]. unfold in_log. cbn. lia.
Qed.

Lemma log_write_correct_witness :
  exists l', log_write 0 (open_log 60) = Ok tt l' /\ blocks l' = [100; 101].
Proof.
  pose proof (log_write_correct 200 (open_log 60) open_view 0 101 (open_rep 60 ltac:(lia)) eq_refl
    ltac:(unfold in_log; cbn; lia)) as Hw. cbn in Hw.
  destruct Hw as (l'&E&_&Hb&_). exists l'. split; [exact E|]. rewrite Hb.
  rewrite decide_False; [done|]. intros Hin. apply list_elem_of_singleton in Hin. lia.
Defined.


(** One block written inside an operation: read, change, [log_write], release. *)
Definition touch (x : block) (b : Z) : M (logst view) unit :=
  i <- rd b ;; buf_set i x ;; log_write i ;; buf_release i.
Definition empty_log : logst view := demo_log 0 (replicate 60 0) demo_disk.

(** the reservations of [begin_op] do not match the check of [log_write].
    With the log of LOGSIZE blocks that mkfs makes, three operations are
    admitted, each with MAXOPBLOCKS = 20 blocks; after 59 blocks of the 60
    the next [log_write] panics. *)
Theorem reservation_off_by_one :
  match (begin_op ;; begin_op ;; begin_op ;; forM (seqZ 100 59) (touch demo_block)) empty_log with
  | Ok _ l => lg_size l = LOGSIZE /\ lg_outstanding l = 3 /\
      lg_n l = lg_outstanding l * MAXOPBLOCKS - 1 /\
      touch demo_block 159 l = Panic "too big a transaction"
  | _ => False
  end.
Proof. vm_compute. repeat split. Qed.

End Log.
