(* ===== verification/Txdisk.v ===== *)
(** * Disk blocks inside a transaction (the contract of log.c with fs.c)

    Between [begin_op] and [end_op] the file system reads blocks into locked
    buffers, changes them, calls [log_write] and releases them.  [dview] is what
    it can rely on: the contents of the blocks, those of the last commit, the
    buffers it holds and the blocks of the transaction.  [TxDisk] states the
    operations and their laws; the log over a buffer cache is an instance, and
    Fs.v uses nothing else. *)

From S2P Require Import Prelude Bytes Bufcache Log.

Record dview := mkDview {
  d_mem : Z -> block;
  d_base : Z -> block;
  d_tx : gset Z;
  d_held : gmap nat Z;
  d_usable : Z -> Prop;     (* a block of the file system, outside the log *)
  d_cap : Z                 (* the blocks a transaction can hold *)
}.
#[export] Instance eta_dview : Eta dview := fun r =>
  mkDview (d_mem r) (d_base r) (d_tx r) (d_held r) (d_usable r) (d_cap r).
#[export] Instance set_d_mem : Setter d_mem.
Proof. build_setter. Defined.
#[export] Instance set_d_tx : Setter d_tx.
Proof. build_setter. Defined.
#[export] Instance set_d_held : Setter d_held.
Proof. build_setter. Defined.

Lemma dview_eq (v w : dview) :
  d_mem v = d_mem w -> d_base v = d_base w -> d_tx v = d_tx w -> d_held v = d_held w ->
  d_usable v = d_usable w -> d_cap v = d_cap w -> v = w.
Proof. destruct v, w. cbn. by intros -> -> -> -> -> ->. Qed.

Definition d_locked (v : dview) : gset Z := map_img (d_held v).
Definition d_take (i : nat) (b : Z) (v : dview) : dview := v <| d_held ::= <[i := b]> |>.
Definition d_drop (i : nat) (v : dview) : dview := v <| d_held ::= delete i |>.
Definition d_set (b : Z) (x : block) (v : dview) : dview := v <| d_mem ::= fun f => fset f b x |>.
Definition d_log (b : Z) (v : dview) : dview := v <| d_tx ::= union {[b]} |>.

Class TxDisk (T : Type) := {
  tx_read : Z -> Z -> M T nat;
  tx_data : nat -> M T block;
  tx_set : nat -> block -> M T unit;
  tx_log : nat -> M T unit;
  tx_release : nat -> M T unit;

  tx_repr : T -> dview -> Prop;

  tx_read_law t v b :
    tx_repr t v -> d_usable v b -> b ∉ d_locked v ->
    (size (d_tx v ∪ d_locked v) < NBUF)%nat ->
    exists i t', tx_read 1 b t = Ok i t' /\ d_held v !! i = None /\ tx_repr t' (d_take i b v);
  tx_data_law t v i b :
    tx_repr t v -> d_held v !! i = Some b -> tx_data i t = Ok (d_mem v b) t;
  tx_set_law t v i b x :
    tx_repr t v -> d_held v !! i = Some b -> length x = length (d_mem v b) ->
    exists t', tx_set i x t = Ok tt t' /\ tx_repr t' (d_set b x v);
  tx_log_law t v i b :
    tx_repr t v -> d_held v !! i = Some b -> d_usable v b -> Z.of_nat (size (d_tx v)) < d_cap v ->
    exists t', tx_log i t = Ok tt t' /\ tx_repr t' (d_log b v);
  (* a changed buffer goes back only after [log_write] *)
  tx_release_law t v i b :
    tx_repr t v -> d_held v !! i = Some b -> b ∈ d_tx v \/ d_mem v b = d_base v b ->
    exists t', tx_release i t = Ok tt t' /\ tx_repr t' (d_drop i v);
  tx_clean t v b :
    tx_repr t v -> b ∉ d_tx v -> b ∉ d_locked v -> d_mem v b = d_base v b;
  tx_length t v b : tx_repr t v -> length (d_mem v b) = Z.to_nat BSIZE
}.

(** ** The log provides it *)
Section log_disk.
Context {S : Type} `{BufCache S}.
Import Log.

(** The view of the file system of the view of the log. *)
Definition dview_of (N : Z) (l : logst S) (v : view) : dview :=
  mkDview (v_mem v) (disk_block (v_disk v)) (v_pinned v) (v_held v)
    (fun b => 0 <= b < N /\ ~ in_log (lg_start l) (lg_size l) b)
    (Z.min LOGSIZE (lg_size l - 1)).

Definition log_tx (l : logst S) (d : dview) : Prop :=
  exists N v, log_rep N l v /\ 1 <= lg_outstanding l /\ d = dview_of N l v.

Lemma log_rep_on N (l : logst S) v s w :
  log_rep N l v -> repr N s w -> v_pinned w = v_pinned v -> v_disk w = v_disk v ->
  (forall b, b ∈ held_blocks w -> ~ in_log (lg_start l) (lg_size l) b) ->
  log_rep N (on l s) w.
Proof.
  intros Hl Hr Hp Hd Hh. destruct Hl. split; unfold on; proj_upd; try done; by rewrite ?Hp, ?Hd.
Qed.

Lemma size_pinned N (l : logst S) v : log_rep N l v -> Z.of_nat (size (v_pinned v)) = lg_n l.
Proof.
  intros Hl. rewrite (lr_pinned _ _ _ Hl), size_list_to_set by (by destruct (lr_wf _ _ _ Hl)).
  rewrite (log_rep_len _ _ _ Hl). destruct (lr_n _ _ _ Hl). lia.
Qed.

(** One operation on the cache below the log. *)
Lemma log_tx_zoom {A} (m : M S A) N (l : logst S) v a s' w :
  log_rep N l v -> 1 <= lg_outstanding l -> m (lg_st l) = Ok a s' -> repr N s' w ->
  v_pinned w = v_pinned v -> v_disk w = v_disk v ->
  (forall b, b ∈ held_blocks w -> ~ in_log (lg_start l) (lg_size l) b) ->
  zoom lg_st m l = Ok a (on l s') /\ log_tx (on l s') (dview_of N l w).
Proof.
  intros Hl Ho E Hr Hp Hd Hh. split.
  - rewrite <- (on_self l) at 1. by apply zoom_run.
  - exists N, w. split; [by eapply log_rep_on|]. by split.
Qed.

#[export] Program Instance log_txdisk : TxDisk (logst S) := {|
  tx_read dev b := zoom lg_st (bread dev b);
  tx_data i := zoom lg_st (data i);
  tx_set i x := zoom lg_st (set_data i x);
  tx_log i := log_write i;
  tx_release i := zoom lg_st (brelse i);
  tx_repr := log_tx
|}.
Next Obligation.
  intros l d b (N&v&Hl&Ho&->) [Hb Hout] Hh Hs.
  destruct (bread_law N (lg_st l) v b (lr_repr _ _ _ Hl) Hb Hh) as (i&s'&E&Hi&Hr).
  { change (size (v_pinned v ∪ held_blocks v) < NBUF)%nat in Hs.
    replace ({[b]} ∪ v_pinned v ∪ held_blocks v)
      with ({[b]} ∪ (v_pinned v ∪ held_blocks v)) by set_solver.
    rewrite size_union_alt, size_singleton.
    trans (1 + size (v_pinned v ∪ held_blocks v))%nat; [|lia].
    apply Nat.add_le_mono_l, subseteq_size. set_solver. }
  destruct (log_tx_zoom (bread 1 b) N l v i s' (v_take i b v)) as [E' R']; try done.
  { intros c Hc. rewrite held_blocks_take in Hc by done.
    apply elem_of_union in Hc as [->%elem_of_singleton|Hc]; [done|by apply (lr_held _ _ _ Hl)]. }
  by exists i, (on l s').
Qed.
Next Obligation.
  intros l d i b (N&v&Hl&Ho&->) Hi.
  destruct (log_tx_zoom (data i) N l v (v_mem v b) (lg_st l) v) as [E _]; try done.
  - by apply (data_law N), Hi; apply Hl.
  - apply Hl.
  - apply (lr_held _ _ _ Hl).
  - by rewrite on_self in E.
Qed.
Next Obligation.
  intros l d i b x (N&v&Hl&Ho&->) Hi Hx.
  destruct (set_data_law N (lg_st l) v i b x (lr_repr _ _ _ Hl) Hi Hx) as (s'&E&Hr).
  destruct (log_tx_zoom (set_data i x) N l v tt s' (v_set b x v)) as [E' R']; try done.
  - apply (lr_held _ _ _ Hl).
  - by exists (on l s').
Qed.
Next Obligation.
  intros l d i b (N&v&Hl&Ho&->) Hi [Hb Hout] Hcap.
  change (d_tx (dview_of N l v)) with (v_pinned v) in Hcap.
  rewrite (size_pinned N l v Hl) in Hcap.
  change (d_cap (dview_of N l v)) with (Z.min LOGSIZE (lg_size l - 1)) in Hcap.
  destruct (log_write_run N l v i b Hl Hi Hout) as (l'&E&Hl'&_&Hc); [lia|lia|done|].
  exists l'. split; [done|]. exists N, (v_pin b v). split; [done|].
  unfold control in Hc. injection Hc as Hs1 Hs2 Hs3 _ _. split; [by rewrite Hs3|].
  unfold dview_of. by rewrite Hs1, Hs2.
Qed.
Next Obligation.
  intros l d i b (N&v&Hl&Ho&->) Hi Hb.
  destruct (brelse_law N (lg_st l) v i b (lr_repr _ _ _ Hl) Hi Hb) as (s'&E&Hr).
  destruct (log_tx_zoom (brelse i) N l v tt s' (v_drop i v)) as [E' R']; try done.
  { intros c Hc. apply (lr_held _ _ _ Hl). apply elem_of_map_img in Hc as [j Hj].
    apply elem_of_map_img. exists j. unfold v_drop in Hj. proj_upd in Hj.
    by apply lookup_delete_Some in Hj as [_ ?]. }
  by exists (on l s').
Qed.
Next Obligation. intros l d b (N&v&Hl&Ho&->). apply (repr_clean N (lg_st l)), Hl. Qed.
Next Obligation. intros l d b (N&v&Hl&Ho&->). apply (repr_length N (lg_st l)), Hl. Qed.
End log_disk.
