(* ===== verification/Fs.v ===== *)
(** * The file system (xv6-public/fs.c, fs.h, file.h, stat.h)

    Blocks, inodes, the contents of files, directories and path names.  The
    routines work on the inode cache and, through the interface [TxDisk], on
    the blocks of the disk.  A pointer to an inode is the index of its entry in
    [icache.inode]; what is read from a file is returned as a list of bytes,
    what is written is given as one.  A section under [icache.lock] is one
    step. *)

From S2P Require Import Prelude Spinlock Bytes Bufcache Log Txdisk.

Module Fs.
Import Sleeplock.

Definition NINODE : nat := 50.
Abbreviation NDEV := 10 (only parsing).
Abbreviation ROOTDEV := 1 (only parsing).
Definition ROOTINO : Z := 1.
Definition NDIRECT : Z := 10.
Definition NINDIRECT : Z := BSIZE / 4.
Definition MAXFILE : Z :=
  NDIRECT + NINDIRECT + NINDIRECT * NINDIRECT + NINDIRECT * NINDIRECT * NINDIRECT.
Definition DIRSIZ : nat := 14.
Definition T_DIR : Z := 1.
Definition T_FILE : Z := 2.
Definition T_DEV : Z := 3.

Definition sizeof_dinode : Z := 64.
Definition IPB : Z := BSIZE / sizeof_dinode.
Definition BPB : Z := BSIZE * 8.
Definition IBLOCK (i : Z) (sb : Log.superblock) : Z := u32 (i / IPB + Log.sb_inodestart sb).
Definition BBLOCK (b : Z) (sb : Log.superblock) : Z := u32 (b / BPB + Log.sb_bmapstart sb).

(** [struct inode]. *)
Record inode := mkInode {
  i_dev : Z; i_inum : Z; i_ref : Z; i_lock : sleeplock; i_valid : bool;
  i_type : Z; i_major : Z; i_minor : Z; i_nlink : Z; i_size : Z; i_addrs : list Z
}.
#[export] Instance eta_inode : Eta inode := fun r =>
  mkInode (i_dev r) (i_inum r) (i_ref r) (i_lock r) (i_valid r) (i_type r) (i_major r)
    (i_minor r) (i_nlink r) (i_size r) (i_addrs r).
#[export] Instance set_i_dev : Setter i_dev.
Proof. build_setter. Defined.
#[export] Instance set_i_inum : Setter i_inum.
Proof. build_setter. Defined.
#[export] Instance set_i_ref : Setter i_ref.
Proof. build_setter. Defined.
#[export] Instance set_i_lock : Setter i_lock.
Proof. build_setter. Defined.
#[export] Instance set_i_valid : Setter i_valid.
Proof. build_setter. Defined.
#[export] Instance set_i_type : Setter i_type.
Proof. build_setter. Defined.
#[export] Instance set_i_major : Setter i_major.
Proof. build_setter. Defined.
#[export] Instance set_i_minor : Setter i_minor.
Proof. build_setter. Defined.
#[export] Instance set_i_nlink : Setter i_nlink.
Proof. build_setter. Defined.
#[export] Instance set_i_size : Setter i_size.
Proof. build_setter. Defined.
#[export] Instance set_i_addrs : Setter i_addrs.
Proof. build_setter. Defined.

Definition inode0 : inode := mkInode 0 0 0 initsleeplock false 0 0 0 0 0 (replicate 13 0).

(** [struct dinode] at byte offset [o] of a block. *)
Record dinode := mkDinode {
  di_type : Z; di_major : Z; di_minor : Z; di_nlink : Z; di_size : Z; di_addrs : list Z
}.
Definition get_dinode (d : block) (o : nat) : dinode :=
  mkDinode (i16 (get16 d o)) (i16 (get16 d (o + 2))) (i16 (get16 d (o + 4)))
    (i16 (get16 d (o + 6))) (get32 d (o + 8)) (get_words (o + 12) 13 d).
Definition put_dinode (o : nat) (x : dinode) (d : block) : block :=
  put_words (o + 12) (di_addrs x) (put32 (o + 8) (di_size x) (put16 (o + 6) (di_nlink x)
    (put16 (o + 4) (di_minor x) (put16 (o + 2) (di_major x) (put16 o (di_type x) d))))).
Definition dinode_off (inum : Z) : nat := Z.to_nat (sizeof_dinode * (inum mod IPB)).

(** [struct stat]. *)
Record stat := mkStat { st_type : Z; st_dev : Z; st_ino : Z; st_nlink : Z; st_size : Z }.

(** The state: the superblock in memory, the inode cache, the running process
    ([myproc()->pid] and [->cwd]) and the disk. *)
Record fsst (T : Type) := mkFs {
  f_sb : Log.superblock;
  f_inodes : list inode;
  f_pid : Z;
  f_cwd : option nat;
  f_disk : T
}.
Arguments mkFs {T}. Arguments f_sb {T}. Arguments f_inodes {T}. Arguments f_pid {T}.
Arguments f_cwd {T}. Arguments f_disk {T}.
#[export] Instance eta_fsst {T} : Eta (fsst T) := fun r =>
  mkFs (f_sb r) (f_inodes r) (f_pid r) (f_cwd r) (f_disk r).
#[export] Instance set_f_sb {T} : Setter (@f_sb T).
Proof. build_setter. Defined.
#[export] Instance set_f_inodes {T} : Setter (@f_inodes T).
Proof. build_setter. Defined.
#[export] Instance set_f_disk {T} : Setter (@f_disk T).
Proof. build_setter. Defined.

Lemma fsst_eq {T} (s r : fsst T) :
  f_sb s = f_sb r -> f_inodes s = f_inodes r -> f_pid s = f_pid r -> f_cwd s = f_cwd r ->
  f_disk s = f_disk r -> s = r.
Proof. destruct s, r. cbn. by intros -> -> -> -> ->. Qed.

Section fs.
Context {T : Type} `{TxDisk T}.
Abbreviation F := (fsst T).

Definition bread (dev b : Z) : M F nat := zoom f_disk (tx_read dev b).
Definition bdata (i : nat) : M F block := zoom f_disk (tx_data i).
Definition bset (i : nat) (x : block) : M F unit := zoom f_disk (tx_set i x).
Definition blog (i : nat) : M F unit := zoom f_disk (tx_log i).
Definition brelse (i : nat) : M F unit := zoom f_disk (tx_release i).

Definition readsb (dev : Z) : M F unit :=
  bp <- bread dev 1 ;;
  d <- bdata bp ;;
  modify (fun s => s <| f_sb := Log.decode_sb d |>) ;;
  brelse bp.

(** ** Blocks *)

Definition bzero (dev bno : Z) : M F unit :=
  bp <- bread dev bno ;;
  bset bp zero_block ;;
  blog bp ;;
  brelse bp.

(** Bit [bi] of a bitmap block: byte [bi/8], mask [1 << bi%8]. *)
Definition bit_set (d : block) (bi : Z) : bool :=
  negb (Z.land (byte_at d (Z.to_nat (bi / 8))) (Z.shiftl 1 (bi mod 8)) =? 0).
Definition set_bit (bi : Z) (d : block) : block :=
  put8 (Z.to_nat (bi / 8))
    (Z.lor (byte_at d (Z.to_nat (bi / 8))) (Z.shiftl 1 (bi mod 8))) d.
Definition clear_bit (bi : Z) (d : block) : block :=
  put8 (Z.to_nat (bi / 8))
    (Z.land (byte_at d (Z.to_nat (bi / 8))) (Z.lnot (Z.shiftl 1 (bi mod 8)))) d.

(** The inner loop of [balloc]: the first clear bit from [bi] on. *)
Fixpoint find_clear (fuel : nat) (d : block) (b bi size : Z) : option Z :=
  match fuel with
  | O => None
  | S fuel' =>
      if (bi <? BPB) && (b + bi <? size) then
        if bit_set d bi then find_clear fuel' d b (bi + 1) size else Some bi
      else None
  end.

(** The bitmap blocks [balloc] looks at: b = 0, BPB, 2*BPB, ... below [size]. *)
Definition bitmap_starts (size : Z) : list Z :=
  map (fun k => k * BPB) (seqZ 0 ((size + BPB - 1) / BPB)).

(** The body of the outer loop, for the bitmap block of [b]. *)
Definition balloc_one (dev : Z) (sb : Log.superblock) (b : Z) : M F (option Z) :=
  bp <- bread dev (BBLOCK b sb) ;;
  d <- bdata bp ;;
  match find_clear (Z.to_nat BPB) d b 0 (Log.sb_size sb) with
  | Some bi =>
      bset bp (set_bit bi d) ;;
      blog bp ;;
      brelse bp ;;
      bzero dev (b + bi) ;;
      ret (Some (b + bi))
  | None => brelse bp ;; ret None
  end.

Definition balloc (dev : Z) : M F Z :=
  sb <- gets f_sb ;;
  r <- forR (bitmap_starts (Log.sb_size sb)) (balloc_one dev sb) ;;
  match r with
  | Some b => ret b
  | None => panic "balloc: out of blocks"
  end.

Definition bfree (dev b : Z) : M F unit :=
  readsb dev ;;
  sb <- gets f_sb ;;
  bp <- bread dev (BBLOCK b sb) ;;
  d <- bdata bp ;;
  let bi := b mod BPB in
  if negb (bit_set d bi) then panic "freeing free block" else
  bset bp (clear_bit bi d) ;;
  blog bp ;;
  brelse bp.

(** ** Inodes *)

Definition geti (i : nat) : M F inode := l <- gets f_inodes ;; deref (l !! i).
Definition seti (i : nat) (g : inode -> inode) : M F unit :=
  geti i ;; modify (fun s => s <| f_inodes ::= alter g i |>).

Definition iinit (dev : Z) : M F unit :=
  forM (seq 0 NINODE) (fun i => seti i (fun ip => ip <| i_lock := initsleeplock |>)) ;;
  readsb dev.

(** The scan of [iget]: the cached inode, or the first free entry. *)
Fixpoint iget_scan (l : list nat) (dev inum : Z) (empty : option nat) : M F (nat + option nat) :=
  match l with
  | [] => ret (inr empty)
  | i :: l' =>
      ip <- geti i ;;
      if (0 <? i_ref ip) && (i_dev ip =? dev) && (i_inum ip =? inum) then
        seti i (fun ip => ip <| i_ref ::= Z.add 1 |>) ;;
        ret (inl i)
      else
        iget_scan l' dev inum
          (if bool_decide (empty = None) && (i_ref ip =? 0) then Some i else empty)
  end.

Definition iget (dev inum : Z) : M F nat :=
  r <- iget_scan (seq 0 NINODE) dev inum None ;;
  match r with
  | inl i => ret i
  | inr None => panic "iget: no inodes"
  | inr (Some i) =>
      seti i (fun ip => ip <| i_dev := dev |> <| i_inum := inum |> <| i_ref := 1 |>
                           <| i_valid := false |>) ;;
      ret i
  end.

(** [dip->type] cleared and set: the free inode becomes one of type [type]. *)
Definition ialloc (dev type : Z) : M F nat :=
  sb <- gets f_sb ;;
  r <- forR (seqZ 1 (Log.sb_ninodes sb - 1)) (fun inum =>
    bp <- bread dev (IBLOCK inum sb) ;;
    d <- bdata bp ;;
    if di_type (get_dinode d (dinode_off inum)) =? 0 then
      bset bp (put_dinode (dinode_off inum) (mkDinode type 0 0 0 0 (replicate 13 0)) d) ;;
      blog bp ;;
      brelse bp ;;
      i <- iget dev inum ;;
      ret (Some i)
    else brelse bp ;; ret None) ;;
  match r with
  | Some i => ret i
  | None => panic "ialloc: no inodes"
  end.

Definition iupdate (i : nat) : M F unit :=
  ip <- geti i ;;
  sb <- gets f_sb ;;
  bp <- bread (i_dev ip) (IBLOCK (i_inum ip) sb) ;;
  d <- bdata bp ;;
  bset bp (put_dinode (dinode_off (i_inum ip))
    (mkDinode (i_type ip) (i_major ip) (i_minor ip) (i_nlink ip) (i_size ip) (i_addrs ip)) d) ;;
  blog bp ;;
  brelse bp.

Definition idup (i : nat) : M F nat := seti i (fun ip => ip <| i_ref ::= Z.add 1 |>) ;; ret i.

(** [acquiresleep], [holdingsleep] and [releasesleep] on [ip->lock]. *)
Definition lock_inode (i : nat) : M F unit :=
  ip <- geti i ;;
  me <- gets f_pid ;;
  if sl_locked (i_lock ip) then sleepon (ChSleeplock (Z.of_nat i)) else
  seti i (fun ip => ip <| i_lock := mkSleeplock true me |>).
Definition unlock_inode (i : nat) : M F unit :=
  seti i (fun ip => ip <| i_lock := mkSleeplock false 0 |>).

Definition ilock (i : nat) : M F unit :=
  ip <- geti i ;;
  if i_ref ip <? 1 then panic "ilock" else
  lock_inode i ;;
  ip <- geti i ;;
  if negb (i_valid ip) then
    sb <- gets f_sb ;;
    bp <- bread (i_dev ip) (IBLOCK (i_inum ip) sb) ;;
    d <- bdata bp ;;
    let di := get_dinode d (dinode_off (i_inum ip)) in
    seti i (fun ip => ip <| i_type := di_type di |> <| i_major := di_major di |>
      <| i_minor := di_minor di |> <| i_nlink := di_nlink di |> <| i_size := di_size di |>
      <| i_addrs := di_addrs di |>) ;;
    brelse bp ;;
    seti i (fun ip => ip <| i_valid := true |>) ;;
    if di_type di =? 0 then panic "ilock: no type" else ret tt
  else ret tt.

Definition iunlock (i : nat) : M F unit :=
  ip <- geti i ;;
  me <- gets f_pid ;;
  if negb (holdingsleep me (i_lock ip)) || (i_ref ip <? 1) then panic "iunlock" else
  unlock_inode i.

(** ** The blocks of a file *)

(** [if((addr = ip->addrs[k]) == 0) ip->addrs[k] = addr = balloc(ip->dev)]. *)
Definition addr_slot (i : nat) (k : Z) : M F Z :=
  ip <- geti i ;;
  a <- deref (zlookup (i_addrs ip) k) ;;
  if a =? 0 then
    a <- balloc (i_dev ip) ;;
    seti i (fun ip => ip <| i_addrs ::= <[Z.to_nat k := a]> |>) ;;
    ret a
  else ret a.

(** Entry [k] of the indirect block [addr], allocated if it is 0. *)
Definition indirect (dev addr k : Z) : M F Z :=
  bp <- bread dev addr ;;
  d <- bdata bp ;;
  let o := Z.to_nat (4 * k) in
  if get32 d o =? 0 then
    a <- balloc dev ;;
    d <- bdata bp ;;
    bset bp (put32 o a d) ;;
    blog bp ;;
    brelse bp ;;
    ret a
  else brelse bp ;; ret (get32 d o).

Definition bmap (i : nat) (bn : Z) : M F Z :=
  ip <- geti i ;;
  let dev := i_dev ip in
  if bn <? NDIRECT then addr_slot i bn else
  let bn := bn - NDIRECT in
  if bn <? NINDIRECT then
    a <- addr_slot i NDIRECT ;;
    indirect dev a bn
  else
  let bn := bn - NINDIRECT in
  if bn <? NINDIRECT * NINDIRECT then
    let index1 := bn / NINDIRECT in
    let index2 := bn mod NINDIRECT in
    a <- addr_slot i (NDIRECT + 1) ;;
    a <- indirect dev a index1 ;;
    indirect dev a index2
  else
  let bn := bn - NINDIRECT * NINDIRECT in
  if bn <? NINDIRECT * NINDIRECT * NINDIRECT then
    let index1 := bn / (NINDIRECT * NINDIRECT) in
    let index2 := (bn mod (NINDIRECT * NINDIRECT)) / NINDIRECT in
    let index3 := bn mod NINDIRECT in
    a <- addr_slot i (NDIRECT + 2) ;;
    a <- indirect dev a index1 ;;
    a <- indirect dev a index2 ;;
    indirect dev a index3
  else panic "bmap: out of range".

(** The blocks of a tree of indirect blocks of the given depth, its root
    included, are freed. *)
Fixpoint free_tree (depth : nat) (dev addr : Z) : M F unit :=
  match depth with
  | O => bfree dev addr
  | S depth' =>
      bp <- bread dev addr ;;
      forM (seq 0 (Z.to_nat NINDIRECT)) (fun j =>
        d <- bdata bp ;;
        let a := get32 d (4 * j) in
        when (negb (a =? 0)) (free_tree depth' dev a)) ;;
      brelse bp ;;
      bfree dev addr
  end.

(** [if(ip->addrs[k]) { free it; ip->addrs[k] = 0; }]. *)
Definition free_slot (depth : nat) (i k : nat) : M F unit :=
  ip <- geti i ;;
  a <- deref (i_addrs ip !! k) ;;
  when (negb (a =? 0))
    (free_tree depth (i_dev ip) a ;;
     seti i (fun ip => ip <| i_addrs ::= <[k := 0]> |>)).

Definition itrunc (i : nat) : M F unit :=
  forM (seq 0 (Z.to_nat NDIRECT)) (free_slot 0 i) ;;
  free_slot 1 i (Z.to_nat NDIRECT) ;;
  free_slot 2 i (Z.to_nat (NDIRECT + 1)) ;;
  free_slot 3 i (Z.to_nat (NDIRECT + 2)) ;;
  seti i (fun ip => ip <| i_size := 0 |>) ;;
  iupdate i.

Definition iput (i : nat) : M F unit :=
  lock_inode i ;;
  ip <- geti i ;;
  when (i_valid ip && (i_nlink ip =? 0) && (i_ref ip =? 1))
    (itrunc i ;;
     seti i (fun ip => ip <| i_type := 0 |>) ;;
     iupdate i ;;
     seti i (fun ip => ip <| i_valid := false |>)) ;;
  unlock_inode i ;;
  seti i (fun ip => ip <| i_ref ::= Z.add (-1) |>).

Definition iunlockput (i : nat) : M F unit := iunlock i ;; iput i.

Definition stati (i : nat) : M F stat :=
  ip <- geti i ;;
  ret (mkStat (i_type ip) (i_dev ip) (i_inum ip) (i_nlink ip) (i_size ip)).

(** ** Reading and writing

    [devsw]: the read and write functions of the devices, by major number. *)
Record devsw := mkDevsw {
  dev_read : Z -> option (nat -> Z -> M F (Z * list Z));
  dev_write : Z -> option (nat -> list Z -> M F Z)
}.
Variable sw : devsw.

(** The loops of [readi] and [writei]; every turn moves at least one byte. *)
Fixpoint readi_loop (fuel : nat) (i : nat) (off n : Z) : M F (list Z) :=
  if n =? 0 then ret [] else
  match fuel with
  | O => spin
  | S fuel' =>
      ip <- geti i ;;
      b <- bmap i (off / BSIZE) ;;
      bp <- bread (i_dev ip) b ;;
      let m := Z.min n (BSIZE - off mod BSIZE) in
      d <- bdata bp ;;
      let x := slice (Z.to_nat (off mod BSIZE)) (Z.to_nat m) d in
      brelse bp ;;
      rest <- readi_loop fuel' i (off + m) (n - m) ;;
      ret (x ++ rest)
  end.

Definition readi (i : nat) (off n : Z) : M F (Z * list Z) :=
  ip <- geti i ;;
  if i_type ip =? T_DEV then
    if (i_major ip <? 0) || (NDEV <=? i_major ip) then ret (-1, []) else
    match dev_read sw (i_major ip) with
    | None => ret (-1, [])
    | Some f => f i n
    end
  else
  if (i_size ip <? off) || (u32 (off + n) <? off) then ret (-1, []) else
  let n := if i_size ip <? u32 (off + n) then i_size ip - off else n in
  x <- readi_loop (Z.to_nat n) i off n ;;
  ret (i32 n, x).

Fixpoint writei_loop (fuel : nat) (i : nat) (src : list Z) (off : Z) : M F Z :=
  match src with
  | [] => ret off
  | _ :: _ =>
      match fuel with
      | O => spin
      | S fuel' =>
          ip <- geti i ;;
          b <- bmap i (off / BSIZE) ;;
          bp <- bread (i_dev ip) b ;;
          let m := Z.min (Z.of_nat (length src)) (BSIZE - off mod BSIZE) in
          d <- bdata bp ;;
          bset bp (splice (Z.to_nat (off mod BSIZE)) (take (Z.to_nat m) src) d) ;;
          blog bp ;;
          brelse bp ;;
          writei_loop fuel' i (drop (Z.to_nat m) src) (off + m)
      end
  end.

Definition writei (i : nat) (src : list Z) (off : Z) : M F Z :=
  let n := Z.of_nat (length src) in
  ip <- geti i ;;
  if i_type ip =? T_DEV then
    if (i_major ip <? 0) || (NDEV <=? i_major ip) then ret (-1) else
    match dev_write sw (i_major ip) with
    | None => ret (-1)
    | Some f => f i src
    end
  else
  if (i_size ip <? off) || (u32 (off + n) <? off) then ret (-1) else
  if MAXFILE * BSIZE <? u32 (off + n) then ret (-1) else
  off' <- writei_loop (length src) i src off ;;
  ip <- geti i ;;
  when ((0 <? n) && (i_size ip <? off'))
    (seti i (fun ip => ip <| i_size := off' |>) ;; iupdate i) ;;
  ret (i32 n).

(** ** Directories

    A name is the bytes of a string without its terminator; in a directory
    entry it is padded with zeros to DIRSIZ bytes. *)
Fixpoint strncmp (s t : list Z) (n : nat) : Z :=
  match n with
  | O => 0
  | S n' =>
      let a := default 0 (head s) in
      let b := default 0 (head t) in
      if negb (a =? 0) && (a =? b) then strncmp (tail s) (tail t) n' else a - b
  end.
Definition namecmp (s t : list Z) : Z := strncmp s t DIRSIZ.

(** [struct dirent]: [inum], then [name]. *)
Definition sizeof_de : Z := 16.
Definition de_inum (x : list Z) : Z := get16 x 0.
Definition de_name (x : list Z) : list Z := drop 2 x.
(** The bytes up to the first zero, as [strncpy] copies them. *)
Fixpoint cut (s : list Z) (n : nat) : list Z :=
  match n, s with
  | S n', c :: s' => if c =? 0 then [] else c :: cut s' n'
  | _, _ => []
  end.
Definition pad (s : list Z) : list Z := cut s DIRSIZ ++ replicate (DIRSIZ - length (cut s DIRSIZ)) 0.
Definition mk_de (inum : Z) (name : list Z) : list Z :=
  put16 0 inum [0; 0] ++ pad name.

Fixpoint dirlookup_loop (fuel : nat) (dp : nat) (name : list Z) (off : Z) : M F (option (nat * Z)) :=
  ip <- geti dp ;;
  if negb (off <? i_size ip) then ret None else
  match fuel with
  | O => spin
  | S fuel' =>
      r <- readi dp off sizeof_de ;;
      if negb (r.1 =? sizeof_de) then panic "dirlookup read" else
      if de_inum r.2 =? 0 then dirlookup_loop fuel' dp name (off + sizeof_de) else
      if namecmp name (de_name r.2) =? 0 then
        i <- iget (i_dev ip) (de_inum r.2) ;;
        ret (Some (i, off))
      else dirlookup_loop fuel' dp name (off + sizeof_de)
  end.

(** The inode and the offset of the entry. *)
Definition dirlookup (dp : nat) (name : list Z) : M F (option (nat * Z)) :=
  ip <- geti dp ;;
  if negb (i_type ip =? T_DIR) then panic "dirlookup not DIR" else
  dirlookup_loop (Z.to_nat (i_size ip)) dp name 0.

Fixpoint empty_entry (fuel : nat) (dp : nat) (off : Z) : M F Z :=
  ip <- geti dp ;;
  if negb (off <? i_size ip) then ret off else
  match fuel with
  | O => spin
  | S fuel' =>
      r <- readi dp off sizeof_de ;;
      if negb (r.1 =? sizeof_de) then panic "dirlink read" else
      if de_inum r.2 =? 0 then ret off else empty_entry fuel' dp (off + sizeof_de)
  end.

Definition dirlink (dp : nat) (name : list Z) (inum : Z) : M F Z :=
  r <- dirlookup dp name ;;
  match r with
  | Some (ip, _) => iput ip ;; ret (-1)
  | None =>
      ip <- geti dp ;;
      off <- empty_entry (Z.to_nat (i_size ip)) dp 0 ;;
      w <- writei dp (mk_de inum name) off ;;
      if negb (w =? sizeof_de) then panic "dirlink" else ret 0
  end.

(** ** Paths *)

Definition slash : Z := 47.
Fixpoint skip_slashes (path : list Z) : list Z :=
  match path with
  | c :: p => if c =? slash then skip_slashes p else path
  | [] => []
  end.
(** The first element of a path and what follows it. *)
Fixpoint elem (path : list Z) : list Z * list Z :=
  match path with
  | c :: p => if (c =? slash) || (c =? 0) then ([], path) else let r := elem p in (c :: r.1, r.2)
  | [] => ([], [])
  end.
Definition at_end (path : list Z) : bool := default 0 (head path) =? 0.

(** The rest of the path and the name; [None] is a null result. *)
Definition skipelem (path : list Z) : option (list Z * list Z) :=
  let path := skip_slashes path in
  if at_end path then None else
  let r := elem path in
  Some (skip_slashes r.2, take DIRSIZ r.1).

Fixpoint namex_loop (fuel : nat) (path : list Z) (nameiparent : bool) (ip : nat) (name : list Z)
    : M F (option nat * list Z) :=
  match fuel with
  | O => spin
  | S fuel' =>
      match skipelem path with
      | None =>
          if nameiparent then iput ip ;; ret (None, name) else ret (Some ip, name)
      | Some (path, name) =>
          ilock ip ;;
          p <- geti ip ;;
          if negb (i_type p =? T_DIR) then iunlockput ip ;; ret (None, name) else
          if nameiparent && at_end path then iunlock ip ;; ret (Some ip, name) else
          r <- dirlookup ip name ;;
          match r with
          | None => iunlockput ip ;; ret (None, name)
          | Some (next, _) => iunlockput ip ;; namex_loop fuel' path nameiparent next name
          end
      end
  end.

Definition namex (path : list Z) (nameiparent : bool) : M F (option nat * list Z) :=
  ip <- (if default 0 (head path) =? slash then iget ROOTDEV ROOTINO
         else c <- gets f_cwd ;; c <- deref c ;; idup c) ;;
  namex_loop (S (length path)) path nameiparent ip [].

Definition namei (path : list Z) : M F (option nat) :=
  r <- namex path false ;; ret r.1.
Definition nameiparent (path : list Z) : M F (option nat * list Z) := namex path true.
End fs.
End Fs.
