(* ===== verification/Fsblocks.v ===== *)
(** * The blocks of the file system: allocation (balloc and bfree of xv6-public/fs.c)

    [balloc] and [bfree] are shown to be an allocator over the bitmap: the least
    free block is given out, zeroed, and nothing but the bitmap and that block
    changes.  The file also has the runs of reading and changing one block on
    which the files about [bmap], [readi] and [writei] build. *)

From S2P Require Import Prelude Spinlock Bytes Bufcache Log Txdisk Fs.

Module Fsblocks.
Import Fs.

(** ** Bits *)

Lemma bit_set_testbit d bi : bit_set d bi = Z.testbit (byte_at d (Z.to_nat (bi / 8))) (bi mod 8).
Proof. apply land_bit. apply Z.mod_pos_bound. lia. Qed.

Lemma u8_testbit x k : 0 <= k < 8 -> Z.testbit (u8 x) k = Z.testbit x k.
Proof. intros Hk. unfold u8. apply Z.mod_pow2_bits_low. lia. Qed.

(** The byte and the bit determine the number. *)
Lemma bit_split i j :
  0 <= i -> 0 <= j -> Z.to_nat (i / 8) = Z.to_nat (j / 8) -> i mod 8 = j mod 8 -> i = j.
Proof.
  intros Hi Hj Hq Hr. rewrite (Z.div_mod i 8), (Z.div_mod j 8) by lia.
  assert (0 <= i / 8 /\ 0 <= j / 8) by (split; apply Z.div_pos; lia). lia.
Qed.

Section bits.
Context (d : block) (i : Z).
Hypothesis Hd : length d = Z.to_nat BSIZE.
Hypothesis Hi : 0 <= i < BPB.

Lemma bit_byte : (Z.to_nat (i / 8) < length d)%nat.
Proof.
  rewrite Hd. unfold BPB, BSIZE in *. apply Z2Nat.inj_lt; [apply Z.div_pos; lia|lia|].
  apply Z.div_lt_upper_bound; lia.
Qed.

Lemma bit_set_set j : 0 <= j -> bit_set (set_bit i d) j = bool_decide (j = i) || bit_set d j.
Proof.
  intros Hj. rewrite !bit_set_testbit. unfold set_bit. rewrite byte_at_put8 by apply bit_byte.
  assert (0 <= i mod 8 < 8 /\ 0 <= j mod 8 < 8) as [Hi8 Hj8] by (split; apply Z.mod_pos_bound; lia).
  case_decide as Hq.
  - rewrite u8_testbit, Z.lor_spec, Z.shiftl_1_l, Z.pow2_bits_eqb by lia.
    destruct (Z.eqb_spec (i mod 8) (j mod 8)) as [Hr|Hr].
    + assert (j = i) as -> by (apply bit_split; lia). rewrite bool_decide_eq_true_2 by done.
      by rewrite orb_true_r.
    + rewrite bool_decide_eq_false_2 by (by intros ->). by rewrite orb_false_r, Hq.
  - rewrite bool_decide_eq_false_2 by (by intros ->). done.
Qed.

Lemma bit_set_clear j :
  0 <= j -> bit_set (clear_bit i d) j = negb (bool_decide (j = i)) && bit_set d j.
Proof.
  intros Hj. rewrite !bit_set_testbit. unfold clear_bit. rewrite byte_at_put8 by apply bit_byte.
  assert (0 <= i mod 8 < 8 /\ 0 <= j mod 8 < 8) as [Hi8 Hj8] by (split; apply Z.mod_pos_bound; lia).
  case_decide as Hq.
  - rewrite u8_testbit, Z.land_spec, Z.lnot_spec, Z.shiftl_1_l, Z.pow2_bits_eqb by lia.
    destruct (Z.eqb_spec (i mod 8) (j mod 8)) as [Hr|Hr].
    + assert (j = i) as -> by (apply bit_split; lia). rewrite bool_decide_eq_true_2 by done.
      by rewrite andb_false_r.
    + rewrite bool_decide_eq_false_2 by (by intros ->). by rewrite andb_true_r, Hq.
  - rewrite bool_decide_eq_false_2 by (by intros ->). done.
Qed.
End bits.

(** [find_clear] returns the first clear bit. *)
Lemma find_clear_spec size b d fuel : forall bi,
  0 <= bi -> BPB <= bi + Z.of_nat fuel ->
  match find_clear fuel d b bi size with
  | Some c => bi <= c < BPB /\ b + c < size /\ bit_set d c = false /\
      forall j, bi <= j < c -> bit_set d j = true
  | None => forall j, bi <= j < BPB -> b + j < size -> bit_set d j = true
  end.
Proof.
  induction fuel as [|fuel IH]; intros bi Hbi Hf; cbn [find_clear]; [intros; lia|].
  destruct ((bi <? BPB) && (b + bi <? size)) eqn:Hg.
  - bool_hyps. destruct (bit_set d bi) eqn:Hb.
    + specialize (IH (bi + 1) ltac:(lia) ltac:(lia)). destruct (find_clear fuel d b (bi + 1) size).
      * destruct IH as (Hc&Hs&Hcl&Hall). repeat split; try done; try lia.
        intros j Hj. destruct (decide (j = bi)) as [->|]; [done|apply Hall; lia].
      * intros j Hj Hs. destruct (decide (j = bi)) as [->|]; [done|apply IH; lia].
    + repeat split; try done; lia.
  - intros j Hj Hs. apply andb_false_iff in Hg as [Hg|Hg]; apply Z.ltb_ge in Hg; lia.
Qed.

(** ** Reading and changing one block *)

(** Block [b] changed to [x] inside the transaction. *)
Definition d_put (b : Z) (x : block) (v : dview) : dview := d_log b (d_set b x v).

(** Buffers and log entries to spare. *)
Definition spare (k : Z) (v : dview) : Prop :=
  Z.of_nat (size (d_tx v ∪ d_locked v)) + k <= Z.of_nat NBUF /\
  Z.of_nat (size (d_tx v)) + k <= d_cap v.

Lemma size_add (X : gset Z) b : (size ({[b]} ∪ X) <= 1 + size X)%nat.
Proof.
  rewrite size_union_alt, size_singleton. apply Nat.add_le_mono_l, subseteq_size. set_solver.
Qed.

Lemma spare_le k k' v : k' <= k -> spare k v -> spare k' v.
Proof. unfold spare. lia. Qed.

Lemma spare_put k b x v : spare (k + 1) v -> spare k (d_put b x v).
Proof.
  intros [H1 H2]. unfold spare, d_put, d_log, d_set, d_locked in *. proj_upd.
  pose proof (size_add (d_tx v) b). pose proof (size_add (d_tx v ∪ map_img (d_held v)) b).
  rewrite <- (assoc_L (∪)). lia.
Qed.

Lemma d_locked_take i b v :
  d_held v !! i = None -> d_locked (d_take i b v) = {[b]} ∪ d_locked v.
Proof. intros Hi. unfold d_locked, d_take. proj_upd. by apply map_img_insert_notin_L. Qed.

Lemma spare_take k i b v : d_held v !! i = None -> spare (k + 1) v -> spare k (d_take i b v).
Proof.
  intros Hi [H1 H2]. unfold spare. rewrite d_locked_take by done. unfold d_take. proj_upd.
  pose proof (size_add (d_tx v ∪ d_locked v) b).
  replace (d_tx v ∪ ({[b]} ∪ d_locked v)) with ({[b]} ∪ (d_tx v ∪ d_locked v)) by set_solver. lia.
Qed.

Lemma d_put_mem b x v c : d_mem (d_put b x v) c = if decide (c = b) then x else d_mem v c.
Proof. reflexivity. Qed.

Lemma d_drop_take i b v : d_held v !! i = None -> d_drop i (d_take i b v) = v.
Proof.
  intros Hi. apply dview_eq; unfold d_drop, d_take; proj_upd; try done. by apply delete_insert_id.
Qed.
Lemma d_drop_put_take i b c x v :
  d_held v !! i = None -> d_drop i (d_put c x (d_take i b v)) = d_put c x v.
Proof.
  intros Hi. apply dview_eq; unfold d_drop, d_put, d_log, d_set, d_take; proj_upd; try done.
  by apply delete_insert_id.
Qed.

Section runs.
Context {T : Type} `{TxDisk T}.
Abbreviation F := (fsst T).
Implicit Types (s : F) (v : dview).

Definition at_disk s (t : T) : F := s <| f_disk := t |>.
Definition frepr s v : Prop := tx_repr (f_disk s) v.

Lemma at_disk_self s : at_disk s (f_disk s) = s.
Proof. by destruct s. Qed.

Lemma zoom_disk {A} (m : M T A) s a t' : m (f_disk s) = Ok a t' -> zoom f_disk m s = Ok a (at_disk s t').
Proof. intros E. unfold zoom, at_disk. by rewrite E. Qed.

Lemma bread_run s v b :
  frepr s v -> d_usable v b -> b ∉ d_locked v -> spare 1 v ->
  exists i t', bread 1 b s = Ok i (at_disk s t') /\ d_held v !! i = None /\
    frepr (at_disk s t') (d_take i b v).
Proof.
  intros Hr Hu Hl [Hs _].
  destruct (tx_read_law (f_disk s) v b Hr Hu Hl) as (i&t'&E&Hi&R); [lia|].
  exists i, t'. split; [by apply zoom_disk|done].
Qed.

Lemma bdata_run s v i b :
  frepr s v -> d_held v !! i = Some b -> bdata i s = Ok (d_mem v b) s.
Proof.
  intros Hr Hi. unfold bdata.
  rewrite (zoom_disk _ _ _ _ (tx_data_law (f_disk s) v i b Hr Hi)). by rewrite at_disk_self.
Qed.

Lemma brelse_run s v i b :
  frepr s v -> d_held v !! i = Some b -> b ∈ d_tx v \/ d_mem v b = d_base v b ->
  exists t', brelse i s = Ok tt (at_disk s t') /\ frepr (at_disk s t') (d_drop i v).
Proof.
  intros Hr Hi Hb. destruct (tx_release_law (f_disk s) v i b Hr Hi Hb) as (t'&E&R).
  exists t'. split; [by apply zoom_disk|done].
Qed.

(** [bset; blog]: the change of a locked buffer enters the transaction. *)
Lemma bput_run s v i b x {B} (k : M F B) :
  frepr s v -> d_held v !! i = Some b -> d_usable v b -> length x = Z.to_nat BSIZE ->
  Z.of_nat (size (d_tx v)) < d_cap v ->
  exists t', (bset i x ;; blog i ;; k) s = k (at_disk s t') /\ frepr (at_disk s t') (d_put b x v).
Proof.
  intros Hr Hi Hu Hx Hc.
  destruct (tx_set_law (f_disk s) v i b x Hr Hi) as (t1&E1&R1); [by rewrite (tx_length _ _ _ Hr)|].
  destruct (tx_log_law t1 _ i b R1 Hi Hu Hc) as (t2&E2&R2).
  exists t2. split; [|exact R2]. unfold bset, blog.
  rewrite (bind_Ok _ _ _ _ _ (zoom_disk _ s _ _ E1)).
  by rewrite (bind_Ok _ _ _ _ _ (zoom_disk _ (at_disk s t1) _ _ E2)).
Qed.

(** A block is read and released. *)
Lemma read_block_run s v b {B} (k : nat -> block -> M F B) :
  frepr s v -> d_usable v b -> b ∉ d_locked v -> spare 1 v ->
  exists i t1, (bp <- bread 1 b ;; d <- bdata bp ;; k bp d) s = k i (d_mem v b) (at_disk s t1) /\
    d_held v !! i = None /\ frepr (at_disk s t1) (d_take i b v).
Proof.
  intros Hr Hu Hl Hs. destruct (bread_run s v b Hr Hu Hl Hs) as (i&t1&E1&Hi&R1).
  exists i, t1. split; [|done]. rewrite (bind_Ok _ _ _ _ _ E1). cbv beta.
  assert (d_held (d_take i b v) !! i = Some b) as Hh by apply lookup_insert_eq.
  by rewrite (bind_Ok _ _ _ _ _ (bdata_run _ _ _ _ R1 Hh)).
Qed.

Lemma release_taken s v i b {B} (k : M F B) :
  d_held v !! i = None -> b ∉ d_locked v -> frepr s (d_take i b v) ->
  (b ∈ d_tx v \/ d_mem v b = d_base v b) ->
  exists t', (brelse i ;; k) s = k (at_disk s t') /\ frepr (at_disk s t') v.
Proof.
  intros Hi Hl Hr Hb.
  destruct (brelse_run s (d_take i b v) i b Hr) as (t'&E&R); [apply lookup_insert_eq|exact Hb|].
  exists t'. rewrite (bind_Ok _ _ _ _ _ E). rewrite d_drop_take in R by done. done.
Qed.

Lemma put_taken s v i b x {B} (k : M F B) :
  d_held v !! i = None -> frepr s (d_take i b v) -> d_usable v b ->
  length x = Z.to_nat BSIZE -> Z.of_nat (size (d_tx v)) < d_cap v ->
  exists t', (bset i x ;; blog i ;; brelse i ;; k) s = k (at_disk s t') /\
    frepr (at_disk s t') (d_put b x v).
Proof.
  intros Hi Hr Hu Hx Hc.
  destruct (bput_run s (d_take i b v) i b x (brelse i ;; k) Hr) as (t1&E1&R1);
    [apply lookup_insert_eq|done..|].
  destruct (brelse_run _ _ i b R1) as (t2&E2&R2); [apply lookup_insert_eq| |].
  { left. unfold d_put, d_log. proj_upd. set_solver. }
  exists t2. rewrite E1, (bind_Ok _ _ _ _ _ E2). rewrite d_drop_put_take in R2 by done. done.
Qed.

Lemma put_end s v i b x :
  d_held v !! i = None -> frepr s (d_take i b v) -> d_usable v b ->
  length x = Z.to_nat BSIZE -> Z.of_nat (size (d_tx v)) < d_cap v ->
  exists t', (bset i x ;; blog i ;; brelse i) s = Ok tt (at_disk s t') /\
    frepr (at_disk s t') (d_put b x v).
Proof.
  intros Hi Hr Hu Hx Hc.
  destruct (bput_run s (d_take i b v) i b x (brelse i) Hr) as (t1&E1&R1);
    [apply lookup_insert_eq|done..|].
  destruct (brelse_run _ _ i b R1) as (t2&E2&R2); [apply lookup_insert_eq| |].
  { left. unfold d_put, d_log. proj_upd. set_solver. }
  exists t2. rewrite E1, E2. rewrite d_drop_put_take in R2 by done. done.
Qed.

Lemma tx_clean' s v b :
  frepr s v -> b ∉ d_locked v -> b ∈ d_tx v \/ d_mem v b = d_base v b.
Proof.
  intros Hr Hb. destruct (decide (b ∈ d_tx v)); [by left|right]. by eapply tx_clean.
Qed.

(** ** The allocator *)

(** The layout of the disk: metadata below block [ds], the super block, the
    bitmap and the inodes among it, and data blocks from [ds] on. *)
Record geometry (sb : Log.superblock) (ds : Z) (usable : Z -> Prop) : Prop := mkGeometry {
  g_size : 1 < ds <= Log.sb_size sb /\ Log.sb_size sb < 2 ^ 31;
  g_data b : ds <= b < Log.sb_size sb -> usable b;
  g_super : usable 1;
  g_bmap b : 0 <= b < Log.sb_size sb ->
    usable (b / BPB + Log.sb_bmapstart sb) /\ 1 < b / BPB + Log.sb_bmapstart sb < ds;
  g_inode n : 0 <= n < Log.sb_ninodes sb ->
    usable (n / IPB + Log.sb_inodestart sb) /\
    1 < n / IPB + Log.sb_inodestart sb < Log.sb_bmapstart sb
}.

Definition used (sb : Log.superblock) v (b : Z) : bool :=
  bit_set (d_mem v (BBLOCK b sb)) (b mod BPB).

Record fs_inv (sb : Log.superblock) (ds : Z) v : Prop := mkFsInv {
  fi_geo : geometry sb ds (d_usable v);
  fi_super : Log.decode_sb (d_mem v 1) = sb;
  fi_meta b : 0 <= b < ds -> used sb v b = true
}.

(** No buffer of the bitmap is held, and what is held is in use. *)
Record calm (sb : Log.superblock) v : Prop := mkCalm {
  cm_bmap b : 0 <= b < Log.sb_size sb -> BBLOCK b sb ∉ d_locked v;
  cm_used b : b ∈ d_locked v -> used sb v b = true;
  cm_super : 1 ∉ d_locked v
}.

Lemma BBLOCK_eq sb ds U b :
  geometry sb ds U -> 0 <= b < Log.sb_size sb -> BBLOCK b sb = b / BPB + Log.sb_bmapstart sb.
Proof.
  intros Hg Hb. unfold BBLOCK. apply u32_small.
  destruct (g_bmap _ _ _ Hg b Hb), (g_size _ _ _ Hg). lia.
Qed.

Lemma BBLOCK_facts sb ds U b :
  geometry sb ds U -> 0 <= b < Log.sb_size sb -> U (BBLOCK b sb) /\ 1 < BBLOCK b sb < ds.
Proof. intros Hg Hb. rewrite (BBLOCK_eq sb ds U) by done. by apply (g_bmap _ _ _ Hg). Qed.

(** [b] taken from the bitmap and zeroed; [b] given back to it. *)
Definition alloc_view (sb : Log.superblock) (b : Z) v : dview :=
  d_put b zero_block (d_put (BBLOCK b sb) (set_bit (b mod BPB) (d_mem v (BBLOCK b sb))) v).
Definition free_view (sb : Log.superblock) (b : Z) v : dview :=
  d_put (BBLOCK b sb) (clear_bit (b mod BPB) (d_mem v (BBLOCK b sb))) v.

Lemma bzero_run s v b :
  frepr s v -> d_usable v b -> b ∉ d_locked v -> spare 1 v ->
  exists t', bzero 1 b s = Ok tt (at_disk s t') /\ frepr (at_disk s t') (d_put b zero_block v).
Proof.
  intros Hr Hu Hl Hs. unfold bzero. destruct (bread_run s v b Hr Hu Hl Hs) as (i&t1&E1&Hi&R1).
  rewrite (bind_Ok _ _ _ _ _ E1). cbv beta. destruct Hs as [_ Hs].
  destruct (put_end (at_disk s t1) v i b zero_block Hi R1 Hu eq_refl) as (t2&E2&R2); [lia|].
  exists t2. by rewrite E2.
Qed.

Lemma chunk_split k bi : 0 <= bi < BPB -> (k * BPB + bi) / BPB = k /\ (k * BPB + bi) mod BPB = bi.
Proof.
  intros Hbi. unfold BPB, BSIZE in *. split.
  - rewrite Z.div_add_l by lia. rewrite (Z.div_small bi) by lia. lia.
  - rewrite Z.add_comm, Z.mod_add by lia. apply Z.mod_small. lia.
Qed.

Lemma BBLOCK_chunk sb k bi : 0 <= bi < BPB -> BBLOCK (k * BPB + bi) sb = BBLOCK (k * BPB) sb.
Proof.
  intros Hbi. unfold BBLOCK. destruct (chunk_split k bi Hbi) as [-> _].
  by rewrite Z.div_mul.
Qed.

Lemma balloc_one_run s v sb ds k :
  fs_inv sb ds v -> calm sb v -> frepr s v -> spare 2 v ->
  0 <= k -> k * BPB < Log.sb_size sb -> (forall c, 0 <= c < k * BPB -> used sb v c = true) ->
  (exists b t', ds <= b < Log.sb_size sb /\ used sb v b = false /\
     (forall c, 0 <= c < b -> used sb v c = true) /\
     balloc_one 1 sb (k * BPB) s = Ok (Some b) (at_disk s t') /\
     frepr (at_disk s t') (alloc_view sb b v)) \/
  (exists t', (forall c, 0 <= c < (k + 1) * BPB -> c < Log.sb_size sb -> used sb v c = true) /\
     balloc_one 1 sb (k * BPB) s = Ok None (at_disk s t') /\ frepr (at_disk s t') v).
Proof.
  intros Hinv Hcalm Hr Hs Hk Hksz Hbelow. destruct Hinv as [Hg _ Hmeta].
  assert (0 <= k * BPB) as Hk0 by (unfold BPB, BSIZE in *; lia).
  set (B := BBLOCK (k * BPB) sb).
  destruct (BBLOCK_facts sb ds _ (k * BPB) Hg ltac:(lia)) as [HU HB]. fold B in HU, HB.
  assert (B ∉ d_locked v) as HnL by (by apply (cm_bmap _ _ Hcalm)).
  unfold balloc_one. fold B.
  match goal with |- context [bind (bread 1 B) (fun bp => bind (bdata bp) (@?kk bp))] =>
    destruct (read_block_run s v B kk Hr HU HnL (spare_le 2 1 v ltac:(lia) Hs))
      as (i&t1&E1&Hi&R1) end.
  cbv beta in E1. rewrite E1. clear E1.
  pose proof (find_clear_spec (Log.sb_size sb) (k * BPB) (d_mem v B) (Z.to_nat BPB) 0
    ltac:(lia) ltac:(unfold BPB, BSIZE; lia)) as Hf.
  assert (forall c, k * BPB <= c < (k + 1) * BPB ->
    used sb v c = bit_set (d_mem v B) (c - k * BPB)) as Hchunk.
  { intros c Hc. unfold used. replace c with (k * BPB + (c - k * BPB)) at 1 2 by lia.
    rewrite BBLOCK_chunk by lia. fold B.
    by destruct (chunk_split k (c - k * BPB) ltac:(lia)) as [_ ->]. }
  destruct (find_clear _ _ _ _ _) as [bi|].
  - left. destruct Hf as (Hbi&Hsz&Hclear&Hall). set (b := k * BPB + bi).
    assert (used sb v b = false) as Hfree.
    { rewrite Hchunk by (unfold b; lia). by replace (b - k * BPB) with bi by (unfold b; lia). }
    assert (ds <= b) as Hds.
    { destruct (decide (b < ds)) as [Hlt|]; [|lia].
      rewrite Hmeta in Hfree by (unfold b in *; lia). done. }
    destruct (put_taken (at_disk s t1) v i B (set_bit bi (d_mem v B))
      (bzero 1 b ;; ret (Some b)) Hi R1 HU) as (t2&E2&R2).
    { unfold set_bit. rewrite length_put8. by apply (tx_length (f_disk s) v). }
    { destruct Hs. lia. }
    assert (b ∉ d_locked v) as HbL.
    { intros Hin. by rewrite (cm_used _ _ Hcalm b Hin) in Hfree. }
    destruct (bzero_run (at_disk s t2) _ b R2) as (t3&E3&R3); [| |by apply spare_put|].
    { apply (g_data _ _ _ Hg). unfold b in *. lia. }
    { exact HbL. }
    exists b, t3. split; [unfold b in *; lia|]. split; [done|]. split.
    { intros c Hc. destruct (decide (c < k * BPB)); [apply Hbelow; lia|].
      rewrite Hchunk by (unfold b in *; lia). apply Hall. unfold b in *. lia. }
    split.
    + rewrite E2, (bind_Ok _ _ _ _ _ E3). done.
    + unfold alloc_view, b. rewrite BBLOCK_chunk by lia. fold B.
      destruct (chunk_split k bi) as [_ ->]; [lia|]. exact R3.
  - right. destruct (release_taken (at_disk s t1) v i B (ret (@None Z)) Hi HnL R1
      (tx_clean' s v B Hr HnL)) as (t2&E2&R2).
    exists t2. split; [|split; [exact E2|exact R2]].
    intros c Hc Hcs. destruct (decide (c < k * BPB)); [apply Hbelow; lia|].
    rewrite Hchunk by lia. apply Hf; lia.
Qed.

Lemma balloc_loop_run s0 v sb ds n : forall s k,
  fs_inv sb ds v -> calm sb v -> frepr s v -> spare 2 v -> (exists t, s = at_disk s0 t) ->
  0 <= k -> k + Z.of_nat n = (Log.sb_size sb + BPB - 1) / BPB ->
  (forall c, 0 <= c < k * BPB -> c < Log.sb_size sb -> used sb v c = true) ->
  let r := forR (map (fun j => j * BPB) (seqZ k (Z.of_nat n))) (balloc_one 1 sb) s in
  (exists b t', ds <= b < Log.sb_size sb /\ used sb v b = false /\
     (forall c, 0 <= c < b -> used sb v c = true) /\
     r = Ok (Some b) (at_disk s0 t') /\ frepr (at_disk s0 t') (alloc_view sb b v)) \/
  (exists t', (forall c, 0 <= c < Log.sb_size sb -> used sb v c = true) /\
     r = Ok None (at_disk s0 t') /\ frepr (at_disk s0 t') v).
Proof.
  induction n as [|n IH]; intros s k Hinv Hcalm Hr Hs [t ->] Hk Hkn Hbelow r.
  - right. exists t. split; [|by rewrite Nat2Z.inj_0 in *].
    intros c Hc. apply Hbelow; [|lia]. assert (Log.sb_size sb <= k * BPB); [|lia].
    unfold BPB, BSIZE in *. assert (k = (Log.sb_size sb + 512 * 8 - 1) / (512 * 8)) as -> by lia.
    pose proof (Z.div_mod (Log.sb_size sb + 512 * 8 - 1) (512 * 8)).
    pose proof (Z.mod_pos_bound (Log.sb_size sb + 512 * 8 - 1) (512 * 8)). lia.
  - assert (k * BPB < Log.sb_size sb) as Hksz.
    { unfold BPB, BSIZE in *. pose proof (Z.mul_div_le (Log.sb_size sb + 512 * 8 - 1) (512 * 8)). lia. }
    subst r. rewrite seqZ_cons by lia. cbn [map forR].
    replace (Z.pred (Z.of_nat (S n))) with (Z.of_nat n) by lia.
    destruct (balloc_one_run (at_disk s0 t) v sb ds k Hinv Hcalm Hr Hs Hk Hksz
      ltac:(intros; apply Hbelow; lia))
      as [(b&t'&Hb&Hf&Hl&E&R)|(t'&Hall&E&R)]; rewrite (bind_Ok _ _ _ _ _ E); cbv beta iota.
    + left. exists b, t'. do 3 (split; [done|]). split; [done|exact R].
    + apply (IH (at_disk s0 t') (Z.succ k)); try done; try lia.
      by exists t'.
Qed.

Lemma balloc_run s v sb ds :
  f_sb s = sb -> fs_inv sb ds v -> calm sb v -> frepr s v -> spare 2 v ->
  (exists b t', ds <= b < Log.sb_size sb /\ used sb v b = false /\
     (forall c, 0 <= c < b -> used sb v c = true) /\
     balloc 1 s = Ok b (at_disk s t') /\ frepr (at_disk s t') (alloc_view sb b v)) \/
  ((forall c, 0 <= c < Log.sb_size sb -> used sb v c = true) /\
   balloc 1 s = Panic "balloc: out of blocks").
Proof.
  intros Hsb Hinv Hcalm Hr Hs. unfold balloc. mstep. rewrite Hsb. unfold bitmap_starts.
  destruct (g_size _ _ _ (fi_geo _ _ _ Hinv)) as [Hds Hsz].
  assert (0 <= (Log.sb_size sb + BPB - 1) / BPB) as Hq
    by (apply Z.div_pos; unfold BPB, BSIZE; lia).
  rewrite <- (Z2Nat.id ((Log.sb_size sb + BPB - 1) / BPB)) by done.
  destruct (balloc_loop_run s v sb ds (Z.to_nat ((Log.sb_size sb + BPB - 1) / BPB)) s 0
    Hinv Hcalm Hr Hs) as [(b&t'&Hb&Hf&Hl&E&R)|(t'&Hall&E&R)].
  - exists (f_disk s). by rewrite at_disk_self.
  - lia.
  - lia.
  - intros; lia.
  - left. exists b, t'. do 3 (split; [done|]). split; [|exact R]. by rewrite (bind_Ok _ _ _ _ _ E).
  - right. split; [done|]. by rewrite (bind_Ok _ _ _ _ _ E).
Qed.

(** What an allocation changes. *)
Section alloc.
Context (sb : Log.superblock) (ds : Z) (v : dview) (b : Z).
Hypothesis Hinv : fs_inv sb ds v.
Hypothesis Hlen : forall c, length (d_mem v c) = Z.to_nat BSIZE.
Hypothesis Hb : ds <= b < Log.sb_size sb.

Lemma data_not_bitmap c : 0 <= c < Log.sb_size sb -> b <> BBLOCK c sb.
Proof. intros Hc ->. destruct (BBLOCK_facts sb ds _ c (fi_geo _ _ _ Hinv) Hc). lia. Qed.

Lemma size_pos : 1 < ds <= Log.sb_size sb /\ Log.sb_size sb < 2 ^ 31.
Proof. apply (g_size _ _ _ (fi_geo _ _ _ Hinv)). Qed.

(** Two blocks with the same bitmap block and the same bit are one. *)
Lemma bitmap_inj c d :
  0 <= c < Log.sb_size sb -> 0 <= d < Log.sb_size sb ->
  BBLOCK c sb = BBLOCK d sb -> c mod BPB = d mod BPB -> c = d.
Proof.
  intros Hc Hd HB Hm. rewrite !(BBLOCK_eq sb ds _ _ (fi_geo _ _ _ Hinv)) in HB by done.
  unfold BPB, BSIZE in *. rewrite (Z.div_mod c (512 * 8)), (Z.div_mod d (512 * 8)) by lia. lia.
Qed.

Lemma alloc_mem c :
  c <> b -> c <> BBLOCK b sb -> d_mem (alloc_view sb b v) c = d_mem v c.
Proof. intros H1 H2. unfold alloc_view. rewrite !d_put_mem. by rewrite !decide_False. Qed.
Lemma alloc_zero : d_mem (alloc_view sb b v) b = zero_block.
Proof. unfold alloc_view. rewrite d_put_mem. by rewrite decide_True. Qed.

Lemma mod_range c : 0 <= c mod BPB < BPB.
Proof. apply Z.mod_pos_bound. unfold BPB, BSIZE. lia. Qed.

Lemma alloc_used c :
  0 <= c < Log.sb_size sb -> used sb (alloc_view sb b v) c = bool_decide (c = b) || used sb v c.
Proof.
  intros Hc. unfold used, alloc_view. rewrite !d_put_mem.
  rewrite decide_False by (apply not_eq_sym; by apply data_not_bitmap). case_decide as HB.
  - rewrite bit_set_set by (apply Hlen || apply mod_range). rewrite HB.
    f_equal. apply bool_decide_ext. split; [|by intros ->]. intros Hm.
    apply bitmap_inj; try done. pose proof size_pos. lia.
  - rewrite bool_decide_eq_false_2; [done|]. by intros ->.
Qed.

Lemma alloc_inv : fs_inv sb ds (alloc_view sb b v).
Proof.
  pose proof size_pos as Hsz. destruct (BBLOCK_facts sb ds _ b (fi_geo _ _ _ Hinv) ltac:(lia)).
  split; [apply Hinv| |].
  - rewrite alloc_mem by lia. apply Hinv.
  - intros c Hc. rewrite alloc_used by lia. rewrite (fi_meta _ _ _ Hinv) by done.
    by rewrite orb_true_r.
Qed.

Lemma alloc_length c : length (d_mem (alloc_view sb b v) c) = Z.to_nat BSIZE.
Proof.
  unfold alloc_view. rewrite !d_put_mem. repeat case_decide; [done| |apply Hlen].
  unfold set_bit. rewrite length_put8. apply Hlen.
Qed.

Lemma alloc_calm :
  (forall c, c ∈ d_locked v -> 0 <= c < Log.sb_size sb) -> calm sb v -> calm sb (alloc_view sb b v).
Proof.
  intros Hrange [H1 H2 H3]. split; [exact H1| |exact H3]. intros c Hc.
  rewrite alloc_used by (by apply Hrange). rewrite (H2 c Hc). by rewrite orb_true_r.
Qed.
End alloc.

Lemma free_used sb ds v b c :
  fs_inv sb ds v -> (forall c, length (d_mem v c) = Z.to_nat BSIZE) ->
  0 <= b < Log.sb_size sb -> 0 <= c < Log.sb_size sb ->
  used sb (free_view sb b v) c = negb (bool_decide (c = b)) && used sb v c.
Proof.
  intros Hinv Hlen Hb Hc. unfold used, free_view. rewrite d_put_mem. case_decide as HB.
  - rewrite bit_set_clear by (apply Hlen || apply mod_range). rewrite HB.
    f_equal. f_equal. apply bool_decide_ext. split; [|by intros ->]. intros Hm.
    by apply (bitmap_inj sb ds v).
  - rewrite bool_decide_eq_false_2; [done|]. by intros ->.
Qed.

Lemma readsb_run s v sb ds :
  f_sb s = sb -> fs_inv sb ds v -> calm sb v -> frepr s v -> spare 1 v ->
  exists t', readsb 1 s = Ok tt (at_disk s t') /\ frepr (at_disk s t') v.
Proof.
  intros Hsb Hinv Hcalm Hr Hs. unfold readsb.
  pose proof (cm_super _ _ Hcalm) as Hl. pose proof (g_super _ _ _ (fi_geo _ _ _ Hinv)) as Hu.
  match goal with |- context [bind (bread 1 1) (fun bp => bind (bdata bp) (@?kk bp))] =>
    destruct (read_block_run s v 1 kk Hr Hu Hl Hs) as (i&t1&E1&Hi&R1) end.
  cbv beta in E1. rewrite E1. clear E1. mstep. rewrite (fi_super _ _ _ Hinv).
  destruct (brelse_run (at_disk s t1) (d_take i 1 v) i 1 R1) as (t2&E2&R2);
    [apply lookup_insert_eq|exact (tx_clean' s v 1 Hr Hl)|].
  exists t2. rewrite d_drop_take in R2 by done. split; [|exact R2].
  assert ((at_disk s t1) <| f_sb := sb |> = at_disk s t1) as ->; [|exact E2].
  unfold at_disk. destruct s as [sb' il pid cwd t]. cbn in Hsb. by subst.
Qed.

Lemma bfree_run s v sb ds b :
  f_sb s = sb -> fs_inv sb ds v -> calm sb v -> frepr s v -> spare 1 v ->
  0 <= b < Log.sb_size sb ->
  if used sb v b then
    exists t', bfree 1 b s = Ok tt (at_disk s t') /\ frepr (at_disk s t') (free_view sb b v)
  else bfree 1 b s = Panic "freeing free block".
Proof.
  intros Hsb Hinv Hcalm Hr Hs Hb. unfold bfree.
  destruct (readsb_run s v sb ds Hsb Hinv Hcalm Hr Hs) as (t0&E0&R0).
  rewrite (bind_Ok _ _ _ _ _ E0). mstep.
  change (f_sb (at_disk s t0)) with (f_sb s). rewrite Hsb.
  destruct (BBLOCK_facts sb ds _ b (fi_geo _ _ _ Hinv) Hb) as [HU HB].
  pose proof (cm_bmap _ _ Hcalm b Hb) as HnL.
  match goal with |- context [bind (bread 1 ?B) (fun bp => bind (bdata bp) (@?kk bp))] =>
    destruct (read_block_run (at_disk s t0) v B kk R0 HU HnL Hs) as (i&t1&E1&Hi&R1) end.
  cbv beta in E1. rewrite E1. clear E1. fold (used sb v b).
  destruct (used sb v b); cbn [negb]; [|done].
  destruct (put_end (at_disk s t1) v i (BBLOCK b sb)
    (clear_bit (b mod BPB) (d_mem v (BBLOCK b sb))) Hi R1 HU) as (t2&E2&R2).
  { unfold clear_bit. rewrite length_put8. by apply (tx_length (f_disk s) v). }
  { destruct Hs. lia. }
  exists t2. split; [exact E2|exact R2].
Qed.

(** C35: [balloc] is an allocator.  It returns the least block that is free
    in the bitmap, a data block, now in use and zeroed, all other blocks but
    the one of the bitmap unchanged; when no block is free it panics. *)
Theorem balloc_correct s v sb ds :
  f_sb s = sb -> fs_inv sb ds v -> calm sb v -> frepr s v -> spare 2 v ->
  (exists b s' v', balloc 1 s = Ok b s' /\ frepr s' v' /\ ds <= b < Log.sb_size sb /\
     used sb v b = false /\ (forall c, 0 <= c < b -> used sb v c = true) /\
     fs_inv sb ds v' /\ d_held v' = d_held v /\ d_mem v' b = zero_block /\
     (forall c, 0 <= c < Log.sb_size sb -> used sb v' c = bool_decide (c = b) || used sb v c) /\
     (forall c, c <> b -> c <> BBLOCK b sb -> d_mem v' c = d_mem v c)) \/
  ((forall c, 0 <= c < Log.sb_size sb -> used sb v c = true) /\
   balloc 1 s = Panic "balloc: out of blocks").
Proof.
  intros Hsb Hinv Hcalm Hr Hs.
  destruct (balloc_run s v sb ds Hsb Hinv Hcalm Hr Hs) as [(b&t'&Hb&Hf&Hl&E&R)|[Hall E]].
  - left. exists b, (at_disk s t'), (alloc_view sb b v).
    assert (forall c, length (d_mem v c) = Z.to_nat BSIZE) as Hlen
      by (intros c; by apply (tx_length (f_disk s) v)).
    do 5 (split; [done|]). split; [by apply alloc_inv|]. split; [done|].
    split; [apply alloc_zero|]. split.
    + intros c Hc. by apply (alloc_used sb ds).
    + intros c H1 H2. by apply alloc_mem.
  - right. by split.
Qed.

(** [bfree] of a block in use clears its bit and no other and changes
    nothing but the bitmap; freeing a free block panics. *)
Theorem bfree_correct s v sb ds b :
  f_sb s = sb -> fs_inv sb ds v -> calm sb v -> frepr s v -> spare 1 v ->
  0 <= b < Log.sb_size sb ->
  if used sb v b then
    exists s' v', bfree 1 b s = Ok tt s' /\ frepr s' v' /\ d_held v' = d_held v /\
      (forall c, 0 <= c < Log.sb_size sb ->
        used sb v' c = negb (bool_decide (c = b)) && used sb v c) /\
      (forall c, c <> BBLOCK b sb -> d_mem v' c = d_mem v c)
  else bfree 1 b s = Panic "freeing free block".
Proof.
  intros Hsb Hinv Hcalm Hr Hs Hb.
  pose proof (bfree_run s v sb ds b Hsb Hinv Hcalm Hr Hs Hb) as Hrun.
  destruct (used sb v b); [|done]. destruct Hrun as (t'&E&R).
  exists (at_disk s t'), (free_view sb b v). do 3 (split; [done|]). split.
  - intros c Hc. apply (free_used sb ds); try done. intros. by apply (tx_length (f_disk s) v).
  - intros c Hc. unfold free_view. rewrite d_put_mem. by rewrite decide_False.
Qed.
End runs.

(** ** A small file system

    200 blocks as mkfs would lay them out: a log of 60 blocks from block 2 on,
    16 inodes from block 62 on, the bitmap in block 65, data from block 66 on;
    inside an operation, with nothing in the log. *)
Import Ideal.
Definition mini_sb : Log.superblock := Log.mkSb 200 134 16 60 2 62 65.
Definition mini_blocks : gmap Z block :=
  <[1 := put_words 0 [200; 134; 16; 60; 2; 62; 65] zero_block]>
  (<[65 := put_words 0 [2 ^ 32 - 1; 2 ^ 32 - 1; 3] zero_block]> ∅).
Definition mini_view : view := mkBview (disk_block mini_blocks) mini_blocks [] ∅ ∅.
Definition mini_log : Log.logst view := Log.mkLog 2 60 1 false 1 0 (replicate 60 0) false [] mini_view.
Definition mini_d : dview := dview_of 200 mini_log mini_view.
Definition mini_inode : inode := mkInode 1 5 1 (Sleeplock.mkSleeplock true 7) true 2 0 0 1 600 (replicate 13 0).
Definition mini : fsst (Log.logst view) :=
  mkFs mini_sb (mini_inode :: replicate 49 inode0) 7 None mini_log.

Lemma mini_length b : length (disk_block mini_blocks b) = Z.to_nat BSIZE.
Proof.
  unfold disk_block, mini_blocks. destruct (decide (b = 1)) as [->|H1].
  { rewrite lookup_insert_eq. exact (length_put_words _ _ zero_block). }
  rewrite lookup_insert_ne by done. destruct (decide (b = 65)) as [->|H2].
  { rewrite lookup_insert_eq. exact (length_put_words _ _ zero_block). }
  by rewrite lookup_insert_ne, lookup_empty.
Qed.

Lemma mini_repr : frepr mini mini_d.
Proof.
  exists 200, mini_view. split; [|by split]. split; try done.
  - split; [done|]. split; [apply mini_length|done|]. by intros i b.
  - split; [cbn; lia|split; vm_compute; congruence|vm_compute; constructor|].
    intros b Hb. by apply elem_of_nil in Hb.
Qed.

Lemma mini_used (a n : Z) x :
  forallb (fun b => Bool.eqb (used mini_sb mini_d b) x) (seqZ a n) = true ->
  forall b, a <= b < a + n -> used mini_sb mini_d b = x.
Proof.
  intros Hall b Hb. eapply forallb_forall in Hall; [by apply Bool.eqb_prop, Hall|].
  by apply list_elem_of_In, elem_of_seqZ.
Qed.

Lemma mini_inv : fs_inv mini_sb 66 mini_d.
Proof.
  split.
  - split; cbn [mini_sb Log.sb_size Log.sb_bmapstart Log.sb_ninodes Log.sb_inodestart]; unfold mini_d;
      cbn [dview_of d_usable mini_log Log.lg_start Log.lg_size]; unfold Log.in_log.
    + lia.
    + lia.
    + lia.
    + intros b Hb. rewrite Z.div_small by (unfold BPB, BSIZE; lia). lia.
    + intros n Hn. change IPB with 8.
      assert (0 <= n / 8 < 2) by (split; [apply Z.div_pos|apply Z.div_lt_upper_bound]; lia). lia.
  - vm_compute. reflexivity.
  - apply (mini_used 0 66). vm_compute. reflexivity.
Qed.

Lemma mini_unlocked b : b ∉ d_locked mini_d.
Proof.
  change (d_locked mini_d) with (map_img (∅ : gmap nat Z) : gset Z).
  rewrite map_img_empty_L. apply not_elem_of_empty.
Qed.

Lemma mini_calm : calm mini_sb mini_d.
Proof. split; [intros b _|intros b Hb|]; try apply mini_unlocked. by destruct (mini_unlocked b). Qed.

Lemma mini_spare : spare 59 mini_d.
Proof. split; vm_compute; congruence. Qed.

Lemma balloc_correct_witness :
  exists s' v', balloc 1 mini = Ok 66 s' /\ frepr s' v' /\ used mini_sb v' 66 = true.
Proof.
  destruct (balloc_correct mini mini_d mini_sb 66 eq_refl mini_inv mini_calm mini_repr)
    as [(b&s'&v'&E&R&Hb&Hf&Hall&_&_&_&Hu&_)|[Hall _]].
  - eapply spare_le; [|exact mini_spare]; lia.
  - assert (b = 66) as ->.
    { destruct (decide (b = 66)); [done|].
      pose proof (Hall 66 ltac:(lia)) as H66. vm_compute in H66. discriminate. }
    exists s', v'. split; [done|]. split; [done|]. by rewrite Hu by (cbn; lia).
  - pose proof (Hall 66 ltac:(cbn; lia)) as H66. vm_compute in H66. discriminate.
Defined.

Lemma bfree_correct_witness :
  (exists s' v', bfree 1 65 mini = Ok tt s' /\ frepr s' v' /\ used mini_sb v' 65 = false) /\
  bfree 1 66 mini = Panic "freeing free block".
Proof.
  split.
  - pose proof (bfree_correct mini mini_d mini_sb 66 65 eq_refl mini_inv mini_calm mini_repr) as Hf.
    change (used mini_sb mini_d 65) with true in Hf.
    destruct Hf as (s'&v'&E&R&_&Hu&_); [eapply spare_le; [|exact mini_spare]; lia|cbn; lia|].
    exists s', v'. split; [done|]. split; [done|]. by rewrite Hu by (cbn; lia).
  - pose proof (bfree_correct mini mini_d mini_sb 66 66 eq_refl mini_inv mini_calm mini_repr) as Hf.
    change (used mini_sb mini_d 66) with false in Hf.
    apply Hf; [eapply spare_le; [|exact mini_spare]; lia|cbn; lia].
Defined.
End Fsblocks.
