(* ===== verification/Fsmap.v ===== *)
(** * The block map of a file (bmap of xv6-public/fs.c)

    An inode is the root of 13 trees of blocks: ten of depth 0, one each of
    depth 1, 2 and 3.  A position is a slot of the inode and a path of indices;
    [node] is the block there, 0 for a hole.  [bmap] is shown to fill the
    holes on the way to the position of a file block with fresh blocks and to
    leave every other position and every other block as it was. *)

From S2P Require Import Prelude Spinlock Bytes Bufcache Log Txdisk Fs Fsblocks.

Module Fsmap.
Import Fs Fsblocks.

(** ** Positions *)

Definition word (d : block) (k : Z) : Z := get32 d (Z.to_nat (4 * k)).

Fixpoint follow (f : Z -> block) (a : Z) (p : list Z) : Z :=
  match p with
  | [] => a
  | k :: p' => if a =? 0 then 0 else follow f (word (f a) k) p'
  end.

Definition node (f : Z -> block) (addrs : list Z) (q : nat * list Z) : Z :=
  follow f (nth q.1 addrs 0) q.2.

Definition depth (s : nat) : nat := s - 9.
Definition index (k : Z) : Prop := 0 <= k < NINDIRECT.
Definition valid (q : nat * list Z) : Prop :=
  (q.1 < 13)%nat /\ (length q.2 <= depth q.1)%nat /\ Forall index q.2.
Definition leaf (q : nat * list Z) : Prop := length q.2 = depth q.1.

(** The position of block [bn] of a file. *)
Definition position (bn : Z) : nat * list Z :=
  if bn <? NDIRECT then (Z.to_nat bn, []) else
  let bn := bn - NDIRECT in
  if bn <? NINDIRECT then (10%nat, [bn]) else
  let bn := bn - NINDIRECT in
  if bn <? NINDIRECT * NINDIRECT then (11%nat, [bn / NINDIRECT; bn mod NINDIRECT]) else
  let bn := bn - NINDIRECT * NINDIRECT in
  (12%nat, [bn / (NINDIRECT * NINDIRECT); (bn mod (NINDIRECT * NINDIRECT)) / NINDIRECT;
            bn mod NINDIRECT]).

Lemma position_valid bn : 0 <= bn < MAXFILE -> valid (position bn) /\ leaf (position bn).
Proof.
  intros Hbn. unfold position, valid, leaf, depth, index, MAXFILE, NDIRECT in *.
  change NINDIRECT with 128 in *.
  destruct (Z.ltb_spec bn 10); [cbn; split; [split; [lia|split; [lia|constructor]]|lia]|].
  destruct (Z.ltb_spec (bn - 10) 128).
  { cbn. split; [|lia]. split; [lia|]. split; [lia|]. repeat constructor; lia. }
  destruct (Z.ltb_spec (bn - 10 - 128) (128 * 128)).
  { cbn. split; [|lia]. split; [lia|]. split; [lia|].
    apply Forall_cons. split; [split; [apply Z.div_pos|apply Z.div_lt_upper_bound]; lia|].
    apply Forall_singleton, Z.mod_pos_bound. lia. }
  set (m := bn - 10 - 128 - 128 * 128). cbn. split; [|lia]. split; [lia|]. split; [lia|].
  assert (0 <= m mod (128 * 128) < 128 * 128) by (apply Z.mod_pos_bound; lia).
  apply Forall_cons. split; [split; [apply Z.div_pos|apply Z.div_lt_upper_bound]; lia|].
  apply Forall_cons. split; [split; [apply Z.div_pos|apply Z.div_lt_upper_bound]; lia|].
  apply Forall_singleton, Z.mod_pos_bound. lia.
Qed.

(** Different blocks of a file have different positions. *)
Lemma position_inj a b :
  0 <= a < MAXFILE -> 0 <= b < MAXFILE -> position a = position b -> a = b.
Proof.
  unfold position, MAXFILE, NDIRECT. change NINDIRECT with 128. intros Ha Hb.
  destruct (Z.ltb_spec a 10), (Z.ltb_spec (a - 10) 128),
    (Z.ltb_spec (a - 10 - 128) (128 * 128));
  destruct (Z.ltb_spec b 10), (Z.ltb_spec (b - 10) 128),
    (Z.ltb_spec (b - 10 - 128) (128 * 128)); try lia; intros Heq; try discriminate Heq;
    injection Heq; intros; try lia.
  - pose proof (Z.div_mod (a - 10 - 128) 128). pose proof (Z.div_mod (b - 10 - 128) 128). lia.
  - set (x := a - 10 - 128 - 128 * 128) in *. set (y := b - 10 - 128 - 128 * 128) in *.
    pose proof (Z.div_mod x (128 * 128)). pose proof (Z.div_mod y (128 * 128)).
    pose proof (Z.div_mod (x mod (128 * 128)) 128). pose proof (Z.div_mod (y mod (128 * 128)) 128).
    assert ((x mod (128 * 128)) mod 128 = x mod 128)
      by (apply Z.mod_mod_divide; by exists 128).
    assert ((y mod (128 * 128)) mod 128 = y mod 128)
      by (apply Z.mod_mod_divide; by exists 128).
    lia.
Qed.

Lemma follow_snoc f p : forall a k,
  follow f a (p ++ [k]) = if follow f a p =? 0 then 0 else word (f (follow f a p)) k.
Proof.
  induction p as [|j p IH]; intros a k; cbn; [done|]. by destruct (a =? 0).
Qed.

Lemma node_snoc f addrs s p k :
  node f addrs (s, p ++ [k]) =
  if node f addrs (s, p) =? 0 then 0 else word (f (node f addrs (s, p))) k.
Proof. apply follow_snoc. Qed.

Lemma valid_init s p k : valid (s, p ++ [k]) -> valid (s, p) /\ index k.
Proof.
  intros (H1&H2&H3). cbn in *. rewrite length_app in H2. cbn in H2.
  apply Forall_app in H3 as [H3 H4]. apply Forall_cons in H4 as [H4 _].
  split; [|done]. split; [done|]. split; [cbn; lia|done].
Qed.

(** A word of a block after one is stored. *)
Lemma word_put d k j x :
  length d = Z.to_nat BSIZE -> index k -> index j -> 0 <= x < 2 ^ 32 ->
  word (put32 (Z.to_nat (4 * k)) x d) j = if decide (j = k) then x else word d j.
Proof.
  unfold index, word. change NINDIRECT with 128. change (Z.to_nat BSIZE) with 512%nat.
  intros Hd Hk Hj Hx. case_decide as Hjk.
  - subst j. rewrite get32_put32 by lia. by apply u32_small.
  - apply get32_put32_ne; lia.
Qed.

Lemma word_zero k : index k -> word zero_block k = 0.
Proof.
  unfold index, word. change NINDIRECT with 128. intros Hk.
  assert (forall o, byte_at zero_block o = 0) as Hz.
  { intros o. unfold byte_at, zero_block.
    destruct (replicate (Z.to_nat BSIZE) 0 !! o) as [y|] eqn:E; [|done].
    by apply lookup_replicate in E as [-> _]. }
  unfold get32, get16. by rewrite !Hz.
Qed.

(** ** Filling one hole *)
Section grow.
Context (f f' : Z -> block) (addrs addrs' : list Z) (x : Z).
Hypothesis Hx : x <> 0.
Hypothesis Hx32 : 0 <= x < 2 ^ 32.
Hypothesis Hzero : f' x = zero_block.
Hypothesis Hfresh : forall q, valid q -> node f addrs q <> x.
Hypothesis Hinj : forall q q', valid q -> valid q' -> node f addrs q <> 0 ->
  node f addrs q = node f addrs q' -> q = q'.

(** A hole in an indirect block [n]. *)
Lemma node_grow s p k :
  valid (s, p ++ [k]) -> addrs' = addrs ->
  node f addrs (s, p) <> 0 -> node f addrs (s, p ++ [k]) = 0 ->
  length (f (node f addrs (s, p))) = Z.to_nat BSIZE ->
  f' (node f addrs (s, p)) = put32 (Z.to_nat (4 * k)) x (f (node f addrs (s, p))) ->
  (forall q, valid q -> node f addrs q <> 0 -> node f addrs q <> node f addrs (s, p) ->
    f' (node f addrs q) = f (node f addrs q)) ->
  forall q, valid q ->
    node f' addrs' q = if decide (q = (s, p ++ [k])) then x else node f addrs q.
Proof.
  intros Hv -> Hn Hhole Hlen Hput Hframe [s' q]. destruct (valid_init s p k Hv) as [Hvp Hk].
  induction q as [|j q IH] using rev_ind; intros Hq.
  { rewrite decide_False; [done|]. intros [= _ E]. by destruct p. }
  destruct (valid_init s' q j Hq) as [Hvq Hj]. rewrite node_snoc, IH by done.
  case_decide as Heq.
  - rewrite (proj2 (Z.eqb_neq x 0) Hx), Hzero, word_zero by done.
    rewrite decide_False.
    + rewrite node_snoc, Heq. by rewrite Hhole.
    + injection Heq as -> ->. intros [= E]. apply (f_equal length) in E.
      rewrite !length_app in E. cbn in E. lia.
  - destruct (Z.eqb_spec (node f addrs (s', q)) 0) as [H0|H0].
    + rewrite node_snoc, H0. cbn. rewrite decide_False; [done|].
      intros [= -> E]. apply app_inj_tail in E as [-> _]. done.
    + rewrite node_snoc, (proj2 (Z.eqb_neq _ 0) H0).
      destruct (decide (node f addrs (s', q) = node f addrs (s, p))) as [Hsame|Hdiff].
      * assert ((s', q) = (s, p)) as [= -> ->] by (by apply Hinj).
        rewrite Hput, word_put by done. destruct (decide (j = k)) as [->|Hjk].
        -- by rewrite decide_True.
        -- rewrite decide_False; [done|]. intros [= E]. by apply app_inj_tail in E as [_ ?].
      * rewrite Hframe by done. rewrite decide_False; [done|].
        intros [= -> E]. by apply app_inj_tail in E as [-> _].
Qed.

(** A hole in the inode itself. *)
Lemma node_grow_root s :
  (s < length addrs)%nat -> addrs' = <[s := x]> addrs -> node f addrs (s, []) = 0 ->
  (forall q, valid q -> node f addrs q <> 0 -> f' (node f addrs q) = f (node f addrs q)) ->
  forall q, valid q -> node f' addrs' q = if decide (q = (s, [])) then x else node f addrs q.
Proof.
  intros Hs -> Hhole Hframe [s' q]. induction q as [|j q IH] using rev_ind; intros Hq.
  - unfold node. cbn. destruct (decide (s' = s)) as [->|Hne].
    + rewrite decide_True by done. rewrite nth_lookup, list_lookup_insert_eq by done. done.
    + rewrite decide_False by (by intros [= ->]). rewrite !nth_lookup.
      by rewrite list_lookup_insert_ne.
  - destruct (valid_init s' q j Hq) as [Hvq Hj]. rewrite node_snoc, IH by done.
    rewrite (decide_False (P := (s', q ++ [j]) = (s, []))) by (intros [= _ E]; by destruct q).
    rewrite node_snoc. case_decide as Heq.
    + injection Heq as -> ->. rewrite Hhole. cbn.
      by rewrite (proj2 (Z.eqb_neq x 0) Hx), Hzero, word_zero.
    + destruct (Z.eqb_spec (node f addrs (s', q)) 0) as [H0|H0]; [done|]. by rewrite Hframe.
Qed.
End grow.

(** ** The blocks an inode owns *)
Section owns.
Context (sb : Log.superblock) (ds : Z).
Hypothesis Hds : 0 < ds.
Implicit Types v : dview.

(** Every block in the trees is a data block in use, at one position only. *)
Record owns v (addrs : list Z) : Prop := mkOwns {
  ow_len : length addrs = 13%nat;
  ow_data q : valid q -> node (d_mem v) addrs q <> 0 ->
    ds <= node (d_mem v) addrs q < Log.sb_size sb /\ used sb v (node (d_mem v) addrs q) = true;
  ow_inj q q' : valid q -> valid q' -> node (d_mem v) addrs q <> 0 ->
    node (d_mem v) addrs q = node (d_mem v) addrs q' -> q = q'
}.

(** [q] lies on the way to [pos]. *)
Definition on_way (q pos : nat * list Z) : Prop := q.1 = pos.1 /\ q.2 `prefix_of` pos.2.

(** From [v], [addrs] to [v'], [addrs'] only holes on the way to [pos] have
    been filled, with blocks that were free. *)
Record grown (pos : nat * list Z) v (addrs : list Z) v' (addrs' : list Z) : Prop := mkGrown {
  gr_node q : valid q ->
    node (d_mem v') addrs' q = node (d_mem v) addrs q \/
    (node (d_mem v) addrs q = 0 /\ on_way q pos /\
     ds <= node (d_mem v') addrs' q < Log.sb_size sb /\
     used sb v (node (d_mem v') addrs' q) = false);
  gr_leaf q : valid q -> leaf q -> node (d_mem v) addrs q <> 0 ->
    d_mem v' (node (d_mem v) addrs q) = d_mem v (node (d_mem v) addrs q);
  gr_used c : 0 <= c < Log.sb_size sb -> used sb v c = true -> used sb v' c = true;
  gr_frame c : ds <= c < Log.sb_size sb -> used sb v c = true ->
    (forall q, valid q -> node (d_mem v) addrs q <> c) -> d_mem v' c = d_mem v c;
  gr_meta c : c < ds -> (forall b, 0 <= b < Log.sb_size sb -> c <> BBLOCK b sb) ->
    d_mem v' c = d_mem v c;
  gr_held : d_held v' = d_held v
}.

Lemma grown_refl pos v addrs : grown pos v addrs v addrs.
Proof. split; try done. intros q _. by left. Qed.

Lemma grown_trans pos v addrs v1 addrs1 v2 addrs2 :
  owns v addrs -> owns v1 addrs1 ->
  grown pos v addrs v1 addrs1 -> grown pos v1 addrs1 v2 addrs2 -> grown pos v addrs v2 addrs2.
Proof.
  intros Ho Ho1 H1 H2.
  assert (forall q, valid q -> node (d_mem v) addrs q <> 0 ->
    node (d_mem v1) addrs1 q = node (d_mem v) addrs q) as Hkeep.
  { intros q Hq Hn. destruct (gr_node _ _ _ _ _ H1 q Hq) as [?|[? _]]; done. }
  split.
  - intros q Hq. destruct (gr_node _ _ _ _ _ H1 q Hq) as [E1|(E1&Hw&Hr&Hu)],
      (gr_node _ _ _ _ _ H2 q Hq) as [E2|(E2&Hw2&Hr2&Hu2)].
    + left. congruence.
    + right. rewrite <- E1. do 3 (split; [done|]).
      destruct (used sb v (node (d_mem v2) addrs2 q)) eqn:Hu; [|done].
      rewrite (gr_used _ _ _ _ _ H1) in Hu2; [done|lia|done].
    + right. by rewrite E2.
    + lia.
  - intros q Hq Hlf Hn. rewrite <- (gr_leaf _ _ _ _ _ H1 q Hq Hlf Hn).
    rewrite <- (Hkeep q Hq Hn). apply (gr_leaf _ _ _ _ _ H2); try done. by rewrite Hkeep.
  - intros c Hc Hu. by apply (gr_used _ _ _ _ _ H2), (gr_used _ _ _ _ _ H1).
  - intros c Hc Hu Hno.
    rewrite (gr_frame _ _ _ _ _ H2), (gr_frame _ _ _ _ _ H1); try done.
    + apply (gr_used _ _ _ _ _ H1); [lia|done].
    + intros q Hq. destruct (gr_node _ _ _ _ _ H1 q Hq) as [->|(_&_&_&Hf)]; [by apply Hno|].
      intros E. by rewrite E, Hu in Hf.
  - intros c Hc Hb. rewrite (gr_meta _ _ _ _ _ H2), (gr_meta _ _ _ _ _ H1) by done. done.
  - by rewrite (gr_held _ _ _ _ _ H2), (gr_held _ _ _ _ _ H1).
Qed.

(** Free blocks left. *)
Definition has_free (n : nat) v : Prop :=
  exists l : list Z, NoDup l /\ (n <= length l)%nat /\
    forall b, b ∈ l -> 0 <= b < Log.sb_size sb /\ used sb v b = false.

Lemma has_free_alloc n v v' x :
  has_free (S n) v ->
  (forall c, 0 <= c < Log.sb_size sb -> used sb v' c = bool_decide (c = x) || used sb v c) ->
  has_free n v'.
Proof.
  intros (l&Hnd&Hl&Hf) Hu. exists (filter (fun b => b <> x) l). split; [by apply NoDup_filter|].
  split.
  - destruct (decide (x ∈ l)) as [Hin|Hin].
    + apply elem_of_Permutation in Hin as [k Hk]. rewrite Hk in *.
      rewrite filter_cons_False by (intros E; by apply E). apply NoDup_cons in Hnd as [Hx _].
      rewrite list_filter_all; [cbn in Hl; lia|]. intros y Hy ->. done.
    + rewrite list_filter_all; [lia|]. intros y Hy ->. done.
  - intros b [Hb Hin]%list_elem_of_filter. destruct (Hf b Hin) as [Hr Hub].
    split; [done|]. rewrite Hu by done. by rewrite bool_decide_eq_false_2.
Qed.

(** One hole filled with the free block [x] keeps the inode well formed. *)
Lemma owns_grow v addrs v' addrs' pos x :
  owns v addrs -> length addrs' = 13%nat -> ds <= x < Log.sb_size sb -> used sb v x = false ->
  (forall c, 0 <= c < Log.sb_size sb -> used sb v' c = bool_decide (c = x) || used sb v c) ->
  (forall q, valid q -> node (d_mem v') addrs' q =
     if decide (q = pos) then x else node (d_mem v) addrs q) ->
  owns v' addrs'.
Proof.
  intros [_ Hdata Hinj] Hlen Hx Hfree Hused Hnode. split; [done| |].
  - intros q Hq. rewrite Hnode by done. case_decide as Hqp; intros Hn.
    + split; [done|]. rewrite Hused by lia. by rewrite bool_decide_eq_true_2.
    + destruct (Hdata q Hq Hn) as [Hr Hu]. split; [done|]. rewrite Hused by lia.
      by rewrite Hu, orb_true_r.
  - intros q q' Hq Hq'. rewrite !Hnode by done. do 2 case_decide; subst; intros Hn E; try done.
    + destruct (Hdata q' Hq') as [_ Hu]; [congruence|]. by rewrite <- E, Hfree in Hu.
    + destruct (Hdata q Hq Hn) as [_ Hu]. by rewrite E, Hfree in Hu.
    + by apply Hinj.
Qed.
End owns.

(** ** The routines *)
Section runs.
Context {T : Type} `{TxDisk T}.
Abbreviation F := (fsst T).
Context (sb : Log.superblock) (ds : Z).
Implicit Types (s : F) (v : dview).

(** The file system can allocate: [k] buffers and log entries to spare and
    [n] blocks free. *)
Record able (k : Z) (n : nat) v : Prop := mkAble {
  ab_inv : fs_inv sb ds v;
  ab_calm : calm sb v;
  ab_range c : c ∈ d_locked v -> 0 <= c < Log.sb_size sb;
  ab_len c : length (d_mem v c) = Z.to_nat BSIZE;
  ab_spare : spare k v;
  ab_free : has_free sb n v
}.
Record ready (k : Z) (n : nat) s v : Prop := mkReady {
  rd_sb : f_sb s = sb;
  rd_able : able k n v;
  rd_repr : frepr s v
}.

Lemma able_le k k' n n' v : k' <= k -> (n' <= n)%nat -> able k n v -> able k' n' v.
Proof.
  intros Hk Hn [? ? ? ? Hs (l&?&?&?)]. split; try done; [by eapply spare_le|].
  exists l. split; [done|]. split; [lia|done].
Qed.

Lemma able_alloc k n v x :
  able (k + 2) (S n) v -> ds <= x < Log.sb_size sb -> able k n (alloc_view sb x v).
Proof.
  intros [Hinv Hcalm Hrange Hlen Hs Hfree] Hx. split; try done.
  - by apply alloc_inv.
  - by eapply alloc_calm.
  - by apply alloc_length.
  - unfold alloc_view. do 2 apply spare_put. by replace (k + 1 + 1) with (k + 2) by lia.
  - eapply has_free_alloc; [exact Hfree|]. intros c Hc. by eapply alloc_used.
Qed.

(** A change of a data block leaves the bitmap alone. *)
Lemma used_put_data v b x c :
  fs_inv sb ds v -> ds <= b < Log.sb_size sb -> 0 <= c < Log.sb_size sb ->
  used sb (d_put b x v) c = used sb v c.
Proof.
  intros Hinv Hb Hc. unfold used. rewrite d_put_mem. rewrite decide_False; [done|].
  apply not_eq_sym. by eapply data_not_bitmap.
Qed.

Lemma able_put k n v b x :
  able (k + 1) n v -> ds <= b < Log.sb_size sb -> length x = Z.to_nat BSIZE ->
  able k n (d_put b x v).
Proof.
  intros [Hinv Hcalm Hrange Hlen Hs (l&Hnd&Hl&Hf)] Hb Hx.
  destruct (g_size _ _ _ (fi_geo _ _ _ Hinv)) as [Hds Hsz].
  assert (forall c, 0 <= c < Log.sb_size sb -> used sb (d_put b x v) c = used sb v c) as Hu
    by (intros; by apply used_put_data).
  split; try done.
  - split; [apply Hinv| |].
    + rewrite d_put_mem, decide_False by lia. apply Hinv.
    + intros c Hc. rewrite Hu by lia. by apply Hinv.
  - destruct Hcalm as [H1 H2 H3]. split; [exact H1| |exact H3].
    intros c Hc. rewrite Hu by (by apply Hrange). by apply H2.
  - intros c. rewrite d_put_mem. by case_decide.
  - by apply spare_put.
  - exists l. split; [done|]. split; [done|]. intros c Hc. destruct (Hf c Hc).
    by rewrite Hu.
Qed.

Lemma able_take k n v i b :
  able (k + 1) n v -> d_held v !! i = None -> ds <= b < Log.sb_size sb ->
  used sb v b = true -> able k n (d_take i b v).
Proof.
  intros [Hinv Hcalm Hrange Hlen Hs Hfree] Hi Hb Hu.
  destruct (g_size _ _ _ (fi_geo _ _ _ Hinv)) as [Hds Hsz].
  split; try done.
  - by destruct Hinv.
  - destruct Hcalm as [H1 H2 H3]. split; rewrite d_locked_take by done.
    + intros c Hc Hin. apply elem_of_union in Hin as [Hin%elem_of_singleton|Hin].
      * by eapply (data_not_bitmap sb ds v b).
      * by eapply H1.
    + intros c [->%elem_of_singleton|Hin]%elem_of_union; [done|by apply H2].
    + intros [Hin%elem_of_singleton|Hin]%elem_of_union; [lia|done].
  - intros c. rewrite d_locked_take by done.
    intros [->%elem_of_singleton|Hin]%elem_of_union; [lia|by apply Hrange].
  - by apply spare_take.
Qed.

Lemma balloc_ready k n s v :
  0 <= k -> ready (k + 2) (S n) s v ->
  exists x t', balloc 1 s = Ok x (at_disk s t') /\ ds <= x < Log.sb_size sb /\
    used sb v x = false /\ ready k n (at_disk s t') (alloc_view sb x v).
Proof.
  intros Hk [Hsb Hab Hrep].
  destruct (balloc_run s v sb ds Hsb (ab_inv _ _ _ Hab) (ab_calm _ _ _ Hab) Hrep)
    as [(x&t'&Hx&Hf&_&E&R)|[Hall _]].
  { eapply spare_le; [|apply (ab_spare _ _ _ Hab)]; lia. }
  - exists x, t'. do 3 (split; [done|]). split; [done|by apply able_alloc|done].
  - destruct (ab_free _ _ _ Hab) as ([|b l]&_&Hl&Hb); [cbn in Hl; lia|].
    destruct (Hb b ltac:(left)) as [Hr Hu]. by rewrite Hall in Hu.
Qed.

(** A data block is in use: it can be read. *)
Lemma read_data k n s v b {B} (kk : nat -> block -> M F B) :
  1 <= k -> ready k n s v -> ds <= b < Log.sb_size sb -> b ∉ d_locked v ->
  exists i t1, (bp <- bread 1 b ;; d <- bdata bp ;; kk bp d) s =
    kk i (d_mem v b) (at_disk s t1) /\
    d_held v !! i = None /\ frepr (at_disk s t1) (d_take i b v).
Proof.
  intros Hk [_ Hab Hrep] Hb Hl. apply read_block_run; try done.
  - by apply (g_data _ _ _ (fi_geo _ _ _ (ab_inv _ _ _ Hab))).
  - eapply spare_le; [|apply (ab_spare _ _ _ Hab)]; lia.
Qed.

Lemma indirect_ready k n s v b j :
  0 <= k -> ready (k + 3) (S n) s v -> ds <= b < Log.sb_size sb -> used sb v b = true ->
  b ∉ d_locked v -> index j ->
  exists a t' v', indirect 1 b j s = Ok a (at_disk s t') /\ ready k n (at_disk s t') v' /\
    if word (d_mem v b) j =? 0
    then ds <= a < Log.sb_size sb /\ used sb v a = false /\
      v' = d_put b (put32 (Z.to_nat (4 * j)) a (d_mem v b)) (alloc_view sb a v)
    else a = word (d_mem v b) j /\ v' = v.
Proof.
  intros Hk Hr Hb Hu Hl Hj. pose proof (rd_able _ _ _ _ Hr) as Hab.
  pose proof (g_data _ _ _ (fi_geo _ _ _ (ab_inv _ _ _ Hab)) b Hb) as Hus.
  unfold indirect.
  match goal with |- context [bind (bread 1 b) (fun bp => bind (bdata bp) (@?kk bp))] =>
    destruct (read_data (k + 3) (S n) s v b kk ltac:(lia) Hr Hb Hl) as (i&t1&E1&Hi&R1) end.
  cbv beta zeta in E1. rewrite E1. clear E1. fold (word (d_mem v b) j).
  pose proof (tx_clean' s v b (rd_repr _ _ _ _ Hr) Hl) as Hcl.
  destruct (word (d_mem v b) j =? 0) eqn:Hw.
  - assert (ready (k + 2) (S n) (at_disk s t1) (d_take i b v)) as Hr1.
    { split; [apply Hr| |done]. apply able_take; try done.
      by replace (k + 2 + 1) with (k + 3) by lia. }
    destruct (balloc_ready k n _ _ Hk Hr1) as (x&t2&E2&Hx&Hfree&[_ Hab2 R2]).
    rewrite (bind_Ok _ _ _ _ _ E2). cbv beta.
    change (used sb v x = false) in Hfree.
    assert (x <> b) as Hxb by (intros ->; by rewrite Hu in Hfree).
    assert (d_held (alloc_view sb x (d_take i b v)) !! i = Some b) as Hh by apply lookup_insert_eq.
    rewrite (bind_Ok _ _ _ _ _ (bdata_run _ _ _ _ R2 Hh)). cbv beta.
    assert (d_mem (alloc_view sb x (d_take i b v)) b = d_mem v b) as ->.
    { change (d_mem v b) with (d_mem (d_take i b v) b). apply alloc_mem; [done|].
      apply (data_not_bitmap sb ds v); [apply Hab|done|].
      destruct (g_size _ _ _ (fi_geo _ _ _ (ab_inv _ _ _ Hab))). lia. }
    assert (alloc_view sb x (d_take i b v) = d_take i b (alloc_view sb x v)) as Hcomm
      by (by apply dview_eq).
    assert (able (k + 1) n (alloc_view sb x v)) as Hab3.
    { apply able_alloc; [|done]. by replace (k + 1 + 2) with (k + 3) by lia. }
    set (y := put32 (Z.to_nat (4 * j)) x (d_mem v b)).
    assert (length y = Z.to_nat BSIZE) as Hy by (unfold y; rewrite length_put32; apply Hab).
    rewrite Hcomm in R2.
    destruct (put_taken _ (alloc_view sb x v) i b y (ret x) Hi R2 Hus Hy) as (t3&E3&R3).
    { destruct (ab_spare _ _ _ Hab3). lia. }
    exists x, t3, (d_put b y (alloc_view sb x v)). split; [exact E3|]. split; [|done].
    split; [apply Hr|by apply able_put|exact R3].
  - destruct (release_taken (at_disk s t1) v i b (ret (word (d_mem v b) j)) Hi Hl R1 Hcl)
      as (t2&E2&R2).
    exists (word (d_mem v b) j), t2, v. split; [exact E2|]. split; [|done].
    split; [apply Hr| |exact R2]. eapply able_le; [| |exact Hab]; lia.
Qed.

Lemma ds_pos k n v : able k n v -> 1 < ds <= Log.sb_size sb /\ Log.sb_size sb < 2 ^ 31.
Proof. intros Hab. apply (g_size _ _ _ (fi_geo _ _ _ (ab_inv _ _ _ Hab))). Qed.

(** A free block is at no position. *)
Lemma free_no_node v addrs x :
  owns sb ds v addrs -> 0 < ds <= x -> used sb v x = false ->
  forall q, valid q -> node (d_mem v) addrs q <> x.
Proof.
  intros Ho Hx Hf q Hq E. destruct (ow_data _ _ _ _ Ho q Hq) as [_ Hu]; [lia|].
  by rewrite E, Hf in Hu.
Qed.

(** One hole filled: everything else is as it was. *)
Lemma fill_grown k n v addrs v' addrs' q0 pos x :
  able k n v -> owns sb ds v addrs -> length addrs' = 13%nat -> on_way q0 pos ->
  ds <= x < Log.sb_size sb -> used sb v x = false -> node (d_mem v) addrs q0 = 0 ->
  (forall c, 0 <= c < Log.sb_size sb -> used sb v' c = bool_decide (c = x) || used sb v c) ->
  (forall q, valid q -> node (d_mem v') addrs' q =
     if decide (q = q0) then x else node (d_mem v) addrs q) ->
  (forall c, c <> x -> c <> BBLOCK x sb ->
     (forall q, valid q -> ~ leaf q -> node (d_mem v) addrs q <> 0 -> node (d_mem v) addrs q <> c) ->
     d_mem v' c = d_mem v c) ->
  d_held v' = d_held v ->
  owns sb ds v' addrs' /\ grown sb ds pos v addrs v' addrs'.
Proof.
  intros Hab Ho Hlen Hw Hx Hfree Hhole Hused Hnode Hframe Hheld.
  destruct (ds_pos _ _ _ Hab) as [Hds Hsz].
  destruct (BBLOCK_facts sb ds _ x (fi_geo _ _ _ (ab_inv _ _ _ Hab)) ltac:(lia)) as [_ HB].
  split; [eapply owns_grow; [lia|done..]|]. split; try done.
  - intros q Hq. rewrite Hnode by done. case_decide; [right|by left]. subst. done.
  - intros q Hq Hlf Hn. destruct (ow_data _ _ _ _ Ho q Hq Hn) as [Hr Hu]. apply Hframe.
    + intros E. by rewrite E, Hfree in Hu.
    + lia.
    + intros q' Hq' Hnl Hn' E. apply Hnl. by rewrite (ow_inj _ _ _ _ Ho q' q).
  - intros c Hc Hu. rewrite Hused by done. by rewrite Hu, orb_true_r.
  - intros c Hc Hu Hno. apply Hframe; [by intros ->; rewrite Hfree in Hu|lia|].
    intros q Hq _ _. by apply Hno.
  - intros c Hc Hb. apply Hframe; [lia|apply Hb; lia|].
    intros q Hq _ Hn E. destruct (ow_data _ _ _ _ Ho q Hq Hn). lia.
Qed.

(** What one [indirect] does to the trees. *)
Lemma indirect_step k n s v addrs sl p j pos :
  0 <= k -> ready (k + 3) (S n) s v -> owns sb ds v addrs -> d_held v = ∅ ->
  valid (sl, p ++ [j]) -> on_way (sl, p ++ [j]) pos -> node (d_mem v) addrs (sl, p) <> 0 ->
  exists a t' v', indirect 1 (node (d_mem v) addrs (sl, p)) j s = Ok a (at_disk s t') /\
    ready k n (at_disk s t') v' /\ owns sb ds v' addrs /\ grown sb ds pos v addrs v' addrs /\
    a = node (d_mem v') addrs (sl, p ++ [j]) /\ a <> 0 /\
    (node (d_mem v) addrs (sl, p ++ [j]) = 0 -> d_mem v' a = zero_block) /\
    (node (d_mem v) addrs (sl, p ++ [j]) <> 0 -> v' = v).
Proof.
  intros Hk Hr Ho Hh Hv Hw Hn. pose proof (rd_able _ _ _ _ Hr) as Hab.
  destruct (ds_pos _ _ _ Hab) as [Hds Hsz]. destruct (valid_init sl p j Hv) as [Hvp Hj].
  destruct (ow_data _ _ _ _ Ho _ Hvp Hn) as [HNr HNu].
  set (N := node (d_mem v) addrs (sl, p)) in *.
  assert (node (d_mem v) addrs (sl, p ++ [j]) = word (d_mem v N) j) as Hnode.
  { rewrite node_snoc. fold N. by rewrite (proj2 (Z.eqb_neq N 0) Hn). }
  assert (N ∉ d_locked v) as HnL
    by (unfold d_locked; rewrite Hh, map_img_empty_L; apply not_elem_of_empty).
  destruct (indirect_ready k n s v N j Hk Hr HNr HNu HnL Hj) as (a&t'&v'&E&Hr'&Hcase).
  exists a, t', v'. split; [done|]. split; [done|]. rewrite Hnode.
  destruct (word (d_mem v N) j =? 0) eqn:Hz.
  2:{ apply Z.eqb_neq in Hz. destruct Hcase as [-> ->].
    split; [done|]. split; [apply grown_refl|]. do 2 (split; [done|]). by split. }
  apply Z.eqb_eq in Hz. destruct Hcase as (Ha&Hfree&Hv').
  pose proof (ab_inv _ _ _ Hab) as Hinv.
  assert (a <> N) as HaN by (intros ->; by rewrite HNu in Hfree).
  assert (forall c, c <> N -> c <> a -> c <> BBLOCK a sb -> d_mem v' c = d_mem v c) as Hframe.
  { intros c H1 H2 H3. subst v'. rewrite d_put_mem, decide_False by done. by apply alloc_mem. }
  assert (d_mem v' a = zero_block) as Hzero.
  { subst v'. rewrite d_put_mem, decide_False by done. apply alloc_zero. }
  assert (forall c, 0 <= c < Log.sb_size sb ->
    used sb v' c = bool_decide (c = a) || used sb v c) as Hused.
  { intros c Hc. subst v'. rewrite used_put_data; [|by apply alloc_inv; [|apply Hab|]|done..].
    apply (alloc_used sb ds); [done|apply Hab|done|done]. }
  pose proof (free_no_node v addrs a Ho ltac:(lia) Hfree) as Hno.
  assert (forall q, valid q -> node (d_mem v') addrs q =
    if decide (q = (sl, p ++ [j])) then a else node (d_mem v) addrs q) as Hgrow.
  { apply node_grow; try done; [lia|lia|apply (ow_inj _ _ _ _ Ho)|by rewrite Hnode|apply Hab| |].
    - fold N. subst v'. rewrite d_put_mem. by rewrite decide_True.
    - fold N. intros q Hq Hq0 HqN. apply Hframe; [done|by apply Hno|].
      destruct (ow_data _ _ _ _ Ho q Hq Hq0).
      apply (data_not_bitmap sb ds v); [done|done|lia]. }
  destruct (fill_grown (k + 3) (S n) v addrs v' addrs (sl, p ++ [j]) pos a) as [Ho' Hg]; try done.
  - apply (ow_len _ _ _ _ Ho).
  - by rewrite Hnode.
  - intros c H1 H2 H3. apply Hframe; try done. apply not_eq_sym. apply (H3 (sl, p)); try done.
    unfold leaf. destruct Hv as (_&Hl&_). cbn in *. rewrite length_app in Hl. cbn in Hl. lia.
  - by subst v'.
  - split; [done|]. split; [done|]. rewrite Hgrow by done. rewrite decide_True by done.
    split; [done|]. split; [lia|]. split; [done|]. intros; done.
Qed.

(** The entry [i] of the inode cache with other block addresses. *)
Definition with_addrs (i : nat) (addrs : list Z) s : F :=
  s <| f_inodes ::= alter (fun ip => ip <| i_addrs := addrs |>) i |>.

Lemma with_addrs_id i ip s : f_inodes s !! i = Some ip -> with_addrs i (i_addrs ip) s = s.
Proof.
  intros Hi. apply fsst_eq; unfold with_addrs; proj_upd; try done.
  rewrite (alter_as_insert _ _ _ _ Hi). apply list_insert_id. rewrite Hi. by destruct ip.
Qed.

Lemma ready_with_addrs k n i addrs s v : ready k n s v -> ready k n (with_addrs i addrs s) v.
Proof. by intros [? ? ?]. Qed.

Lemma geti_run s i ip {B} (k : inode -> M F B) :
  f_inodes s !! i = Some ip -> bind (geti i) k s = k ip s.
Proof. intros Hi. unfold geti. mstep. rewrite Hi. by mstep. Qed.

Lemma seti_run s i ip g {B} (k : unit -> M F B) :
  f_inodes s !! i = Some ip -> bind (seti i g) k s = k tt (s <| f_inodes ::= alter g i |>).
Proof. intros Hi. unfold seti. rewrite bind_bind, (geti_run s i ip) by done. by mstep. Qed.

Lemma addr_slot_step k n s v i ip sl pos :
  0 <= k -> ready (k + 2) (S n) s v -> f_inodes s !! i = Some ip -> i_dev ip = 1 ->
  owns sb ds v (i_addrs ip) -> (sl < 13)%nat -> on_way (sl, []) pos ->
  exists a t' v' addrs', addr_slot i (Z.of_nat sl) s = Ok a (with_addrs i addrs' (at_disk s t')) /\
    ready k n (at_disk s t') v' /\ owns sb ds v' addrs' /\
    grown sb ds pos v (i_addrs ip) v' addrs' /\
    a = node (d_mem v') addrs' (sl, []) /\ a <> 0 /\
    (node (d_mem v) (i_addrs ip) (sl, []) = 0 -> d_mem v' a = zero_block) /\
    (node (d_mem v) (i_addrs ip) (sl, []) <> 0 -> v' = v /\ addrs' = i_addrs ip).
Proof.
  intros Hk Hr Hi Hdev Ho Hsl Hw. pose proof (rd_able _ _ _ _ Hr) as Hab.
  destruct (ds_pos _ _ _ Hab) as [Hds Hsz]. set (addrs := i_addrs ip) in *.
  pose proof (ow_len _ _ _ _ Ho) as Hlen.
  unfold addr_slot. rewrite (geti_run s i ip) by done. fold addrs. rewrite zlookup_nat.
  destruct (lookup_lt_is_Some_2 addrs sl) as [a0 Ha0]; [lia|]. rewrite Ha0. mstep. rewrite Hdev.
  assert (node (d_mem v) addrs (sl, []) = a0) as Hnode
    by (unfold node; cbn; by apply nth_lookup_Some).
  rewrite Hnode. destruct (Z.eqb_spec a0 0) as [Hz|Hz].
  2:{ exists a0, (f_disk s), v, addrs. rewrite at_disk_self.
    split; [unfold addrs; by rewrite with_addrs_id|].
    split; [eapply mkReady; [apply Hr|eapply able_le; [| |exact Hab]; lia|apply Hr]|].
    split; [done|]. split; [apply grown_refl|]. do 3 (split; [done|]). done. }
  destruct (balloc_ready k n s v Hk Hr) as (x&t'&E&Hx&Hfree&Hr').
  rewrite (bind_Ok _ _ _ _ _ E). cbv beta.
  rewrite (seti_run (at_disk s t') i ip) by done. rewrite Nat2Z.id.
  exists x, t', (alloc_view sb x v), (<[sl := x]> addrs).
  assert (forall q, valid q -> node (d_mem (alloc_view sb x v)) (<[sl := x]> addrs) q =
    if decide (q = (sl, [])) then x else node (d_mem v) addrs q) as Hgrow.
  { apply node_grow_root; try done; [lia|apply alloc_zero|lia|by rewrite Hnode|].
    intros q Hq Hn. destruct (ow_data _ _ _ _ Ho q Hq Hn) as [Hqr Hqu]. apply alloc_mem.
    - apply (free_no_node v addrs); try done. lia.
    - apply (data_not_bitmap sb ds v); [apply Hab|done|lia]. }
  destruct (fill_grown (k + 2) (S n) v addrs (alloc_view sb x v) (<[sl := x]> addrs) (sl, []) pos x)
    as [Ho' Hg]; try done.
  - by rewrite length_insert.
  - by rewrite Hnode.
  - intros c Hc. apply (alloc_used sb ds); [apply Hab|apply Hab|done|done].
  - intros c H1 H2 _. by apply alloc_mem.
  - split.
    { unfold ret. f_equal. apply fsst_eq; unfold with_addrs, at_disk; proj_upd; try done.
      by rewrite !(alter_as_insert _ _ _ _ Hi). }
    split; [done|]. do 2 (split; [done|]). rewrite Hgrow by (repeat split; cbn; [done|lia|constructor]).
    rewrite decide_True by done. split; [done|]. split; [lia|]. split; [intros; apply alloc_zero|].
    intros; done.
Qed.

(** The indirect blocks along a path, from the block [a]. *)
Fixpoint descend (a : Z) (p : list Z) : M F Z :=
  match p with
  | [] => ret a
  | [k] => indirect 1 a k
  | k :: p' => a' <- indirect 1 a k ;; descend a' p'
  end.

Lemma on_way_app sl p q : on_way (sl, p) (sl, p ++ q).
Proof. split; [done|]. by apply prefix_app_r. Qed.

(** What a walk does: the block at the end of the path and the holes filled. *)
Definition arrives (sl : nat) (path : list Z) v (addrs : list Z) (a : Z) v' : Prop :=
  owns sb ds v' addrs /\ grown sb ds (sl, path) v addrs v' addrs /\
  a = node (d_mem v') addrs (sl, path) /\ a <> 0 /\
  (node (d_mem v) addrs (sl, path) = 0 -> d_mem v' a = zero_block) /\
  (node (d_mem v) addrs (sl, path) <> 0 -> v' = v).

Lemma node_prefix f addrs sl p q :
  node f addrs (sl, p ++ q) <> 0 -> node f addrs (sl, p) <> 0.
Proof.
  induction q as [|k q IH] using rev_ind; [by rewrite app_nil_r|].
  rewrite app_assoc, node_snoc. destruct (Z.eqb_spec (node f addrs (sl, p ++ q)) 0); [done|auto].
Qed.

Lemma node_behind_zero f addrs sl p j q :
  f (node f addrs (sl, p)) = zero_block -> index j -> node f addrs (sl, p ++ j :: q) = 0.
Proof.
  intros Hz Hj. destruct (decide (node f addrs (sl, p ++ j :: q) = 0)) as [|Hx]; [done|].
  exfalso. apply (node_prefix f addrs sl (p ++ [j]) q); [by rewrite <- app_assoc|].
  rewrite node_snoc, Hz, word_zero by done. by destruct (_ =? 0).
Qed.

Lemma descend_run addrs sl q : forall p k n s v,
  0 <= k -> q <> [] -> ready (k + 3 * Z.of_nat (length q)) (n + length q) s v ->
  owns sb ds v addrs -> d_held v = ∅ -> valid (sl, p ++ q) -> node (d_mem v) addrs (sl, p) <> 0 ->
  exists a t' v', descend (node (d_mem v) addrs (sl, p)) q s = Ok a (at_disk s t') /\
    ready k n (at_disk s t') v' /\ arrives sl (p ++ q) v addrs a v'.
Proof.
  induction q as [|j q IH]; intros p k n s v Hk Hne Hr Ho Hh Hv Hn; [done|].
  assert (valid (sl, p ++ [j])) as Hvj.
  { destruct Hv as (H1&H2&H3). cbn in *. rewrite length_app in H2. cbn in H2.
    apply Forall_app in H3 as [H3 H4]. apply Forall_cons in H4 as [H4 _].
    split; [done|]. cbn. rewrite length_app. cbn. split; [lia|]. apply Forall_app. split; [done|].
    by apply Forall_singleton. }
  assert (on_way (sl, p ++ [j]) (sl, p ++ j :: q)) as Hw.
  { replace (p ++ j :: q) with ((p ++ [j]) ++ q) by (by rewrite <- app_assoc). apply on_way_app. }
  destruct (indirect_step (k + 3 * Z.of_nat (length q)) (n + length q) s v addrs sl p j
    (sl, p ++ j :: q)) as (a&t1&v1&E1&Hr1&Ho1&Hg1&Ha1&Ha0&Hz1&Hs1); try done.
  { lia. }
  { cbn [length] in Hr. replace (k + 3 * Z.of_nat (length q) + 3)
      with (k + 3 * Z.of_nat (S (length q))) by lia.
    by replace (S (n + length q)) with (n + S (length q))%nat by lia. }
  destruct q as [|j2 q].
  { exists a, t1, v1. split; [exact E1|]. split; [|done].
    cbn [length] in Hr1. rewrite Nat.add_0_r in Hr1.
    by replace (k + 3 * Z.of_nat 0) with k in Hr1 by lia. }
  set (q' := j2 :: q) in *.
  assert (d_held v1 = ∅) as Hh1 by (by rewrite (gr_held _ _ _ _ _ _ _ Hg1)).
  assert (valid (sl, (p ++ [j]) ++ q')) as Hv' by (by rewrite <- app_assoc).
  assert (node (d_mem v1) addrs (sl, p ++ [j]) <> 0) as Hn1 by congruence.
  destruct (IH (p ++ [j]) k n (at_disk s t1) v1 Hk ltac:(done) Hr1 Ho1 Hh1 Hv' Hn1)
    as (b&t2&v2&E2&Hr2&(Ho2&Hg2&Hb2&Hb0&Hz2&Hs2)).
  rewrite <- app_assoc in *. cbn [app] in *.
  exists b, t2, v2. split; [|split; [done|]].
  { change (bind (indirect 1 (node (d_mem v) addrs (sl, p)) j) (fun a' => descend a' q') s
      = Ok b (at_disk s t2)). rewrite (bind_Ok _ _ _ _ _ E1), Ha1. exact E2. }
  destruct (ds_pos _ _ _ (rd_able _ _ _ _ Hr)) as [Hds _].
  split; [done|]. split; [exact (grown_trans sb ds ltac:(lia) _ _ _ _ _ _ _ Ho Ho1 Hg1 Hg2)|].
  do 2 (split; [done|]).
  destruct (decide (node (d_mem v) addrs (sl, p ++ [j]) = 0)) as [Hhole|Hfull].
  - assert (node (d_mem v) addrs (sl, p ++ j :: q') = 0) as H0.
    { destruct (decide (node (d_mem v) addrs (sl, p ++ j :: q') = 0)) as [|Hx]; [done|].
      exfalso. apply (node_prefix (d_mem v) addrs sl (p ++ [j]) q'); [by rewrite <- app_assoc|done]. }
    split; [|by rewrite H0]. intros _. apply Hz2.
    replace (p ++ j :: q') with ((p ++ [j]) ++ q') by (by rewrite <- app_assoc).
    apply (node_behind_zero _ _ sl (p ++ [j]) j2 q); [by rewrite <- Ha1; apply Hz1|].
    destruct Hv' as (_&_&[_ [_ Hi]%Forall_cons]%Forall_app).
    by apply Forall_cons in Hi as [? _].
  - rewrite (Hs1 Hfull) in *. done.
Qed.

(** A slot of the inode and the path below it. *)
Definition fills (i : nat) (pos : nat * list Z) s v (addrs : list Z) (r : outcome F Z)
    (k : Z) (n : nat) : Prop :=
  exists a t' v' addrs', r = Ok a (with_addrs i addrs' (at_disk s t')) /\
    ready k n (at_disk s t') v' /\ owns sb ds v' addrs' /\ grown sb ds pos v addrs v' addrs' /\
    a = node (d_mem v') addrs' pos /\ a <> 0 /\
    (node (d_mem v) addrs pos = 0 -> d_mem v' a = zero_block) /\
    (node (d_mem v) addrs pos <> 0 -> v' = v /\ addrs' = addrs).

Lemma walk_run k n s v i ip sl q :
  0 <= k -> ready (k + 3 * Z.of_nat (length q) + 2) (S (n + length q)) s v ->
  f_inodes s !! i = Some ip -> i_dev ip = 1 -> owns sb ds v (i_addrs ip) -> d_held v = ∅ ->
  valid (sl, q) ->
  fills i (sl, q) s v (i_addrs ip)
    (bind (addr_slot i (Z.of_nat sl)) (fun a => descend a q) s) k n.
Proof.
  intros Hk Hr Hi Hdev Ho Hh Hv. set (addrs := i_addrs ip) in *.
  destruct (ds_pos _ _ _ (rd_able _ _ _ _ Hr)) as [Hds _].
  destruct (addr_slot_step (k + 3 * Z.of_nat (length q)) (n + length q) s v i ip sl (sl, q))
    as (a&t1&v1&addrs1&E1&Hr1&Ho1&Hg1&Ha1&Ha0&Hz1&Hs1); try done.
  { lia. }
  { apply Hv. }
  { split; [done|]. apply prefix_nil. }
  fold addrs in Hg1, Hz1, Hs1. rewrite (bind_Ok _ _ _ _ _ E1). cbv beta.
  destruct q as [|j q].
  { exists a, t1, v1, addrs1. split; [done|]. split; [|done].
    cbn [length] in Hr1. rewrite Nat.add_0_r in Hr1.
    by replace (k + 3 * Z.of_nat 0) with k in Hr1 by lia. }
  assert (ready (k + 3 * Z.of_nat (length (j :: q))) (n + length (j :: q))
    (with_addrs i addrs1 (at_disk s t1)) v1) as Hr1' by (by destruct Hr1).
  destruct (descend_run addrs1 sl (j :: q) [] k n _ v1 Hk ltac:(done) Hr1' Ho1)
    as (b&t2&v2&E2&Hr2&(Ho2&Hg2&Hb2&Hb0&Hz2&Hs2)).
  { by rewrite (gr_held _ _ _ _ _ _ _ Hg1). }
  { done. }
  { congruence. }
  rewrite <- Ha1 in E2. exists b, t2, v2, addrs1. split; [exact E2|]. split; [by destruct Hr2|].
  split; [done|].
  split; [exact (grown_trans sb ds ltac:(lia) _ _ _ _ _ _ _ Ho Ho1 Hg1 Hg2)|].
  do 2 (split; [done|]). cbn [app] in *.
  destruct (decide (node (d_mem v) addrs (sl, []) = 0)) as [Hhole|Hfull].
  - assert (node (d_mem v) addrs (sl, j :: q) = 0) as H0.
    { destruct (decide (node (d_mem v) addrs (sl, j :: q) = 0)) as [|Hx]; [done|].
      exfalso. by apply (node_prefix (d_mem v) addrs sl [] (j :: q)). }
    split; [|by rewrite H0]. intros _. apply Hz2.
    apply (node_behind_zero _ _ sl [] j q); [by rewrite <- Ha1; apply Hz1|].
    destruct Hv as (_&_&Hi'). by apply Forall_cons in Hi' as [? _].
  - destruct (Hs1 Hfull) as [-> ->]. split; [done|]. intros Hx. by rewrite (Hs2 Hx).
Qed.

Lemma fills_weaken i pos s v addrs r k k' n n' :
  k <= k' -> (n <= n')%nat -> fills i pos s v addrs r k' n' -> fills i pos s v addrs r k n.
Proof.
  intros Hk Hn (a&t'&v'&addrs'&E&[? Hab ?]&Hrest). exists a, t', v', addrs'. split; [done|].
  split; [|done]. split; [done| |done]. by eapply able_le.
Qed.

Lemma bmap_walk s i ip bn :
  f_inodes s !! i = Some ip -> i_dev ip = 1 -> 0 <= bn < MAXFILE ->
  bmap i bn s = bind (addr_slot i (Z.of_nat (position bn).1))
    (fun a => descend a (position bn).2) s.
Proof.
  intros Hi Hdev Hbn. unfold bmap. rewrite (geti_run s i ip) by done. rewrite Hdev.
  unfold position, MAXFILE in *. destruct (bn <? NDIRECT) eqn:E0.
  { cbn [fst snd descend]. rewrite Z2Nat.id by lia. unfold bind, ret.
    by destruct (addr_slot i bn s). }
  destruct (bn - NDIRECT <? NINDIRECT) eqn:E1; [done|].
  destruct (bn - NDIRECT - NINDIRECT <? NINDIRECT * NINDIRECT) eqn:E2; [done|].
  rewrite (proj2 (Z.ltb_lt _ _)) by lia. done.
Qed.

Lemma bmap_run k n s v i ip bn :
  0 <= k -> ready (k + 11) (n + 4) s v ->
  f_inodes s !! i = Some ip -> i_dev ip = 1 -> owns sb ds v (i_addrs ip) -> d_held v = ∅ ->
  0 <= bn < MAXFILE ->
  fills i (position bn) s v (i_addrs ip) (bmap i bn s) k n.
Proof.
  intros Hk Hr Hi Hdev Ho Hh Hbn. rewrite (bmap_walk s i ip bn) by done.
  destruct (position_valid bn Hbn) as [Hv Hlf]. destruct (position bn) as [sl q] eqn:E. cbn [fst snd].
  assert (length q <= 3)%nat as Hq.
  { destruct Hv as (H1&_&_). unfold leaf, depth in Hlf. cbn in *. lia. }
  eapply (fills_weaken _ _ _ _ _ _ k (k + 9 - 3 * Z.of_nat (length q)) n (n + 3 - length q));
    [lia|lia|].
  apply walk_run; try done; [lia|].
  replace (_ + 2) with (k + 11) by lia. by replace (S _) with (n + 4)%nat by lia.
Qed.

(** C5: [bmap] maps the blocks of a file to disk blocks of its own.  It
    returns the block at the position of [bn], filling the holes on the way
    there with fresh zeroed blocks ([fills]): every other position, every
    block of another file and the other metadata are unchanged, and nothing at
    all changes when the block is there already.  Beyond MAXFILE it panics. *)
Theorem bmap_correct k n s v i ip bn :
  0 <= k -> ready (k + 11) (n + 4) s v ->
  f_inodes s !! i = Some ip -> i_dev ip = 1 -> owns sb ds v (i_addrs ip) -> d_held v = ∅ -> 0 <= bn ->
  if bn <? MAXFILE then fills i (position bn) s v (i_addrs ip) (bmap i bn s) k n
  else bmap i bn s = Panic "bmap: out of range".
Proof.
  intros Hk Hr Hi Hdev Ho Hh Hbn. destruct (Z.ltb_spec bn MAXFILE) as [Hlt|Hge].
  { by apply bmap_run. }
  unfold bmap. rewrite (geti_run s i ip) by done.
  unfold MAXFILE, NDIRECT in *. change NINDIRECT with 128 in *.
  rewrite !(proj2 (Z.ltb_ge _ _)) by lia. done.
Qed.
End runs.

(** ** On the small file system *)
Import Ideal.

Lemma mini_has_free n : (n <= 100)%nat -> has_free mini_sb n mini_d.
Proof.
  intros Hn. exists (seqZ 66 100). split; [apply NoDup_seqZ|]. split; [by rewrite length_seqZ|].
  intros b Hb%elem_of_seqZ. split; [cbn; lia|].
  apply (mini_used 66 100); [vm_compute; reflexivity|lia].
Qed.

Lemma mini_ready k n : k <= 59 -> (n <= 100)%nat -> ready mini_sb 66 k n mini mini_d.
Proof.
  intros Hk Hn. split; [done| |apply mini_repr]. split.
  - apply mini_inv.
  - apply mini_calm.
  - intros c Hc. by destruct (mini_unlocked c).
  - intros c. apply mini_length.
  - eapply spare_le; [|exact mini_spare]. done.
  - by apply mini_has_free.
Qed.

(** The inode has no blocks yet. *)
Lemma mini_no_nodes q : valid q -> node (d_mem mini_d) (replicate 13 0) q = 0.
Proof.
  destruct q as [sl p]. intros (Hs&_&_). cbn in Hs. unfold node. cbn [fst snd].
  assert (nth sl (replicate 13 0) 0 = 0) as ->; [|by destruct p].
  by do 13 (destruct sl as [|sl]; [done|]); lia.
Qed.

Lemma mini_owns : owns mini_sb 66 mini_d (replicate 13 0).
Proof.
  split; [done| |].
  - intros q Hq Hn. by rewrite mini_no_nodes in Hn.
  - intros q q' Hq _ Hn. by rewrite mini_no_nodes in Hn.
Qed.

Lemma bmap_correct_witness :
  fills mini_sb 66 0 (position 5000) mini mini_d (replicate 13 0) (bmap 0 5000 mini) 48 96.
Proof.
  exact (bmap_correct mini_sb 66 48 96 mini mini_d 0 mini_inode 5000 ltac:(done)
    (mini_ready 59 100 ltac:(lia) ltac:(lia)) eq_refl eq_refl mini_owns eq_refl ltac:(done)).
Defined.
End Fsmap.
