(* ===== verification/Fsdata.v ===== *)
(** * The bytes of a file (readi, writei and iupdate of xv6-public/fs.c)

    The blocks of an inode, hole or not, make up an array of bytes.  [readi]
    returns a segment of it, [writei] replaces a segment, and nothing else
    changes: no other block in use and no other metadata but the bitmap and the
    inode itself.  Reading back what was written gives it again. *)

From S2P Require Import Prelude Spinlock Bytes Bufcache Log Txdisk Fs Fsblocks Fsmap.

Module Fsdata.
Import Fs Fsblocks Fsmap.

(** ** Contents *)

(** Block [bn] of a file; a hole reads as zeros. *)
Definition content (v : dview) (addrs : list Z) (bn : Z) : block :=
  let a := node (d_mem v) addrs (position bn) in
  if a =? 0 then zero_block else d_mem v a.
Definition file_byte (v : dview) (addrs : list Z) (o : Z) : Z :=
  byte_at (content v addrs (o / BSIZE)) (Z.to_nat (o mod BSIZE)).
Definition file_bytes (v : dview) (addrs : list Z) (off n : Z) : list Z :=
  map (file_byte v addrs) (seqZ off n).

(** The blocks a segment lies in. *)
Definition span (off n : Z) : list Z :=
  if n <=? 0 then [] else seqZ (off / BSIZE) ((off + n - 1) / BSIZE - off / BSIZE + 1).
Definition holes (v : dview) (addrs l : list Z) : nat :=
  length (filter (fun bn => node (d_mem v) addrs (position bn) = 0) l).
(** What the loops move in one turn. *)
Definition turn (off n : Z) : Z := Z.min n (BSIZE - off mod BSIZE).

Lemma turn_bounds off n : 0 < n -> 0 < turn off n <= n /\ off mod BSIZE + turn off n <= BSIZE.
Proof.
  intros Hn. unfold turn. pose proof (Z.mod_pos_bound off BSIZE ltac:(done)). lia.
Qed.

Lemma turn_block off n : 0 < n -> (off + turn off n - 1) / BSIZE = off / BSIZE.
Proof.
  intros Hn. destruct (turn_bounds off n Hn). pose proof (Z.mod_pos_bound off BSIZE ltac:(done)).
  symmetry. apply (Z.div_unique _ _ _ (off mod BSIZE + turn off n - 1)); [lia|].
  pose proof (Z.div_mod off BSIZE ltac:(done)). lia.
Qed.

Lemma span_step off n :
  0 < n -> span off n = off / BSIZE :: span (off + turn off n) (n - turn off n).
Proof.
  intros Hn. unfold span. rewrite (proj2 (Z.leb_gt n 0)) by lia.
  pose proof (turn_block off n Hn) as Htb. destruct (turn_bounds off n Hn) as [Ht1 Ht2].
  destruct (Z.leb_spec (n - turn off n) 0).
  - replace (turn off n) with n in Htb by lia. rewrite Htb.
    replace (_ - _ + 1) with 1 by lia. done.
  - assert (turn off n = BSIZE - off mod BSIZE) as Ht by (unfold turn in *; lia).
    assert (off + turn off n = (off / BSIZE + 1) * BSIZE) as E
      by (rewrite Ht; pose proof (Z.div_mod off BSIZE ltac:(done)); lia).
    assert ((off + turn off n) / BSIZE = off / BSIZE + 1) as E1 by (rewrite E; by apply Z.div_mul).
    replace (off + turn off n + (n - turn off n) - 1) with (off + n - 1) by lia.
    assert (off / BSIZE + 1 <= (off + n - 1) / BSIZE).
    { apply Z.div_le_lower_bound; [done|]. lia. }
    rewrite E1, seqZ_cons by lia. do 2 f_equal; lia.
Qed.

Lemma span_range off n bn :
  0 <= off -> off + n <= MAXFILE * BSIZE -> bn ∈ span off n -> 0 <= bn < MAXFILE.
Proof.
  intros Hoff Hn. unfold span. destruct (Z.leb_spec n 0); [by intros ?%elem_of_nil|].
  rewrite elem_of_seqZ. intros Hb. split; [pose proof (Z.div_pos off BSIZE ltac:(done) ltac:(done)); lia|].
  assert ((off + n - 1) / BSIZE < MAXFILE); [|lia]. apply Z.div_lt_upper_bound; [done|]. lia.
Qed.

(** The bytes of one turn. *)
Lemma slice_file v addrs off n :
  0 <= off -> 0 < n -> length (content v addrs (off / BSIZE)) = Z.to_nat BSIZE ->
  slice (Z.to_nat (off mod BSIZE)) (Z.to_nat (turn off n)) (content v addrs (off / BSIZE)) =
  file_bytes v addrs off (turn off n).
Proof.
  intros Hoff Hn Hlen. destruct (turn_bounds off n Hn) as [H1 H2].
  pose proof (Z.mod_pos_bound off BSIZE ltac:(done)) as Hm.
  rewrite slice_bytes by (rewrite Hlen; lia). unfold file_bytes, seqZ. rewrite map_map.
  apply list_eq. intros k. rewrite !list_lookup_fmap.
  destruct (decide (k < Z.to_nat (turn off n))%nat) as [Hk|Hk].
  - rewrite !lookup_seq_lt by done. cbn. f_equal. unfold file_byte.
    pose proof (Z.div_mod off BSIZE ltac:(done)) as E.
    assert (Z.of_nat k + off = BSIZE * (off / BSIZE) + (off mod BSIZE + Z.of_nat k)) as E' by lia.
    rewrite <- (Z.div_unique_pos (Z.of_nat k + off) BSIZE (off / BSIZE) (off mod BSIZE + Z.of_nat k)),
      <- (Z.mod_unique_pos (Z.of_nat k + off) BSIZE (off / BSIZE) (off mod BSIZE + Z.of_nat k)); try lia.
    f_equal. lia.
  - rewrite !lookup_seq_ge by lia. done.
Qed.

Lemma file_bytes_app v addrs off m n :
  0 <= m <= n -> file_bytes v addrs off n =
    file_bytes v addrs off m ++ file_bytes v addrs (off + m) (n - m).
Proof.
  intros Hm. unfold file_bytes. rewrite <- map_app. f_equal.
  replace n with (m + (n - m)) at 1 by lia. rewrite seqZ_app by lia. done.
Qed.

(** ** What an operation on one file may change *)
Section touched.
Context (sb : Log.superblock) (ds : Z).
Hypothesis Hds : 0 < ds.
Implicit Types v : dview.

Record touched v (addrs : list Z) v' (addrs' : list Z) : Prop := mkTouched {
  tc_node q : valid q ->
    node (d_mem v') addrs' q = node (d_mem v) addrs q \/
    (node (d_mem v) addrs q = 0 /\ ds <= node (d_mem v') addrs' q < Log.sb_size sb /\
     used sb v (node (d_mem v') addrs' q) = false);
  tc_used c : 0 <= c < Log.sb_size sb -> used sb v c = true -> used sb v' c = true;
  tc_frame c : ds <= c < Log.sb_size sb -> used sb v c = true ->
    (forall q, valid q -> node (d_mem v) addrs q <> c) -> d_mem v' c = d_mem v c;
  tc_meta c : c < ds -> (forall b, 0 <= b < Log.sb_size sb -> c <> BBLOCK b sb) ->
    d_mem v' c = d_mem v c
}.

Lemma touched_refl v addrs : touched v addrs v addrs.
Proof. split; try done. by left. Qed.

Lemma grown_touched pos v addrs v' addrs' :
  grown sb ds pos v addrs v' addrs' -> touched v addrs v' addrs'.
Proof.
  intros [Hn _ Hu Hf Hm _]. split; try done. intros q Hq.
  destruct (Hn q Hq) as [?|(?&_&?&?)]; [by left|by right].
Qed.

Lemma touched_trans v addrs v1 addrs1 v2 addrs2 :
  touched v addrs v1 addrs1 -> touched v1 addrs1 v2 addrs2 -> touched v addrs v2 addrs2.
Proof.
  intros H1 H2. split.
  - intros q Hq. destruct (tc_node _ _ _ _ H2 q Hq) as [->|(E2&Hr2&Hu2)];
      [by apply (tc_node _ _ _ _ H1)|].
    destruct (tc_node _ _ _ _ H1 q Hq) as [E1|(E1&Hr&Hu)]; [|lia].
    right. rewrite <- E1. split; [done|]. split; [done|].
    destruct (used sb v (node (d_mem v2) addrs2 q)) eqn:Hu; [|done].
    rewrite (tc_used _ _ _ _ H1) in Hu2; [done|lia|done].
  - intros c Hc Hu. by apply (tc_used _ _ _ _ H2), (tc_used _ _ _ _ H1).
  - intros c Hc Hu Hno. rewrite (tc_frame _ _ _ _ H2), (tc_frame _ _ _ _ H1); try done.
    + apply (tc_used _ _ _ _ H1); [lia|done].
    + intros q Hq. destruct (tc_node _ _ _ _ H1 q Hq) as [->|(_&_&Hf)]; [by apply Hno|].
      intros E. by rewrite E, Hu in Hf.
  - intros c Hc Hb. by rewrite (tc_meta _ _ _ _ H2), (tc_meta _ _ _ _ H1).
Qed.

Lemma touched_present v addrs v' addrs' q :
  touched v addrs v' addrs' -> valid q -> node (d_mem v) addrs q <> 0 ->
  node (d_mem v') addrs' q <> 0.
Proof. intros Ht Hq Hn. destruct (tc_node _ _ _ _ Ht q Hq) as [->|[? _]]; done. Qed.

Lemma holes_touched v addrs v' addrs' l :
  touched v addrs v' addrs' -> (forall bn, bn ∈ l -> 0 <= bn < MAXFILE) ->
  (holes v' addrs' l <= holes v addrs l)%nat.
Proof.
  intros Ht Hl. induction l as [|b l IH]; [done|].
  assert (holes v' addrs' l <= holes v addrs l)%nat as Hle.
  { apply IH. intros bn Hbn. apply Hl. by right. }
  unfold holes in *.
  destruct (position_valid b (Hl b ltac:(left))) as [Hv _].
  rewrite !filter_cons. destruct (tc_node _ _ _ _ Ht _ Hv) as [->|(E&Hr&_)].
  - case_decide; cbn; lia.
  - rewrite (decide_False (P := node (d_mem v') addrs' (position b) = 0)) by lia.
    rewrite decide_True by done. cbn. lia.
Qed.

(** The leaves are not read when the trees are walked. *)
Lemma node_frame f f' addrs :
  (forall q, valid q -> ~ leaf q -> node f addrs q <> 0 -> f' (node f addrs q) = f (node f addrs q)) ->
  forall q, valid q -> node f' addrs q = node f addrs q.
Proof.
  intros Hf [sl p]. induction p as [|j p IH] using rev_ind; intros Hq; [done|].
  destruct (valid_init sl p j Hq) as [Hvp Hj]. rewrite !node_snoc, IH by done.
  destruct (Z.eqb_spec (node f addrs (sl, p)) 0); [done|]. rewrite Hf; try done.
  unfold leaf. destruct Hq as (_&Hl&_). cbn in *. rewrite length_app in Hl. cbn in Hl. lia.
Qed.

Lemma leaf_on_way q pos : leaf q -> leaf pos -> on_way q pos -> q = pos.
Proof.
  destruct q as [s p], pos as [s' p']. unfold leaf. cbn. intros Hq Hp [E [r Hr]]. cbn in *.
  subst s' p'. rewrite length_app in Hp. destruct r; [by rewrite app_nil_r|cbn in Hp; lia].
Qed.

(** Filling a hole with zeros does not change the bytes of the file. *)
Lemma grown_content pos v addrs v' addrs' bn :
  grown sb ds pos v addrs v' addrs' -> leaf pos -> 0 <= bn < MAXFILE ->
  (node (d_mem v) addrs pos = 0 -> d_mem v' (node (d_mem v') addrs' pos) = zero_block) ->
  content v' addrs' bn = content v addrs bn.
Proof.
  intros Hg Hlp Hbn Hz. destruct (position_valid bn Hbn) as [Hv Hlf]. unfold content.
  destruct (gr_node _ _ _ _ _ _ _ Hg _ Hv) as [->|(E&Hw&Hr&_)].
  - destruct (Z.eqb_spec (node (d_mem v) addrs (position bn)) 0); [done|].
    by apply (gr_leaf _ _ _ _ _ _ _ Hg).
  - rewrite E. cbn. apply (leaf_on_way _ _ Hlf Hlp) in Hw. rewrite Hw in *.
    destruct (_ =? 0) eqn:E'; [done|]. by apply Hz.
Qed.
End touched.

(** ** Inodes on disk *)

Record fits (x : dinode) : Prop := mkFits {
  ft_type : - 2 ^ 15 <= di_type x < 2 ^ 15;
  ft_major : - 2 ^ 15 <= di_major x < 2 ^ 15;
  ft_minor : - 2 ^ 15 <= di_minor x < 2 ^ 15;
  ft_nlink : - 2 ^ 15 <= di_nlink x < 2 ^ 15;
  ft_size : 0 <= di_size x < 2 ^ 32;
  ft_len : length (di_addrs x) = 13%nat;
  ft_addrs : Forall (fun a => 0 <= a < 2 ^ 32) (di_addrs x)
}.

Lemma i16_u16 x : - 2 ^ 15 <= x < 2 ^ 15 -> i16 (u16 x) = x.
Proof.
  intros Hx. unfold i16, u16. rewrite Z.add_mod_idemp_l by done. rewrite Z.mod_small; lia.
Qed.

Lemma length_put_dinode o x d : length (put_dinode o x d) = length d.
Proof. unfold put_dinode. by rewrite length_put_words, length_put32, !length_put16. Qed.

Lemma get_put_dinode o x d :
  (o + 64 <= length d)%nat -> fits x -> get_dinode (put_dinode o x d) o = x.
Proof.
  intros Ho [Ht Hma Hmi Hn Hs Hl Ha]. destruct x as [ty ma mi nl sz ad]. cbn in *.
  unfold get_dinode, put_dinode. cbn [di_type di_major di_minor di_nlink di_size di_addrs].
  rewrite !get16_put_words_ne, !get16_put32_ne
    by (rewrite ?length_put32, ?length_put16, ?Hl; lia).
  f_equal.
  - rewrite !get16_put16_ne, get16_put16 by (rewrite ?length_put16; lia). by apply i16_u16.
  - rewrite !get16_put16_ne, get16_put16 by (rewrite ?length_put16; lia). by apply i16_u16.
  - rewrite !get16_put16_ne, get16_put16 by (rewrite ?length_put16; lia). by apply i16_u16.
  - rewrite get16_put16 by (rewrite ?length_put16; lia). by apply i16_u16.
  - rewrite get32_put_words_lt, get32_put32
      by (rewrite ?length_put32, ?length_put16, ?Hl; lia). by apply u32_small.
  - rewrite <- Hl. apply get_put_words; [|done]. rewrite length_put32, !length_put16. lia.
Qed.

(** The other inodes of the block. *)
Lemma byte_put_dinode_ne o x d j :
  (o + 64 <= length d)%nat -> length (di_addrs x) = 13%nat -> (j < o \/ o + 64 <= j)%nat ->
  byte_at (put_dinode o x d) j = byte_at d j.
Proof.
  intros Ho Hl Hj. unfold put_dinode.
  rewrite byte_at_put_words_ne, byte_at_put32_ne by (rewrite ?length_put32, ?length_put16, ?Hl; lia).
  rewrite !byte_at_put16 by (rewrite ?length_put16; lia). repeat case_decide; lia || done.
Qed.

Lemma get_put_dinode_ne o o' x d :
  (o + 64 <= length d)%nat -> length (di_addrs x) = 13%nat -> (o' + 64 <= o \/ o + 64 <= o')%nat ->
  get_dinode (put_dinode o x d) o' = get_dinode d o'.
Proof.
  intros Ho Hl Hj. unfold get_dinode, get32, get16.
  rewrite !byte_put_dinode_ne by lia. f_equal. apply get_words_ext.
  intros j Hj'. apply byte_put_dinode_ne; lia.
Qed.

(** ** The routines *)
Section runs.
Context {T : Type} `{TxDisk T}.
Abbreviation F := (fsst T).
Context (sb : Log.superblock) (ds : Z).
Implicit Types (s : F) (v : dview) (ip : inode).

(** Inode [ip], entry [i] of the cache, between two operations: no buffer is
    held, its blocks are its own. *)
Record filed (k : Z) (n : nat) s v (i : nat) ip : Prop := mkFiled {
  fl_ready : ready sb ds k n s v;
  fl_inode : f_inodes s !! i = Some ip;
  fl_dev : i_dev ip = 1;
  fl_owns : owns sb ds v (i_addrs ip);
  fl_held : d_held v = ∅
}.

Lemma ready_le k k' n n' s v :
  k' <= k -> (n' <= n)%nat -> ready sb ds k n s v -> ready sb ds k' n' s v.
Proof. intros Hk Hn [? ? ?]. split; [done| |done]. by eapply able_le. Qed.

Lemma filed_le k k' n n' s v i ip :
  k' <= k -> (n' <= n)%nat -> filed k n s v i ip -> filed k' n' s v i ip.
Proof. intros Hk Hn [? ? ? ? ?]. split; try done. by eapply ready_le. Qed.

Lemma fl_pos k n s v i ip : filed k n s v i ip -> 0 < ds.
Proof. intros Hf. destruct (ds_pos _ _ _ _ _ (rd_able _ _ _ _ _ _ (fl_ready _ _ _ _ _ _ Hf))). lia. Qed.

Lemma unlocked v b : d_held v = ∅ -> b ∉ d_locked v.
Proof. intros Hh. unfold d_locked. rewrite Hh, map_img_empty_L. apply not_elem_of_empty. Qed.

(** A block of the file that is there is found without any change. *)
Lemma indirect_present k n s v i ip sl p j :
  1 <= k -> filed k n s v i ip -> valid (sl, p ++ [j]) ->
  node (d_mem v) (i_addrs ip) (sl, p ++ [j]) <> 0 ->
  exists t', indirect 1 (node (d_mem v) (i_addrs ip) (sl, p)) j s =
      Ok (node (d_mem v) (i_addrs ip) (sl, p ++ [j])) (at_disk s t') /\ frepr (at_disk s t') v.
Proof.
  intros Hk [Hr Hi Hd Ho Hh] Hv Hn. destruct (valid_init sl p j Hv) as [Hvp Hj].
  pose proof (node_prefix _ _ _ _ _ Hn) as Hp. destruct (ow_data _ _ _ _ Ho _ Hvp Hp) as [Hb _].
  rewrite node_snoc in *. set (b := node (d_mem v) (i_addrs ip) (sl, p)) in *.
  rewrite (proj2 (Z.eqb_neq b 0) Hp) in *. unfold indirect.
  pose proof (unlocked v b Hh) as Hl.
  match goal with |- context [bind (bread 1 b) (fun bp => bind (bdata bp) (@?kk bp))] =>
    destruct (read_data sb ds k n s v b kk Hk Hr Hb Hl) as (x&t1&E1&Hx&R1) end.
  cbv beta zeta in E1. rewrite E1. clear E1. fold (word (d_mem v b) j).
  rewrite (proj2 (Z.eqb_neq _ 0) Hn).
  destruct (release_taken (at_disk s t1) v x b (ret (word (d_mem v b) j)) Hx Hl R1) as (t2&E2&R2).
  { by eapply tx_clean'; [apply (rd_repr _ _ _ _ _ _ Hr)|]. }
  exists t2. by split.
Qed.

Lemma filed_at k n s v i ip t' : filed k n s v i ip -> frepr (at_disk s t') v -> filed k n (at_disk s t') v i ip.
Proof. intros [[? ? ?] ? ? ? ?] Hr. by split; [split|..]. Qed.

Lemma descend_present k n i ip sl q : forall p s v,
  1 <= k -> filed k n s v i ip -> valid (sl, p ++ q) ->
  node (d_mem v) (i_addrs ip) (sl, p ++ q) <> 0 ->
  exists t', descend (node (d_mem v) (i_addrs ip) (sl, p)) q s =
      Ok (node (d_mem v) (i_addrs ip) (sl, p ++ q)) (at_disk s t') /\ frepr (at_disk s t') v.
Proof.
  induction q as [|j q IH]; intros p s v Hk Hf Hv Hn.
  { exists (f_disk s). rewrite app_nil_r, at_disk_self. split; [done|apply Hf]. }
  replace (p ++ j :: q) with ((p ++ [j]) ++ q) in * by (by rewrite <- app_assoc).
  assert (valid (sl, p ++ [j])) as Hvj.
  { destruct Hv as (H1&H2&H3). cbn in *. rewrite length_app in H2.
    apply Forall_app in H3 as [H3 _]. split; [done|]. split; [cbn; lia|done]. }
  destruct (indirect_present k n s v i ip sl p j) as (t1&E1&R1); try done.
  { by eapply node_prefix. }
  destruct (IH (p ++ [j]) (at_disk s t1) v Hk ltac:(by apply filed_at) Hv Hn) as (t2&E2&R2).
  destruct q as [|j2 q]; [exists t1; by rewrite app_nil_r|].
  exists t2. split; [|done].
  change (bind (indirect 1 (node (d_mem v) (i_addrs ip) (sl, p)) j)
    (fun a' => descend a' (j2 :: q)) s =
    Ok (node (d_mem v) (i_addrs ip) (sl, (p ++ [j]) ++ j2 :: q)) (at_disk s t2)).
  by rewrite (bind_Ok _ _ _ _ _ E1).
Qed.

Lemma bmap_present k n s v i ip bn :
  1 <= k -> filed k n s v i ip -> 0 <= bn < MAXFILE ->
  node (d_mem v) (i_addrs ip) (position bn) <> 0 ->
  exists t', bmap i bn s = Ok (node (d_mem v) (i_addrs ip) (position bn)) (at_disk s t') /\
    frepr (at_disk s t') v.
Proof.
  intros Hk Hf Hbn Hn. destruct (position_valid bn Hbn) as [Hv _].
  rewrite (bmap_walk s i ip bn) by (done || apply Hf).
  destruct (position bn) as [sl q]. cbn [fst snd].
  pose proof (ow_len _ _ _ _ (fl_owns _ _ _ _ _ _ Hf)) as Hlen.
  assert (addr_slot i (Z.of_nat sl) s = Ok (node (d_mem v) (i_addrs ip) (sl, [])) s) as E.
  { unfold addr_slot. rewrite (geti_run s i ip) by apply Hf. rewrite zlookup_nat.
    destruct (lookup_lt_is_Some_2 (i_addrs ip) sl) as [a0 Ha0]; [destruct Hv; cbn in *; lia|].
    rewrite Ha0. mstep. pose proof (node_prefix _ _ sl [] q Hn) as Hn0.
    unfold node in *. cbn in *. rewrite (nth_lookup_Some _ _ _ _ Ha0) in *.
    by rewrite (proj2 (Z.eqb_neq a0 0) Hn0). }
  rewrite (bind_Ok _ _ _ _ _ E). by apply (descend_present k n i ip sl q [] s v).
Qed.

(** The state after file operations: other block addresses, another disk. *)
Definition moved (i : nat) (addrs : list Z) (t : T) s : F := with_addrs i addrs (at_disk s t).

Lemma moved_moved i a1 t1 a2 t2 s : moved i a2 t2 (moved i a1 t1 s) = moved i a2 t2 s.
Proof.
  apply fsst_eq; unfold moved, with_addrs, at_disk; proj_upd; try done.
  apply list_eq. intros j. destruct (decide (i = j)) as [<-|Hne].
  - rewrite !list_lookup_alter_eq. by destruct (f_inodes s !! i).
  - by rewrite !list_lookup_alter_ne.
Qed.

Lemma moved_self i ip t s : f_inodes s !! i = Some ip -> moved i (i_addrs ip) t s = at_disk s t.
Proof. intros Hi. unfold moved. by rewrite with_addrs_id. Qed.

Lemma moved_inode i ip addrs t s :
  f_inodes s !! i = Some ip -> f_inodes (moved i addrs t s) !! i = Some (ip <| i_addrs := addrs |>).
Proof.
  intros Hi. unfold moved, with_addrs, at_disk. proj_upd. by rewrite list_lookup_alter_eq, Hi.
Qed.

Definition same_content v addrs v' addrs' : Prop :=
  forall bn, 0 <= bn < MAXFILE -> content v' addrs' bn = content v addrs bn.

Lemma bmap_filed k n s v i ip bn :
  0 <= k -> 0 <= bn < MAXFILE ->
  filed (k + 1 + 11 * Z.of_nat (holes v (i_addrs ip) [bn]))
    (n + 4 * holes v (i_addrs ip) [bn]) s v i ip ->
  exists t' v' addrs', let ip' := ip <| i_addrs := addrs' |> in
    bmap i bn s = Ok (node (d_mem v') addrs' (position bn)) (moved i addrs' t' s) /\
    filed (k + 1) n (moved i addrs' t' s) v' i ip' /\
    touched sb ds v (i_addrs ip) v' addrs' /\ same_content v (i_addrs ip) v' addrs' /\
    node (d_mem v') addrs' (position bn) <> 0.
Proof.
  intros Hk Hbn Hf. destruct (position_valid bn Hbn) as [Hv Hlf].
  unfold holes in Hf. rewrite filter_cons, filter_nil in Hf.
  destruct (decide (node (d_mem v) (i_addrs ip) (position bn) = 0)) as [Hhole|Hfull].
  - cbn [length] in Hf. destruct Hf as [Hr Hi Hd Ho Hh].
    destruct (bmap_run sb ds (k + 1) n s v i ip bn) as
      (a&t'&v'&addrs'&E&Hr'&Ho'&Hg&Ha&Ha0&Hz&_); try done; [lia|].
    subst a. exists t', v', addrs'. split; [exact E|]. split.
    { split; [by apply ready_with_addrs|by apply moved_inode|done|done|].
      by rewrite (gr_held _ _ _ _ _ _ _ Hg). }
    split; [by eapply grown_touched|]. split; [|done].
    intros b Hb. by eapply grown_content.
  - apply (filed_le _ (k + 1) _ n) in Hf; [|cbn; lia..].
    destruct (bmap_present (k + 1) n s v i ip bn ltac:(lia) Hf Hbn Hfull) as (t'&E&R).
    assert (ip <| i_addrs := i_addrs ip |> = ip) as Hip by (by destruct ip).
    pose proof (fl_inode _ _ _ _ _ _ Hf) as Hi.
    exists t', v, (i_addrs ip). cbv zeta. rewrite Hip, (moved_self i ip) by done. split; [done|].
    split; [|split; [apply touched_refl|done]].
    by apply filed_at.
Qed.

Lemma holes_cons v addrs b l : holes v addrs (b :: l) = (holes v addrs [b] + holes v addrs l)%nat.
Proof. unfold holes. rewrite !filter_cons, filter_nil. by case_decide. Qed.

Lemma same_content_bytes v addrs v' addrs' off n :
  0 <= off -> off + n <= MAXFILE * BSIZE -> same_content v addrs v' addrs' ->
  file_bytes v' addrs' off n = file_bytes v addrs off n.
Proof.
  intros Hoff Hn Hs. unfold file_bytes. apply map_ext_in. intros o Ho.
  apply list_elem_of_In, elem_of_seqZ in Ho. unfold file_byte. rewrite Hs; [done|].
  split; [apply Z.div_pos|apply Z.div_lt_upper_bound]; unfold BSIZE in *; lia.
Qed.

Lemma same_content_trans v addrs v1 addrs1 v2 addrs2 :
  same_content v addrs v1 addrs1 -> same_content v1 addrs1 v2 addrs2 ->
  same_content v addrs v2 addrs2.
Proof. intros H1 H2 bn Hbn. by rewrite H2, H1. Qed.

Lemma content_node v addrs bn :
  node (d_mem v) addrs (position bn) <> 0 ->
  content v addrs bn = d_mem v (node (d_mem v) addrs (position bn)).
Proof. intros Hn. unfold content. by rewrite (proj2 (Z.eqb_neq _ 0) Hn). Qed.

Lemma content_length k n s v i ip addrs bn :
  filed k n s v i ip -> length (content v addrs bn) = Z.to_nat BSIZE.
Proof.
  intros Hf. unfold content. destruct (_ =? 0); [done|].
  apply (ab_len _ _ _ _ _ (rd_able _ _ _ _ _ _ (fl_ready _ _ _ _ _ _ Hf))).
Qed.

(** The state between two turns, with the blocks of [l] still to come. *)
Definition todo (k : Z) (n : nat) (l : list Z) s v i ip : Prop :=
  filed (k + 11 * Z.of_nat (holes v (i_addrs ip) l)) (n + 4 * holes v (i_addrs ip) l) s v i ip.

Lemma todo_filed k n l s v i ip : todo k n l s v i ip -> filed k n s v i ip.
Proof. intros Hf. eapply filed_le; [| |exact Hf]; lia. Qed.

Lemma todo_bmap k n s v i ip b l :
  0 <= k -> (forall bn, bn ∈ b :: l -> 0 <= bn < MAXFILE) ->
  todo (k + 1) n (b :: l) s v i ip ->
  exists t' v' addrs', let ip' := ip <| i_addrs := addrs' |> in
    bmap i b s = Ok (node (d_mem v') addrs' (position b)) (moved i addrs' t' s) /\
    todo (k + 1) n l (moved i addrs' t' s) v' i ip' /\
    touched sb ds v (i_addrs ip) v' addrs' /\ same_content v (i_addrs ip) v' addrs' /\
    node (d_mem v') addrs' (position b) <> 0.
Proof.
  intros Hk Hl Hf. unfold todo in Hf. rewrite holes_cons in Hf.
  destruct (bmap_filed (k + 11 * Z.of_nat (holes v (i_addrs ip) l))
    (n + 4 * holes v (i_addrs ip) l) s v i ip b) as (t'&v'&addrs'&E&Hf'&Ht&Hc&Hn); [lia| | |].
  { apply Hl. by left. }
  { eapply filed_le; [| |exact Hf]; lia. }
  exists t', v', addrs'. split; [done|]. split; [|done].
  assert (holes v' addrs' l <= holes v (i_addrs ip) l)%nat.
  { eapply (holes_touched sb ds); [by eapply fl_pos|exact Ht|]. intros bn Hbn. apply Hl. by right. }
  unfold todo. eapply filed_le; [| |exact Hf']; proj_upd; lia.
Qed.

Lemma readi_loop_run k m i fuel : forall off n s v ip,
  0 <= k -> 0 <= off -> 0 <= n <= Z.of_nat fuel -> off + n <= MAXFILE * BSIZE ->
  todo (k + 1) m (span off n) s v i ip ->
  exists t' v' addrs', let ip' := ip <| i_addrs := addrs' |> in
    readi_loop fuel i off n s = Ok (file_bytes v (i_addrs ip) off n) (moved i addrs' t' s) /\
    filed (k + 1) m (moved i addrs' t' s) v' i ip' /\
    touched sb ds v (i_addrs ip) v' addrs' /\ same_content v (i_addrs ip) v' addrs'.
Proof.
  induction fuel as [|fuel IH]; intros off n s v ip Hk Hoff Hn Hmax Hf;
    destruct (decide (n = 0)) as [->|Hn0]; try lia.
  1,2: exists (f_disk s), v, (i_addrs ip); cbv zeta; unfold todo, span, holes in Hf;
    cbn in Hf; rewrite (moved_self i ip), at_disk_self by apply Hf;
    replace (ip <| i_addrs := i_addrs ip |>) with ip by (by destruct ip);
    (split; [done|]); (split; [eapply filed_le; [| |exact Hf]; lia|]); by split; [apply touched_refl|].
  rewrite span_step in Hf by lia.
  assert (forall bn, bn ∈ span off n -> 0 <= bn < MAXFILE) as Hrange
    by (intros bn; by apply span_range).
  rewrite span_step in Hrange by lia.
  destruct (todo_bmap k m s v i ip _ _ Hk Hrange Hf) as (t1&v1&addrs1&E1&Hf1&Ht1&Hc1&Hn1).
  set (ip1 := ip <| i_addrs := addrs1 |>) in *. set (s1 := moved i addrs1 t1 s) in *.
  assert (0 <= off / BSIZE < MAXFILE) as Hb by (apply Hrange; left).
  destruct (position_valid _ Hb) as [Hv Hlf].
  destruct (ow_data _ _ _ _ (fl_owns _ _ _ _ _ _ Hf1) _ Hv Hn1) as [Hbr _].
  set (b := node (d_mem v1) addrs1 (position (off / BSIZE))) in *.
  pose proof (unlocked v1 b (fl_held _ _ _ _ _ _ Hf1)) as Hl.
  cbn [readi_loop]. rewrite (proj2 (Z.eqb_neq n 0) Hn0).
  rewrite (geti_run s i ip) by apply Hf. rewrite (bind_Ok _ _ _ _ _ E1). cbv beta zeta.
  rewrite (fl_dev _ _ _ _ _ _ Hf). fold (turn off n).
  match goal with |- context [bind (bread 1 b) (fun bp => bind (bdata bp) (@?kk bp))] =>
    destruct (read_data sb ds (k + 1) m s1 v1 b kk ltac:(lia)
      (fl_ready _ _ _ _ _ _ (todo_filed _ _ _ _ _ _ _ Hf1)) Hbr Hl)
      as (x&t2&E2&Hx&R2) end.
  cbv beta in E2. rewrite E2. clear E2.
  match goal with |- context [bind (brelse x) (fun _ => ?kk)] =>
    destruct (release_taken (at_disk s1 t2) v1 x b kk Hx Hl R2) as (t3&E3&R3) end.
  { eapply tx_clean'; [apply (fl_ready _ _ _ _ _ _ Hf1)|done]. }
  change (at_disk (at_disk s1 t2) t3) with (at_disk s1 t3) in *. rewrite E3. clear E3.
  destruct (turn_bounds off n ltac:(lia)) as [Htn _].
  destruct (IH (off + turn off n) (n - turn off n) (at_disk s1 t3) v1 ip1)
    as (t4&v4&addrs4&E4&Hf4&Ht4&Hc4); [lia..| |].
  { unfold todo in *. by apply filed_at. }
  assert (moved i addrs4 t4 (at_disk s1 t3) = moved i addrs4 t4 s) as Hm
    by (change (at_disk s1 t3) with (moved i addrs1 t3 s); apply moved_moved).
  rewrite Hm in *. exists t4, v4, addrs4.
  split; [|split; [exact Hf4|split]].
  - rewrite (bind_Ok _ _ _ _ _ E4). unfold ret. f_equal.
    rewrite (file_bytes_app v _ off (turn off n) n) by lia. f_equal.
    + unfold b. rewrite <- content_node, Hc1 by done. apply slice_file; try lia.
      eapply content_length. exact (todo_filed _ _ _ _ _ _ _ Hf).
    + apply same_content_bytes; [lia|lia|]. exact Hc1.
  - eapply touched_trans; [by eapply fl_pos|exact Ht1|exact Ht4].
  - by eapply same_content_trans.
Qed.

(** *** Writing *)

(** A data block of the file gets other contents. *)
Lemma put_leaf k n s v i ip bn x :
  filed k n s v i ip -> 0 <= bn < MAXFILE -> node (d_mem v) (i_addrs ip) (position bn) <> 0 ->
  let v' := d_put (node (d_mem v) (i_addrs ip) (position bn)) x v in
  owns sb ds v' (i_addrs ip) /\ touched sb ds v (i_addrs ip) v' (i_addrs ip) /\
  (forall bn', 0 <= bn' < MAXFILE -> content v' (i_addrs ip) bn' =
     if decide (bn' = bn) then x else content v (i_addrs ip) bn').
Proof.
  intros Hf Hbn Hn. set (b := node _ _ _) in *. intros v'. set (addrs := i_addrs ip) in *.
  destruct (position_valid bn Hbn) as [Hv Hlf]. pose proof (fl_owns _ _ _ _ _ _ Hf) as Ho.
  destruct (ow_data _ _ _ _ Ho _ Hv Hn) as [Hb _]. fold addrs b in Ho, Hb.
  pose proof (ab_inv _ _ _ _ _ (rd_able _ _ _ _ _ _ (fl_ready _ _ _ _ _ _ Hf))) as Hinv.
  destruct (g_size _ _ _ (fi_geo _ _ _ Hinv)) as [Hds Hsz].
  assert (forall q, valid q -> node (d_mem v') addrs q = node (d_mem v) addrs q) as Hnode.
  { apply node_frame. intros q Hq Hnl Hq0. unfold v'. rewrite d_put_mem, decide_False; [done|].
    intros E. apply Hnl. by rewrite (ow_inj _ _ _ _ Ho q (position bn)). }
  assert (forall c, 0 <= c < Log.sb_size sb -> used sb v' c = used sb v c) as Hu
    by (intros; by apply (used_put_data sb ds)).
  split; [|split].
  - split; [apply Ho| |].
    + intros q Hq. rewrite Hnode by done. intros Hq0.
      destruct (ow_data _ _ _ _ Ho q Hq Hq0). rewrite Hu by lia. done.
    + intros q q' Hq Hq'. rewrite !Hnode by done. by apply (ow_inj _ _ _ _ Ho).
  - split.
    + intros q Hq. left. by apply Hnode.
    + intros c Hc Huc. by rewrite Hu.
    + intros c Hc _ Hno. unfold v'. rewrite d_put_mem, decide_False; [done|].
      intros ->. by apply (Hno (position bn)).
    + intros c Hc _. unfold v'. rewrite d_put_mem, decide_False by lia. done.
  - intros bn' Hbn'. destruct (position_valid bn' Hbn') as [Hv' _]. unfold content.
    rewrite Hnode by done. case_decide as Hsame.
    + subst bn'. fold b. rewrite (proj2 (Z.eqb_neq b 0) Hn). unfold v'. by rewrite d_put_mem, decide_True.
    + destruct (Z.eqb_spec (node (d_mem v) addrs (position bn')) 0) as [|Hn']; [done|].
      unfold v'. rewrite d_put_mem, decide_False; [done|]. intros E. apply Hsame.
      apply position_inj; try done. by apply (ow_inj _ _ _ _ Ho).
Qed.

(** The bytes after [src] has been written at [off]. *)
Definition wrote v addrs v' addrs' (off : Z) (src : list Z) : Prop :=
  forall o, 0 <= o < MAXFILE * BSIZE -> file_byte v' addrs' o =
    if decide (off <= o < off + Z.of_nat (length src)) then nth (Z.to_nat (o - off)) src 0
    else file_byte v addrs o.

Lemma wrote_nil v addrs v' addrs' off :
  same_content v addrs v' addrs' -> wrote v addrs v' addrs' off [].
Proof.
  intros Hs o Ho. rewrite decide_False by (cbn; lia). unfold file_byte. rewrite Hs; [done|].
  split; [apply Z.div_pos|apply Z.div_lt_upper_bound]; unfold BSIZE in *; lia.
Qed.

Lemma wrote_app v addrs v1 addrs1 v2 addrs2 off x y :
  wrote v addrs v1 addrs1 off x -> wrote v1 addrs1 v2 addrs2 (off + Z.of_nat (length x)) y ->
  wrote v addrs v2 addrs2 off (x ++ y).
Proof.
  intros H1 H2 o Ho. rewrite H2, H1, length_app by done. repeat case_decide; try lia; try done.
  - rewrite app_nth2 by lia. f_equal. lia.
  - rewrite app_nth1 by lia. done.
Qed.

Lemma div_range o : 0 <= o < MAXFILE * BSIZE -> 0 <= o / BSIZE < MAXFILE.
Proof. split; [apply Z.div_pos|apply Z.div_lt_upper_bound]; unfold BSIZE in *; lia. Qed.

(** One turn of the loop of [writei]. *)
Lemma wrote_turn v addrs v1 addrs1 v2 off src :
  0 <= off -> src <> [] -> off + Z.of_nat (length src) <= MAXFILE * BSIZE ->
  length (content v addrs (off / BSIZE)) = Z.to_nat BSIZE ->
  same_content v addrs v1 addrs1 ->
  let x := take (Z.to_nat (turn off (Z.of_nat (length src)))) src in
  (forall bn, 0 <= bn < MAXFILE -> content v2 addrs1 bn =
     if decide (bn = off / BSIZE)
     then splice (Z.to_nat (off mod BSIZE)) x (content v1 addrs1 (off / BSIZE))
     else content v1 addrs1 bn) ->
  wrote v addrs v2 addrs1 off x.
Proof.
  intros Hoff Hne Hmax Hlen Hs x Hc o Ho. pose proof (div_range o Ho) as Hd.
  assert (0 < Z.of_nat (length src)) as Hpos by (destruct src; [done|cbn; lia]).
  destruct (turn_bounds off (Z.of_nat (length src)) Hpos) as [Ht1 Ht2].
  set (m := turn off (Z.of_nat (length src))) in *.
  assert (Z.of_nat (length x) = m) as Hx by (unfold x; rewrite length_take; lia).
  pose proof (Z.mod_pos_bound off BSIZE ltac:(done)) as Hm1.
  pose proof (Z.mod_pos_bound o BSIZE ltac:(done)) as Hm2.
  pose proof (Z.div_mod off BSIZE ltac:(done)) as Ed1. pose proof (Z.div_mod o BSIZE ltac:(done)) as Ed2.
  assert (0 <= off / BSIZE < MAXFILE) as Hb by (apply div_range; lia).
  unfold file_byte. rewrite Hc by done. case_decide as Hblk.
  - rewrite (Hs _ Hb), byte_at_splice by (rewrite Hlen; lia). rewrite Hblk in *.
    do 2 case_decide; try lia; try done. f_equal. lia.
  - rewrite decide_False; [by rewrite Hs|]. intros Hin. apply Hblk. unfold BSIZE in *. nia.
Qed.

(** A block of the file is read, changed and logged. *)
Lemma put_block k n s v i ip bn g {B} (kk : M F B) :
  0 <= k -> filed (k + 1) n s v i ip -> 0 <= bn < MAXFILE ->
  let b := node (d_mem v) (i_addrs ip) (position bn) in
  let x := g (content v (i_addrs ip) bn) in
  b <> 0 -> length x = Z.to_nat BSIZE ->
  exists t', (bp <- bread 1 b ;; d <- bdata bp ;; bset bp (g d) ;; blog bp ;; brelse bp ;; kk) s =
      kk (at_disk s t') /\
    filed k n (at_disk s t') (d_put b x v) i ip.
Proof.
  intros Hk Hf Hbn b x Hb0 Hx. pose proof (unlocked v b (fl_held _ _ _ _ _ _ Hf)) as Hl.
  pose proof (rd_able _ _ _ _ _ _ (fl_ready _ _ _ _ _ _ Hf)) as Hab.
  destruct (position_valid bn Hbn) as [Hv _].
  destruct (ow_data _ _ _ _ (fl_owns _ _ _ _ _ _ Hf) _ Hv Hb0) as [Hbr _]. fold b in Hbr.
  match goal with |- context [bind (bread 1 b) (fun bp => bind (bdata bp) (@?kk bp))] =>
    destruct (read_data sb ds (k + 1) n s v b kk ltac:(lia) (fl_ready _ _ _ _ _ _ Hf) Hbr Hl)
      as (j&t1&E1&Hj&R1) end.
  cbv beta in E1. rewrite E1. clear E1. unfold b. rewrite <- content_node by done. fold b x.
  destruct (put_taken (at_disk s t1) v j b x kk Hj R1) as (t2&E2&R2); [|done| |].
  { by apply (g_data _ _ _ (fi_geo _ _ _ (ab_inv _ _ _ _ _ Hab))). }
  { destruct (ab_spare _ _ _ _ _ Hab). lia. }
  rewrite E2. exists t2. split; [done|].
  destruct (put_leaf _ _ _ _ _ _ bn x Hf Hbn Hb0) as [Ho _].
  destruct Hf as [[Hsb _ _] Hi Hd _ Hh]. split; try done.
  split; [done| |done]. by apply able_put.
Qed.

(** One turn of the loop of [writei]. *)
Lemma write_turn k m s v i ip off src l {B} (kk : M F B) :
  let x := take (Z.to_nat (turn off (Z.of_nat (length src)))) src in
  0 <= k -> 0 <= off -> src <> [] -> off + Z.of_nat (length src) <= MAXFILE * BSIZE ->
  (forall bn, bn ∈ off / BSIZE :: l -> 0 <= bn < MAXFILE) ->
  todo (k + 1) m (off / BSIZE :: l) s v i ip ->
  exists t' v' addrs', let ip' := ip <| i_addrs := addrs' |> in
    (b <- bmap i (off / BSIZE) ;; bp <- bread 1 b ;; d <- bdata bp ;;
     bset bp (splice (Z.to_nat (off mod BSIZE)) x d) ;; blog bp ;; brelse bp ;; kk) s =
      kk (moved i addrs' t' s) /\
    todo k m l (moved i addrs' t' s) v' i ip' /\
    touched sb ds v (i_addrs ip) v' addrs' /\ wrote v (i_addrs ip) v' addrs' off x /\
    node (d_mem v') addrs' (position (off / BSIZE)) <> 0.
Proof.
  intros x Hk Hoff Hne Hmax Hl Hf. assert (0 <= off / BSIZE < MAXFILE) as Hb by (apply Hl; left).
  destruct (todo_bmap k m s v i ip _ _ Hk Hl Hf) as (t1&v1&addrs1&E1&Hf1&Ht1&Hc1&Hn1).
  set (ip1 := ip <| i_addrs := addrs1 |>) in *. set (s1 := moved i addrs1 t1 s) in *.
  pose proof (fl_pos _ _ _ _ _ _ Hf) as Hds.
  destruct (turn_bounds off (Z.of_nat (length src))) as [Htn1 Htn2]; [by destruct src|].
  pose proof (Z.mod_pos_bound off BSIZE ltac:(done)) as Hmod.
  pose proof (content_length _ _ _ _ _ _ (i_addrs ip) (off / BSIZE) Hf) as Hclen.
  set (g := splice (Z.to_nat (off mod BSIZE)) x).
  assert (length (g (content v1 addrs1 (off / BSIZE))) = Z.to_nat BSIZE) as Hy.
  { unfold g. rewrite (Hc1 _ Hb), length_splice; [done|]. unfold x. rewrite length_take, Hclen. lia. }
  destruct (put_leaf _ _ _ _ _ _ _ (g (content v1 addrs1 (off / BSIZE))) Hf1 Hb Hn1) as (_&Ht2&Hc2).
  destruct (put_block (k + 11 * Z.of_nat (holes v1 addrs1 l)) (m + 4 * holes v1 addrs1 l)
    s1 v1 i ip1 (off / BSIZE) g kk) as (t2&E2&Hf2); try done; [lia| |].
  { eapply filed_le; [| |exact Hf1]; unfold ip1; proj_upd; lia. }
  unfold ip1 in E2, Hf2, Ht2, Hc2. proj_upd in E2. proj_upd in Hf2. proj_upd in Ht2. proj_upd in Hc2.
  assert (holes (d_put (node (d_mem v1) addrs1 (position (off / BSIZE)))
    (g (content v1 addrs1 (off / BSIZE))) v1) addrs1 l <= holes v1 addrs1 l)%nat.
  { eapply (holes_touched sb ds); [done|exact Ht2|]. intros bn Hbn. apply Hl. by right. }
  rewrite (bind_Ok _ _ _ _ _ E1). cbv beta. eexists t2, _, addrs1. cbv zeta.
  split; [exact E2|]. split; [|split; [|split]].
  - change (at_disk s1 t2) with (moved i addrs1 t2 s) in Hf2. unfold todo.
    eapply filed_le; [| |exact Hf2]; proj_upd; lia.
  - eapply touched_trans; [done|exact Ht1|exact Ht2].
  - by eapply wrote_turn.
  - eapply touched_present; [exact Ht2|apply position_valid, Hb|done].
Qed.

Lemma writei_loop_run k m i fuel : forall src off s v ip,
  0 <= k -> 0 <= off -> (length src <= fuel)%nat ->
  off + Z.of_nat (length src) <= MAXFILE * BSIZE ->
  let l := span off (Z.of_nat (length src)) in
  todo (k + Z.of_nat (length l)) m l s v i ip ->
  exists t' v' addrs', let ip' := ip <| i_addrs := addrs' |> in
    writei_loop fuel i src off s = Ok (off + Z.of_nat (length src)) (moved i addrs' t' s) /\
    filed k m (moved i addrs' t' s) v' i ip' /\
    touched sb ds v (i_addrs ip) v' addrs' /\ wrote v (i_addrs ip) v' addrs' off src /\
    forall bn, bn ∈ l -> node (d_mem v') addrs' (position bn) <> 0.
Proof.
  induction fuel as [|fuel IH]; intros src off s v ip Hk Hoff Hfuel Hmax l Hf;
    destruct src as [|x0 src']; try (cbn in Hfuel; lia).
  1,2: exists (f_disk s), v, (i_addrs ip); cbv zeta; unfold todo, l, span, holes in Hf;
    cbn in Hf; rewrite (moved_self i ip), at_disk_self by apply Hf;
    replace (ip <| i_addrs := i_addrs ip |>) with ip by (by destruct ip);
    (split; [unfold writei_loop, ret; f_equal; cbn; lia|]);
    (split; [eapply filed_le; [| |exact Hf]; lia|]); split; [apply touched_refl|];
    (split; [by apply wrote_nil|by intros bn ?%elem_of_nil]).
  cbn [writei_loop]. set (src := x0 :: src') in *. assert (src <> []) as Hne by done.
  clearbody src. clear x0 src'. set (n := Z.of_nat (length src)) in *.
  assert (0 < n) as Hn by (unfold n; destruct src; [done|cbn; lia]).
  assert (forall bn, bn ∈ l -> 0 <= bn < MAXFILE) as Hrange by (intros bn; by apply span_range).
  unfold l in *. rewrite span_step in Hf, Hrange by done.
  set (l' := span (off + turn off n) (n - turn off n)) in *.
  rewrite (geti_run s i ip) by apply Hf. rewrite (fl_dev _ _ _ _ _ _ Hf). cbv zeta. fold (turn off n).
  destruct (write_turn (k + Z.of_nat (length l')) m s v i ip off src l'
    (writei_loop fuel i (drop (Z.to_nat (turn off n)) src) (off + turn off n)))
    as (t1&v1&addrs1&E1&Hf1&Ht1&Hw1&Hn1); try done; [lia| |].
  { cbn [length] in Hf. by replace (k + Z.of_nat (S (length l'))) with (k + Z.of_nat (length l') + 1)
      in Hf by lia. }
  fold n in E1, Hw1. rewrite E1. clear E1. destruct (turn_bounds off n Hn) as [Htn _].
  assert (Z.of_nat (length (drop (Z.to_nat (turn off n)) src)) = n - turn off n) as Hdrop
    by (rewrite length_drop; lia).
  destruct (IH (drop (Z.to_nat (turn off n)) src) (off + turn off n) (moved i addrs1 t1 s) v1
    (ip <| i_addrs := addrs1 |>)) as (t4&v4&addrs4&E4&Hf4&Ht4&Hw4&Hn4); [lia|lia|lia|lia| |].
  { rewrite Hdrop. exact Hf1. }
  rewrite Hdrop, moved_moved in *. exists t4, v4, addrs4. rewrite E4.
  split; [f_equal; lia|]. split; [exact Hf4|]. split; [|split].
  - eapply touched_trans; [by eapply fl_pos|exact Ht1|exact Ht4].
  - rewrite <- (take_drop (Z.to_nat (turn off n)) src).
    eapply wrote_app; [exact Hw1|]. rewrite length_take. rewrite Nat.min_l by lia.
    by rewrite Z2Nat.id by lia.
  - rewrite span_step by done. intros bn [->|Hbn]%elem_of_cons; [|by apply Hn4].
    eapply touched_present; [exact Ht4| |done].
    apply position_valid, Hrange. by left.
Qed.

(** *** Metadata *)

Lemma IBLOCK_facts v inum :
  fs_inv sb ds v -> 0 <= inum < Log.sb_ninodes sb ->
  d_usable v (IBLOCK inum sb) /\ 1 < IBLOCK inum sb < ds /\
  forall b, 0 <= b < Log.sb_size sb -> IBLOCK inum sb <> BBLOCK b sb.
Proof.
  intros Hinv Hn. pose proof (fi_geo _ _ _ Hinv) as Hg.
  destruct (g_inode _ _ _ Hg inum Hn) as [Hu Hr]. destruct (g_size _ _ _ Hg) as [Hds Hsz].
  destruct (g_bmap _ _ _ Hg 0 ltac:(lia)) as [_ Hb0].
  change (0 / BPB) with 0 in Hb0.
  assert (IBLOCK inum sb = inum / IPB + Log.sb_inodestart sb) as -> by (apply u32_small; lia).
  split; [done|]. split; [lia|]. intros b Hb. rewrite (BBLOCK_eq sb ds _ b Hg Hb).
  pose proof (Z.div_pos b BPB ltac:(lia) ltac:(done)). lia.
Qed.

(** A change of a metadata block outside the bitmap. *)
Lemma meta_put k n s v i ip c x t' :
  filed (k + 1) n s v i ip -> 1 < c < ds -> (forall b, 0 <= b < Log.sb_size sb -> c <> BBLOCK b sb) ->
  length x = Z.to_nat BSIZE -> frepr (at_disk s t') (d_put c x v) ->
  filed k n (at_disk s t') (d_put c x v) i ip /\
  (forall q, valid q -> node (d_mem (d_put c x v)) (i_addrs ip) q = node (d_mem v) (i_addrs ip) q) /\
  (forall bn, 0 <= bn < MAXFILE -> content (d_put c x v) (i_addrs ip) bn = content v (i_addrs ip) bn) /\
  (forall b, 0 <= b < Log.sb_size sb -> used sb (d_put c x v) b = used sb v b).
Proof.
  intros [[Hsb [Hinv Hcalm Hrange Hlen Hs (l&Hnd&Hl&Hfr)] _] Hi Hd Ho Hh] Hc Hbm Hx Hr.
  destruct (g_size _ _ _ (fi_geo _ _ _ Hinv)) as [Hds Hsz].
  assert (forall b, 0 <= b < Log.sb_size sb -> used sb (d_put c x v) b = used sb v b) as Hu.
  { intros b Hb. unfold used. rewrite d_put_mem, decide_False; [done|]. apply not_eq_sym. by apply Hbm. }
  assert (forall q, valid q -> node (d_mem (d_put c x v)) (i_addrs ip) q = node (d_mem v) (i_addrs ip) q)
    as Hnode.
  { apply node_frame. intros q Hq _ Hn. destruct (ow_data _ _ _ _ Ho q Hq Hn).
    rewrite d_put_mem, decide_False by lia. done. }
  split; [|split; [done|split; [|done]]].
  - split; try done.
    + split; [done| |done]. split; try done.
      * split; [apply Hinv|rewrite d_put_mem, decide_False by lia; apply Hinv|].
        intros b Hb. rewrite Hu by lia. by apply Hinv.
      * destruct Hcalm as [H1 H2 H3]. split; [exact H1| |exact H3].
        intros b Hb. rewrite Hu by (by apply Hrange). by apply H2.
      * intros b. rewrite d_put_mem. by case_decide.
      * by apply spare_put.
      * exists l. split; [done|]. split; [done|]. intros b Hb. destruct (Hfr b Hb). by rewrite Hu.
    + split; [apply Ho| |].
      * intros q Hq. rewrite Hnode by done. intros Hn. destruct (ow_data _ _ _ _ Ho q Hq Hn).
        rewrite Hu by lia. done.
      * intros q q' Hq Hq'. rewrite !Hnode by done. by apply (ow_inj _ _ _ _ Ho).
  - intros bn Hbn. destruct (position_valid bn Hbn) as [Hv _]. unfold content. rewrite Hnode by done.
    destruct (Z.eqb_spec (node (d_mem v) (i_addrs ip) (position bn)) 0) as [|Hn]; [done|].
    destruct (ow_data _ _ _ _ Ho _ Hv Hn). rewrite d_put_mem, decide_False by lia. done.
Qed.

Definition dinode_of ip : dinode :=
  mkDinode (i_type ip) (i_major ip) (i_minor ip) (i_nlink ip) (i_size ip) (i_addrs ip).
(** The view after [iupdate]. *)
Definition update_view ip v : dview :=
  let c := IBLOCK (i_inum ip) sb in
  d_put c (put_dinode (dinode_off (i_inum ip)) (dinode_of ip) (d_mem v c)) v.

Lemma iupdate_run k n s v i ip :
  0 <= k -> filed (k + 1) n s v i ip -> 0 <= i_inum ip < Log.sb_ninodes sb ->
  exists t', iupdate i s = Ok tt (at_disk s t') /\
    filed k n (at_disk s t') (update_view ip v) i ip /\
    (forall q, valid q ->
      node (d_mem (update_view ip v)) (i_addrs ip) q = node (d_mem v) (i_addrs ip) q) /\
    (forall bn, 0 <= bn < MAXFILE ->
      content (update_view ip v) (i_addrs ip) bn = content v (i_addrs ip) bn) /\
    (forall b, 0 <= b < Log.sb_size sb -> used sb (update_view ip v) b = used sb v b).
Proof.
  intros Hk Hf Hin. pose proof (rd_able _ _ _ _ _ _ (fl_ready _ _ _ _ _ _ Hf)) as Hab.
  destruct (IBLOCK_facts v _ (ab_inv _ _ _ _ _ Hab) Hin) as (Hus&Hc&Hbm).
  unfold iupdate. rewrite (geti_run s i ip) by apply Hf. mstep.
  rewrite (fl_dev _ _ _ _ _ _ Hf), (rd_sb _ _ _ _ _ _ (fl_ready _ _ _ _ _ _ Hf)).
  set (c := IBLOCK (i_inum ip) sb) in *.
  pose proof (unlocked v c (fl_held _ _ _ _ _ _ Hf)) as Hl.
  match goal with |- context [bind (bread 1 c) (fun bp => bind (bdata bp) (@?kk bp))] =>
    destruct (read_block_run s v c kk (rd_repr _ _ _ _ _ _ (fl_ready _ _ _ _ _ _ Hf)) Hus Hl)
      as (x&t1&E1&Hx&R1) end.
  { eapply spare_le; [|apply Hab]. lia. }
  cbv beta in E1. rewrite E1. clear E1. fold (dinode_of ip).
  destruct (put_end (at_disk s t1) v x c
    (put_dinode (dinode_off (i_inum ip)) (dinode_of ip) (d_mem v c)) Hx R1 Hus) as (t2&E2&R2).
  { rewrite length_put_dinode. apply Hab. }
  { destruct (ab_spare _ _ _ _ _ Hab). lia. }
  exists t2. split; [done|]. apply (meta_put k n s v i ip c); try done.
  rewrite length_put_dinode. apply Hab.
Qed.

(** *** readi and writei *)

Lemma max_bytes : MAXFILE * BSIZE < 2 ^ 31.
Proof. done. Qed.

Lemma readi_run (sw : devsw) k m s v i ip off n :
  let n' := Z.min n (i_size ip - off) in
  0 <= k -> i_type ip <> T_DEV -> 0 <= off <= i_size ip -> i_size ip <= MAXFILE * BSIZE ->
  0 <= n -> off + n < 2 ^ 32 -> todo (k + 1) m (span off n') s v i ip ->
  exists t' v' addrs', let ip' := ip <| i_addrs := addrs' |> in
    readi sw i off n s = Ok (n', file_bytes v (i_addrs ip) off n') (moved i addrs' t' s) /\
    filed (k + 1) m (moved i addrs' t' s) v' i ip' /\
    touched sb ds v (i_addrs ip) v' addrs' /\ same_content v (i_addrs ip) v' addrs'.
Proof.
  intros n' Hk Hty Hoff Hsz Hn Hov Hf. pose proof max_bytes as Hmb. unfold readi.
  rewrite (geti_run s i ip) by apply Hf. rewrite (proj2 (Z.eqb_neq _ _) Hty).
  rewrite u32_small by lia.
  rewrite (proj2 (Z.ltb_ge (i_size ip) off)), (proj2 (Z.ltb_ge (off + n) off)) by lia. cbn [orb].
  replace (if i_size ip <? off + n then i_size ip - off else n) with n'
    by (unfold n'; destruct (Z.ltb_spec (i_size ip) (off + n)); lia).
  destruct (readi_loop_run k m i (Z.to_nat n') off n' s v ip) as (t'&v'&addrs'&E&Hr);
    try done; [lia..|].
  exists t', v', addrs'. cbv zeta. rewrite (bind_Ok _ _ _ _ _ E), i32_small by lia. done.
Qed.

(** What a write leaves alone: blocks in use of other files, and the metadata
    but for the bitmap and the block of the inode. *)
Record file_frame (inum : Z) v (addrs : list Z) v' : Prop := mkFrame {
  ff_used c : 0 <= c < Log.sb_size sb -> used sb v c = true -> used sb v' c = true;
  ff_data c : ds <= c < Log.sb_size sb -> used sb v c = true ->
    (forall q, valid q -> node (d_mem v) addrs q <> c) -> d_mem v' c = d_mem v c;
  ff_meta c : c < ds -> (forall b, 0 <= b < Log.sb_size sb -> c <> BBLOCK b sb) ->
    c <> IBLOCK inum sb -> d_mem v' c = d_mem v c
}.

Lemma size_id ip : ip <| i_size := i_size ip |> = ip.
Proof. by destruct ip. Qed.

Lemma writei_run (sw : devsw) k m s v i ip off src :
  let n := Z.of_nat (length src) in let l := span off n in
  0 <= k -> i_type ip <> T_DEV -> 0 <= off <= i_size ip -> i_size ip <= MAXFILE * BSIZE ->
  off + n <= MAXFILE * BSIZE -> 0 <= i_inum ip < Log.sb_ninodes sb ->
  todo (k + 1 + Z.of_nat (length l)) m l s v i ip ->
  exists s' v' addrs',
    let ip' := ip <| i_addrs := addrs' |> <| i_size := Z.max (i_size ip) (off + n) |> in
    writei sw i src off s = Ok n s' /\ filed k m s' v' i ip' /\
    (forall j, j <> i -> f_inodes s' !! j = f_inodes s !! j) /\
    wrote v (i_addrs ip) v' addrs' off src /\
    (forall bn, bn ∈ l -> node (d_mem v') addrs' (position bn) <> 0) /\
    file_frame (i_inum ip) v (i_addrs ip) v' /\
    (i_size ip < off + n -> d_mem v' (IBLOCK (i_inum ip) sb) =
      put_dinode (dinode_off (i_inum ip)) (dinode_of ip') (d_mem v (IBLOCK (i_inum ip) sb))).
Proof.
  intros n l Hk Hty Hoff Hsz Hmax Hin Hf. pose proof max_bytes as Hmb. unfold writei.
  rewrite (geti_run s i ip) by apply Hf. rewrite (proj2 (Z.eqb_neq _ _) Hty). fold n.
  rewrite u32_small by lia.
  rewrite (proj2 (Z.ltb_ge (i_size ip) off)), (proj2 (Z.ltb_ge (off + n) off)) by lia. cbn [orb].
  rewrite (proj2 (Z.ltb_ge _ (off + n))) by lia.
  destruct (writei_loop_run (k + 1) m i (length src) src off s v ip)
    as (t1&v1&addrs1&E1&Hf1&Ht1&Hw1&Hn1); try done; [lia..|].
  fold n in E1. rewrite (bind_Ok _ _ _ _ _ E1). cbv beta.
  set (s1 := moved i addrs1 t1 s) in *. set (ip1 := ip <| i_addrs := addrs1 |>) in *.
  rewrite (geti_run s1 i ip1) by apply Hf1. change (i_size ip1) with (i_size ip).
  rewrite i32_small by lia.
  destruct (Z.ltb_spec (i_size ip) (off + n)) as [Hgrow|Hsame].
  - rewrite (proj2 (Z.ltb_lt 0 n)) by lia. cbn [andb when].
    set (ip2 := ip1 <| i_size := off + n |>).
    rewrite bind_bind, (seti_run s1 i ip1) by apply Hf1.
    set (s2 := s1 <| f_inodes ::= _ |>).
    assert (filed (k + 1) m s2 v1 i ip2) as Hf2.
    { destruct Hf1 as [[? ? ?] Hi1 ? ? ?]. split; try done. unfold s2. proj_upd.
      by rewrite list_lookup_alter_eq, Hi1. }
    destruct (iupdate_run k m s2 v1 i ip2 Hk Hf2 Hin) as (t3&E3&Hf3&Hnode&Hcont&Hu).
    rewrite (bind_Ok _ _ _ _ _ E3). rewrite Z.max_r by lia.
    exists (at_disk s2 t3), (update_view ip2 v1), addrs1. cbv zeta. fold ip1 ip2.
    destruct (IBLOCK_facts v1 (i_inum ip)) as (_&Hc&Hbm); [apply Hf2|done|].
    split; [done|]. split; [exact Hf3|]. split.
    { intros j Hj. unfold s2, s1, moved, with_addrs, at_disk. proj_upd. by rewrite !list_lookup_alter_ne. }
    split. { intros o Ho. rewrite <- (Hw1 o Ho). unfold file_byte. f_equal.
      apply (Hcont (o / BSIZE)). by apply div_range. }
    split. { intros bn Hbn. pose proof (Hnode (position bn)) as E.
      change (i_addrs ip2) with addrs1 in E. rewrite E; [by apply Hn1|].
      apply position_valid, (span_range off n); [lia|lia|done]. }
    assert (forall c, c <> IBLOCK (i_inum ip) sb -> d_mem (update_view ip2 v1) c = d_mem v1 c) as Hne.
    { intros c Hcne. unfold update_view. rewrite d_put_mem. apply decide_False. exact Hcne. }
    split. { split.
      - intros c Hcr Huc. transitivity (used sb v1 c); [by apply Hu|]. by apply (tc_used _ _ _ _ _ _ Ht1).
      - intros c Hcr Huc Hno. rewrite Hne by lia. by apply (tc_frame _ _ _ _ _ _ Ht1).
      - intros c Hcr Hb Hcne. rewrite Hne by done. by apply (tc_meta _ _ _ _ _ _ Ht1). }
    intros _. unfold update_view. rewrite d_put_mem. rewrite decide_True by done.
    change (i_inum ip2) with (i_inum ip). by rewrite (tc_meta _ _ _ _ _ _ Ht1) by (done || lia).
  - exists s1, v1, addrs1. rewrite andb_false_r. mstep. rewrite Z.max_l by lia.
    change (ip <| i_addrs := addrs1 |> <| i_size := i_size ip |>)
      with (ip1 <| i_size := i_size ip1 |>). rewrite size_id.
    split; [done|]. split; [eapply filed_le; [| |exact Hf1]; lia|]. split.
    { intros j Hj. unfold s1, moved, with_addrs, at_disk. proj_upd. by rewrite list_lookup_alter_ne. }
    split; [done|]. split; [done|]. split; [|lia].
    split; [apply Ht1|apply Ht1|]. intros c Hc Hb _. by apply (tc_meta _ _ _ _ _ _ Ht1).
Qed.

Lemma wrote_bytes v addrs v' addrs' off src :
  0 <= off -> off + Z.of_nat (length src) <= MAXFILE * BSIZE ->
  wrote v addrs v' addrs' off src -> file_bytes v' addrs' off (Z.of_nat (length src)) = src.
Proof.
  intros Hoff Hmax Hw. apply list_eq. intros j. unfold file_bytes. rewrite list_lookup_fmap.
  destruct (decide (j < length src)%nat) as [Hj|Hj].
  - rewrite lookup_seqZ_lt by lia. cbn. rewrite Hw by lia. rewrite decide_True by lia.
    replace (off + Z.of_nat j - off) with (Z.of_nat j) by lia. rewrite Nat2Z.id.
    destruct (lookup_lt_is_Some_2 src j Hj) as [x Hx]. rewrite Hx. f_equal. by apply nth_lookup_Some.
  - rewrite lookup_seqZ_ge, lookup_ge_None_2 by lia. done.
Qed.

(** Another file, none of whose blocks is one of the first. *)
Definition apart v (addrs addrs2 : list Z) : Prop :=
  forall q q', valid q -> valid q' -> node (d_mem v) addrs2 q <> 0 ->
    node (d_mem v) addrs q' <> node (d_mem v) addrs2 q.

Lemma other_file inum v addrs v' addrs2 :
  0 < ds -> file_frame inum v addrs v' -> owns sb ds v addrs2 -> apart v addrs addrs2 ->
  owns sb ds v' addrs2 /\ same_content v addrs2 v' addrs2.
Proof.
  intros Hds Hff Ho Ha.
  assert (forall q, valid q -> node (d_mem v) addrs2 q <> 0 ->
    d_mem v' (node (d_mem v) addrs2 q) = d_mem v (node (d_mem v) addrs2 q)) as Hmem.
  { intros q Hq Hn. destruct (ow_data _ _ _ _ Ho q Hq Hn) as [Hr Hu].
    apply (ff_data _ _ _ _ Hff); try done. intros q' Hq'. by apply Ha. }
  assert (forall q, valid q -> node (d_mem v') addrs2 q = node (d_mem v) addrs2 q) as Hnode
    by (apply node_frame; intros; by apply Hmem).
  split.
  - split; [apply Ho| |].
    + intros q Hq. rewrite Hnode by done. intros Hn. destruct (ow_data _ _ _ _ Ho q Hq Hn) as [Hr Hu].
      split; [done|]. apply (ff_used _ _ _ _ Hff); [lia|done].
    + intros q q' Hq Hq'. rewrite !Hnode by done. by apply (ow_inj _ _ _ _ Ho).
  - intros bn Hbn. destruct (position_valid bn Hbn) as [Hv _]. unfold content.
    rewrite Hnode by done. destruct (Z.eqb_spec (node (d_mem v) addrs2 (position bn)) 0); [done|].
    by apply Hmem.
Qed.

Lemma holes_none v addrs l :
  (forall bn, bn ∈ l -> node (d_mem v) addrs (position bn) <> 0) -> holes v addrs l = 0%nat.
Proof.
  intros Hl. induction l as [|b l IH]; [done|]. rewrite holes_cons, IH.
  - unfold holes. rewrite filter_cons, filter_nil. rewrite decide_False; [done|]. apply Hl. by left.
  - intros bn Hbn. apply Hl. by right.
Qed.

(** C34: [readi] returns the bytes of the file from [off] on, [n] of them or
    what is left of the file, and changes no byte; an offset beyond the end
    or one that wraps around gives -1.  ([todo]: the inode is consistent and
    there is room for the blocks of the holes that reading fills.) *)
Theorem readi_correct (sw : devsw) k m s v i ip off n :
  let n' := Z.min n (i_size ip - off) in
  0 <= k -> i_type ip <> T_DEV -> 0 <= off < 2 ^ 32 -> 0 <= n < 2 ^ 32 -> i_size ip <= MAXFILE * BSIZE ->
  todo (k + 1) m (span off n') s v i ip ->
  if (off <=? i_size ip) && (off + n <? 2 ^ 32) then
    exists s' v' addrs',
      readi sw i off n s = Ok (n', file_bytes v (i_addrs ip) off n') s' /\
      filed (k + 1) m s' v' i (ip <| i_addrs := addrs' |>) /\
      touched sb ds v (i_addrs ip) v' addrs' /\ same_content v (i_addrs ip) v' addrs'
  else readi sw i off n s = Ok (-1, []) s.
Proof.
  intros n' Hk Hty Hoff Hn Hsz Hf. destruct (_ && _) eqn:E.
  - bool_hyps. destruct (readi_run sw k m s v i ip off n) as (t'&v'&addrs'&Hr); try done; [lia..|].
    by exists (moved i addrs' t' s), v', addrs'.
  - unfold readi. rewrite (geti_run s i ip) by apply Hf. rewrite (proj2 (Z.eqb_neq _ _) Hty).
    destruct (Z.ltb_spec (i_size ip) off) as [|Hle]; [done|].
    rewrite (proj2 (Z.leb_le off (i_size ip)) Hle) in E. cbn [andb] in E. apply Z.ltb_ge in E.
    assert (u32 (off + n) = off + n - 2 ^ 32) as ->.
    { unfold u32. symmetry. apply (Z.mod_unique _ _ 1); lia. }
    rewrite (proj2 (Z.ltb_lt _ off)) by lia. done.
Qed.

(** C14: [writei] of [src] at [off] makes the bytes there [src] and leaves
    every other byte of the file, the blocks of other files, the other entries
    of the inode cache and the rest of the metadata alone; the size becomes
    the end of the segment when it grows, and then the inode on disk is that in
    memory.  A segment that starts beyond the end, wraps around or ends beyond
    the greatest size gives -1 and changes nothing. *)
Theorem writei_correct (sw : devsw) k m s v i ip off src :
  let n := Z.of_nat (length src) in let l := span off n in
  0 <= k -> i_type ip <> T_DEV -> 0 <= off < 2 ^ 32 -> n < 2 ^ 32 -> i_size ip <= MAXFILE * BSIZE ->
  0 <= i_inum ip < Log.sb_ninodes sb -> todo (k + 1 + Z.of_nat (length l)) m l s v i ip ->
  if (off <=? i_size ip) && (off + n <=? MAXFILE * BSIZE) then
    exists s' v' addrs',
      let ip' := ip <| i_addrs := addrs' |> <| i_size := Z.max (i_size ip) (off + n) |> in
      writei sw i src off s = Ok n s' /\ filed k m s' v' i ip' /\
      (forall j, j <> i -> f_inodes s' !! j = f_inodes s !! j) /\
      wrote v (i_addrs ip) v' addrs' off src /\ file_frame (i_inum ip) v (i_addrs ip) v' /\
      (i_size ip < off + n -> d_mem v' (IBLOCK (i_inum ip) sb) =
        put_dinode (dinode_off (i_inum ip)) (dinode_of ip') (d_mem v (IBLOCK (i_inum ip) sb)))
  else writei sw i src off s = Ok (-1) s.
Proof.
  intros n l Hk Hty Hoff Hn Hsz Hin Hf. pose proof max_bytes as Hmb. destruct (_ && _) eqn:E.
  - bool_hyps. destruct (writei_run sw k m s v i ip off src)
      as (s'&v'&addrs'&E1&Hf1&Hj&Hw&_&Hrest); try done; [lia|].
    exists s', v', addrs'. do 4 (split; [done|]). done.
  - unfold writei. rewrite (geti_run s i ip) by apply Hf. rewrite (proj2 (Z.eqb_neq _ _) Hty). fold n.
    destruct (Z.ltb_spec (i_size ip) off) as [|Hle]; [done|].
    rewrite (proj2 (Z.leb_le off (i_size ip)) Hle) in E. cbn [andb] in E. apply Z.leb_gt in E.
    destruct (decide (off + n < 2 ^ 32)).
    + rewrite u32_small by lia. rewrite (proj2 (Z.ltb_ge (off + n) off)) by lia. cbn [orb].
      by rewrite (proj2 (Z.ltb_lt _ (off + n))) by lia.
    + assert (u32 (off + n) = off + n - 2 ^ 32) as ->.
      { unfold u32. symmetry. apply (Z.mod_unique _ _ 1); lia. }
      rewrite (proj2 (Z.ltb_lt _ off)) by lia. done.
Qed.

(** C4: what [writei] has written, [readi] returns. *)
Theorem write_read_roundtrip (sw : devsw) k m s v i ip off src :
  let n := Z.of_nat (length src) in let l := span off n in
  0 <= k -> i_type ip <> T_DEV -> 0 <= off <= i_size ip -> i_size ip <= MAXFILE * BSIZE ->
  off + n <= MAXFILE * BSIZE -> 0 <= i_inum ip < Log.sb_ninodes sb ->
  todo (k + 2 + Z.of_nat (length l)) m l s v i ip ->
  exists s', (r <- writei sw i src off ;; x <- readi sw i off n ;; ret (r, x)) s = Ok (n, (n, src)) s'.
Proof.
  intros n l Hk Hty Hoff Hsz Hmax Hin Hf. pose proof max_bytes as Hmb.
  destruct (writei_run sw (k + 1) m s v i ip off src)
    as (s'&v'&addrs'&E1&Hf1&_&Hw&Hn1&_); try done; [lia| |].
  { fold n. fold l. by replace (k + 1 + 1) with (k + 2) by lia. }
  fold n in E1, Hf1. rewrite (bind_Ok _ _ _ _ _ E1). set (ip' := ip <| i_addrs := _ |> <| i_size := _ |>) in *.
  assert (i_size ip' = Z.max (i_size ip) (off + n)) as Hsz' by done.
  destruct (readi_run sw k m s' v' i ip' off n) as (t2&v2&addrs2&E2&_); try done; [lia..| |].
  { unfold todo. rewrite Hsz', Z.min_l by lia. change (i_addrs ip') with addrs'.
    rewrite holes_none by done. eapply filed_le; [| |exact Hf1]; lia. }
  rewrite Hsz', Z.min_l in E2 by lia. change (i_addrs ip') with addrs' in E2.
  unfold n in E2. rewrite (wrote_bytes v (i_addrs ip) v' addrs' off src ltac:(lia) Hmax Hw) in E2. fold n in E2.
  exists (moved i addrs2 t2 s'). by rewrite (bind_Ok _ _ _ _ _ E2).
Qed.

(** writing to one file does not change another: a file with blocks of its
    own keeps them and its contents. *)
Theorem writei_isolated (sw : devsw) k m s v i ip off src addrs2 :
  let n := Z.of_nat (length src) in let l := span off n in
  0 <= k -> i_type ip <> T_DEV -> 0 <= off <= i_size ip -> i_size ip <= MAXFILE * BSIZE ->
  off + n <= MAXFILE * BSIZE -> 0 <= i_inum ip < Log.sb_ninodes sb ->
  todo (k + 1 + Z.of_nat (length l)) m l s v i ip ->
  owns sb ds v addrs2 -> apart v (i_addrs ip) addrs2 ->
  exists s' v', writei sw i src off s = Ok n s' /\ frepr s' v' /\ owns sb ds v' addrs2 /\
    same_content v addrs2 v' addrs2.
Proof.
  intros n l Hk Hty Hoff Hsz Hmax Hin Hf Ho2 Ha.
  destruct (writei_run sw k m s v i ip off src) as (s'&v'&addrs'&E1&Hf1&_&_&_&Hff&_); try done.
  exists s', v'. split; [done|]. split; [apply Hf1|].
  eapply other_file; try done. by eapply fl_pos.
Qed.
End runs.

(** ** On the small file system

    The inode is a file of 600 bytes, all of them holes. *)
Import Ideal.

Definition no_dev : devsw (T := Log.logst view) := mkDevsw (fun _ => None) (fun _ => None).

Lemma mini_todo k n l :
  k + 11 * Z.of_nat (length l) <= 59 -> (n + 4 * length l <= 100)%nat ->
  todo mini_sb 66 k n l mini mini_d 0 mini_inode.
Proof.
  intros Hk Hn. assert (holes mini_d (i_addrs mini_inode) l <= length l)%nat
    by apply length_filter.
  split; try done; [apply mini_ready; lia|apply mini_owns].
Qed.

Lemma readi_correct_witness :
  exists s', readi no_dev 0 500 200 mini = Ok (100, replicate 100 0) s'.
Proof.
  destruct (readi_correct mini_sb 66 no_dev 0 0 mini mini_d 0 mini_inode 500 200)
    as (s'&v'&addrs'&E&_); [lia|vm_compute; discriminate|lia|lia|vm_compute; discriminate| |].
  - apply mini_todo; [vm_compute; discriminate|vm_compute; lia].
  - exists s'. rewrite E. reflexivity.
Defined.

Lemma writei_correct_witness :
  exists s' v' addrs', writei no_dev 0 [1; 2; 3] 600 mini = Ok 3 s' /\
    wrote mini_d (replicate 13 0) v' addrs' 600 [1; 2; 3].
Proof.
  destruct (writei_correct mini_sb 66 no_dev 0 0 mini mini_d 0 mini_inode 600 [1; 2; 3])
    as (s'&v'&addrs'&E&_&_&Hw&_);
    [lia|vm_compute; discriminate|lia|cbn; lia|vm_compute; discriminate|cbn; lia| |].
  - apply mini_todo; [vm_compute; discriminate|vm_compute; lia].
  - exists s', v', addrs'. split; [exact E|exact Hw].
Defined.

Lemma write_read_roundtrip_witness :
  exists s', (r <- writei no_dev 0 [1; 2; 3] 511 ;; x <- readi no_dev 0 511 3 ;; ret (r, x)) mini =
    Ok (3, (3, [1; 2; 3])) s'.
Proof.
  apply (write_read_roundtrip mini_sb 66 no_dev 0 0 mini mini_d 0 mini_inode 511 [1; 2; 3]);
    [lia|vm_compute; discriminate|cbn; lia|vm_compute; discriminate|vm_compute; discriminate|cbn; lia|].
  apply mini_todo; [vm_compute; discriminate|vm_compute; lia].
Defined.

Lemma writei_isolated_witness :
  exists s' v', writei no_dev 0 [1; 2; 3] 511 mini = Ok 3 s' /\ frepr s' v' /\
    owns mini_sb 66 v' (replicate 13 0) /\ same_content mini_d (replicate 13 0) v' (replicate 13 0).
Proof.
  apply (writei_isolated mini_sb 66 no_dev 0 0 mini mini_d 0 mini_inode 511 [1; 2; 3]
    (replicate 13 0));
    [lia|vm_compute; discriminate|cbn; lia|vm_compute; discriminate|vm_compute; discriminate|cbn; lia| | |].
  - apply mini_todo; [vm_compute; discriminate|vm_compute; lia].
  - apply mini_owns.
  - intros q q' Hq Hq' Hn. by rewrite mini_no_nodes in Hn.
Defined.
End Fsdata.
