(* ===== verification/Mkfs.v ===== *)
(** * The first image of the file system (xv6-public/mkfs.c)

    [mkfs] runs on the build host and writes the disk image the kernel starts
    from.  The image is a file of blocks; reads past its end fail, other errors
    of the host's disk are left out.  [exit(1)] and a failed [assert] are
    panics; an index outside of an array is a fault.  The image is shown to be
    a file system in the sense of the kernel's routines, with the files given. *)

From S2P Require Import Prelude Spinlock Bytes Bufcache Log Txdisk Fs Fsblocks Fsmap Fsdata.

Module Mkfs.
Import Fs Fsblocks Fsmap Fsdata.

Abbreviation FSSIZE := 40000 (only parsing).
Abbreviation NINODES := 200 (only parsing).
Abbreviation LOGSIZE := 60 (only parsing).

Abbreviation nbitmap := (FSSIZE / (BSIZE * 8) + 1) (only parsing).
Abbreviation ninodeblocks := (NINODES / IPB + 1) (only parsing).
Abbreviation nlog := LOGSIZE (only parsing).
Definition nmeta : Z := 2 + nlog + ninodeblocks + nbitmap.

Record image := mkImage {
  m_disk : gmap Z block;   (* the blocks written *)
  m_sectors : Z;           (* the length of the file, in blocks *)
  m_sb : Log.superblock;
  m_freeinode : Z;
  m_freeblock : Z
}.
#[export] Instance eta_image : Eta image := fun s =>
  mkImage (m_disk s) (m_sectors s) (m_sb s) (m_freeinode s) (m_freeblock s).

(** Little-endian, whatever the host. *)
Definition xshort (x : Z) : Z := get16 (put16 0 x (replicate 2 0)) 0.
Definition xint (x : Z) : Z := get32 (put32 0 x (replicate 4 0)) 0.

(** The block at file offset [sec * BSIZE], an unsigned product. *)
Definition sector (sec : Z) : Z := u32 (sec * BSIZE) / BSIZE.
Definition wsect (sec : Z) (buf : block) : M image unit :=
  modify (fun s => s <| m_disk ::= <[sector sec := buf]> |>) ;;
  modify (fun s => s <| m_sectors ::= Z.max (sector sec + 1) |>).
Definition rsect (sec : Z) : M image block :=
  n <- gets m_sectors ;;
  d <- gets m_disk ;;
  if sector sec <? n then ret (disk_block d (sector sec)) else panic "read".

Definition winode (inum : Z) (ip : dinode) : M image unit :=
  sb <- gets m_sb ;;
  buf <- rsect (IBLOCK inum sb) ;;
  wsect (IBLOCK inum sb) (put_dinode (dinode_off inum) ip buf).
Definition rinode (inum : Z) : M image dinode :=
  sb <- gets m_sb ;;
  buf <- rsect (IBLOCK inum sb) ;;
  ret (get_dinode buf (dinode_off inum)).

Definition ialloc (type : Z) : M image Z :=
  inum <- gets m_freeinode ;;
  modify (fun s => s <| m_freeinode := u32 (inum + 1) |>) ;;
  winode inum (mkDinode (xshort type) 0 0 (xshort 1) (xint 0) (replicate 13 0)) ;;
  ret inum.

Definition balloc (used : Z) : M image unit :=
  if negb (used <? BSIZE * 8) then panic "assert" else
  sb <- gets m_sb ;;
  wsect (Log.sb_bmapstart sb) (foldl (fun buf i => set_bit i buf) zero_block (seqZ 0 used)).

(** [freeblock++] *)
Definition new_block : M image Z :=
  b <- gets m_freeblock ;;
  modify (fun s => s <| m_freeblock := u32 (b + 1) |>) ;;
  ret (xint b).

(** [din.addrs[i]], with a new block if there is none. *)
Definition addr_slot (addrs : list Z) (i : Z) : M image (list Z) :=
  a <- deref (zlookup addrs i) ;;
  if xint a =? 0 then b <- new_block ;; ret (<[Z.to_nat i := b]> addrs) else ret addrs.

(** The block that holds block [fbn] of the file: [x], with the addresses of the
    inode. *)
Definition place (addrs : list Z) (fbn : Z) : M image (list Z * Z) :=
  if fbn <? NDIRECT then
    addrs <- addr_slot addrs fbn ;;
    x <- deref (zlookup addrs fbn) ;;
    ret (addrs, xint x)
  else
    addrs <- addr_slot addrs NDIRECT ;;
    a <- deref (zlookup addrs NDIRECT) ;;
    indirect <- rsect (xint a) ;;
    if NINDIRECT <=? fbn - NDIRECT then fault else
    if word indirect (fbn - NDIRECT) =? 0 then
      b <- new_block ;;
      let indirect := put32 (Z.to_nat (4 * (fbn - NDIRECT))) b indirect in
      wsect (xint a) indirect ;;
      ret (addrs, xint (word indirect (fbn - NDIRECT)))
    else ret (addrs, xint (word indirect (fbn - NDIRECT))).

Fixpoint iappend_loop (fuel : nat) (addrs : list Z) (off : Z) (p : list Z) : M image (list Z * Z) :=
  match p with
  | [] => ret (addrs, off)
  | _ :: _ =>
      match fuel with
      | O => spin
      | S fuel' =>
          let fbn := off / BSIZE in
          if negb (fbn <? MAXFILE) then panic "assert" else
          r <- place addrs fbn ;;
          let n1 := Z.min (Z.of_nat (length p)) (u32 ((fbn + 1) * BSIZE - off)) in
          buf <- rsect r.2 ;;
          wsect r.2 (splice (Z.to_nat (off - fbn * BSIZE)) (take (Z.to_nat n1) p) buf) ;;
          iappend_loop fuel' r.1 (u32 (off + n1)) (drop (Z.to_nat n1) p)
      end
  end.
Definition iappend (inum : Z) (xp : list Z) : M image unit :=
  din <- rinode inum ;;
  r <- iappend_loop (length xp) (di_addrs din) (xint (di_size din)) xp ;;
  winode inum (mkDinode (di_type din) (di_major din) (di_minor din) (di_nlink din) (xint r.2) r.1).

(** [struct dirent] after [bzero] and [strncpy]. *)
Definition entry (inum : Z) (name : list Z) : list Z :=
  put16 0 (xshort inum) [0; 0] ++ take DIRSIZ name ++ replicate (DIRSIZ - length name) 0.

(** The file is read a block at a time. *)
Fixpoint append_file (fuel : nat) (inum : Z) (data : list Z) : M image unit :=
  match data with
  | [] => ret tt
  | _ :: _ =>
      match fuel with
      | O => spin
      | S fuel' =>
          iappend inum (take (Z.to_nat BSIZE) data) ;;
          append_file fuel' inum (drop (Z.to_nat BSIZE) data)
      end
  end.

Definition SLASH : Z := 47.
Definition UNDERSCORE : Z := 95.
Definition skip_underscore (name : list Z) : list Z :=
  match name with
  | c :: name' => if c =? UNDERSCORE then name' else name
  | [] => name
  end.

(** One file of the command line: its name and its contents, if it can be opened. *)
Definition add_file (rootino : Z) (file : list Z * option (list Z)) : M image unit :=
  if existsb (Z.eqb SLASH) file.1 then panic "assert" else
  match file.2 with
  | None => panic "open"
  | Some data =>
      inum <- ialloc T_FILE ;;
      iappend rootino (entry inum (skip_underscore file.1)) ;;
      append_file (length data) inum data
  end.

(** "fix size of root inode dir" *)
Definition fix_size (inum : Z) : M image unit :=
  din <- rinode inum ;;
  let off := u32 ((xint (di_size din) / BSIZE + 1) * BSIZE) in
  winode inum (mkDinode (di_type din) (di_major din) (di_minor din) (di_nlink din) (xint off) (di_addrs din)).

Definition superblock : Log.superblock :=
  Log.mkSb (xint FSSIZE) (xint (FSSIZE - nmeta)) (xint NINODES) (xint nlog) (xint 2) (xint (2 + nlog))
    (xint (2 + nlog + ninodeblocks)).
Definition super_words : list Z :=
  [Log.sb_size superblock; Log.sb_nblocks superblock; Log.sb_ninodes superblock; Log.sb_nlog superblock;
   Log.sb_logstart superblock; Log.sb_inodestart superblock; Log.sb_bmapstart superblock].

Definition image0 : image := mkImage ∅ 0 (Log.mkSb 0 0 0 0 0 0 0) 1 0.

(** The empty image. *)
Definition format : M image unit :=
  modify (fun s => s <| m_sb := superblock |>) ;;
  modify (fun s => s <| m_freeblock := nmeta |>) ;;
  forM (seqZ 0 FSSIZE) (fun i => wsect i zero_block) ;;
  wsect 1 (put_words 0 super_words zero_block).

Definition main (files : list (list Z * option (list Z))) : M image unit :=
  format ;;
  rootino <- ialloc T_DIR ;;
  if negb (rootino =? ROOTINO) then panic "assert" else
  iappend rootino (entry rootino [46]) ;;
  iappend rootino (entry rootino [46; 46]) ;;
  forM files (add_file rootino) ;;
  fix_size rootino ;;
  used <- gets m_freeblock ;;
  balloc (i32 used).

(** ** Blocks of the image *)

Lemma xint_u32 x : xint x = u32 x.
Proof. unfold xint. apply get32_put32. cbn. lia. Qed.
Lemma xint_id x : 0 <= x < 2 ^ 32 -> xint x = x.
Proof. rewrite xint_u32. apply u32_small. Qed.
Lemma xshort_id x : 0 <= x < 2 ^ 16 -> xshort x = x.
Proof. intros Hx. unfold xshort. rewrite get16_put16 by (cbn; lia). unfold u16. by apply Z.mod_small. Qed.
Lemma nmeta_eq : nmeta = 98.
Proof. done. Qed.
Lemma superblock_eq : superblock = Log.mkSb 40000 39902 200 60 2 62 88.
Proof. vm_compute. reflexivity. Qed.

Definition img (s : image) : Z -> block := disk_block (m_disk s).

Lemma sector_id b : 0 <= b < FSSIZE -> sector b = b.
Proof. intros Hb. unfold sector. rewrite u32_small by (unfold BSIZE; lia). by apply Z.div_mul. Qed.

(** The image while it is built: all blocks are there, and those not given out yet are
    empty. *)
Record ok (s : image) : Prop := mkOk {
  ok_sb : m_sb s = superblock;
  ok_sectors : m_sectors s = FSSIZE;
  ok_len b : length (img s b) = Z.to_nat BSIZE;
  ok_first : nmeta <= m_freeblock s;
  ok_zero b : m_freeblock s <= b -> img s b = zero_block
}.

Definition put (b : Z) (x : block) (s : image) : image := s <| m_disk ::= <[b := x]> |>.
Lemma img_put b x s c : img (put b x s) c = if decide (c = b) then x else img s c.
Proof.
  unfold img, put, disk_block. proj_upd. case_decide as Hc; [by rewrite Hc, lookup_insert_eq|].
  by rewrite lookup_insert_ne.
Qed.

Lemma rsect_run s b : ok s -> 0 <= b < FSSIZE -> rsect b s = Ok (img s b) s.
Proof.
  intros Hok Hb. unfold rsect. mstep. rewrite (ok_sectors _ Hok), sector_id by done.
  by rewrite (proj2 (Z.ltb_lt b FSSIZE)) by lia.
Qed.
Lemma wsect_run s b x : ok s -> 0 <= b < FSSIZE -> wsect b x s = Ok tt (put b x s).
Proof.
  intros Hok Hb. unfold wsect. mstep. rewrite sector_id by done. pose proof (ok_sectors _ Hok) as Hn.
  destruct s as [d n sb i f]. cbn in Hn. subst n. unfold modify, put. f_equal.
  change (mkImage (<[b := x]> d) (Z.max (b + 1) FSSIZE) sb i f = mkImage (<[b := x]> d) FSSIZE sb i f).
  f_equal. lia.
Qed.
Lemma ok_put s b x : ok s -> length x = Z.to_nat BSIZE -> b < m_freeblock s -> ok (put b x s).
Proof.
  intros [H1 H2 H3 H4 H5] Hx Hb. split; try done.
  - intros c. rewrite img_put. by case_decide.
  - intros c Hc. change (m_freeblock s <= c) in Hc. rewrite img_put, decide_False by lia. by apply H5.
Qed.

(** ** The trees of one inode *)

Record tree (f : Z -> block) (fb : Z) (addrs : list Z) : Prop := mkTree {
  tr_len : length addrs = 13%nat;
  tr_range q : valid q -> node f addrs q <> 0 -> nmeta <= node f addrs q < fb;
  tr_inj q q' : valid q -> valid q' -> node f addrs q <> 0 -> node f addrs q = node f addrs q' -> q = q'
}.

Lemma tree_grow f fb addrs f' addrs' pos :
  tree f fb addrs -> nmeta <= fb -> length addrs' = 13%nat ->
  (forall q, valid q -> node f' addrs' q = if decide (q = pos) then fb else node f addrs q) ->
  tree f' (fb + 1) addrs'.
Proof.
  intros [_ Hr Hi] Hfb Hl Hn. split; [done| |].
  - intros q Hq. rewrite Hn by done. case_decide; [lia|]. intros Hz. pose proof (Hr q Hq Hz). lia.
  - intros q q' Hq Hq'. rewrite !Hn by done. do 2 case_decide; subst; try done.
    + intros Hz E. pose proof (Hr q' Hq'). lia.
    + intros Hz E. pose proof (Hr q Hq Hz). lia.
    + by apply Hi.
Qed.

Lemma root_valid i : (i < 13)%nat -> valid (i, []).
Proof. intros Hi. split; [done|]. split; [cbn; lia|constructor]. Qed.
Lemma leaf10 k : index k -> valid (10%nat, [k]).
Proof. intros Hk. split; [cbn; lia|]. split; [cbn; unfold depth; lia|by apply Forall_singleton]. Qed.
Lemma position_direct bn : 0 <= bn < 10 -> position bn = (Z.to_nat bn, []).
Proof. intros Hb. unfold position, NDIRECT. by rewrite (proj2 (Z.ltb_lt bn 10)) by lia. Qed.
Lemma position_indirect bn : 10 <= bn < 138 -> position bn = (10%nat, [bn - 10]).
Proof.
  intros Hb. unfold position, NDIRECT. change NINDIRECT with 128. rewrite (proj2 (Z.ltb_ge bn 10)) by lia.
  by rewrite (proj2 (Z.ltb_lt (bn - 10) 128)) by lia.
Qed.

Lemma zlookup_nth l i : 0 <= i < Z.of_nat (length l) -> zlookup l i = Some (nth (Z.to_nat i) l 0).
Proof.
  intros Hi. unfold zlookup. rewrite (proj2 (Z.ltb_ge i 0)) by lia.
  destruct (lookup_lt_is_Some_2 l (Z.to_nat i)) as [y Hy]; [lia|]. by rewrite Hy, (nth_lookup_Some _ _ _ _ Hy).
Qed.

(** What giving a block to position [bn] does to the trees and the blocks. *)
Record placed (pos : list (nat * list Z)) (f : Z -> block) (fb : Z) (addrs : list Z)
    (f' : Z -> block) (fb' : Z) (addrs' : list Z) : Prop := mkPlaced {
  pl_tree : tree f' fb' addrs';
  pl_node q : valid q -> node f' addrs' q = node f addrs q \/
    (node f addrs q = 0 /\ fb <= node f' addrs' q < fb' /\ q ∈ pos);
  pl_keep b : b < fb -> b <> node f addrs (10%nat, []) -> f' b = f b;
  pl_new q : valid q -> leaf q -> node f addrs q <> node f' addrs' q -> f' (node f' addrs' q) = zero_block;
  pl_more : fb <= fb'
}.

Lemma placed_refl pos f fb addrs : tree f fb addrs -> placed pos f fb addrs f fb addrs.
Proof. intros Ht. split; try done. by left. Qed.

Lemma leaf_not10 q : leaf q -> q <> (10%nat, []).
Proof. by intros Hl ->. Qed.

Lemma placed_trans p1 p2 f fb addrs f1 fb1 addrs1 f2 fb2 addrs2 : 0 < fb ->
  placed p1 f fb addrs f1 fb1 addrs1 -> placed p2 f1 fb1 addrs1 f2 fb2 addrs2 ->
  placed (p1 ++ p2) f fb addrs f2 fb2 addrs2.
Proof.
  intros Hfb [Ht1 Hn1 Hk1 Hw1 Hm1] [Ht2 Hn2 Hk2 Hw2 Hm2]. assert (valid (10%nat, [])) as H10 by (apply root_valid; lia).
  split; [done| | | |lia].
  - intros q Hq. destruct (Hn1 q Hq) as [E1|(E1 & Hr1 & Hp1)], (Hn2 q Hq) as [E2|(E2 & Hr2 & Hp2)].
    + left. congruence.
    + right. split; [congruence|]. split; [lia|]. apply elem_of_app. by right.
    + right. split; [done|]. rewrite E2. split; [lia|]. apply elem_of_app. by left.
    + lia.
  - intros b Hb Hne. rewrite Hk2, Hk1; try done; [lia|]. destruct (Hn1 _ H10) as [->|(_ & ? & _)]; [done|lia].
  - intros q Hq Hl Hne. destruct (Hn1 q Hq) as [E1|(E1 & Hr1 & _)].
    + apply Hw2; [done|done|congruence].
    + destruct (Hn2 q Hq) as [E2|(E2 & _)]; [|lia]. rewrite E2. rewrite Hk2.
      * apply Hw1; [done|done|lia].
      * lia.
      * intros E. apply (leaf_not10 q Hl). apply (tr_inj _ _ _ Ht1); try done. lia.
Qed.

Section fill.
Context (f : Z -> block) (fb : Z) (addrs : list Z).
Hypothesis Ht : tree f fb addrs.
Hypothesis Hfb : nmeta <= fb < 2 ^ 31.
Hypothesis Hz : f fb = zero_block.

(** A hole in the inode. *)
Lemma fill_root i : (i < 13)%nat -> node f addrs (i, []) = 0 ->
  placed [(i, [])] f fb addrs f (fb + 1) (<[i := fb]> addrs) /\ node f (<[i := fb]> addrs) (i, []) = fb.
Proof using All.
  intros Hi H0. assert (98 <= fb < 2 ^ 31) as Hfb' by exact Hfb.
  assert (Hn : forall q, valid q -> node f (<[i := fb]> addrs) q = if decide (q = (i, [])) then fb else node f addrs q).
  { apply (node_grow_root f f addrs _ fb); try done; [lia|by rewrite (tr_len _ _ _ Ht)]. }
  split; [|rewrite Hn by (by apply root_valid); by rewrite decide_True].
  split; [| | |intros q Hq Hl; rewrite Hn by done; by case_decide|lia].
  - apply (tree_grow f fb addrs f _ (i, [])); [done|rewrite nmeta_eq; lia| |done].
    rewrite length_insert. apply (tr_len _ _ _ Ht).
  - intros q Hq. rewrite Hn by done. case_decide as Hq'; [right|by left]. subst q. split; [done|].
    split; [lia|]. by apply list_elem_of_singleton.
  - done.
Qed.

(** A hole in the indirect block. *)
Lemma fill_indirect k f' (a := node f addrs (10%nat, [])) :
  index k -> a <> 0 -> node f addrs (10%nat, [k]) = 0 -> length (f a) = Z.to_nat BSIZE ->
  (forall c, f' c = if decide (c = a) then put32 (Z.to_nat (4 * k)) fb (f a) else f c) ->
  placed [(10%nat, [k])] f fb addrs f' (fb + 1) addrs /\ node f' addrs (10%nat, [k]) = fb.
Proof using All.
  intros Hk Ha H0 Hlen Hf. assert (valid (10%nat, [])) as H10 by (apply root_valid; lia).
  pose proof (tr_range _ _ _ Ht _ H10 Ha) as Hra. assert (98 <= fb < 2 ^ 31) as Hfb' by exact Hfb. fold a in Hra.
  assert (Hz' : f' fb = zero_block) by (rewrite Hf, decide_False by lia; done).
  assert (Hn : forall q, valid q -> node f' addrs q = if decide (q = (10%nat, [k])) then fb else node f addrs q).
  { apply (node_grow f f' addrs addrs fb) with (p := []); try done.
    - lia.
    - lia.
    - apply (tr_inj _ _ _ Ht).
    - by apply leaf10.
    - fold a. by rewrite Hf, decide_True.
    - intros q Hq Hq0 Hne. fold a in Hne. by rewrite Hf, decide_False. }
  split; [|rewrite Hn by (by apply leaf10); by rewrite decide_True].
  split; [| | | |lia].
  - apply (tree_grow f fb addrs f' _ (10%nat, [k])); [done|rewrite nmeta_eq; lia|apply (tr_len _ _ _ Ht)|done].
  - intros q Hq. rewrite Hn by done. case_decide as Hq'; [right|by left]. subst q. split; [done|].
    split; [lia|]. by apply list_elem_of_singleton.
  - intros b Hb Hne. by rewrite Hf, decide_False.
  - intros q Hq Hl. rewrite Hn by done. case_decide; [|done]. done.
Qed.
End fill.

Definition bump (s : image) : image := s <| m_freeblock := m_freeblock s + 1 |>.
Lemma ok_bump s : ok s -> ok (bump s).
Proof.
  intros [H1 H2 H3 H4 H5]. split; try done.
  - change (nmeta <= m_freeblock s + 1). lia.
  - intros b Hb. change (m_freeblock s + 1 <= b) in Hb. apply H5. lia.
Qed.
Lemma new_block_run s : ok s -> m_freeblock s < FSSIZE -> new_block s = Ok (m_freeblock s) (bump s).
Proof.
  intros Hok Hb. pose proof (ok_first _ Hok) as H1. rewrite nmeta_eq in H1. unfold new_block. mstep.
  unfold ret. rewrite xint_id, u32_small by lia. done.
Qed.

(** The block number at a position of a tree. *)
Lemma node_small f fb addrs q : tree f fb addrs -> fb <= FSSIZE -> valid q -> 0 <= node f addrs q < FSSIZE.
Proof.
  intros Ht Hfb Hq. destruct (decide (node f addrs q = 0)) as [->|Hn]; [lia|].
  pose proof (tr_range _ _ _ Ht q Hq Hn) as Hr. rewrite nmeta_eq in Hr. lia.
Qed.

Lemma addr_slot_run s addrs i : ok s -> tree (img s) (m_freeblock s) addrs -> m_freeblock s < FSSIZE -> (i < 13)%nat ->
  exists addrs', let s' := if decide (node (img s) addrs (i, []) = 0) then bump s else s in
    addr_slot addrs (Z.of_nat i) s = Ok addrs' s' /\
    placed [(i, [])] (img s) (m_freeblock s) addrs (img s') (m_freeblock s') addrs' /\
    node (img s') addrs' (i, []) <> 0.
Proof.
  intros Hok Ht Hfb Hi. pose proof (tr_len _ _ _ Ht) as Hl. pose proof (ok_first _ Hok) as H1. rewrite nmeta_eq in H1.
  assert (Hx : xint (nth i addrs 0) = node (img s) addrs (i, [])).
  { change (node (img s) addrs (i, [])) with (nth i addrs 0). apply xint_id. pose proof (node_small _ _ _ _ Ht ltac:(lia) (root_valid i Hi)) as Hr. change (0 <= nth i addrs 0 < FSSIZE) in Hr. lia. }
  unfold addr_slot. rewrite zlookup_nth, Nat2Z.id by lia. mstep. rewrite Hx.
  destruct (decide (node (img s) addrs (i, []) = 0)) as [Hn|Hn].
  - rewrite Hn, Z.eqb_refl, (bind_Ok _ _ _ _ _ (new_block_run s Hok Hfb)).
    destruct (fill_root (img s) (m_freeblock s) addrs Ht) with (i := i) as [Hp He]; try done.
    { rewrite nmeta_eq. lia. }
    { apply (ok_zero _ Hok). lia. }
    eexists. split; [reflexivity|]. split; [exact Hp|]. change (img (bump s)) with (img s). rewrite He. lia.
  - rewrite (proj2 (Z.eqb_neq _ 0) Hn). exists addrs. split; [done|]. split; [by apply placed_refl|done].
Qed.

Definition way (bn : Z) : list (nat * list Z) :=
  if bn <? 10 then [position bn] else [(10%nat, []); position bn].
Definition missing (f : Z -> block) (addrs : list Z) (q : nat * list Z) : Z :=
  if decide (node f addrs q = 0) then 1 else 0.

(** The word of the indirect block. *)
Lemma node10 f addrs k : node f addrs (10%nat, []) <> 0 ->
  word (f (node f addrs (10%nat, []))) k = node f addrs (10%nat, [k]).
Proof. intros Ha. change (10%nat, [k]) with (10%nat, [] ++ [k]). by rewrite node_snoc, (proj2 (Z.eqb_neq _ 0) Ha). Qed.

(** With the indirect block there, the leaf is taken or made. *)
Lemma indirect_run s addrs bn (k := bn - NDIRECT) (a := node (img s) addrs (10%nat, [])) :
  ok s -> tree (img s) (m_freeblock s) addrs -> 10 <= bn < 138 -> m_freeblock s < FSSIZE -> a <> 0 ->
  exists s',
    (indirect <- rsect (xint a) ;;
     if NINDIRECT <=? k then fault else
     if word indirect k =? 0 then
       b <- new_block ;;
       let indirect := put32 (Z.to_nat (4 * k)) b indirect in
       wsect (xint a) indirect ;;
       ret (addrs, xint (word indirect k))
     else ret (addrs, xint (word indirect k))) s = Ok (addrs, node (img s') addrs (10%nat, [k])) s' /\
    ok s' /\ m_freeinode s' = m_freeinode s /\ node (img s') addrs (10%nat, [k]) <> 0 /\
    placed [(10%nat, [k])] (img s) (m_freeblock s) addrs (img s') (m_freeblock s') addrs /\
    m_freeblock s' = m_freeblock s + missing (img s) addrs (10%nat, [k]).
Proof.
  intros Hok Ht Hbn Hfb Ha. assert (index k) as Hk by (unfold index, k, NDIRECT; change NINDIRECT with 128; lia).
  assert (valid (10%nat, [])) as H10 by (apply root_valid; lia).
  pose proof (tr_range _ _ _ Ht _ H10 Ha) as Hra. fold a in Hra. pose proof (ok_first _ Hok) as H1. rewrite nmeta_eq in *.
  rewrite (xint_id a), (bind_Ok _ _ _ _ _ (rsect_run s a Hok ltac:(lia))) by lia.
  rewrite (proj2 (Z.leb_gt NINDIRECT k)) by (unfold index in Hk; lia). unfold a at 1. rewrite node10 by done. fold a.
  unfold missing. case_decide as Hn.
  - rewrite Hn, Z.eqb_refl, (bind_Ok _ _ _ _ _ (new_block_run s Hok Hfb)). cbv zeta.
    set (x := put32 (Z.to_nat (4 * k)) (m_freeblock s) (img s a)).
    rewrite (bind_Ok _ _ _ _ _ (wsect_run (bump s) a x (ok_bump _ Hok) ltac:(lia))).
    assert (word x k = m_freeblock s) as Hw.
    { unfold x. rewrite word_put by (done || lia || apply (ok_len _ Hok)). by rewrite decide_True. }
    destruct (fill_indirect (img s) (m_freeblock s) addrs Ht) with (k := k) (f' := img (put a x (bump s))) as [Hp He]; try done.
    { rewrite nmeta_eq. lia. }
    { apply (ok_zero _ Hok). lia. }
    { apply (ok_len _ Hok). }
    { intros c. exact (img_put a x (bump s) c). }
    exists (put a x (bump s)). unfold ret. rewrite Hw, He, xint_id by lia. split; [done|].
    split; [|split; [done|split; [lia|by split]]].
    apply ok_put; [by apply ok_bump|unfold x; rewrite length_put32; apply (ok_len _ Hok)|].
    change (a < m_freeblock s + 1). lia.
  - rewrite (proj2 (Z.eqb_neq _ 0) Hn). exists s. unfold a, ret. rewrite node10 by done.
    pose proof (node_small _ _ _ _ Ht ltac:(lia) (leaf10 k Hk)). rewrite xint_id by lia.
    split; [done|]. split; [done|]. split; [done|]. split; [done|]. split; [by apply placed_refl|lia].
Qed.

Lemma place_run s addrs bn : ok s -> tree (img s) (m_freeblock s) addrs -> 0 <= bn < 138 ->
  m_freeblock s + 2 <= FSSIZE ->
  exists addrs' s', place addrs bn s = Ok (addrs', node (img s') addrs' (position bn)) s' /\ ok s' /\
    m_freeinode s' = m_freeinode s /\ node (img s') addrs' (position bn) <> 0 /\
    placed (way bn) (img s) (m_freeblock s) addrs (img s') (m_freeblock s') addrs' /\
    m_freeblock s' = m_freeblock s + missing (img s) addrs (position bn) +
      (if bn <? 10 then 0 else missing (img s) addrs (10%nat, [])).
Proof.
  intros Hok Ht Hbn Hfb. unfold place, way. change (bn <? NDIRECT) with (bn <? 10).
  destruct (Z.ltb_spec bn 10) as [Hd|Hd].
  - rewrite (position_direct bn) by lia. set (i := Z.to_nat bn). replace bn with (Z.of_nat i) by lia.
    destruct (addr_slot_run s addrs i Hok Ht ltac:(lia) ltac:(lia)) as (addrs' & E & Hp & Hn).
    set (s' := if decide (node (img s) addrs (i, []) = 0) then bump s else s) in *.
    exists addrs', s'. rewrite (bind_Ok _ _ _ _ _ E). pose proof (pl_tree _ _ _ _ _ _ _ Hp) as Ht'.
    rewrite zlookup_nth, Nat2Z.id by (rewrite (tr_len _ _ _ Ht'); lia). mstep.
    assert (m_freeblock s' = m_freeblock s + missing (img s) addrs (i, [])) as Hfb'.
    { unfold s', missing. case_decide; [done|lia]. }
    assert (missing (img s) addrs (i, []) <= 1) by (unfold missing; case_decide; lia).
    rewrite xint_id.
    + split; [done|]. split; [unfold s'; case_decide; [by apply ok_bump|done]|].
      split; [unfold s'; by case_decide|]. split; [done|]. split; [done|lia].
    + pose proof (node_small _ _ _ _ Ht' ltac:(lia) (root_valid i ltac:(lia))) as Hr.
      change (0 <= nth i addrs' 0 < FSSIZE) in Hr. lia.
  - rewrite (position_indirect bn) by lia. change NDIRECT with (Z.of_nat 10).
    destruct (addr_slot_run s addrs 10 Hok Ht ltac:(lia) ltac:(lia)) as (addrs1 & E & Hp & Hn).
    set (s1 := if decide (node (img s) addrs (10%nat, []) = 0) then bump s else s) in *.
    rewrite (bind_Ok _ _ _ _ _ E). pose proof (pl_tree _ _ _ _ _ _ _ Hp) as Ht1. pose proof (ok_first _ Hok) as H1.
    rewrite zlookup_nth by (rewrite (tr_len _ _ _ Ht1); lia). mstep.
    assert (m_freeblock s1 = m_freeblock s + missing (img s) addrs (10%nat, [])) as Hfb1.
    { unfold s1, missing. case_decide; [done|lia]. }
    assert (ok s1) as Hok1 by (unfold s1; case_decide; [by apply ok_bump|done]).
    assert (m_freeinode s1 = m_freeinode s) as Hi1 by (unfold s1; by case_decide).
    assert (missing (img s) addrs (10%nat, []) <= 1) by (unfold missing; case_decide; lia).
    destruct (indirect_run s1 addrs1 bn Hok1 Ht1 ltac:(lia) ltac:(lia) Hn) as (s2 & E2 & Hok2 & Hi2 & Hn2 & Hp2 & Hfb2).
    exists addrs1, s2. split; [exact E2|]. split; [done|]. split; [congruence|]. split; [done|].
    split; [|].
    + apply (placed_trans [_] [_] _ _ _ _ _ _ _ _ _) with (2 := Hp) (3 := Hp2). rewrite nmeta_eq in H1. lia.
    + rewrite Hfb2, Hfb1. change NDIRECT with 10. cut (missing (img s1) addrs1 (10%nat, [bn - 10]) = missing (img s) addrs (10%nat, [bn - 10])); [lia|].
      unfold missing. destruct (pl_node _ _ _ _ _ _ _ Hp (10%nat, [bn - 10])) as [-> |(_ & _ & Hin)]; [|done|].
      * apply leaf10. unfold index. change NINDIRECT with 128. lia.
      * by apply list_elem_of_singleton in Hin.
Qed.

(** ** The contents of a file *)

(** The image as the file system of the kernel sees it: the log is out of reach. *)
Definition view (f : Z -> block) : dview :=
  mkDview f f ∅ ∅ (fun b => b = 1 \/ 2 + nlog <= b < FSSIZE) 0.

Definition zlen (l : list Z) : Z := Z.of_nat (length l).
(** The blocks of a file of [n] bytes, and those with the indirect block. *)
Definition blocks (n : Z) : Z := (n + 511) / BSIZE.
Definition cost (n : Z) : Z := blocks n + (if 10 <? blocks n then 1 else 0).
Definition most : Z := 138 * BSIZE.

(** The inode with addresses [addrs] has the contents [data]. *)
Record holds (f : Z -> block) (fb : Z) (addrs data : list Z) : Prop := mkHolds {
  hd_tree : tree f fb addrs;
  hd_most : zlen data <= most;
  hd_here bn : 0 <= bn < 138 -> node f addrs (position bn) = 0 <-> blocks (zlen data) <= bn;
  hd_ind : node f addrs (10%nat, []) = 0 <-> blocks (zlen data) <= 10;
  hd_byte o : 0 <= o < MAXFILE * BSIZE -> file_byte (view f) addrs o = nth (Z.to_nat o) data 0
}.

(** Only blocks of the inode and new ones have been written. *)
Record extends (f : Z -> block) (fb : Z) (addrs : list Z) (f' : Z -> block) (fb' : Z) (addrs' : list Z) : Prop := mkExt {
  ex_frame b : b < fb -> (forall q, valid q -> node f addrs q <> b) -> f' b = f b;
  ex_node q : valid q -> node f' addrs' q = node f addrs q \/ fb <= node f' addrs' q;
  ex_more : fb <= fb'
}.

Lemma extends_refl f fb addrs : extends f fb addrs f fb addrs.
Proof. split; try done. by left. Qed.
Lemma extends_trans f fb addrs f1 fb1 addrs1 f2 fb2 addrs2 :
  extends f fb addrs f1 fb1 addrs1 -> extends f1 fb1 addrs1 f2 fb2 addrs2 -> extends f fb addrs f2 fb2 addrs2.
Proof.
  intros [F1 N1 M1] [F2 N2 M2]. split; [| |lia].
  - intros b Hb Hq. rewrite F2, F1; try done; [lia|]. intros q Hv. destruct (N1 q Hv) as [->|?]; [by apply Hq|lia].
  - intros q Hv. destruct (N2 q Hv) as [->|?]; [by apply N1|right; lia].
Qed.

Lemma tree_ext f f' fb addrs : tree f fb addrs ->
  (forall q, valid q -> node f' addrs q = node f addrs q) -> tree f' fb addrs.
Proof.
  intros [Hl Hr Hi] Hn. split; [done| |].
  - intros q Hq. rewrite Hn by done. by apply Hr.
  - intros q q' Hq Hq'. rewrite !Hn by done. by apply Hi.
Qed.

Lemma valid10 : valid (10%nat, []).
Proof. apply root_valid. lia. Qed.

Lemma placed_content pos f fb addrs f' fb' addrs' : tree f fb addrs -> 0 < fb ->
  placed pos f fb addrs f' fb' addrs' -> same_content (view f) addrs (view f') addrs'.
Proof.
  intros Ht Hfb Hp bn Hbn. destruct (position_valid bn Hbn) as [Hv Hlf]. unfold content. cbn [view d_mem].
  destruct (pl_node _ _ _ _ _ _ _ Hp _ Hv) as [E|(E & Hr & _)].
  - rewrite E. destruct (Z.eqb_spec (node f addrs (position bn)) 0) as [|Hn]; [done|].
    apply (pl_keep _ _ _ _ _ _ _ Hp).
    + by apply (tr_range _ _ _ Ht).
    + intros E'. apply (leaf_not10 _ Hlf). apply (tr_inj _ _ _ Ht); [done|apply valid10|done|done].
  - rewrite E, Z.eqb_refl, (proj2 (Z.eqb_neq _ 0)) by lia. apply (pl_new _ _ _ _ _ _ _ Hp); [done|done|lia].
Qed.

Lemma placed_extends pos f fb addrs f' fb' addrs' :
  placed pos f fb addrs f' fb' addrs' -> extends f fb addrs f' fb' addrs'.
Proof.
  intros Hp. split; [| |apply Hp].
  - intros b Hb Hq. apply (pl_keep _ _ _ _ _ _ _ Hp); [done|]. intros ->. by apply (Hq _ valid10).
  - intros q Hq. destruct (pl_node _ _ _ _ _ _ _ Hp q Hq) as [?|(_ & ? & _)]; [by left|right; lia].
Qed.

(** A leaf is written. *)
Section leaf_write.
Context (f f' : Z -> block) (fb : Z) (addrs : list Z) (bn : Z) (y : block).
Hypothesis Ht : tree f fb addrs.
Hypothesis Hbn : 0 <= bn < MAXFILE.
Hypothesis Hn : node f addrs (position bn) <> 0.
Hypothesis Hf : forall c, f' c = if decide (c = node f addrs (position bn)) then y else f c.

Lemma leaf_node q : valid q -> node f' addrs q = node f addrs q.
Proof using All.
  destruct (position_valid bn Hbn) as [Hv Hlf]. revert q. apply node_frame. intros q Hq Hnl Hq0.
  rewrite Hf, decide_False; [done|]. intros E. apply Hnl. by rewrite (tr_inj _ _ _ Ht q (position bn)).
Qed.
Lemma leaf_content bn' : 0 <= bn' < MAXFILE ->
  content (view f') addrs bn' = if decide (bn' = bn) then y else content (view f) addrs bn'.
Proof using All.
  intros Hb. destruct (position_valid bn Hbn) as [Hv _], (position_valid bn' Hb) as [Hv' _].
  unfold content. cbn [view d_mem]. rewrite leaf_node by done. case_decide as E.
  - subst bn'. by rewrite (proj2 (Z.eqb_neq _ 0) Hn), Hf, decide_True.
  - destruct (Z.eqb_spec (node f addrs (position bn')) 0) as [|Hn']; [done|]. rewrite Hf, decide_False; [done|].
    intros E'. apply E. apply position_inj; try done. by apply (tr_inj _ _ _ Ht).
Qed.
Lemma leaf_extends : extends f fb addrs f' fb addrs.
Proof using All.
  destruct (position_valid bn Hbn) as [Hv _]. split; [| |lia].
  - intros b Hb Hq. rewrite Hf, decide_False; [done|]. intros ->. by apply (Hq _ Hv).
  - intros q Hq. left. by apply leaf_node.
Qed.
End leaf_write.

(** ** Appending *)

Lemma blocks_step off n : 0 <= off -> 0 < n -> off mod BSIZE + n <= BSIZE ->
  blocks (off + n) = off / BSIZE + 1 /\ off / BSIZE <= blocks off <= off / BSIZE + 1.
Proof.
  unfold blocks, BSIZE. intros. pose proof (Z.mod_pos_bound off 512 ltac:(lia)). Z.div_mod_to_equations. lia.
Qed.
Lemma blocks_most n : 0 <= n <= most -> 0 <= blocks n <= 138.
Proof. unfold blocks, most, BSIZE. intros. Z.div_mod_to_equations. lia. Qed.
Lemma most_max : most <= MAXFILE * BSIZE.
Proof. vm_compute. congruence. Qed.
Lemma div_most off : 0 <= off < most -> 0 <= off / BSIZE < 138.
Proof. unfold most, BSIZE. intros. Z.div_mod_to_equations. lia. Qed.

Lemma here10 f addrs k : node f addrs (10%nat, [k]) <> 0 -> node f addrs (10%nat, []) <> 0.
Proof.
  change (10%nat, [k]) with (10%nat, [] ++ [k]). rewrite node_snoc. intros H E. apply H. by rewrite E.
Qed.

(** The positions given blocks after a block has been placed. *)
Lemma placed_here f fb addrs data f' fb' addrs' bn n : holds f fb addrs data -> 0 <= bn < 138 -> 0 < fb ->
  blocks n = bn + 1 -> bn <= blocks (zlen data) <= bn + 1 ->
  placed (way bn) f fb addrs f' fb' addrs' -> node f' addrs' (position bn) <> 0 ->
  (forall b, 0 <= b < 138 -> node f' addrs' (position b) = 0 <-> blocks n <= b) /\
  (node f' addrs' (10%nat, []) = 0 <-> blocks n <= 10).
Proof.
  intros Hh Hbn Hfb Hn Hb0 Hp H0. pose proof most_max as Hmm. assert (138 <= MAXFILE) as Hmax by (vm_compute; congruence).
  destruct (position_valid bn ltac:(lia)) as [Hv Hlf]. split.
  - intros b Hb. destruct (decide (b = bn)) as [->|Hne]; [lia|]. destruct (position_valid b ltac:(lia)) as [Hvb Hlb].
    destruct (pl_node _ _ _ _ _ _ _ Hp _ Hvb) as [E|(_ & _ & Hin)].
    + rewrite E. rewrite (hd_here _ _ _ _ Hh b Hb). lia.
    + exfalso. assert (position b = position bn) as E; [|apply Hne; apply position_inj; (done || lia)].
      unfold way in Hin. destruct (bn <? 10); [by apply list_elem_of_singleton in Hin|].
      apply elem_of_cons in Hin as [E|E]; [by apply (leaf_not10 _ Hlb) in E|by apply list_elem_of_singleton in E].
  - unfold way in Hp. destruct (Z.ltb_spec bn 10) as [Hd|Hd].
    + destruct (pl_node _ _ _ _ _ _ _ Hp _ valid10) as [E|(_ & _ & Hin)].
      * rewrite E, (hd_ind _ _ _ _ Hh). lia.
      * apply list_elem_of_singleton in Hin. exfalso. by apply (leaf_not10 _ Hlf).
    + rewrite position_indirect in H0 by lia. apply here10 in H0. lia.
Qed.

Lemma place_cost f fb addrs data bn n : holds f fb addrs data -> 0 <= bn < 138 ->
  blocks n = bn + 1 -> bn <= blocks (zlen data) <= bn + 1 ->
  missing f addrs (position bn) + (if bn <? 10 then 0 else missing f addrs (10%nat, [])) = cost n - cost (zlen data).
Proof.
  intros Hh Hbn Hn Hb. unfold missing, cost. pose proof (hd_here _ _ _ _ Hh bn Hbn) as H1. pose proof (hd_ind _ _ _ _ Hh) as H2.
  destruct (decide (node f addrs (position bn) = 0)), (decide (node f addrs (10%nat, []) = 0)),
    (Z.ltb_spec bn 10), (Z.ltb_spec 10 (blocks n)), (Z.ltb_spec 10 (blocks (zlen data))); lia.
Qed.

Lemma turn_run {B} s addrs data p (kk : list Z -> M image B)
    (off := zlen data) (n1 := turn off (zlen p)) (x := take (Z.to_nat n1) p) :
  ok s -> holds (img s) (m_freeblock s) addrs data -> p <> [] -> off + zlen p <= most -> m_freeblock s + 2 <= FSSIZE ->
  exists addrs' s',
    (r <- place addrs (off / BSIZE) ;; buf <- rsect r.2 ;;
     wsect r.2 (splice (Z.to_nat (off - off / BSIZE * BSIZE)) x buf) ;; kk r.1) s = kk addrs' s' /\
    ok s' /\ m_freeinode s' = m_freeinode s /\ holds (img s') (m_freeblock s') addrs' (data ++ x) /\
    extends (img s) (m_freeblock s) addrs (img s') (m_freeblock s') addrs' /\
    m_freeblock s' = m_freeblock s + cost (zlen (data ++ x)) - cost off.
Proof.
  intros Hok Hh Hp Hm Hfb. assert (0 < zlen p) as Hp0 by (destruct p; [done|unfold zlen; cbn; lia]).
  assert (0 <= off) as Hoff by (unfold off, zlen; lia). pose proof most_max as Hmm.
  destruct (turn_bounds off (zlen p) Hp0) as [Ht1 Ht2]. fold n1 in Ht1, Ht2.
  destruct (blocks_step off n1 Hoff ltac:(lia) Ht2) as [Hbs Hb0]. pose proof (ok_first _ Hok) as Hfirst. rewrite nmeta_eq in Hfirst.
  set (bn := off / BSIZE) in *. assert (0 <= bn < 138) as Hbn by (apply div_most; lia).
  assert (zlen x = n1) as Hx by (unfold x, zlen in *; rewrite length_take; lia).
  assert (zlen (data ++ x) = off + n1) as Hdx by (unfold zlen in *; rewrite length_app; lia).
  assert (138 <= MAXFILE) as Hmax by (vm_compute; congruence).
  destruct (place_run s addrs bn Hok (hd_tree _ _ _ _ Hh) Hbn Hfb) as (addrs1 & s1 & E1 & Hok1 & Hi1 & H01 & Hp1 & Hfb1).
  pose proof (pl_tree _ _ _ _ _ _ _ Hp1) as Htr1. destruct (position_valid bn ltac:(lia)) as [Hv Hlf].
  pose proof (place_cost _ _ _ _ bn (off + n1) Hh Hbn Hbs Hb0) as Hcost.
  assert (m_freeblock s1 <= FSSIZE) as Hfb1' by (rewrite Hfb1; unfold missing; repeat case_decide; destruct (bn <? 10); lia).
  set (b := node (img s1) addrs1 (position bn)) in *.
  pose proof (tr_range _ _ _ Htr1 _ Hv H01) as Hrb. rewrite nmeta_eq in Hrb. fold b in Hrb.
  set (y := splice (Z.to_nat (off - bn * BSIZE)) x (img s1 b)).
  rewrite (bind_Ok _ _ _ _ _ E1). cbn [fst snd].
  rewrite (bind_Ok _ _ _ _ _ (rsect_run s1 b Hok1 ltac:(lia))). fold y.
  rewrite (bind_Ok _ _ _ _ _ (wsect_run s1 b y Hok1 ltac:(lia))).
  assert (off - bn * BSIZE = off mod BSIZE) as Hmod by (unfold bn; rewrite Zmod_eq_full by done; lia).
  assert (length y = Z.to_nat BSIZE) as Hy.
  { unfold y. rewrite length_splice, (ok_len _ Hok1); [done|]. rewrite (ok_len _ Hok1). unfold zlen in Hx.
    pose proof (Z.mod_pos_bound off BSIZE ltac:(done)). lia. }
  pose proof (img_put b y s1) as Hf2. set (s2 := put b y s1) in *. change (m_freeblock s1) with (m_freeblock s2) in *.
  assert (0 <= bn < MAXFILE) as Hbm by lia.
  pose proof (leaf_node (img s1) (img s2) _ addrs1 bn y Htr1 Hbm H01 Hf2) as Hn2.
  destruct (placed_here _ _ _ _ _ _ _ bn (off + n1) Hh Hbn ltac:(lia) Hbs Hb0 Hp1 H01) as [Hh1 Hh2].
  exists addrs1, s2. split; [done|]. split; [apply ok_put; [done|done|exact (proj2 Hrb)]|]. split; [done|]. split; [split|split].
  - by apply (tree_ext _ _ _ _ Htr1).
  - lia.
  - intros b' Hb'. rewrite Hdx, Hn2 by (apply position_valid; lia). by apply Hh1.
  - rewrite Hdx, Hn2 by apply valid10. done.
  - assert (wrote (view (img s)) addrs (view (img s2)) addrs1 off x) as Hw.
    { apply wrote_turn with (v1 := view (img s1)); try done; [fold (zlen p); lia| | |].
      - unfold content. destruct (_ =? 0); [done|apply (ok_len _ Hok)].
      - by apply (placed_content (way bn) _ (m_freeblock s) _ _ (m_freeblock s1)); [apply Hh|lia|].
      - intros b' Hb'. fold bn. rewrite <- Hmod, (content_node (view (img s1)) addrs1 bn) by done.
        apply (leaf_content (img s1) (img s2) (m_freeblock s1) addrs1 bn y); done. }
    intros o Ho. rewrite Hw, (hd_byte _ _ _ _ Hh) by done. fold (zlen x). case_decide as Hin.
    + rewrite app_nth2 by (unfold off, zlen in Hin; lia). f_equal. unfold off, zlen in *. lia.
    + destruct (decide (o < off)); [rewrite app_nth1 by (unfold off, zlen in *; lia); done|].
      rewrite !nth_overflow; [done| |]; unfold off, zlen in *; rewrite ?length_app; lia.
  - eapply extends_trans; [by apply (placed_extends _ _ _ _ _ _ _ Hp1)|].
    by apply (leaf_extends (img s1) (img s2) _ addrs1 bn y).
  - rewrite Hdx. fold off in Hcost. lia.
Qed.

Lemma cost_mono m n : m <= n -> cost m <= cost n.
Proof.
  intros H. assert (blocks m <= blocks n) by (apply Z.div_le_mono; [done|lia]).
  unfold cost. destruct (Z.ltb_spec 10 (blocks m)), (Z.ltb_spec 10 (blocks n)); lia.
Qed.

Lemma iappend_loop_S fuel addrs off p (fbn := off / BSIZE)
    (n1 := Z.min (Z.of_nat (length p)) (u32 ((fbn + 1) * BSIZE - off))) : p <> [] -> fbn < MAXFILE ->
  iappend_loop (S fuel) addrs off p =
    (r <- place addrs fbn ;; buf <- rsect r.2 ;;
     wsect r.2 (splice (Z.to_nat (off - fbn * BSIZE)) (take (Z.to_nat n1) p) buf) ;;
     iappend_loop fuel r.1 (u32 (off + n1)) (drop (Z.to_nat n1) p)).
Proof. intros Hp Hf. destruct p; [done|]. cbn [iappend_loop]. fold fbn. by rewrite (proj2 (Z.ltb_lt fbn MAXFILE)). Qed.

Lemma iappend_loop_run fuel : forall s addrs data p, (length p <= fuel)%nat -> ok s ->
  holds (img s) (m_freeblock s) addrs data -> zlen (data ++ p) <= most ->
  m_freeblock s + cost (zlen (data ++ p)) - cost (zlen data) + 2 <= FSSIZE ->
  exists addrs' s', iappend_loop fuel addrs (zlen data) p s = Ok (addrs', zlen (data ++ p)) s' /\
    ok s' /\ m_freeinode s' = m_freeinode s /\ holds (img s') (m_freeblock s') addrs' (data ++ p) /\
    extends (img s) (m_freeblock s) addrs (img s') (m_freeblock s') addrs' /\
    m_freeblock s' = m_freeblock s + cost (zlen (data ++ p)) - cost (zlen data).
Proof.
  induction fuel as [|fuel IH]; intros s addrs data p Hl Hok Hh Hm Hfb;
    (destruct p as [|c p0]; [exists addrs, s; rewrite app_nil_r; split_and!; try done; [apply extends_refl|lia]|]).
  { cbn in Hl. lia. }
  set (p := c :: p0) in *. assert (p <> []) as Hp by done. clearbody p. clear c p0.
  set (off := zlen data) in *. assert (zlen (data ++ p) = off + zlen p) as Hdp by (unfold off, zlen; rewrite length_app; lia).
  assert (0 < zlen p) as Hp0 by (destruct p; [done|unfold zlen; cbn; lia]). assert (0 <= off) as Hoff by (unfold off, zlen; lia).
  pose proof (cost_mono off (zlen (data ++ p)) ltac:(lia)) as Hc.
  pose proof (Z.mod_pos_bound off BSIZE ltac:(done)) as Hmod. unfold BSIZE in Hmod.
  pose proof (div_most off ltac:(lia)) as Hbn. destruct (turn_bounds off (zlen p) Hp0) as [Ht1 Ht2].
  assert (138 <= MAXFILE) as Hmax by (vm_compute; congruence).
  rewrite iappend_loop_S by (done || lia).
  assert (Z.min (Z.of_nat (length p)) (u32 ((off / BSIZE + 1) * BSIZE - off)) = turn off (zlen p)) as ->.
  { unfold turn. f_equal. rewrite u32_small by (unfold BSIZE; Z.div_mod_to_equations; lia). unfold BSIZE. Z.div_mod_to_equations. lia. }
  destruct (turn_run s addrs data p (fun addrs => iappend_loop fuel addrs (u32 (off + turn off (zlen p)))
    (drop (Z.to_nat (turn off (zlen p))) p)) Hok Hh Hp ltac:(fold off; lia) ltac:(lia)) as (a1 & s1 & E1 & Hok1 & Hi1 & Hh1 & Hx1 & Hf1).
  fold off in E1, Hh1, Hf1. rewrite E1. set (n1 := turn off (zlen p)) in *. set (x := take (Z.to_nat n1) p) in *.
  assert (zlen (data ++ x) = off + n1) as Hdx by (unfold off, x, zlen in *; rewrite length_app, length_take; lia).
  rewrite u32_small by (unfold most, BSIZE in Hm; lia). rewrite <- Hdx.
  assert ((data ++ x) ++ drop (Z.to_nat n1) p = data ++ p) as Hap by (rewrite <- app_assoc; unfold x; by rewrite take_drop).
  destruct (IH s1 a1 (data ++ x) (drop (Z.to_nat n1) p)) as (a2 & s2 & E2 & Hok2 & Hi2 & Hh2 & Hx2 & Hf2); try done.
  - rewrite length_drop. unfold zlen in *. lia.
  - by rewrite Hap.
  - rewrite Hap. lia.
  - rewrite Hap in *. exists a2, s2. split; [exact E2|]. split; [done|]. split; [congruence|]. split; [done|].
    split; [by eapply extends_trans|]. lia.
Qed.

(** ** Inodes *)

Definition inode_at (f : Z -> block) (inum : Z) : dinode := get_dinode (f (inum / IPB + 62)) (dinode_off inum).

Lemma inode_block inum : 0 <= inum < 208 -> 62 <= inum / IPB + 62 < 88 /\ IBLOCK inum superblock = inum / IPB + 62.
Proof.
  intros Hi. change IPB with 8. assert (62 <= inum / 8 + 62 < 88) by (Z.div_mod_to_equations; lia). split; [done|].
  unfold IBLOCK. rewrite superblock_eq. change IPB with 8. cbn [Log.sb_inodestart]. apply u32_small. lia.
Qed.
Lemma dinode_room inum : (dinode_off inum + 64 <= Z.to_nat BSIZE)%nat.
Proof. unfold dinode_off, sizeof_dinode, BSIZE. change IPB with 8. pose proof (Z.mod_pos_bound inum 8 ltac:(lia)). lia. Qed.

Lemma rinode_run s inum : ok s -> 0 <= inum < 208 -> rinode inum s = Ok (inode_at (img s) inum) s.
Proof.
  intros Hok Hi. destruct (inode_block inum Hi) as [Hb E]. unfold rinode. mstep. rewrite (ok_sb _ Hok), E.
  by rewrite (bind_Ok _ _ _ _ _ (rsect_run s (inum / IPB + 62) Hok ltac:(lia))).
Qed.

Lemma winode_run s inum x : ok s -> 0 <= inum < 208 -> fits x ->
  exists s', winode inum x s = Ok tt s' /\ ok s' /\ m_freeblock s' = m_freeblock s /\ m_freeinode s' = m_freeinode s /\
    (forall b, b <> inum / IPB + 62 -> img s' b = img s b) /\
    (forall j, 0 <= j < 208 -> inode_at (img s') j = if decide (j = inum) then x else inode_at (img s) j).
Proof.
  intros Hok Hi Hx. destruct (inode_block inum Hi) as [Hb E]. unfold winode. mstep. rewrite (ok_sb _ Hok), E.
  rewrite (bind_Ok _ _ _ _ _ (rsect_run s (inum / IPB + 62) Hok ltac:(lia))).
  set (b := inum / IPB + 62) in *. set (y := put_dinode (dinode_off inum) x (img s b)).
  rewrite (wsect_run s b y Hok) by lia. pose proof (ok_first _ Hok) as H1. rewrite nmeta_eq in H1.
  pose proof (dinode_room inum) as Hroom. pose proof (ok_len _ Hok b) as Hlen.
  exists (put b y s). split; [done|]. split.
  { apply ok_put; [done|unfold y; by rewrite length_put_dinode|lia]. }
  split; [done|]. split; [done|]. split; [intros c Hc; by rewrite img_put, decide_False|].
  intros j Hj. unfold inode_at. rewrite img_put. destruct (decide (j = inum)) as [->|Hne].
  - rewrite decide_True by done. unfold y. apply get_put_dinode; [by rewrite Hlen|done].
  - case_decide as Hbj; [|done]. unfold y. rewrite get_put_dinode_ne; [by rewrite Hbj|by rewrite Hlen|apply Hx|].
    unfold b in Hbj. unfold dinode_off, sizeof_dinode. change IPB with 8 in *.
    assert (j mod 8 <> inum mod 8) by (Z.div_mod_to_equations; lia).
    pose proof (Z.mod_pos_bound inum 8 ltac:(lia)). pose proof (Z.mod_pos_bound j 8 ltac:(lia)). lia.
Qed.

(** ** The image with its inodes *)

Record ifile := mkFile { if_type : Z; if_addrs : list Z; if_data : list Z }.
Definition dinode_for (x : ifile) : dinode := mkDinode (if_type x) 0 0 1 (zlen (if_data x)) (if_addrs x).
Definition total (fs : list ifile) : Z := foldr (fun x n => cost (zlen (if_data x)) + n) 0 fs.

Record built (s : image) (fs : list ifile) : Prop := mkBuilt {
  bt_ok : ok s;
  bt_next : m_freeinode s = Z.of_nat (length fs) + 1;
  bt_room : (length fs <= 199)%nat;
  bt_total : m_freeblock s = nmeta + total fs;
  bt_super : img s 1 = put_words 0 super_words zero_block;
  bt_meta b : 1 < b < nmeta -> ~ 62 <= b < 88 -> img s b = zero_block;
  bt_type i x : fs !! i = Some x -> 0 < if_type x < 4;
  bt_inode i x : fs !! i = Some x -> inode_at (img s) (Z.of_nat i + 1) = dinode_for x;
  bt_none j : 0 <= j < 208 -> j = 0 \/ Z.of_nat (length fs) < j -> di_type (inode_at (img s) j) = 0;
  bt_holds i x : fs !! i = Some x -> holds (img s) (m_freeblock s) (if_addrs x) (if_data x);
  bt_apart i j x y : i <> j -> fs !! i = Some x -> fs !! j = Some y ->
    Fsdata.apart (view (img s)) (if_addrs y) (if_addrs x)
}.

Lemma holds_frame f fb addrs data f' fb' : holds f fb addrs data -> fb <= fb' ->
  (forall q, valid q -> node f addrs q <> 0 -> f' (node f addrs q) = f (node f addrs q)) ->
  holds f' fb' addrs data /\ forall q, valid q -> node f' addrs q = node f addrs q.
Proof.
  intros [Ht Hm Hh Hi Hb] Hfb Hf. assert (forall q, valid q -> node f' addrs q = node f addrs q) as Hn
    by (apply node_frame; intros; by apply Hf). assert (138 <= MAXFILE) as Hmax by (vm_compute; congruence).
  split; [|done]. split; try done.
  - destruct (tree_ext _ f' _ _ Ht Hn) as [Hl Hr Hj]. split; try done. intros q Hq H0. pose proof (Hr q Hq H0). lia.
  - intros bn Hbn. rewrite Hn by (apply position_valid; lia). by apply Hh.
  - intros o Ho. rewrite <- Hb by done. unfold file_byte. f_equal. unfold content. cbn [view d_mem].
    destruct (position_valid (o / BSIZE) (div_range o Ho)) as [Hv _]. rewrite Hn by done.
    destruct (Z.eqb_spec (node f addrs (position (o / BSIZE))) 0); [done|]. by apply Hf.
Qed.

Lemma tree_addrs f fb addrs : tree f fb addrs -> fb <= FSSIZE -> Forall (fun a => 0 <= a < 2 ^ 32) addrs.
Proof.
  intros Ht Hfb. apply Forall_forall. intros a Ha. apply list_elem_of_lookup in Ha as [i Hi].
  pose proof (lookup_lt_Some _ _ _ Hi) as Hl. rewrite (tr_len _ _ _ Ht) in Hl.
  pose proof (node_small _ _ _ _ Ht Hfb (root_valid i Hl)) as Hr. change (0 <= nth i addrs 0 < FSSIZE) in Hr.
  rewrite (nth_lookup_Some _ _ _ _ Hi) in Hr. lia.
Qed.

Lemma fits_dinode f fb x : 0 < if_type x < 4 -> holds f fb (if_addrs x) (if_data x) -> fb <= FSSIZE -> fits (dinode_for x).
Proof.
  intros Ht Hh Hfb. pose proof (hd_most _ _ _ _ Hh) as Hm. unfold most, BSIZE in Hm.
  split; cbn [dinode_for di_type di_major di_minor di_nlink di_size di_addrs]; try lia.
  - unfold zlen in *. lia.
  - apply (tr_len _ _ _ (hd_tree _ _ _ _ Hh)).
  - by apply (tree_addrs f fb); [apply Hh|].
Qed.

Lemma cost_total_cons x fs : total (x :: fs) = cost (zlen (if_data x)) + total fs.
Proof. done. Qed.
Lemma cost_total_app fs fs' : total (fs ++ fs') = total fs + total fs'.
Proof.
  induction fs as [|x fs IH]; [done|]. change ((x :: fs) ++ fs') with (x :: (fs ++ fs')). rewrite !cost_total_cons, IH. lia.
Qed.
Lemma cost_total_insert fs i x y : fs !! i = Some x ->
  total (<[i := y]> fs) = total fs + cost (zlen (if_data y)) - cost (zlen (if_data x)).
Proof.
  revert i. induction fs as [|z fs IH]; intros i Hi; [done|]. destruct i as [|i]; cbn in Hi.
  - injection Hi as ->. change (<[0%nat := y]> (x :: fs)) with (y :: fs). rewrite !cost_total_cons. lia.
  - change (<[S i := y]> (z :: fs)) with (z :: <[i := y]> fs). rewrite !cost_total_cons, (IH i Hi). lia.
Qed.
Lemma cost_pos n : 0 <= n -> 0 <= cost n.
Proof.
  intros Hn. assert (0 <= blocks n) by (unfold blocks, BSIZE; apply Z.div_pos; lia). unfold cost. destruct (10 <? _); lia.
Qed.
Lemma cost_total_pos fs : 0 <= total fs.
Proof. induction fs as [|x fs IH]; [done|]. rewrite cost_total_cons. pose proof (cost_pos (zlen (if_data x)) ltac:(unfold zlen; lia)). lia. Qed.

(** A file with a new tree and new contents, written to its inode. *)
Lemma built_update s fs i x s1 addrs1 data1 s2 (y := mkFile (if_type x) addrs1 data1) :
  built s fs -> fs !! i = Some x -> ok s1 -> m_freeinode s1 = m_freeinode s ->
  holds (img s1) (m_freeblock s1) addrs1 data1 ->
  extends (img s) (m_freeblock s) (if_addrs x) (img s1) (m_freeblock s1) addrs1 ->
  m_freeblock s1 = m_freeblock s + cost (zlen data1) - cost (zlen (if_data x)) ->
  ok s2 -> m_freeblock s2 = m_freeblock s1 -> m_freeinode s2 = m_freeinode s1 ->
  (forall b, b <> (Z.of_nat i + 1) / IPB + 62 -> img s2 b = img s1 b) ->
  (forall j, 0 <= j < 208 -> inode_at (img s2) j = if decide (j = Z.of_nat i + 1) then dinode_for y else inode_at (img s1) j) ->
  built s2 (<[i := y]> fs).
Proof.
  intros [Hok Hnx Hrm Htot Hsup Hmeta Hty Hino Hnone Hh Hap] Hx Hok1 Hi1 Hh1 Hex Hfb1 Hok2 Hfb2 Hi2 Hb2 Hn2.
  pose proof (lookup_lt_Some _ _ _ Hx) as Hil. destruct (inode_block (Z.of_nat i + 1) ltac:(lia)) as [Hib _].
  set (ib := (Z.of_nat i + 1) / IPB + 62) in *. pose proof (ok_first _ Hok) as Hfirst. rewrite nmeta_eq in *.
  pose proof (ex_more _ _ _ _ _ _ Hex) as Hmore. pose proof (Hh i x Hx) as Hhx.
  assert (forall b, 0 < b < 98 -> img s1 b = img s b) as Hlow.
  { intros b Hb. apply (ex_frame _ _ _ _ _ _ Hex); [lia|]. intros q Hq E.
    pose proof (tr_range _ _ _ (hd_tree _ _ _ _ Hhx) q Hq ltac:(lia)). rewrite nmeta_eq in *. lia. }
  assert (forall b, 98 <= b -> img s2 b = img s1 b) as Hhigh by (intros b Hb; apply Hb2; lia).
  assert (forall j, 0 <= j < 208 -> inode_at (img s1) j = inode_at (img s) j) as Hkeep.
  { intros j Hj. unfold inode_at. rewrite Hlow; [done|]. destruct (inode_block j Hj). lia. }
  assert (holds (img s2) (m_freeblock s2) addrs1 data1 /\ forall q, valid q -> node (img s2) addrs1 q = node (img s1) addrs1 q) as [Hh2 Hnode1].
  { apply (holds_frame (img s1) (m_freeblock s1)); [done|lia|]. intros q Hq H0. apply Hhigh.
    pose proof (tr_range _ _ _ (hd_tree _ _ _ _ Hh1) q Hq H0). rewrite nmeta_eq in *. lia. }
  assert (forall k z, fs !! k = Some z -> k <> i ->
    holds (img s2) (m_freeblock s2) (if_addrs z) (if_data z) /\
    forall q, valid q -> node (img s2) (if_addrs z) q = node (img s) (if_addrs z) q) as Hother.
  { intros k z Hz Hk. apply (holds_frame (img s) (m_freeblock s)); [by eapply Hh|lia|]. intros q Hq H0.
    pose proof (tr_range _ _ _ (hd_tree _ _ _ _ (Hh k z Hz)) q Hq H0) as Hr. rewrite nmeta_eq in Hr.
    rewrite Hhigh by lia. apply (ex_frame _ _ _ _ _ _ Hex); [lia|]. intros q' Hq'. by apply (Hap k i z x). }
  assert (forall k z, <[i := y]> fs !! k = Some z -> (k = i /\ z = y) \/ (k <> i /\ fs !! k = Some z)) as Hcase.
  { intros k z Hz. destruct (decide (k = i)) as [->|Hk]; [left|right].
    - rewrite list_lookup_insert_eq in Hz by done. by injection Hz.
    - by rewrite list_lookup_insert_ne in Hz. }
  split; try done.
  - rewrite length_insert. lia.
  - by rewrite length_insert.
  - rewrite (cost_total_insert _ _ x), nmeta_eq by done. cbn [y if_data]. lia.
  - rewrite Hb2, Hlow by lia. done.
  - intros b Hb Hni. rewrite nmeta_eq in Hb. rewrite Hb2, Hlow by lia. apply Hmeta; [lia|done].
  - intros k z Hz. destruct (Hcase k z Hz) as [[-> ->]|[_ Hz']]; [exact (Hty _ _ Hx)|by eapply Hty].
  - intros k z Hz. pose proof (lookup_lt_Some _ _ _ Hz) as Hkl. rewrite length_insert in Hkl. rewrite Hn2 by lia.
    destruct (Hcase k z Hz) as [[-> ->]|[Hk Hz']]; [by rewrite decide_True|].
    rewrite decide_False, Hkeep by lia. by apply Hino.
  - intros j Hj. rewrite length_insert. intros Hn. rewrite Hn2, decide_False, Hkeep by lia. by apply Hnone.
  - intros k z Hz. destruct (Hcase k z Hz) as [[-> ->]|[Hk Hz']]; [done|by apply (Hother k)].
  - intros k j z w Hkj Hz Hw q q' Hq Hq'. cbn [view d_mem].
    destruct (Hcase k z Hz) as [[-> ->]|[Hk Hz']], (Hcase j w Hw) as [[-> ->]|[Hj Hw']]; try done.
    + cbn [y if_addrs]. rewrite Hnode1, (proj2 (Hother j w Hw' Hj)) by done. intros H0 E.
      destruct (ex_node _ _ _ _ _ _ Hex q Hq) as [E1|E1].
      * rewrite E1 in *. apply (Hap i j x w) with (q := q) (q' := q'); (done || congruence).
      * assert (node (img s) (if_addrs w) q' <> 0) as H1 by lia.
        pose proof (tr_range _ _ _ (hd_tree _ _ _ _ (Hh j w Hw')) q' Hq' H1). lia.
    + cbn [y if_addrs]. rewrite Hnode1, (proj2 (Hother k z Hz' Hk)) by done. intros H0 E.
      destruct (ex_node _ _ _ _ _ _ Hex q' Hq') as [E1|E1].
      * rewrite E1 in *. apply (Hap k i z x) with (q := q) (q' := q'); done.
      * pose proof (tr_range _ _ _ (hd_tree _ _ _ _ (Hh k z Hz')) q Hq H0). lia.
    + rewrite (proj2 (Hother k z Hz' Hk)), (proj2 (Hother j w Hw' Hj)) by done. by apply (Hap k j z w).
Qed.


Lemma iappend_run s fs i x p : built s fs -> fs !! i = Some x -> zlen (if_data x ++ p) <= most ->
  m_freeblock s + cost (zlen (if_data x ++ p)) - cost (zlen (if_data x)) + 2 <= FSSIZE ->
  exists addrs' s', iappend (Z.of_nat i + 1) p s = Ok tt s' /\
    built s' (<[i := mkFile (if_type x) addrs' (if_data x ++ p)]> fs).
Proof.
  intros Hb Hx Hm Hfb. pose proof (lookup_lt_Some _ _ _ Hx) as Hil. pose proof (bt_room _ _ Hb) as Hroom.
  pose proof (bt_ok _ _ Hb) as Hok. pose proof (bt_holds _ _ Hb i x Hx) as Hh. pose proof (bt_type _ _ Hb i x Hx) as Hty.
  pose proof (hd_most _ _ _ _ Hh) as Hm0. unfold most, BSIZE in *.
  unfold iappend. rewrite (bind_Ok _ _ _ _ _ (rinode_run s (Z.of_nat i + 1) Hok ltac:(lia))).
  rewrite (bt_inode _ _ Hb i x Hx). cbn [dinode_for di_type di_major di_minor di_nlink di_size di_addrs].
  rewrite xint_id by (unfold zlen in *; lia).
  destruct (iappend_loop_run (length p) s (if_addrs x) (if_data x) p ltac:(lia) Hok Hh Hm ltac:(lia))
    as (a1 & s1 & E1 & Hok1 & Hi1 & Hh1 & Hx1 & Hf1).
  rewrite (bind_Ok _ _ _ _ _ E1). cbn [fst snd]. rewrite xint_id by (unfold zlen in *; lia).
  set (y := mkFile (if_type x) a1 (if_data x ++ p)).
  assert (fits (dinode_for y)) as Hfit by (apply (fits_dinode (img s1) (m_freeblock s1)); [exact Hty|exact Hh1|lia]).
  destruct (winode_run s1 (Z.of_nat i + 1) (dinode_for y) Hok1 ltac:(lia) Hfit) as (s2 & E2 & Hok2 & Hf2 & Hi2 & Hb2 & Hn2).
  exists a1, s2. split; [exact E2|]. by apply (built_update s fs i x s1 a1 (if_data x ++ p) s2).
Qed.

(** ** New inodes *)

Lemma node_empty f q : node f (replicate 13 0) q = 0.
Proof.
  destruct q as [i p]. unfold node. cbn [fst snd]. assert (nth i (replicate 13 0) 0 = 0) as ->.
  { do 13 (destruct i as [|i]; [done|]). by destruct i. }
  by destruct p.
Qed.
Lemma holds_empty f fb : holds f fb (replicate 13 0) [].
Proof.
  split.
  - split; [done| |]; intros q; rewrite node_empty; done.
  - vm_compute. congruence.
  - intros bn Hbn. rewrite node_empty. change (blocks (zlen [])) with 0. lia.
  - rewrite node_empty. done.
  - intros o Ho. unfold file_byte, content. rewrite node_empty. cbn [Z.eqb]. rewrite nth_overflow by (cbn; lia).
    unfold byte_at, zero_block. destruct (_ !! _) eqn:E; [|done]. by apply lookup_replicate in E as [-> _].
Qed.

Definition empty_file (type : Z) : ifile := mkFile type (replicate 13 0) [].
Lemma cost_total_snoc fs type : total (fs ++ [empty_file type]) = total fs.
Proof. rewrite cost_total_app. change (total [empty_file type]) with 0. lia. Qed.

Lemma ialloc_run s fs type : built s fs -> (length fs < 199)%nat -> 0 < type < 4 ->
  exists s', ialloc type s = Ok (Z.of_nat (length fs) + 1) s' /\ built s' (fs ++ [empty_file type]).
Proof.
  intros Hb Hl Hty. pose proof Hb as [Hok Hnx Hrm Htot Hsup Hmeta Hty0 Hino Hnone Hh Hap].
  unfold ialloc. mstep. rewrite Hnx, u32_small, !xshort_id, xint_id by lia.
  set (n := Z.of_nat (length fs) + 1). set (s1 := s <| m_freeinode := n + 1 |>).
  assert (ok s1) as Hok1 by (destruct Hok; by split).
  assert (fits (dinode_for (empty_file type))) as Hfit.
  { apply (fits_dinode (img s) 0); [exact Hty|apply holds_empty|lia]. }
  destruct (winode_run s1 n (dinode_for (empty_file type)) Hok1 ltac:(lia) Hfit) as (s2 & E2 & Hok2 & Hf2 & Hi2 & Hb2 & Hn2).
  change (mkDinode type 0 0 1 0 (replicate 13 0)) with (dinode_for (empty_file type)).
  rewrite (bind_Ok _ _ _ _ _ E2). exists s2. split; [done|].
  destruct (inode_block n ltac:(lia)) as [Hib _]. change (img s1) with (img s) in *. change (m_freeblock s1) with (m_freeblock s) in *.
  assert (forall k z, (fs ++ [empty_file type]) !! k = Some z -> (k < length fs)%nat /\ fs !! k = Some z \/ k = length fs /\ z = empty_file type) as Hcase.
  { intros k z Hz. apply lookup_app_Some in Hz as [Hz|[Hk Hz]]; [left; split; [by eapply lookup_lt_Some|done]|right].
    apply list_lookup_singleton_Some in Hz as [Hk' <-]. split; [lia|done]. }
  assert (forall k z, fs !! k = Some z -> holds (img s2) (m_freeblock s2) (if_addrs z) (if_data z) /\
    forall q, valid q -> node (img s2) (if_addrs z) q = node (img s) (if_addrs z) q) as Hold.
  { intros k z Hz. apply (holds_frame (img s) (m_freeblock s)); [by eapply Hh|lia|]. intros q Hq H0. apply Hb2.
    pose proof (tr_range _ _ _ (hd_tree _ _ _ _ (Hh k z Hz)) q Hq H0). rewrite nmeta_eq in *. lia. }
  split; try done.
  - rewrite length_app, Hi2. change (m_freeinode s1) with (n + 1). cbn. lia.
  - rewrite length_app. cbn. lia.
  - rewrite cost_total_snoc. lia.
  - rewrite Hb2 by lia. done.
  - intros b Hbb Hni. rewrite Hb2 by lia. by apply Hmeta.
  - intros k z Hz. destruct (Hcase k z Hz) as [[_ Hz']|[_ ->]]; [by eapply Hty0|done].
  - intros k z Hz. destruct (Hcase k z Hz) as [[Hk Hz']|[-> ->]]; rewrite Hn2 by lia.
    + rewrite decide_False by lia. by apply Hino.
    + by rewrite decide_True.
  - intros j Hj. rewrite length_app. cbn [length]. intros Hj'. rewrite Hn2, decide_False by lia. apply Hnone; lia.
  - intros k z Hz. destruct (Hcase k z Hz) as [[_ Hz']|[_ ->]]; [by apply (Hold k)|apply holds_empty].
  - intros k j z w Hkj Hz Hw q q' Hq Hq'. cbn [view d_mem].
    destruct (Hcase k z Hz) as [[Hk Hz']|[-> ->]]; [|intros H0; exfalso; apply H0; apply node_empty].
    rewrite (proj2 (Hold k z Hz')) by done. destruct (Hcase j w Hw) as [[Hj Hw']|[-> ->]].
    + rewrite (proj2 (Hold j w Hw')) by done. by apply (Hap k j z w).
    + cbn [empty_file if_addrs]. rewrite node_empty. intros H0 E. by apply H0.
Qed.

Lemma append_file_run fuel : forall s fs i x p, (length p <= fuel)%nat -> built s fs -> fs !! i = Some x ->
  zlen (if_data x ++ p) <= most ->
  m_freeblock s + cost (zlen (if_data x ++ p)) - cost (zlen (if_data x)) + 2 <= FSSIZE ->
  exists addrs' s', append_file fuel (Z.of_nat i + 1) p s = Ok tt s' /\
    built s' (<[i := mkFile (if_type x) addrs' (if_data x ++ p)]> fs).
Proof.
  induction fuel as [|fuel IH]; intros s fs i x p Hl Hb Hx Hm Hfb.
  - destruct p; [|cbn in Hl; lia]. exists (if_addrs x), s. split; [done|]. rewrite app_nil_r.
    rewrite list_insert_id; [done|]. rewrite Hx. by destruct x.
  - destruct (decide (p = [])) as [->|Hp].
    { exists (if_addrs x), s. split; [done|]. rewrite app_nil_r. rewrite list_insert_id; [done|]. rewrite Hx. by destruct x. }
    set (p1 := take (Z.to_nat BSIZE) p). set (p2 := drop (Z.to_nat BSIZE) p).
    assert (p1 ++ p2 = p) as Hpp by apply take_drop. assert (0 < length p)%nat by (destruct p; [done|cbn; lia]).
    assert (length p2 < length p)%nat by (unfold p2; rewrite length_drop; change (Z.to_nat BSIZE) with 512%nat; lia).
    assert (zlen (if_data x ++ p1) <= zlen (if_data x ++ p)) as Hle by (rewrite <- Hpp; unfold zlen; rewrite !length_app; lia).
    pose proof (cost_mono _ _ Hle) as Hc.
    destruct (iappend_run s fs i x p1 Hb Hx ltac:(lia) ltac:(lia)) as (a1 & s1 & E1 & Hb1).
    set (x1 := mkFile (if_type x) a1 (if_data x ++ p1)) in *. pose proof (lookup_lt_Some _ _ _ Hx) as Hil.
    assert (<[i := x1]> fs !! i = Some x1) as Hx1 by (by apply list_lookup_insert_eq).
    pose proof (bt_total _ _ Hb1) as Ht1. rewrite (cost_total_insert _ _ x) in Ht1 by done.
    pose proof (bt_total _ _ Hb) as Ht0. cbn [x1 if_data] in Ht1.
    assert ((if_data x ++ p1) ++ p2 = if_data x ++ p) as Hap by (by rewrite <- app_assoc, Hpp).
    destruct (IH s1 _ i x1 p2 ltac:(lia) Hb1 Hx1) as (a2 & s2 & E2 & Hb2); cbn [x1 if_data]; rewrite ?Hap; [done|lia|].
    exists a2, s2. split.
    { destruct p; [done|]. cbn [append_file]. fold p1 p2. rewrite (bind_Ok _ _ _ _ _ E1). exact E2. }
    cbn [x1 if_data if_type] in Hb2. rewrite Hap, list_insert_insert_eq in Hb2. exact Hb2.
Qed.

(** ** The files of the command line *)

Abbreviation given := (list Z * option (list Z))%type.
Definition contents (f : given) : list Z := default [] f.2.
(** A name without a slash, and a file that can be read and fits behind one indirect block. *)
Definition acceptable (f : given) : Prop :=
  existsb (Z.eqb SLASH) f.1 = false /\ is_Some f.2 /\ zlen (contents f) <= most.
Fixpoint entries (inum : Z) (files : list given) : list Z :=
  match files with
  | [] => []
  | f :: files' => entry inum (skip_underscore f.1) ++ entries (inum + 1) files'
  end.
Definition file_cost (files : list given) : Z := foldr (fun f n => cost (zlen (contents f)) + n) 0 files.
Definition shape (fs : list ifile) : list (Z * list Z) := map (fun x => (if_type x, if_data x)) fs.
Definition leaf_shape (f : given) : Z * list Z := (T_FILE, contents f).

Lemma entry_length inum name : length (entry inum name) = 16%nat.
Proof. unfold entry. rewrite !length_app, length_put16, length_take, length_replicate. unfold DIRSIZ. cbn [length]. lia. Qed.
Lemma entries_length files : forall inum, zlen (entries inum files) = 16 * Z.of_nat (length files).
Proof.
  induction files as [|f files IH]; intros inum; [done|]. unfold zlen in *. cbn [entries length].
  rewrite length_app, entry_length. specialize (IH (inum + 1)). lia.
Qed.
Lemma file_cost_cons f files : file_cost (f :: files) = cost (zlen (contents f)) + file_cost files.
Proof. done. Qed.
Lemma file_cost_pos files : 0 <= file_cost files.
Proof.
  induction files as [|f files IH]; [done|]. rewrite file_cost_cons.
  pose proof (cost_pos (zlen (contents f)) ltac:(unfold zlen; lia)). lia.
Qed.

Lemma add_file_run s fs x f (r := if_data x ++ entry (Z.of_nat (length fs) + 1) (skip_underscore f.1)) :
  built s fs -> fs !! 0%nat = Some x -> acceptable f -> (length fs < 199)%nat -> zlen r <= most ->
  m_freeblock s + cost (zlen r) - cost (zlen (if_data x)) + cost (zlen (contents f)) + 2 <= FSSIZE ->
  exists a1 a2 s', add_file 1 f s = Ok tt s' /\
    built s' (<[0%nat := mkFile (if_type x) a1 r]> fs ++ [mkFile T_FILE a2 (contents f)]).
Proof.
  intros Hb Hx (Hs & [d Hd] & Hm) Hl Hr Hfb. unfold add_file. rewrite Hs, Hd.
  assert (contents f = d) as Hcd by (unfold contents; by rewrite Hd). rewrite Hcd in *.
  pose proof (lookup_lt_Some _ _ _ Hx) as Hl0. pose proof (cost_pos (zlen d) ltac:(unfold zlen; lia)) as Hcp.
  destruct (ialloc_run s fs T_FILE Hb Hl ltac:(unfold T_FILE; lia)) as (s1 & E1 & Hb1). rewrite (bind_Ok _ _ _ _ _ E1).
  pose proof (bt_total _ _ Hb) as Ht0. pose proof (bt_total _ _ Hb1) as Ht1. rewrite cost_total_snoc in Ht1.
  assert ((fs ++ [empty_file T_FILE]) !! 0%nat = Some x) as Hx1 by (by rewrite lookup_app_l).
  destruct (iappend_run s1 _ 0 x (entry (Z.of_nat (length fs) + 1) (skip_underscore f.1)) Hb1 Hx1 Hr ltac:(fold r; lia))
    as (a1 & s2 & E2 & Hb2).
  change (Z.of_nat 0 + 1) with 1 in E2. rewrite (bind_Ok _ _ _ _ _ E2). fold r in Hb2. rewrite insert_app_l in Hb2 by done.
  set (fs2 := <[0%nat := mkFile (if_type x) a1 r]> fs) in *.
  assert (length fs2 = length fs) as Hl2 by apply length_insert.
  assert ((fs2 ++ [empty_file T_FILE]) !! length fs = Some (empty_file T_FILE)) as Hx2 by (rewrite <- Hl2; by apply list_lookup_middle).
  pose proof (bt_total _ _ Hb2) as Ht2. rewrite cost_total_snoc in Ht2. unfold fs2 in Ht2. rewrite (cost_total_insert _ _ x) in Ht2 by done.
  cbn [if_data] in Ht2.
  destruct (append_file_run (length d) s2 _ (length fs) _ d ltac:(lia) Hb2 Hx2) as (a2 & s3 & E3 & Hb3);
    cbn [empty_file if_data app]; [done|change (cost (zlen [])) with 0; lia|].
  exists a1, a2, s3. split; [exact E3|]. cbn [empty_file if_data if_type app] in Hb3.
  rewrite <- Hl2, insert_app_r_alt, Nat.sub_diag in Hb3 by lia. exact Hb3.
Qed.

Lemma files_run files : forall s fs r l, built s fs -> shape fs = (T_DIR, r) :: l -> Forall acceptable files ->
  (length fs + length files <= 199)%nat -> zlen (r ++ entries (Z.of_nat (length fs) + 1) files) <= most ->
  m_freeblock s + cost (zlen (r ++ entries (Z.of_nat (length fs) + 1) files)) - cost (zlen r) + file_cost files + 2 <= FSSIZE ->
  exists s' fs', forM files (add_file 1) s = Ok tt s' /\ built s' fs' /\
    shape fs' = (T_DIR, r ++ entries (Z.of_nat (length fs) + 1) files) :: l ++ map leaf_shape files.
Proof.
  induction files as [|f files IH]; intros s fs r l Hb Hsh Hacc Hl Hm Hfb.
  { exists s, fs. split; [done|]. split; [done|]. cbn. by rewrite !app_nil_r. }
  apply Forall_cons in Hacc as [Hf Hacc]. cbn [entries length] in *. rewrite file_cost_cons in Hfb.
  destruct fs as [|x fs]; [done|]. injection Hsh as Hty Hdata Htl.
  set (n := Z.of_nat (length (x :: fs)) + 1) in *. set (e := entry n (skip_underscore f.1)) in *.
  rewrite app_assoc in *. pose proof (file_cost_pos files) as Hfc.
  assert (zlen (r ++ e) <= zlen ((r ++ e) ++ entries (n + 1) files)) as Hle by (unfold zlen; rewrite !length_app; lia).
  pose proof (cost_mono _ _ Hle) as Hc.
  destruct (add_file_run s (x :: fs) x f Hb eq_refl Hf ltac:(lia)) as (a1 & a2 & s1 & E1 & Hb1);
    [fold n e; rewrite Hdata; lia|fold n e; rewrite Hdata; lia|].
  fold n e in Hb1. cbn [forM]. rewrite (bind_Ok _ _ _ _ _ E1). rewrite Hdata, Hty in Hb1. cbn [insert list_insert app] in Hb1.
  set (fs1 := mkFile T_DIR a1 (r ++ e) :: fs ++ [mkFile T_FILE a2 (contents f)]) in *.
  assert (length fs1 = S (length (x :: fs))) as Hl1 by (unfold fs1; cbn; rewrite length_app; cbn; lia).
  assert (Z.of_nat (length fs1) + 1 = n + 1) as Hn1 by lia.
  pose proof (bt_total _ _ Hb) as Ht0. pose proof (bt_total _ _ Hb1) as Ht1.
  assert (total fs1 = total (x :: fs) + cost (zlen (r ++ e)) - cost (zlen r) + cost (zlen (contents f))) as Htt.
  { unfold fs1. rewrite !cost_total_cons, cost_total_app, Hdata. cbn [if_data]. rewrite cost_total_cons. change (total []) with 0. cbn [if_data]. lia. }
  destruct (IH s1 fs1 (r ++ e) (l ++ [leaf_shape f]) Hb1) as (s' & fs' & E' & Hb' & Hsh'); rewrite ?Hn1; try done; try lia.
  - unfold fs1, shape. cbn [map if_type if_data]. rewrite map_app. cbn [map]. f_equal. f_equal. exact Htl.
  - exists s', fs'. split; [exact E'|]. split; [done|]. rewrite Hsh', Hn1. cbn [map]. by rewrite <- !app_assoc.
Qed.

(** ** Formatting *)

Lemma zero_run n : forall k s, 0 <= k -> k + Z.of_nat n <= FSSIZE -> m_sectors s = k ->
  (forall b, img s b = zero_block) ->
  exists s', forM (seqZ k (Z.of_nat n)) (fun i => wsect i zero_block) s = Ok tt s' /\ m_sectors s' = k + Z.of_nat n /\
    (forall b, img s' b = zero_block) /\ m_sb s' = m_sb s /\ m_freeinode s' = m_freeinode s /\ m_freeblock s' = m_freeblock s.
Proof.
  induction n as [|n IH]; intros k s Hk Hn Hs Hz; [exists s; split_and!; try done; lia|].
  rewrite seqZ_cons by lia. cbn [forM].
  assert (wsect k zero_block s = Ok tt (put k zero_block s <| m_sectors := k + 1 |>)) as E.
  { unfold wsect. mstep. rewrite sector_id by lia. destruct s as [d m sb i f]. cbn in Hs. subst m.
    unfold modify, put. f_equal.
    change (mkImage (<[k := zero_block]> d) (Z.max (k + 1) k) sb i f = mkImage (<[k := zero_block]> d) (k + 1) sb i f).
    f_equal. lia. }
  rewrite (bind_Ok _ _ _ _ _ E). set (s1 := put k zero_block s <| m_sectors := k + 1 |>).
  destruct (IH (k + 1) s1) as (s' & E' & Hs' & Hz' & H1 & H2 & H3); try done; try lia.
  { intros b. change (img (put k zero_block s) b = zero_block). rewrite img_put. by case_decide. }
  exists s'. replace (Z.pred (Z.of_nat (S n))) with (Z.of_nat n) by lia. split_and!; try done; lia.
Qed.

Lemma byte_zero o : byte_at zero_block o = 0.
Proof. unfold byte_at, zero_block. destruct (_ !! _) eqn:E; [|done]. by apply lookup_replicate in E as [-> _]. Qed.
Lemma type_zero o : di_type (get_dinode zero_block o) = 0.
Proof. unfold get_dinode. cbn [di_type]. unfold get16. by rewrite !byte_zero. Qed.

Lemma format_run : exists s, format image0 = Ok tt s /\ built s [].
Proof.
  unfold format. mstep. set (s0 := image0 <| m_sb := superblock |> <| m_freeblock := nmeta |>).
  destruct (zero_run (Z.to_nat FSSIZE) 0 s0) as (s1 & E & Hs & Hz & H1 & H2 & H3); [lia|rewrite Z2Nat.id; lia|done|done|].
  rewrite Z2Nat.id in E, Hs by lia. rewrite (bind_Ok _ _ _ _ _ E). clear E.
  change (m_sb s1 = superblock) in H1. change (m_freeinode s1 = 1) in H2. change (m_freeblock s1 = 98) in H3. clear s0.
  assert (ok s1) as Hok.
  { split; [done|lia|intros b; by rewrite Hz|rewrite nmeta_eq; lia|intros b _; apply Hz]. }
  set (x := put_words 0 super_words zero_block). rewrite (wsect_run s1 1 x Hok) by lia.
  exists (put 1 x s1). split; [done|].
  split; try done.
  - apply ok_put; [done|apply (length_put_words _ _ zero_block)|lia].
  - cbn. lia.
  - by rewrite img_put, decide_True.
  - intros b Hb _. rewrite img_put, decide_False by lia. apply Hz.
  - intros j Hj _. unfold inode_at. destruct (inode_block j Hj). rewrite img_put, decide_False, Hz by lia. apply type_zero.
Qed.

(** ** The bitmap *)

Lemma bits_run n : forall k d, 0 <= k -> k + Z.of_nat n <= BPB -> length d = Z.to_nat BSIZE ->
  (forall j, 0 <= j < BPB -> bit_set d j = (j <? k)) ->
  let d' := foldl (fun buf i => set_bit i buf) d (seqZ k (Z.of_nat n)) in
  length d' = Z.to_nat BSIZE /\ forall j, 0 <= j < BPB -> bit_set d' j = (j <? k + Z.of_nat n).
Proof.
  induction n as [|n IH]; intros k d Hk Hn Hl Hd; cbv zeta.
  { split; [done|]. intros j Hj. rewrite Hd by done. f_equal. lia. }
  rewrite seqZ_cons by lia. cbn [foldl]. replace (Z.pred (Z.of_nat (S n))) with (Z.of_nat n) by lia.
  destruct (IH (Z.succ k) (set_bit k d)) as [H1 H2]; [lia|lia|unfold set_bit; by rewrite length_put8| |].
  - intros j Hj. rewrite bit_set_set by (done || lia). rewrite Hd by done.
    case_bool_decide; cbn; destruct (Z.ltb_spec j k), (Z.ltb_spec j (Z.succ k)); lia.
  - split; [done|]. intros j Hj. rewrite H2 by done. f_equal. lia.
Qed.
Lemma bit_zero j : bit_set zero_block j = false.
Proof. rewrite bit_set_testbit, byte_zero. apply Z.testbit_0_l. Qed.

Lemma mkfs_balloc_run s : ok s -> m_freeblock s < BPB -> exists x, balloc (i32 (m_freeblock s)) s = Ok tt (put 88 x s) /\
  length x = Z.to_nat BSIZE /\ forall j, 0 <= j < BPB -> bit_set x j = (j <? m_freeblock s).
Proof.
  intros Hok Hf. pose proof (ok_first _ Hok) as H1. rewrite nmeta_eq in H1. change BPB with 4096 in Hf.
  unfold balloc. rewrite i32_small by lia. change (BSIZE * 8) with 4096. rewrite (proj2 (Z.ltb_lt _ 4096) Hf). cbn [negb]. mstep.
  rewrite (ok_sb _ Hok), superblock_eq. cbn [Log.sb_bmapstart].
  set (x := foldl _ _ _). rewrite (wsect_run s 88 x Hok) by lia. exists x. split; [done|].
  pose proof (bits_run (Z.to_nat (m_freeblock s)) 0 zero_block ltac:(lia)) as Hb. rewrite Z2Nat.id in Hb by lia. apply Hb.
  - change BPB with 4096. lia.
  - done.
  - intros j Hj. rewrite bit_zero. lia.
Qed.

(** ** The image *)

Definition pad (l : list Z) : list Z := l ++ replicate (Z.to_nat ((zlen l / BSIZE + 1) * BSIZE - zlen l)) 0.
Definition root_data (files : list given) : list Z := (entry 1 [46] ++ entry 1 [46; 46]) ++ entries 2 files.

Lemma zlen_pad l : zlen (pad l) = (zlen l / BSIZE + 1) * BSIZE.
Proof.
  unfold pad, zlen. rewrite length_app, length_replicate. unfold BSIZE.
  pose proof (Z.mod_pos_bound (Z.of_nat (length l)) 512 ltac:(lia)). Z.div_mod_to_equations. lia.
Qed.

Lemma holds_bytes f fb addrs data m : holds f fb addrs data -> zlen data + Z.of_nat m <= MAXFILE * BSIZE ->
  file_bytes (view f) addrs 0 (zlen (data ++ replicate m 0)) = data ++ replicate m 0.
Proof.
  intros Hh Hm. apply list_eq. intros j. unfold file_bytes, zlen in *. rewrite list_lookup_fmap.
  destruct (decide (j < length (data ++ replicate m 0%Z))%nat) as [Hj|Hj].
  - rewrite lookup_seqZ_lt by lia. cbn [fmap option_fmap option_map]. pose proof Hj as Hj'. rewrite length_app, length_replicate in Hj'.
    rewrite (hd_byte _ _ _ _ Hh) by lia. destruct (lookup_lt_is_Some_2 _ _ Hj) as [x Hx]. rewrite Hx. f_equal.
    replace (Z.to_nat (0 + Z.of_nat j)) with j by lia. apply lookup_app_Some in Hx as [Hx|[Hl Hx]].
    + by apply nth_lookup_Some.
    + apply lookup_replicate in Hx as [-> _]. by rewrite nth_overflow.
  - rewrite lookup_seqZ_ge, lookup_ge_None_2 by lia. done.
Qed.

(** The disk [v] is a file system with the files given, as the kernel's routines take it:
    their invariant holds, the log is empty, the bitmap marks exactly the blocks
    given out, and each inode owns the blocks of its contents. *)
Record is_image (v : dview) (files : list given) : Prop := mkIsImage {
  im_inv : fs_inv superblock nmeta v;
  im_log : d_mem v (Log.sb_logstart superblock) = zero_block;
  im_bitmap b : 0 <= b < FSSIZE ->
    used superblock v b = (b <? nmeta + cost (zlen (root_data files)) + file_cost files);
  im_inodes : exists addrs : list (list Z), length addrs = S (length files) /\
    (forall i a type data, addrs !! i = Some a ->
       ((T_DIR, pad (root_data files)) :: map leaf_shape files) !! i = Some (type, data) ->
       let n := Z.of_nat i + 1 in
       get_dinode (d_mem v (IBLOCK n superblock)) (dinode_off n) = mkDinode type 0 0 1 (zlen data) a /\
       owns superblock nmeta v a /\ file_bytes v a 0 (zlen data) = data) /\
    (forall i j a a', i <> j -> addrs !! i = Some a -> addrs !! j = Some a' -> Fsdata.apart v a' a);
  im_free j : 0 <= j < NINODES -> j = 0 \/ Z.of_nat (length files) + 1 < j ->
    di_type (get_dinode (d_mem v (IBLOCK j superblock)) (dinode_off j)) = 0
}.

Lemma fix_size_run s fs x : built s fs -> fs !! 0%nat = Some x -> m_freeblock s <= FSSIZE -> zlen (pad (if_data x)) <= most ->
  exists s', fix_size 1 s = Ok tt s' /\ ok s' /\ m_freeblock s' = m_freeblock s /\
    (forall b, b <> 62 -> img s' b = img s b) /\
    (forall j, 0 <= j < 208 -> inode_at (img s') j =
       if decide (j = 1) then mkDinode (if_type x) 0 0 1 (zlen (pad (if_data x))) (if_addrs x) else inode_at (img s) j).
Proof.
  intros Hb Hx Hfb Hm. pose proof (bt_ok _ _ Hb) as Hok. pose proof (bt_holds _ _ Hb 0%nat x Hx) as Hh.
  rewrite zlen_pad in *. unfold most, BSIZE in Hm.
  unfold fix_size. rewrite (bind_Ok _ _ _ _ _ (rinode_run s 1 Hok ltac:(lia))).
  rewrite (bt_inode _ _ Hb 0%nat x Hx : inode_at (img s) 1 = _).
  cbn [dinode_for di_type di_major di_minor di_nlink di_size di_addrs]. cbv zeta.
  assert (0 <= zlen (if_data x)) as H0 by (unfold zlen; lia). pose proof (hd_most _ _ _ _ Hh) as Hm0. unfold most, BSIZE in Hm0.
  assert (0 <= zlen (if_data x) / 512) by (apply Z.div_pos; lia).
  rewrite (xint_id (zlen (if_data x))), u32_small, xint_id by (unfold BSIZE; lia).
  set (d := mkDinode _ _ _ _ _ _). pose proof (fits_dinode _ _ x (bt_type _ _ Hb _ _ Hx) Hh Hfb) as [F1 F2 F3 F4 F5 F6 F7].
  assert (fits d) as Hd by (split; try done; unfold d; cbn [di_size]; unfold BSIZE; lia).
  destruct (winode_run s 1 d Hok ltac:(lia) Hd) as (s' & E & Hok' & Hf & _ & Hb' & Hn). exists s'. by split_and!.
Qed.

Lemma cost_total_shape fs : total fs = foldr (fun x n => cost (zlen x.2) + n) 0 (shape fs).
Proof. induction fs as [|x fs IH]; [done|]. rewrite cost_total_cons, IH. done. Qed.
Lemma shape_cost r files : foldr (fun x n => cost (zlen x.2) + n) 0 ((T_DIR, r) :: map leaf_shape files) = cost (zlen r) + file_cost files.
Proof. cbn [foldr snd]. f_equal. induction files as [|g files IH]; [done|]. cbn [map foldr]. by rewrite IH. Qed.

(** The disk of a built image, with its bitmap, is a file system. *)
Section finish.
Context (s s1 : image) (fs : list ifile) (x : block) (files : list given).
Hypothesis Hb : built s fs.
Hypothesis Hshape : shape fs = (T_DIR, root_data files) :: map leaf_shape files.
Hypothesis Hfree : m_freeblock s < BPB.
Hypothesis Hpad : zlen (pad (root_data files)) <= most.
Hypothesis Hrest : forall b, b <> 62 -> img s1 b = img s b.
Hypothesis Hinodes : forall j, 0 <= j < 208 -> inode_at (img s1) j =
  if decide (j = 1) then mkDinode T_DIR 0 0 1 (zlen (pad (root_data files))) (default [] (if_addrs <$> fs !! 0%nat))
  else inode_at (img s) j.
Hypothesis Hbits : forall j, 0 <= j < BPB -> bit_set x j = (j <? m_freeblock s).
Abbreviation f := (img (put 88 x s1)).

Lemma fin_block b : b <> 62 -> b <> 88 -> f b = img s b.
Proof using Hrest. intros H1 H2. rewrite img_put, decide_False by done. by apply Hrest. Qed.

Lemma fin_used b : 0 <= b < FSSIZE -> used superblock (view f) b = (b <? m_freeblock s).
Proof using All.
  intros Hbb. unfold used, BBLOCK. rewrite superblock_eq. cbn [Log.sb_bmapstart view d_mem]. change BPB with 4096. assert (m_freeblock s < 4096) by exact Hfree.
  assert (88 <= b / 4096 + 88 < 98) as Hr by (Z.div_mod_to_equations; lia). rewrite u32_small by lia.
  pose proof (Z.mod_pos_bound b 4096 ltac:(lia)) as Hm.
  destruct (decide (b < 4096)) as [Hlow|Hlow].
  - rewrite Z.div_small, Z.mod_small by lia. rewrite img_put, decide_True by done. apply Hbits. change BPB with 4096. lia.
  - assert (1 <= b / 4096) by (Z.div_mod_to_equations; lia). rewrite fin_block by lia.
    rewrite (bt_meta _ _ Hb), bit_zero by (rewrite ?nmeta_eq; lia). lia.
Qed.

Lemma fin_inv : fs_inv superblock nmeta (view f).
Proof using All.
  pose proof (ok_first _ (bt_ok _ _ Hb)) as H1. rewrite nmeta_eq in *. split.
  - rewrite superblock_eq. split; cbn [Log.sb_size Log.sb_bmapstart Log.sb_ninodes Log.sb_inodestart view d_usable].
    + lia.
    + lia.
    + lia.
    + intros b Hbb. change BPB with 4096. assert (0 <= b / 4096 < 10) by (Z.div_mod_to_equations; lia). lia.
    + intros n Hn. change IPB with 8. assert (0 <= n / 8 < 26) by (Z.div_mod_to_equations; lia). lia.
  - cbn [view d_mem]. rewrite fin_block, (bt_super _ _ Hb) by lia. vm_compute. reflexivity.
  - intros b Hbb. rewrite fin_used by lia. lia.
Qed.

Lemma fin_holds i y : fs !! i = Some y -> holds f (m_freeblock s) (if_addrs y) (if_data y) /\
  forall q, valid q -> node f (if_addrs y) q = node (img s) (if_addrs y) q.
Proof using All.
  intros Hy. pose proof (bt_holds _ _ Hb i y Hy) as Hh. apply (holds_frame (img s) (m_freeblock s)); [done|lia|].
  intros q Hq H0. pose proof (tr_range _ _ _ (hd_tree _ _ _ _ Hh) q Hq H0) as Hr. rewrite nmeta_eq in Hr. apply fin_block; lia.
Qed.

Lemma fin_owns i y : fs !! i = Some y -> owns superblock nmeta (view f) (if_addrs y).
Proof using All.
  intros Hy. destruct (fin_holds i y Hy) as [[[Hl Hr Hi] _ _ _ _] _]. split; [done| |done].
  intros q Hq H0. cbn [view d_mem] in H0 |- *. pose proof (Hr q Hq H0) as Hrq. assert (m_freeblock s < 4096) by exact Hfree.
  rewrite nmeta_eq in *. rewrite superblock_eq at 1. cbn [Log.sb_size]. split; [lia|]. rewrite fin_used by lia. lia.
Qed.

Lemma fin_inode n : 0 <= n < 208 -> get_dinode (f (IBLOCK n superblock)) (dinode_off n) = inode_at (img s1) n.
Proof using All.
  intros Hn. destruct (inode_block n Hn) as [Hr ->]. unfold inode_at. by rewrite img_put, decide_False by lia.
Qed.
Lemma fin_free : m_freeblock s = nmeta + cost (zlen (root_data files)) + file_cost files.
Proof using Hb Hshape. rewrite (bt_total _ _ Hb), cost_total_shape, Hshape, shape_cost. lia. Qed.

Lemma fin_length : length fs = S (length files).
Proof using Hshape. rewrite <- (length_map (fun x => (if_type x, if_data x))). fold (shape fs). rewrite Hshape. cbn [length]. by rewrite length_map. Qed.

Lemma fin_shape i y : fs !! i = Some y ->
  ((T_DIR, root_data files) :: map leaf_shape files) !! i = Some (if_type y, if_data y).
Proof using Hshape. intros Hy. rewrite <- Hshape. unfold shape. by rewrite list_lookup_fmap, Hy. Qed.

Lemma fin_contents i y type data : (length files <= 198)%nat -> fs !! i = Some y ->
  ((T_DIR, pad (root_data files)) :: map leaf_shape files) !! i = Some (type, data) ->
  inode_at (img s1) (Z.of_nat i + 1) = mkDinode type 0 0 1 (zlen data) (if_addrs y) /\
  file_bytes (view f) (if_addrs y) 0 (zlen data) = data.
Proof using All.
  intros Hl Hy Hw. pose proof (fin_shape i y Hy) as Hs. destruct (fin_holds i y Hy) as [Hh _].
  pose proof (hd_most _ _ _ _ Hh) as Hm. pose proof most_max as Hmm. pose proof (lookup_lt_Some _ _ _ Hy) as Hi.
  rewrite fin_length in Hi. rewrite Hinodes by lia. destruct i as [|i]; cbn [lookup list_lookup] in Hs, Hw.
  - injection Hs as Ht Hd. injection Hw as <- <-. rewrite decide_True, Hy by done. split; [done|].
    unfold pad in *. rewrite Hd in *. apply (holds_bytes _ _ _ _ _ Hh). unfold zlen in *. rewrite length_app, length_replicate in Hpad. lia.
  - rewrite decide_False by lia. rewrite Hs in Hw. injection Hw as <- <-. rewrite (bt_inode _ _ Hb _ y Hy). split; [done|].
    pose proof (holds_bytes _ _ _ _ 0 Hh ltac:(lia)) as Hz. change (replicate 0 0) with (@nil Z) in Hz. by rewrite app_nil_r in Hz.
Qed.

Lemma fin_image : (length files <= 198)%nat -> is_image (view f) files.
Proof using All.
  intros Hl. split.
  - apply fin_inv.
  - rewrite superblock_eq. cbn [Log.sb_logstart view d_mem]. rewrite fin_block by lia. apply (bt_meta _ _ Hb); [rewrite nmeta_eq|]; lia.
  - intros b Hbb. rewrite <- fin_free. by apply fin_used.
  - exists (map if_addrs fs). rewrite length_map, fin_length. split; [done|]. split.
    + intros i a type data Ha Hw n. rewrite list_lookup_fmap in Ha. destruct (fs !! i) as [y|] eqn:Hy; [|done]. injection Ha as <-.
      pose proof (lookup_lt_Some _ _ _ Hy) as Hi. rewrite fin_length in Hi. cbn [view d_mem]. rewrite fin_inode by lia.
      destruct (fin_contents i y type data Hl Hy Hw) as [E1 E2]. split; [done|]. split; [by apply (fin_owns i)|done].
    + intros i j a a' Hij Ha Ha'. rewrite list_lookup_fmap in Ha, Ha'.
      destruct (fs !! i) as [y|] eqn:Hy; [|done]. destruct (fs !! j) as [z|] eqn:Hz; [|done]. injection Ha as <-. injection Ha' as <-.
      intros q q' Hq Hq'. cbn [view d_mem]. rewrite (proj2 (fin_holds i y Hy)), (proj2 (fin_holds j z Hz)) by done.
      by apply (bt_apart _ _ Hb i j y z).
  - intros j Hj Hfr. cbn [view d_mem]. rewrite fin_inode, Hinodes, decide_False by lia. apply (bt_none _ _ Hb); [lia|].
    rewrite fin_length. lia.
Qed.
End finish.

(** The contents of the inodes. *)
Definition want (files : list given) : list (Z * list Z) := (T_DIR, pad (root_data files)) :: map leaf_shape files.

Lemma root_length files : zlen (root_data files) = 32 + 16 * Z.of_nat (length files).
Proof.
  pose proof (entries_length files 2) as He. unfold root_data, zlen in *. rewrite !length_app, !entry_length. lia.
Qed.
Lemma root_fits files : (length files <= 198)%nat -> zlen (root_data files) <= most /\ zlen (pad (root_data files)) <= most.
Proof. intros Hl. rewrite zlen_pad, root_length. unfold most, BSIZE. split; [lia|]. Z.div_mod_to_equations. lia. Qed.

(** What [main] does before the size of the root is fixed. *)
Lemma populate_run files : Forall acceptable files -> (length files <= 198)%nat ->
  nmeta + cost (zlen (root_data files)) + file_cost files < BPB ->
  exists s fs, built s fs /\ shape fs = (T_DIR, root_data files) :: map leaf_shape files /\
    main files image0 = (fix_size 1 ;; used <- gets m_freeblock ;; balloc (i32 used)) s.
Proof.
  intros Hacc Hl Hfit. change BPB with 4096 in Hfit. rewrite nmeta_eq in Hfit. destruct (root_fits files Hl) as [Hrm _].
  pose proof (file_cost_pos files) as Hfc. destruct format_run as (s0 & E0 & Hb0). unfold main. rewrite (bind_Ok _ _ _ _ _ E0).
  destruct (ialloc_run s0 [] T_DIR Hb0 ltac:(cbn; lia) ltac:(unfold T_DIR; lia)) as (s1 & E1 & Hb1).
  rewrite (bind_Ok _ _ _ _ _ E1). change (Z.of_nat (length []) + 1) with (Z.of_nat 0 + 1).
  change (negb (Z.of_nat 0 + 1 =? ROOTINO)) with false. cbv iota.
  pose proof (bt_total _ _ Hb1) as Ht1. change (m_freeblock s1 = 98) in Ht1. change ([] ++ [empty_file T_DIR]) with [empty_file T_DIR] in Hb1.
  pose proof (entry_length 1 [46]) as Le1. pose proof (entry_length 1 [46; 46]) as Le2.
  set (e1 := entry 1 [46]) in *. set (e2 := entry 1 [46; 46]) in *. change (Z.of_nat 0 + 1) with 1. fold e1 e2.
  assert (zlen e1 = 16 /\ zlen (e1 ++ e2) = 32) as [Z1 Z2] by (unfold zlen; rewrite length_app; lia).
  destruct (iappend_run s1 _ 0 (empty_file T_DIR) e1 Hb1 eq_refl) as (a1 & s2 & E2 & Hb2);
    cbn [empty_file if_data app]; rewrite ?Z1; [vm_compute; congruence|rewrite Ht1; vm_compute; congruence|].
  change (Z.of_nat 0 + 1) with 1 in E2. rewrite (bind_Ok _ _ _ _ _ E2). cbn [empty_file if_data if_type app insert list_insert] in Hb2.
  pose proof (bt_total _ _ Hb2) as Ht2. rewrite cost_total_cons in Ht2. cbn [if_data] in Ht2. rewrite Z1 in Ht2. change (m_freeblock s2 = 99) in Ht2.
  destruct (iappend_run s2 _ 0 (mkFile T_DIR a1 e1) e2 Hb2 eq_refl) as (a2 & s3 & E3 & Hb3);
    cbn [if_data]; rewrite ?Z1, ?Z2; [vm_compute; congruence|rewrite Ht2; vm_compute; congruence|].
  change (Z.of_nat 0 + 1) with 1 in E3. rewrite (bind_Ok _ _ _ _ _ E3). cbn [if_data if_type insert list_insert] in Hb3.
  pose proof (bt_total _ _ Hb3) as Ht3. rewrite cost_total_cons in Ht3. cbn [if_data] in Ht3. rewrite Z2 in Ht3. change (m_freeblock s3 = 99) in Ht3.
  destruct (files_run files s3 [mkFile T_DIR a2 (e1 ++ e2)] (e1 ++ e2) [] Hb3 eq_refl Hacc) as (s4 & fs & E4 & Hb4 & Hsh);
    change (Z.of_nat (length [mkFile T_DIR a2 (e1 ++ e2)]) + 1) with 2 in *; fold (root_data files) in *.
  - cbn [length]. lia.
  - exact Hrm.
  - change ((e1 ++ e2) ++ entries 2 files) with (root_data files). rewrite Z2, Ht3. change (cost 32) with 1. lia.
  - rewrite (bind_Ok _ _ _ _ _ E4). exists s4, fs. split; [done|]. split; [exact Hsh|done].
Qed.

(** C15: [mkfs] builds a file system.  For file names without a slash and files of at most 138
    blocks, if all blocks fit into the first block of the bitmap, [main] runs to
    its end, and the image it writes is one the kernel's routines work on: their invariant
    holds, the log is empty, exactly the blocks given out are marked, the root directory has
    the entries of the files, and each file has its contents, in blocks no other
    file has. *)
Theorem mkfs_correct files : Forall acceptable files -> (length files <= 198)%nat ->
  nmeta + cost (zlen (root_data files)) + file_cost files < BPB ->
  exists s, main files image0 = Ok tt s /\ is_image (view (img s)) files.
Proof.
  intros Hacc Hl Hfit. destruct (populate_run files Hacc Hl Hfit) as (s & fs & Hb & Hsh & E). rewrite E. clear E.
  destruct (root_fits files Hl) as [_ Hpad]. pose proof (fin_free s fs files Hb Hsh) as Hfree. rewrite <- Hfree in Hfit.
  destruct fs as [|r fs]; [done|]. pose proof Hsh as [= Hty Hdata _].
  destruct (fix_size_run s (r :: fs) r Hb eq_refl) as (s1 & E1 & Hok1 & Hf1 & Hb1 & Hn1).
  { change BPB with 4096 in Hfit. lia. }
  { by rewrite Hdata. }
  rewrite (bind_Ok _ _ _ _ _ E1). mstep. destruct (mkfs_balloc_run s1 Hok1 ltac:(lia)) as (x & E2 & Hx & Hbits).
  exists (put 88 x s1). split; [exact E2|]. rewrite Hf1 in Hbits. rewrite Hty, Hdata in Hn1. by apply (fin_image s s1 (r :: fs)).
Qed.

(** A program of four bytes. *)
Definition init_file : list given := [([95; 105; 110; 105; 116], Some [127; 69; 76; 70])].
Lemma mkfs_correct_witness : exists s,
  main init_file image0 = Ok tt s /\ is_image (view (img s)) init_file.
Proof.
  apply (mkfs_correct init_file).
  - constructor; [|constructor]. split; [reflexivity|]. split; [by eexists|]. vm_compute. congruence.
  - cbn. lia.
  - vm_compute. reflexivity.
Defined.

(** A file of more than 138 blocks: the kernel's files can be longer, [assert] admits it, and the
    store is outside of the array of the indirect block. *)
Lemma place_overflow s addrs bn : ok s -> tree (img s) (m_freeblock s) addrs -> m_freeblock s < FSSIZE ->
  138 <= bn < MAXFILE -> place addrs bn s = Fault.
Proof.
  intros Hok Ht Hfb Hbn. unfold place. change NDIRECT with (Z.of_nat 10). rewrite (proj2 (Z.ltb_ge bn (Z.of_nat 10))) by lia.
  destruct (addr_slot_run s addrs 10 Hok Ht Hfb ltac:(lia)) as (addrs1 & E & Hp & Hn).
  set (s1 := if decide (node (img s) addrs (10%nat, []) = 0) then bump s else s) in *.
  rewrite (bind_Ok _ _ _ _ _ E). pose proof (pl_tree _ _ _ _ _ _ _ Hp) as Ht1.
  rewrite zlookup_nth by (rewrite (tr_len _ _ _ Ht1); lia). mstep. change (nth (Z.to_nat (Z.of_nat 10)) addrs1 0) with (node (img s1) addrs1 (10%nat, [])).
  assert (ok s1) as Hok1 by (unfold s1; case_decide; [by apply ok_bump|done]).
  assert (m_freeblock s1 <= FSSIZE) as Hfb1 by (unfold s1; case_decide; [change (m_freeblock s + 1 <= FSSIZE)|]; lia).
  pose proof (node_small _ _ _ _ Ht1 Hfb1 valid10) as Hr. rewrite xint_id, (bind_Ok _ _ _ _ _ (rsect_run s1 _ Hok1 Hr)) by lia.
  change NINDIRECT with 128. by rewrite (proj2 (Z.leb_le 128 (bn - Z.of_nat 10))) by lia.
Qed.

End Mkfs.
