(* ===== verification/Kalloc.v ===== *)
(** * Physical memory (xv6-public/kalloc.c, memlayout.h, mmu.h)

    Memory is a store of pages, named by the kernel virtual address they start
    at; a page is the list of its bytes.  The free pages form a linked list
    through their first words.  The lock [kmem.lock] is taken only after
    [kinit2].  The address [end] is set by the linker. *)

From S2P Require Import Prelude Bytes.

Definition PGSIZE : Z := 4096.
Definition EXTMEM : Z := 0x100000.
Definition PHYSTOP : Z := 0xE000000.
Definition DEVSPACE : Z := 0xFE000000.
Definition KERNBASE : Z := 0x80000000.
Definition KERNLINK : Z := KERNBASE + EXTMEM.
Definition V2P (a : Z) : Z := u32 (a - KERNBASE).
Definition P2V (a : Z) : Z := u32 (a + KERNBASE).
Definition PGROUNDUP (sz : Z) : Z := Z.land (u32 (sz + PGSIZE - 1)) (Z.lnot (PGSIZE - 1)).
Definition PGROUNDDOWN (a : Z) : Z := Z.land a (Z.lnot (PGSIZE - 1)).

(** Memory, [kmem], [kpgdir] and the page table register. *)
Record memst := mkMem {
  m_page : Z -> list Z;
  m_freelist : Z;
  m_uselock : bool;
  m_lock : bool;
  m_kpgdir : Z;
  m_cr3 : Z
}.
#[export] Instance eta_memst : Eta memst := fun r =>
  mkMem (m_page r) (m_freelist r) (m_uselock r) (m_lock r) (m_kpgdir r) (m_cr3 r).
#[export] Instance set_m_page : Setter m_page.
Proof. build_setter. Defined.
#[export] Instance set_m_freelist : Setter m_freelist.
Proof. build_setter. Defined.
#[export] Instance set_m_uselock : Setter m_uselock.
Proof. build_setter. Defined.
#[export] Instance set_m_lock : Setter m_lock.
Proof. build_setter. Defined.
#[export] Instance set_m_kpgdir : Setter m_kpgdir.
Proof. build_setter. Defined.
#[export] Instance set_m_cr3 : Setter m_cr3.
Proof. build_setter. Defined.

Lemma memst_eq (s r : memst) :
  m_page s = m_page r -> m_freelist s = m_freelist r -> m_uselock s = m_uselock r ->
  m_lock s = m_lock r -> m_kpgdir s = m_kpgdir r -> m_cr3 s = m_cr3 r -> s = r.
Proof. destruct s, r. cbn. by intros -> -> -> -> -> ->. Qed.

Module Kalloc.

(** A word of memory at an aligned address; the null pointer is no address. *)
Definition load32 (a : Z) : M memst Z :=
  if a =? 0 then fault else
  gets (fun s => get32 (m_page s (PGROUNDDOWN a)) (Z.to_nat (a mod PGSIZE))).
Definition store32 (a v : Z) : M memst unit :=
  if a =? 0 then fault else
  modify (fun s => s <| m_page ::= fun f =>
    fset f (PGROUNDDOWN a) (put32 (Z.to_nat (a mod PGSIZE)) v (f (PGROUNDDOWN a))) |>).
(** [memset(p, c, PGSIZE)] and [memmove(p, q, PGSIZE)] of whole pages. *)
Definition filled (c : Z) : list Z := replicate (Z.to_nat PGSIZE) c.
Definition set_page (p : Z) (x : list Z) : M memst unit :=
  if p =? 0 then fault else modify (fun s => s <| m_page ::= fun f => fset f p x |>).

Definition acquire_kmem : M memst unit :=
  h <- gets m_lock ;;
  if h then panic "acquire" else modify (fun s => s <| m_lock := true |>).
Definition release_kmem : M memst unit :=
  h <- gets m_lock ;;
  if h then modify (fun s => s <| m_lock := false |>) else panic "release".

Section kalloc.
(** The symbol [end] of the linker script. *)
Variable kend : Z.

Definition kfree (v : Z) : M memst unit :=
  if negb (v mod PGSIZE =? 0) || (v <? kend) || (PHYSTOP <=? V2P v) then panic "kfree" else
  set_page v (filled 1) ;;
  use <- gets m_uselock ;;
  when use acquire_kmem ;;
  fl <- gets m_freelist ;;
  store32 v fl ;;
  modify (fun s => s <| m_freelist := v |>) ;;
  when use release_kmem.

Definition kalloc : M memst Z :=
  use <- gets m_uselock ;;
  when use acquire_kmem ;;
  r <- gets m_freelist ;;
  when (negb (r =? 0)) (n <- load32 r ;; modify (fun s => s <| m_freelist := n |>)) ;;
  when use release_kmem ;;
  ret r.

(** The pages [freerange] visits: from [PGROUNDUP(vstart)] up while a whole
    page is left. *)
Definition range_pages (vstart vend : Z) : list Z :=
  let p := PGROUNDUP vstart in
  map (fun k => p + k * PGSIZE) (seqZ 0 ((vend - p) / PGSIZE)).
Definition freerange (vstart vend : Z) : M memst unit := forM (range_pages vstart vend) kfree.

Definition kinit1 (vstart vend : Z) : M memst unit :=
  modify (fun s => s <| m_lock := false |>) ;;
  modify (fun s => s <| m_uselock := false |>) ;;
  freerange vstart vend.
Definition kinit2 (vstart vend : Z) : M memst unit :=
  freerange vstart vend ;;
  modify (fun s => s <| m_uselock := true |>).

(** ** The free list *)

(** The kernel lies at [KERNBASE] and above, so no page starts at 0. *)
Hypothesis Hend : KERNBASE < kend.

Definition kpage (p : Z) : Prop := p mod PGSIZE = 0 /\ kend <= p < KERNBASE + PHYSTOP.

Fixpoint chain (f : Z -> list Z) (h : Z) (l : list Z) : Prop :=
  match l with
  | [] => h = 0
  | p :: l' => h = p /\ chain f (get32 (f p) 0) l'
  end.

(** [l] is the list of the free pages; nobody is inside the allocator. *)
Record free_ok (s : memst) (l : list Z) : Prop := mkFree {
  fr_chain : chain (m_page s) (m_freelist s) l;
  fr_nodup : NoDup l;
  fr_pages : Forall kpage l;
  fr_lock : m_lock s = false;
  fr_len p : length (m_page s p) = Z.to_nat PGSIZE
}.

Lemma rounddown_div a : PGROUNDDOWN a = a / PGSIZE * PGSIZE.
Proof.
  unfold PGROUNDDOWN. change (PGSIZE - 1) with (Z.ones 12). rewrite <- Z.ldiff_land.
  rewrite Z.ldiff_ones_r by lia. rewrite Z.shiftl_mul_pow2, Z.shiftr_div_pow2 by lia. done.
Qed.

Lemma rounddown_page p k : p mod PGSIZE = 0 -> 0 <= k < PGSIZE -> PGROUNDDOWN (p + k) = p.
Proof.
  intros Hp Hk. rewrite rounddown_div.
  pose proof (Z.div_mod p PGSIZE ltac:(done)) as E.
  rewrite <- (Z.div_unique (p + k) PGSIZE (p / PGSIZE) k); unfold PGSIZE in *; lia.
Qed.

Lemma offset_page p k : p mod PGSIZE = 0 -> 0 <= k < PGSIZE -> (p + k) mod PGSIZE = k.
Proof.
  intros Hp Hk. pose proof (Z.div_mod p PGSIZE ltac:(done)) as E.
  rewrite <- (Z.mod_unique (p + k) PGSIZE (p / PGSIZE) k); unfold PGSIZE in *; lia.
Qed.

Lemma roundup_div a :
  0 <= a -> a + PGSIZE <= 2 ^ 32 -> PGROUNDUP a = (a + PGSIZE - 1) / PGSIZE * PGSIZE.
Proof.
  intros H1 H2. unfold PGROUNDUP. fold (PGROUNDDOWN (u32 (a + PGSIZE - 1))).
  rewrite rounddown_div, u32_small; [done|]. unfold PGSIZE in *. lia.
Qed.

Lemma roundup_spec a :
  0 <= a -> a + PGSIZE <= 2 ^ 32 ->
  PGROUNDUP a mod PGSIZE = 0 /\ a <= PGROUNDUP a < a + PGSIZE.
Proof.
  intros H1 H2. rewrite roundup_div by done. split; [by apply Z.mod_mul|].
  pose proof (Z.div_mod (a + PGSIZE - 1) PGSIZE ltac:(done)) as E.
  pose proof (Z.mod_pos_bound (a + PGSIZE - 1) PGSIZE ltac:(done)). unfold PGSIZE in *. lia.
Qed.

Lemma kpage_pos p : kpage p -> 0 < p.
Proof. intros [_ H]. unfold KERNBASE in *. lia. Qed.

Lemma kpage_v2p p : kpage p -> V2P p = p - KERNBASE /\ 0 <= V2P p < PHYSTOP.
Proof.
  intros [_ Hp]. unfold V2P. rewrite u32_small; unfold KERNBASE, PHYSTOP in *; lia.
Qed.

Lemma chain_frame f f' h l :
  (forall p, p ∈ l -> f' p = f p) -> chain f h l -> chain f' h l.
Proof.
  revert h. induction l as [|p l IH]; intros h Hf; [done|]. cbn. intros [-> Hc]. split; [done|].
  rewrite Hf by left. apply IH; [|done]. intros q Hq. apply Hf. by right.
Qed.

Lemma store32_run s a v p k :
  p mod PGSIZE = 0 -> 0 < p -> 0 <= k < PGSIZE -> a = p + k ->
  store32 a v s = Ok tt (s <| m_page ::= fun f => fset f p (put32 (Z.to_nat k) v (f p)) |>).
Proof.
  intros Hp Hpos Hk ->. unfold store32. rewrite (proj2 (Z.eqb_neq _ 0)) by lia.
  rewrite rounddown_page, offset_page by done. done.
Qed.

Lemma load32_run s a p k :
  p mod PGSIZE = 0 -> 0 < p -> 0 <= k < PGSIZE -> a = p + k ->
  load32 a s = Ok (get32 (m_page s p) (Z.to_nat k)) s.
Proof.
  intros Hp Hpos Hk ->. unfold load32. rewrite (proj2 (Z.eqb_neq _ 0)) by lia.
  unfold gets. rewrite rounddown_page, offset_page by done. done.
Qed.

Lemma set_page_run s p x :
  p <> 0 -> set_page p x s = Ok tt (s <| m_page ::= fun f => fset f p x |>).
Proof. intros Hp. unfold set_page. by rewrite (proj2 (Z.eqb_neq _ 0)). Qed.

Lemma lock_id s : m_lock s = false -> s <| m_lock := false |> = s.
Proof. intros Hl. apply memst_eq; proj_upd; done. Qed.

Lemma chain_range f h l : Forall kpage l -> chain f h l -> 0 <= h < 2 ^ 32.
Proof.
  intros Hp. destruct l as [|p l]; cbn; [lia|]. intros [-> _].
  apply Forall_cons in Hp as [[_ Hp] _]. unfold KERNBASE, PHYSTOP in *. lia.
Qed.

Lemma length_filled c : length (filled c) = Z.to_nat PGSIZE.
Proof. apply length_replicate. Qed.

(** [kalloc] pops the list. *)
Lemma kalloc_run s l :
  free_ok s l ->
  match l with
  | [] => kalloc s = Ok 0 s
  | p :: l' => exists n, let s' := s <| m_freelist := n |> in kalloc s = Ok p s' /\ free_ok s' l'
  end.
Proof.
  intros [Hc Hn Hp Hl Hlen]. unfold kalloc, acquire_kmem, release_kmem, when.
  destruct l as [|p l]; cbn in Hc.
  - mstep. destruct (m_uselock s); mstep; rewrite ?Hl; mstep; proj_upd; rewrite Hc; cbn; mstep; [|done].
    proj_upd. mstep. unfold ret. by rewrite lock_id.
  - destruct Hc as [E Hc]. apply Forall_cons in Hp as [Hp Hps]. apply NoDup_cons in Hn as [Hni Hn].
    pose proof (kpage_pos p Hp) as Hpos. exists (get32 (m_page s p) 0).
    assert (free_ok (s <| m_freelist := get32 (m_page s p) 0 |>) l) by (split; proj_upd; done).
    split; [|done]. mstep. destruct (m_uselock s); mstep; rewrite ?Hl; mstep; proj_upd; rewrite E;
      rewrite (proj2 (Z.eqb_neq p 0)) by lia; cbn [negb]; mstep;
      rewrite (bind_Ok _ _ _ _ _ (load32_run _ p p 0 (proj1 Hp) Hpos ltac:(done) ltac:(lia)));
      mstep; proj_upd; [|done].
    mstep. unfold ret. f_equal. apply memst_eq; proj_upd; done.
Qed.

(** [kfree] pushes a page. *)
Lemma kfree_run s l p :
  free_ok s l -> kpage p -> p ∉ l ->
  exists s', kfree p s = Ok tt s' /\ free_ok s' (p :: l) /\
    (forall q, q <> p -> m_page s' q = m_page s q) /\ m_kpgdir s' = m_kpgdir s /\ m_cr3 s' = m_cr3 s /\
    m_uselock s' = m_uselock s.
Proof.
  intros [Hc Hn Hp Hl Hlen] Hk Hni. pose proof (kpage_pos p Hk) as Hpos.
  destruct (kpage_v2p p Hk) as [_ Hv]. destruct Hk as [Hal Hr].
  set (s1 := s <| m_page ::= fun f => fset f p (filled 1) |>).
  exists (s1 <| m_page ::= fun f => fset f p (put32 0 (m_freelist s) (f p)) |> <| m_freelist := p |>).
  split; [|split; [|split; [|done]]].
  - unfold kfree. rewrite Hal, (proj2 (Z.ltb_ge p kend)), (proj2 (Z.leb_gt PHYSTOP _)) by lia.
    cbn [Z.eqb negb orb].
    rewrite (bind_Ok _ _ _ _ _ (set_page_run s p (filled 1) ltac:(lia))). fold s1. mstep.
    unfold acquire_kmem, release_kmem, when.
    assert (m_lock s1 = false) as Hl1 by done. assert (m_freelist s1 = m_freelist s) as Hf1 by done.
    destruct (m_uselock s1); mstep; rewrite ?Hl1; mstep; proj_upd; rewrite Hf1;
      rewrite (bind_Ok _ _ _ _ _ (store32_run _ p _ p 0 Hal Hpos ltac:(done) ltac:(lia))); mstep;
      proj_upd; [|done].
    unfold modify. f_equal. apply memst_eq; unfold s1; proj_upd; done.
  - unfold s1. split; proj_upd; try done.
    + cbn [chain]. split; [done|]. rewrite !fset_eq, get32_put32 by (rewrite length_filled; unfold PGSIZE; lia).
      rewrite u32_small by (by eapply chain_range).
      eapply chain_frame; [|exact Hc]. intros q Hq.
      assert (q <> p) by (by intros ->). by rewrite !fset_ne.
    + by apply NoDup_cons.
    + by apply Forall_cons.
    + intros q. destruct (decide (q = p)) as [->|Hq].
      * by rewrite !fset_eq, length_put32, length_filled.
      * by rewrite !fset_ne.
  - intros q Hq. unfold s1. proj_upd. by rewrite !fset_ne.
Qed.

(** ** Filling the list *)

Lemma range_pages_spec a b p :
  0 <= a -> a + PGSIZE <= 2 ^ 32 ->
  p ∈ range_pages a b <-> p mod PGSIZE = 0 /\ a <= p /\ p + PGSIZE <= b.
Proof.
  intros H1 H2. destruct (roundup_spec a H1 H2) as [Hm Hr]. unfold range_pages.
  set (r := PGROUNDUP a) in *. rewrite list_elem_of_fmap. split.
  - intros (k&->&Hk%elem_of_seqZ).
    assert (k + 1 <= (b - r) / PGSIZE) by lia.
    assert (PGSIZE * (k + 1) <= b - r).
    { transitivity (PGSIZE * ((b - r) / PGSIZE)); [apply Z.mul_le_mono_nonneg_l; [done|lia]|].
      by apply Z.mul_div_le. }
    split; [by rewrite Z.mod_add|]. unfold PGSIZE in *. lia.
  - intros (Hp&Ha&Hb). pose proof (Z.div_mod p PGSIZE ltac:(done)) as Ep.
    pose proof (Z.div_mod r PGSIZE ltac:(done)) as Er.
    assert (r <= p) by (unfold PGSIZE in *; lia).
    exists ((p - r) / PGSIZE). assert (p - r = PGSIZE * (p / PGSIZE - r / PGSIZE)) as E
      by (unfold PGSIZE in *; lia).
    assert ((p - r) / PGSIZE = p / PGSIZE - r / PGSIZE) as Eq
      by (rewrite E, Z.mul_comm; by apply Z.div_mul).
    split; [rewrite Eq; lia|]. apply elem_of_seqZ. split; [apply Z.div_pos; [lia|done]|].
    assert ((p - r) / PGSIZE + 1 <= (b - r) / PGSIZE); [|lia].
    apply Z.div_le_lower_bound; [done|]. rewrite Eq. unfold PGSIZE in *. lia.
Qed.

Lemma NoDup_range_pages a b : NoDup (range_pages a b).
Proof.
  unfold range_pages. apply NoDup_fmap_2_strong; [|apply NoDup_seqZ].
  intros x y _ _. unfold PGSIZE. lia.
Qed.

Lemma kfree_all ps : forall s l,
  free_ok s l -> Forall kpage ps -> NoDup (ps ++ l) ->
  exists s', forM ps kfree s = Ok tt s' /\ free_ok s' (reverse ps ++ l) /\ m_uselock s' = m_uselock s.
Proof.
  induction ps as [|p ps IH]; intros s l Hf Hp Hn; [by exists s|].
  apply Forall_cons in Hp as [Hp Hps]. cbn in Hn. apply NoDup_cons in Hn as [Hni Hn].
  destruct (kfree_run s l p Hf Hp) as (s1&E1&Hf1&_&_&_&Hu1); [set_solver|].
  destruct (IH s1 (p :: l) Hf1 Hps) as (s2&E2&Hf2&Hu2).
  { apply NoDup_app in Hn as (H1&H2&H3). apply NoDup_app. split; [done|].
    split; [|apply NoDup_cons; split; [set_solver|done]]. intros x Hx. set_solver. }
  exists s2. cbn [forM]. rewrite (bind_Ok _ _ _ _ _ E1), E2. split; [done|].
  rewrite reverse_cons, <- app_assoc. split; [done|congruence].
Qed.

(** booting fills the free list: after [kinit1] and [kinit2] on adjacent
    ranges from [end] to the top of memory, the list holds every whole page
    between them exactly once, and the lock is in use. *)
Theorem kinit_correct s mid :
  (forall p, length (m_page s p) = Z.to_nat PGSIZE) -> m_freelist s = 0 ->
  kend <= mid -> mid mod PGSIZE = 0 -> mid <= KERNBASE + PHYSTOP ->
  exists s' l, (kinit1 kend mid ;; kinit2 mid (KERNBASE + PHYSTOP)) s = Ok tt s' /\
    free_ok s' l /\ m_uselock s' = true /\ forall p, p ∈ l <-> kpage p.
Proof.
  intros Hlen Hfl Hmid Hal Htop. unfold kinit1, kinit2, freerange. mstep.
  set (s0 := s <| m_lock := false |> <| m_uselock := false |>).
  assert (free_ok s0 []) as Hf0 by (split; try done; apply NoDup_nil_2).
  assert (0 <= kend /\ KERNBASE + PHYSTOP + PGSIZE <= 2 ^ 32) as Hr
    by (split; [unfold KERNBASE in *; lia|vm_compute; discriminate]).
  assert (forall p, p ∈ range_pages kend mid <-> p mod PGSIZE = 0 /\ kend <= p /\ p + PGSIZE <= mid)
    as R1 by (intros; apply range_pages_spec; lia).
  assert (forall p, p ∈ range_pages mid (KERNBASE + PHYSTOP) <->
    p mod PGSIZE = 0 /\ mid <= p /\ p + PGSIZE <= KERNBASE + PHYSTOP)
    as R2 by (intros; apply range_pages_spec; lia).
  destruct (kfree_all (range_pages kend mid) s0 [] Hf0) as (s1&E1&Hf1&_).
  { apply Forall_forall. intros p (Hp&Ha&Hb)%R1. split; [done|]. unfold PGSIZE in *. lia. }
  { rewrite app_nil_r. apply NoDup_range_pages. }
  rewrite app_nil_r in Hf1.
  destruct (kfree_all (range_pages mid (KERNBASE + PHYSTOP)) s1 _ Hf1) as (s2&E2&Hf2&_).
  { apply Forall_forall. intros p (Hp&Ha&Hb)%R2. split; [done|]. unfold PGSIZE in *. lia. }
  { apply NoDup_app. split; [apply NoDup_range_pages|]. split; [|rewrite reverse_Permutation; apply NoDup_range_pages].
    intros p (_&Ha&_)%R2 Hin. rewrite reverse_Permutation in Hin. apply R1 in Hin as (_&_&Hb). unfold PGSIZE in *. lia. }
  rewrite (bind_Ok _ _ _ _ _ E1), (bind_Ok _ _ _ _ _ E2). eexists _, _. split; [done|].
  split; [by destruct Hf2; split|]. split; [done|]. intros p.
  rewrite !reverse_Permutation, elem_of_app, R1, R2. unfold kpage.
  pose proof (Z.div_mod p PGSIZE ltac:(done)). pose proof (Z.div_mod mid PGSIZE ltac:(done)).
  change (KERNBASE + PHYSTOP) with (0x8E000 * PGSIZE) in *. unfold PGSIZE in *. split; lia.
Qed.

(** ** Any use of the allocator *)

Inductive kop := Alloc | Free (p : Z).
Definition kop_run (o : kop) : M memst (option Z) :=
  match o with Alloc => p <- kalloc ;; ret (Some p) | Free p => kfree p ;; ret None end.
Fixpoint kops_run (os : list kop) : M memst (list (option Z)) :=
  match os with
  | [] => ret []
  | o :: os' => r <- kop_run o ;; rs <- kops_run os' ;; ret (r :: rs)
  end.

(** What they do on the list of free pages: a stack; only a page that is not
    free may be freed. *)
Inductive kstep : list Z -> kop -> option Z -> list Z -> Prop :=
  | kstep_alloc p l : kstep (p :: l) Alloc (Some p) l
  | kstep_none : kstep [] Alloc (Some 0) []
  | kstep_free p l : kpage p -> p ∉ l -> kstep l (Free p) None (p :: l).
Inductive ksteps : list Z -> list kop -> list (option Z) -> list Z -> Prop :=
  | ksteps_nil l : ksteps l [] [] l
  | ksteps_cons l o r l1 os rs l2 :
      kstep l o r l1 -> ksteps l1 os rs l2 -> ksteps l (o :: os) (r :: rs) l2.

Lemma kstep_run s l o r l' :
  free_ok s l -> kstep l o r l' -> exists s', kop_run o s = Ok r s' /\ free_ok s' l'.
Proof.
  intros Hf Hs. inversion Hs; subst; cbn [kop_run].
  - destruct (kalloc_run s _ Hf) as (n&E&Hf'). eexists. rewrite (bind_Ok _ _ _ _ _ E). by split.
  - assert (kalloc s = Ok 0 s) as E by exact (kalloc_run s [] Hf). eexists. rewrite (bind_Ok _ _ _ _ _ E). by split.
  - destruct (kfree_run s l p Hf) as (s'&E&Hf'&_); try done.
    eexists. rewrite (bind_Ok _ _ _ _ _ E). by split.
Qed.

(** C13: [kalloc] and [kfree] implement a stack of free pages: whatever the
    sequence of calls, as long as only pages that are not free are freed, it
    runs without panic, and every call returns what the stack gives. *)
Theorem kmem_refines os : forall s l rs l',
  free_ok s l -> ksteps l os rs l' -> exists s', kops_run os s = Ok rs s' /\ free_ok s' l'.
Proof.
  induction os as [|o os IH]; intros s l rs l' Hf Hs; inversion Hs; subst.
  { by exists s. }
  destruct (kstep_run s l o r l1) as (s1&E1&Hf1); try done.
  destruct (IH s1 l1 rs0 l') as (s2&E2&Hf2); try done.
  exists s2. cbn [kops_run]. by rewrite (bind_Ok _ _ _ _ _ E1), (bind_Ok _ _ _ _ _ E2).
Qed.
End kalloc.

(** ** Witnesses: a kernel of 1.25 MB, memory full of zeros *)
Definition demo_end : Z := KERNBASE + 0x140000.
Definition demo_mem : memst := mkMem (fun _ => filled 0) 0 false false 0 0.

Lemma demo_end_ok : KERNBASE < demo_end.
Proof. done. Qed.

Lemma demo_page : kpage demo_end demo_end.
Proof. split; [done|]. vm_compute. split; [discriminate|done]. Qed.

Lemma demo_free : free_ok demo_end demo_mem [].
Proof. split; [done|apply NoDup_nil_2|apply Forall_nil_2|done|]. intros p. apply length_filled. Qed.

Lemma kinit_correct_witness :
  exists s' l, (kinit1 demo_end demo_end (KERNBASE + 0x400000) ;;
      kinit2 demo_end (KERNBASE + 0x400000) (KERNBASE + PHYSTOP)) demo_mem = Ok tt s' /\
    free_ok demo_end s' l /\ demo_end ∈ l.
Proof.
  destruct (kinit_correct demo_end demo_end_ok demo_mem (KERNBASE + 0x400000))
    as (s'&l&E&Hf&_&Hl);
    [intros p; apply length_filled|done|vm_compute; discriminate|done|vm_compute; discriminate|].
  - exists s', l. split; [exact E|]. split; [exact Hf|]. apply Hl, demo_page.
Defined.

Lemma kmem_refines_witness :
  exists s', kops_run demo_end [Free demo_end; Alloc; Alloc] demo_mem =
      Ok [None; Some demo_end; Some 0] s' /\ free_ok demo_end s' [].
Proof.
  apply (kmem_refines demo_end demo_end_ok [Free demo_end; Alloc; Alloc] demo_mem []
    [None; Some demo_end; Some 0] []); [exact demo_free|].
  eapply ksteps_cons; [apply kstep_free; [exact demo_page|apply not_elem_of_nil]|].
  eapply ksteps_cons; [apply kstep_alloc|]. eapply ksteps_cons; [apply kstep_none|]. apply ksteps_nil.
Defined.
End Kalloc.
