(* ===== verification/Vm.v ===== *)
(** * Virtual memory (xv6-public/vm.c, mmu.h)

    Page directories and page tables are pages of memory; an entry is a 32-bit
    word.  A pointer into a table is the address of the entry.  The entries of
    one directory, indexed by the number of the virtual page, are what the
    theorems speak of: [walkpgdir] does not change them, [mappages] fills,
    [deallocuvm] clears, [allocuvm] extends a range of them. *)

From S2P Require Import Prelude Bytes Kalloc.

Module Vm.
Import Kalloc.

Definition PDX (va : Z) : Z := Z.land (Z.shiftr va 22) 0x3FF.
Definition PTX (va : Z) : Z := Z.land (Z.shiftr va 12) 0x3FF.
Definition PGADDR (d t o : Z) : Z := u32 (Z.lor (Z.lor (Z.shiftl d 22) (Z.shiftl t 12)) o).
Definition NPDENTRIES : Z := 1024.
Definition PTE_P : Z := 1.
Definition PTE_W : Z := 2.
Definition PTE_U : Z := 4.
Definition PTE_ADDR (pte : Z) : Z := Z.land pte (Z.lnot 0xFFF).
Definition PTE_FLAGS (pte : Z) : Z := Z.land pte 0xFFF.

(** A flag is set. *)
Definition has (e f : Z) : bool := negb (Z.land e f =? 0).

(** The address space has 2^20 pages: enough turns for every loop over it. *)
Definition NPAGES : nat := Z.to_nat (2 ^ 20).

Section vm.
(** The symbols [end] and [data] of the linker script. *)
Context (kend kdata : Z).
Abbreviation kfree := (kfree kend).

Definition walkpgdir (pgdir va : Z) (alloc : bool) : M memst Z :=
  let pde := pgdir + 4 * PDX va in
  e <- load32 pde ;;
  if has e PTE_P then ret (P2V (PTE_ADDR e) + 4 * PTX va) else
  if negb alloc then ret 0 else
  pgtab <- kalloc ;;
  if pgtab =? 0 then ret 0 else
  set_page pgtab (filled 0) ;;
  store32 pde (Z.lor (Z.lor (Z.lor (V2P pgtab) PTE_P) PTE_W) PTE_U) ;;
  ret (pgtab + 4 * PTX va).

Fixpoint map_loop (fuel : nat) (pgdir a last pa perm : Z) : M memst Z :=
  match fuel with
  | O => spin
  | S fuel' =>
      pte <- walkpgdir pgdir a true ;;
      if pte =? 0 then ret (-1) else
      e <- load32 pte ;;
      if has e PTE_P then panic "remap" else
      store32 pte (Z.lor (Z.lor pa perm) PTE_P) ;;
      if a =? last then ret 0 else
      map_loop fuel' pgdir (u32 (a + PGSIZE)) last (u32 (pa + PGSIZE)) perm
  end.
Definition mappages (pgdir va size pa perm : Z) : M memst Z :=
  map_loop NPAGES pgdir (PGROUNDDOWN va) (PGROUNDDOWN (u32 (va + size - 1))) pa perm.

Fixpoint dealloc_loop (fuel : nat) (pgdir a oldsz : Z) : M memst unit :=
  if negb (a <? oldsz) then ret tt else
  match fuel with
  | O => spin
  | S fuel' =>
      pte <- walkpgdir pgdir a false ;;
      if pte =? 0 then
        let a := u32 (PGADDR (PDX a + 1) 0 0 - PGSIZE) in
        dealloc_loop fuel' pgdir (u32 (a + PGSIZE)) oldsz
      else
        e <- load32 pte ;;
        when (has e PTE_P)
          (let pa := PTE_ADDR e in
           if pa =? 0 then panic "kfree" else
           kfree (P2V pa) ;;
           store32 pte 0) ;;
        dealloc_loop fuel' pgdir (u32 (a + PGSIZE)) oldsz
  end.
Definition deallocuvm (pgdir oldsz newsz : Z) : M memst Z :=
  if oldsz <=? newsz then ret oldsz else
  dealloc_loop NPAGES pgdir (PGROUNDUP newsz) oldsz ;;
  ret newsz.

Fixpoint alloc_loop (fuel : nat) (pgdir a oldsz newsz : Z) : M memst Z :=
  if negb (a <? newsz) then ret newsz else
  match fuel with
  | O => spin
  | S fuel' =>
      mem <- kalloc ;;
      if mem =? 0 then
        deallocuvm pgdir newsz oldsz ;;
        ret 0
      else
      set_page mem (filled 0) ;;
      r <- mappages pgdir a PGSIZE (V2P mem) (Z.lor PTE_W PTE_U) ;;
      if r <? 0 then
        deallocuvm pgdir newsz oldsz ;;
        kfree mem ;;
        ret 0
      else
      alloc_loop fuel' pgdir (u32 (a + PGSIZE)) oldsz newsz
  end.
Definition allocuvm (pgdir oldsz newsz : Z) : M memst Z :=
  if KERNBASE <=? newsz then ret 0 else
  if newsz <? oldsz then ret oldsz else
  alloc_loop NPAGES pgdir (PGROUNDUP oldsz) oldsz newsz.

(** The page tables of the entries in [ks]. *)
Definition free_tables (pgdir : Z) (ks : list Z) : M memst unit :=
  forM ks (fun i =>
    e <- load32 (pgdir + 4 * i) ;;
    when (has e PTE_P) (kfree (P2V (PTE_ADDR e)))).
Definition freevm (pgdir : Z) : M memst unit :=
  if pgdir =? 0 then panic "freevm: no pgdir" else
  deallocuvm pgdir KERNBASE 0 ;;
  free_tables pgdir (seqZ 0 NPDENTRIES) ;;
  kfree pgdir.

(** The table [kmap]: virtual address, physical range and permissions. *)
Definition kmap : list (Z * Z * Z * Z) := [
  (KERNBASE, 0, EXTMEM, PTE_W);
  (KERNLINK, V2P KERNLINK, V2P kdata, 0);
  (kdata, V2P kdata, PHYSTOP, PTE_W);
  (DEVSPACE, DEVSPACE, 0, PTE_W)
].

(** One line of [kmap]; the result leaves [setupkvm]. *)
Definition map_line (pgdir : Z) (k : Z * Z * Z * Z) : M memst (option Z) :=
  let '(virt, phys_start, phys_end, perm) := k in
  r <- mappages pgdir virt (u32 (phys_end - phys_start)) phys_start perm ;;
  if r <? 0 then freevm pgdir ;; ret (Some 0) else ret None.
Definition setupkvm : M memst Z :=
  pgdir <- kalloc ;;
  if pgdir =? 0 then ret 0 else
  set_page pgdir (filled 0) ;;
  if DEVSPACE <? P2V PHYSTOP then panic "PHYSTOP too high" else
  r <- forR kmap (map_line pgdir) ;;
  match r with Some z => ret z | None => ret pgdir end.

Definition switchkvm : M memst unit := modify (fun s => s <| m_cr3 := V2P (m_kpgdir s) |>).
Definition kvmalloc : M memst unit :=
  p <- setupkvm ;;
  modify (fun s => s <| m_kpgdir := p |>) ;;
  switchkvm.

Definition inituvm (pgdir : Z) (init : list Z) : M memst unit :=
  if PGSIZE <=? Z.of_nat (length init) then panic "inituvm: more than a page" else
  mem <- kalloc ;;
  set_page mem (filled 0) ;;
  mappages pgdir 0 PGSIZE (V2P mem) (Z.lor PTE_W PTE_U) ;;
  d <- gets (fun s => m_page s mem) ;;
  set_page mem (splice 0 init d).

Definition clearpteu (pgdir uva : Z) : M memst unit :=
  pte <- walkpgdir pgdir uva false ;;
  if pte =? 0 then panic "clearpteu" else
  e <- load32 pte ;;
  store32 pte (Z.land e (Z.lnot PTE_U)).

(** The loop of [copyuvm] and [copyuvm2]: the result is false when memory has
    run out.  [copyuvm] insists that every page is present. *)
Fixpoint copy_loop (strict : bool) (fuel : nat) (pgdir d i sz : Z) : M memst bool :=
  if negb (i <? sz) then ret true else
  match fuel with
  | O => spin
  | S fuel' =>
      pte <- walkpgdir pgdir i false ;;
      if pte =? 0 then panic "copyuvm: pte should exist" else
      e <- load32 pte ;;
      if negb (has e PTE_P) then
        if strict then panic "copyuvm: page not present"
        else copy_loop strict fuel' pgdir d (u32 (i + PGSIZE)) sz
      else
      mem <- kalloc ;;
      if mem =? 0 then ret false else
      x <- gets (fun s => m_page s (P2V (PTE_ADDR e))) ;;
      set_page mem x ;;
      r <- mappages d i PGSIZE (V2P mem) (PTE_FLAGS e) ;;
      if r <? 0 then kfree mem ;; ret false else
      copy_loop strict fuel' pgdir d (u32 (i + PGSIZE)) sz
  end.
Definition copy_space (strict : bool) (pgdir sz : Z) : M memst Z :=
  d <- setupkvm ;;
  if d =? 0 then ret 0 else
  ok <- copy_loop strict NPAGES pgdir d 0 sz ;;
  if (ok : bool) then ret d else freevm d ;; ret 0.
Definition copyuvm (pgdir sz : Z) : M memst Z := copy_space true pgdir sz.
Definition copyuvm2 (pgdir sz : Z) : M memst Z := copy_space false pgdir sz.

(** The null pointer that [walkpgdir] may return is dereferenced. *)
Definition uva2ka (pgdir uva : Z) : M memst Z :=
  pte <- walkpgdir pgdir uva false ;;
  e <- load32 pte ;;
  if negb (has e PTE_P) then ret 0 else
  if negb (has e PTE_U) then ret 0 else
  ret (P2V (PTE_ADDR e)).

(** Every turn copies at least one byte. *)
Fixpoint copyout_loop (fuel : nat) (pgdir va : Z) (buf : list Z) : M memst Z :=
  match buf with
  | [] => ret 0
  | _ :: _ =>
      match fuel with
      | O => spin
      | S fuel' =>
          let va0 := PGROUNDDOWN va in
          pa0 <- uva2ka pgdir va0 ;;
          if pa0 =? 0 then ret (-1) else
          let n := Z.min (PGSIZE - (va - va0)) (Z.of_nat (length buf)) in
          d <- gets (fun s => m_page s pa0) ;;
          set_page pa0 (splice (Z.to_nat (va - va0)) (take (Z.to_nat n) buf) d) ;;
          copyout_loop fuel' pgdir (u32 (va0 + PGSIZE)) (drop (Z.to_nat n) buf)
      end
  end.
Definition copyout (pgdir va : Z) (buf : list Z) : M memst Z :=
  copyout_loop (length buf) pgdir va buf.

(** ** Entries *)

Lemma PTE_ADDR_down x : PTE_ADDR x = PGROUNDDOWN x.
Proof. reflexivity. Qed.
Lemma PTE_FLAGS_mod x : PTE_FLAGS x = x mod PGSIZE.
Proof. unfold PTE_FLAGS. change 0xFFF with (Z.ones 12). by rewrite Z.land_ones. Qed.
Lemma has_P x : has x PTE_P = Z.testbit x 0.
Proof. apply (land_bit x 0). lia. Qed.
Lemma has_U x : has x PTE_U = Z.testbit x 2.
Proof. apply (land_bit x 2). lia. Qed.

(** The entry for the page at [pa]. *)
Definition pte (pa perm : Z) : Z := Z.lor (Z.lor pa perm) PTE_P.

Lemma pte_sum pa perm :
  pa mod PGSIZE = 0 -> 0 <= perm < PGSIZE ->
  pte pa perm = pa + Z.lor perm PTE_P /\ 0 <= Z.lor perm PTE_P < PGSIZE.
Proof.
  intros Hpa Hp. assert (0 <= Z.lor perm PTE_P < PGSIZE) as Hb by (by apply (lor_small 12)).
  split; [|done]. unfold pte. rewrite <- Z.lor_assoc. by apply (lor_aligned 12).
Qed.

Lemma pte_addr pa perm : pa mod PGSIZE = 0 -> 0 <= perm < PGSIZE -> PTE_ADDR (pte pa perm) = pa.
Proof.
  intros Hpa Hp. destruct (pte_sum pa perm Hpa Hp) as [-> Hb]. rewrite PTE_ADDR_down.
  by apply rounddown_page.
Qed.
Lemma pte_flags pa perm :
  pa mod PGSIZE = 0 -> 0 <= perm < PGSIZE -> PTE_FLAGS (pte pa perm) = Z.lor perm PTE_P.
Proof.
  intros Hpa Hp. destruct (pte_sum pa perm Hpa Hp) as [-> Hb]. rewrite PTE_FLAGS_mod.
  by apply offset_page.
Qed.
Lemma pte_present pa perm : has (pte pa perm) PTE_P = true.
Proof. rewrite has_P. unfold pte. rewrite Z.lor_spec. by rewrite orb_true_r. Qed.
Lemma pte_range pa perm :
  pa mod PGSIZE = 0 -> 0 <= pa < 2 ^ 32 -> 0 <= perm < PGSIZE -> 0 <= pte pa perm < 2 ^ 32.
Proof.
  intros Hpa Hr Hp. destruct (pte_sum pa perm Hpa Hp) as [-> Hb].
  pose proof (Z.div_mod pa PGSIZE ltac:(done)). unfold PGSIZE in *. lia.
Qed.

(** The indices of a page. *)
Lemma PDX_page va : 0 <= va < 2 ^ 32 -> PDX va = va / PGSIZE / 1024.
Proof.
  intros Hva. unfold PDX. change 0x3FF with (Z.ones 10).
  rewrite Z.land_ones, Z.shiftr_div_pow2, Z.div_div by (done || lia).
  change (PGSIZE * 1024) with (2 ^ 22). apply Z.mod_small.
  split; [apply Z.div_pos; (done || lia)|]. apply Z.div_lt_upper_bound; [done|]. lia.
Qed.
Lemma PTX_page va : PTX va = (va / PGSIZE) mod 1024.
Proof.
  unfold PTX. change 0x3FF with (Z.ones 10). rewrite Z.land_ones, Z.shiftr_div_pow2 by lia. reflexivity.
Qed.
Lemma page_range va : 0 <= va < 2 ^ 32 -> 0 <= va / PGSIZE < 2 ^ 20.
Proof. intros. split; [apply Z.div_pos; (done || lia)|]. apply Z.div_lt_upper_bound; [done|]. unfold PGSIZE. lia. Qed.
Lemma index_range n : 0 <= n < 2 ^ 20 -> 0 <= n / 1024 < 1024 /\ 0 <= n mod 1024 < 1024.
Proof.
  intros Hn. split; [|by apply Z.mod_pos_bound].
  split; [apply Z.div_pos; (done || lia)|]. apply Z.div_lt_upper_bound; [done|]. lia.
Qed.
Lemma index_inj n m : n / 1024 = m / 1024 -> n mod 1024 = m mod 1024 -> n = m.
Proof. intros H1 H2. rewrite (Z.div_mod n 1024), (Z.div_mod m 1024) by done. by rewrite H1, H2. Qed.

(** ** A page directory *)
Hypothesis Hend : KERNBASE < kend.
Abbreviation kpage := (kpage kend).
Abbreviation free_ok := (free_ok kend).
Implicit Types s : memst.

Definition pde s (d i : Z) : Z := get32 (m_page s d) (Z.to_nat (4 * i)).
Definition present s (d i : Z) : bool := has (pde s d i) PTE_P.
Definition table s (d i : Z) : Z := P2V (PTE_ADDR (pde s d i)).
(** The entry of virtual page [n], 0 when there is no table. *)
Definition entry s (d n : Z) : Z :=
  if present s d (n / 1024) then
    get32 (m_page s (table s d (n / 1024))) (Z.to_nat (4 * (n mod 1024)))
  else 0.
Definition mapped s (d n : Z) : bool := has (entry s d n) PTE_P.

Record dir_ok s (d : Z) (l : list Z) : Prop := mkDir {
  do_free : free_ok s l;
  do_dir : kpage d /\ (d ∉ l);
  do_table i : 0 <= i < 1024 -> present s d i = true ->
    kpage (table s d i) /\ (table s d i ∉ l) /\ table s d i <> d;
  do_inj i j : 0 <= i < 1024 -> 0 <= j < 1024 -> present s d i = true -> present s d j = true ->
    table s d i = table s d j -> i = j
}.

Lemma kpage_phys p : kpage p -> P2V (V2P p) = p /\ V2P p mod PGSIZE = 0 /\ 0 <= V2P p < PHYSTOP.
Proof.
  intros Hp. destruct (kpage_v2p kend Hend p Hp) as [E Hr]. rewrite E in *. destruct Hp as [Hal Hp].
  split; [|split; [|done]].
  - unfold P2V. rewrite u32_small; unfold KERNBASE, PHYSTOP in *; lia.
  - change KERNBASE with (0x80000 * PGSIZE). rewrite <- Zminus_mod_idemp_l, Hal.
    rewrite Z.sub_0_l. by rewrite Z.mod_opp_l_z; [| |rewrite Z.mod_mul].
Qed.

Lemma word_offset j : 0 <= j < 1024 -> 0 <= 4 * j < PGSIZE.
Proof. unfold PGSIZE. lia. Qed.

Lemma load_pde s d l i :
  dir_ok s d l -> 0 <= i < 1024 -> load32 (d + 4 * i) s = Ok (pde s d i) s.
Proof.
  intros Hd Hi. destruct (do_dir _ _ _ Hd) as [Hk _].
  apply load32_run; [apply Hk|by eapply kpage_pos|by apply word_offset|done].
Qed.

Lemma walk_false s d l va :
  dir_ok s d l -> 0 <= va < 2 ^ 32 ->
  let n := va / PGSIZE in
  walkpgdir d va false s =
    Ok (if present s d (n / 1024) then table s d (n / 1024) + 4 * (n mod 1024) else 0) s.
Proof.
  intros Hd Hva n. destruct (index_range n (page_range va Hva)) as [Hi Hj].
  unfold walkpgdir. rewrite PDX_page, PTX_page by done. fold n.
  rewrite (bind_Ok _ _ _ _ _ (load_pde s d l _ Hd Hi)). fold (present s d (n / 1024)).
  by destruct (present s d (n / 1024)).
Qed.

(** The entry of a page whose table is there. *)
Lemma load_entry s d l n :
  dir_ok s d l -> 0 <= n < 2 ^ 20 -> present s d (n / 1024) = true ->
  load32 (table s d (n / 1024) + 4 * (n mod 1024)) s = Ok (entry s d n) s.
Proof.
  intros Hd Hn Hp. destruct (index_range n Hn) as [Hi Hj].
  destruct (do_table _ _ _ Hd _ Hi Hp) as (Hk&_). unfold entry. rewrite Hp.
  apply load32_run; [apply Hk|by eapply kpage_pos|by apply word_offset|done].
Qed.

(** The state with entry [n] set to [e]. *)
Definition set_entry s (d n e : Z) : memst :=
  s <| m_page ::= fun f => fset f (table s d (n / 1024))
    (put32 (Z.to_nat (4 * (n mod 1024))) e (f (table s d (n / 1024)))) |>.

Lemma store_entry s d l n e :
  dir_ok s d l -> 0 <= n < 2 ^ 20 -> present s d (n / 1024) = true ->
  store32 (table s d (n / 1024) + 4 * (n mod 1024)) e s = Ok tt (set_entry s d n e).
Proof.
  intros Hd Hn Hp. destruct (index_range n Hn) as [Hi Hj].
  destruct (do_table _ _ _ Hd _ Hi Hp) as (Hk&_).
  apply store32_run; [apply Hk|by eapply kpage_pos|by apply word_offset|done].
Qed.

Lemma free_ok_frame s s' l :
  free_ok s l -> (forall p, p ∈ l -> m_page s' p = m_page s p) ->
  (forall p, length (m_page s' p) = Z.to_nat PGSIZE) ->
  m_freelist s' = m_freelist s -> m_lock s' = m_lock s -> free_ok s' l.
Proof.
  intros [Hc Hn Hp Hl _] Hf Hlen E1 E2. split; try done; [|by rewrite E2].
  rewrite E1. by eapply chain_frame.
Qed.

(** A change outside the directory and the free pages that keeps the entries
    of the directory. *)
Lemma dir_ok_frame s s' d l :
  dir_ok s d l -> m_page s' d = m_page s d -> free_ok s' l -> dir_ok s' d l.
Proof.
  intros [_ Hd Ht Hi] E Hf. split; try done; unfold present, table, pde in *; rewrite E; done.
Qed.

Lemma set_entry_ok s d l n e :
  dir_ok s d l -> 0 <= n < 2 ^ 20 -> present s d (n / 1024) = true -> 0 <= e < 2 ^ 32 ->
  dir_ok (set_entry s d n e) d l /\
  (forall m, 0 <= m < 2 ^ 20 -> entry (set_entry s d n e) d m = if decide (m = n) then e else entry s d m) /\
  (forall p, p <> table s d (n / 1024) -> m_page (set_entry s d n e) p = m_page s p).
Proof.
  intros Hd Hn Hp He. destruct (index_range n Hn) as [Hi Hj]. pose proof (do_free _ _ _ Hd) as Hf.
  destruct (do_table _ _ _ Hd _ Hi Hp) as (Hk&Hnl&Hnd). set (t := table s d (n / 1024)) in *.
  assert (forall p, p <> t -> m_page (set_entry s d n e) p = m_page s p) as Hframe.
  { intros p Hpt. unfold set_entry. proj_upd. by apply fset_ne. }
  assert (m_page (set_entry s d n e) t = put32 (Z.to_nat (4 * (n mod 1024))) e (m_page s t)) as Ht.
  { unfold set_entry. proj_upd. apply fset_eq. }
  split; [|split; [|done]].
  - apply (dir_ok_frame s); [done|by apply Hframe|].
    apply (free_ok_frame s); try done.
    + intros p Hpl. apply Hframe. by intros ->.
    + intros p. destruct (decide (p = t)) as [->|Hpt]; [|rewrite Hframe by done; apply Hf].
      rewrite Ht, length_put32. apply Hf.
  - intros m Hm. destruct (index_range m Hm) as [Hi' Hj'].
    assert (present (set_entry s d n e) d (m / 1024) = present s d (m / 1024)) as Hpm
      by (unfold present, pde; by rewrite Hframe).
    assert (table (set_entry s d n e) d (m / 1024) = table s d (m / 1024)) as Htm
      by (unfold table, pde; by rewrite Hframe).
    unfold entry. rewrite Hpm, Htm. destruct (present s d (m / 1024)) eqn:Hpres.
    2:{ rewrite decide_False; [done|]. intros ->. by rewrite Hp in Hpres. }
    destruct (decide (m / 1024 = n / 1024)) as [Hsame|Hdiff].
    + rewrite Hsame. fold t. rewrite Ht. pose proof (fr_len _ _ _ Hf t) as Hlen. case_decide as Hmn.
      * subst m. rewrite get32_put32; [by apply u32_small|]. rewrite Hlen. unfold PGSIZE. lia.
      * assert (m mod 1024 <> n mod 1024) by (intros E; apply Hmn; by apply index_inj).
        apply get32_put32_ne; [rewrite Hlen; unfold PGSIZE|]; lia.
    + rewrite Hframe; [rewrite decide_False; [done|by intros ->]|].
      intros E. apply Hdiff. by apply (do_inj _ _ _ Hd).
Qed.

(** How a directory evolves: it takes new tables from the free list, and no page
    but its own and free ones change. *)
Record grows s (d : Z) (l : list Z) s' (l' : list Z) : Prop := mkGrows {
  gw_ok : dir_ok s' d l';
  gw_sub p : p ∈ l' -> p ∈ l;
  gw_table i : 0 <= i < 1024 -> present s' d i = true ->
    (present s d i = true /\ table s' d i = table s d i) \/ (table s' d i ∈ l /\ table s' d i ∉ l');
  gw_keep i : 0 <= i < 1024 -> present s d i = true -> present s' d i = true;
  gw_frame p : p <> d -> p ∉ l ->
    (forall i, 0 <= i < 1024 -> present s d i = true -> table s d i <> p) -> m_page s' p = m_page s p
}.

Lemma grows_refl s d l : dir_ok s d l -> grows s d l s l.
Proof. intros Hd. split; try done. intros i _ Hp. by left. Qed.

Lemma grows_trans s d l s1 l1 s2 l2 :
  grows s d l s1 l1 -> grows s1 d l1 s2 l2 -> grows s d l s2 l2.
Proof.
  intros H1 H2. split.
  - apply H2.
  - intros p Hp. by apply (gw_sub _ _ _ _ _ H1), (gw_sub _ _ _ _ _ H2).
  - intros i Hi Hp. destruct (gw_table _ _ _ _ _ H2 i Hi Hp) as [[Hp1 ->]|[Hin Hno]].
    + destruct (gw_table _ _ _ _ _ H1 i Hi Hp1) as [|[Hin Hno]]; [by left|right].
      split; [done|]. intros Hc. by apply Hno, (gw_sub _ _ _ _ _ H2).
    + right. split; [by apply (gw_sub _ _ _ _ _ H1)|done].
  - intros i Hi Hp. by apply (gw_keep _ _ _ _ _ H2), (gw_keep _ _ _ _ _ H1).
  - intros p Hd Hl Ht. rewrite (gw_frame _ _ _ _ _ H2); [by apply (gw_frame _ _ _ _ _ H1)|done| |].
    + intros Hin. by apply Hl, (gw_sub _ _ _ _ _ H1).
    + intros i Hi Hp E. destruct (gw_table _ _ _ _ _ H1 i Hi Hp) as [[Hp0 E0]|[Hin _]].
      * apply (Ht i); congruence.
      * by rewrite E in Hin.
Qed.

Lemma set_entry_grows s d l n e :
  dir_ok s d l -> 0 <= n < 2 ^ 20 -> present s d (n / 1024) = true -> 0 <= e < 2 ^ 32 ->
  grows s d l (set_entry s d n e) l.
Proof.
  intros Hd Hn Hp He. destruct (set_entry_ok s d l n e) as (Hok&_&Hframe); try done.
  destruct (index_range n Hn) as [Hi _]. destruct (do_table _ _ _ Hd _ Hi Hp) as (_&_&Hne).
  assert (m_page (set_entry s d n e) d = m_page s d) as Hd' by (by apply Hframe).
  split; try done.
  - intros i _. unfold present, table, pde. rewrite Hd'. by left.
  - intros i _. unfold present, pde. by rewrite Hd'.
  - intros p _ _ Ht. apply Hframe. apply not_eq_sym. by apply Ht.
Qed.

(** A directory gets a new, empty table. *)
Definition new_table s (d i t n : Z) : memst :=
  s <| m_freelist := n |> <| m_page ::= fun f => fset f t (filled 0) |>
    <| m_page ::= fun f => fset f d (put32 (Z.to_nat (4 * i))
         (Z.lor (Z.lor (Z.lor (V2P t) PTE_P) PTE_W) PTE_U) (f d)) |>.

Lemma table_entry t : kpage t ->
  let e := Z.lor (Z.lor (Z.lor (V2P t) PTE_P) PTE_W) PTE_U in
  0 <= e < 2 ^ 32 /\ PTE_ADDR e = V2P t /\ has e PTE_P = true.
Proof.
  intros Ht e. destruct (kpage_phys t Ht) as (_&Hal&Hr).
  assert (e = pte (V2P t) (Z.lor PTE_W PTE_U)) as ->.
  { unfold e, pte. rewrite <- !Z.lor_assoc. f_equal. }
  assert (0 <= V2P t < 2 ^ 32) by (unfold PHYSTOP in *; lia).
  split; [by apply pte_range|]. split; [by apply pte_addr|apply pte_present].
Qed.

Lemma zero_word j : 0 <= j < 1024 -> get32 (filled 0) (Z.to_nat (4 * j)) = 0.
Proof.
  intros Hj. unfold filled. assert (forall o, byte_at (replicate (Z.to_nat PGSIZE) 0) o = 0) as Hz.
  { intros o. unfold byte_at. destruct (replicate (Z.to_nat PGSIZE) 0 !! o) eqn:E; [|done].
    by apply lookup_replicate in E as [-> _]. }
  unfold get32, get16. by rewrite !Hz.
Qed.

Lemma new_table_ok s d l i t n :
  dir_ok s d (t :: l) -> free_ok (s <| m_freelist := n |>) l -> 0 <= i < 1024 -> present s d i = false ->
  let s' := new_table s d i t n in
  grows s d (t :: l) s' l /\ present s' d i = true /\ table s' d i = t /\
  (forall m, 0 <= m < 2 ^ 20 -> entry s' d m = entry s d m).
Proof.
  intros Hd Hf Hi Hp s'. pose proof (do_free _ _ _ Hd) as Hf0.
  pose proof (fr_pages _ _ _ Hf0) as Hkt. apply Forall_cons in Hkt as [Hkt _].
  destruct (do_dir _ _ _ Hd) as [Hkd Hdl]. apply not_elem_of_cons in Hdl as [Hdt Hdl].
  pose proof (fr_nodup _ _ _ Hf0) as Hnd. apply NoDup_cons in Hnd as [Htl _].
  destruct (table_entry t Hkt) as (He&Ha&Hpe). set (e := Z.lor _ PTE_U) in *.
  destruct (kpage_phys t Hkt) as [Hpv _].
  assert (forall p, p <> d -> p <> t -> m_page s' p = m_page s p) as Hframe.
  { intros p H1 H2. unfold s', new_table. proj_upd. by rewrite !fset_ne. }
  assert (m_page s' t = filled 0) as Ht'.
  { unfold s', new_table. proj_upd. rewrite fset_ne by done. apply fset_eq. }
  assert (m_page s' d = put32 (Z.to_nat (4 * i)) e (m_page s d)) as Hd'.
  { unfold s', new_table. proj_upd. rewrite fset_eq. by rewrite fset_ne by done. }
  pose proof (fr_len _ _ _ Hf0 d) as Hlen.
  assert (forall j, 0 <= j < 1024 -> pde s' d j = if decide (j = i) then e else pde s d j) as Hpde.
  { intros j Hj. unfold pde. rewrite Hd'. case_decide as Hji.
    - subst j. rewrite get32_put32; [by apply u32_small|]. rewrite Hlen. unfold PGSIZE. lia.
    - apply get32_put32_ne; [rewrite Hlen; unfold PGSIZE|]; lia. }
  assert (present s' d i = true /\ table s' d i = t) as [Hpi Hti].
  { unfold present, table. rewrite Hpde, decide_True by done. split; [done|]. by rewrite Ha. }
  assert (forall j, 0 <= j < 1024 -> j <> i ->
    present s' d j = present s d j /\ table s' d j = table s d j) as Hother.
  { intros j Hj Hji. unfold present, table. by rewrite Hpde, decide_False. }
  assert (dir_ok s' d l) as Hok.
  { split.
    - eapply free_ok_frame; [exact Hf| | |done|done].
      + intros p Hpl. rewrite Hframe; [done|by intros ->|by intros ->].
      + intros p. destruct (decide (p = d)) as [->|]; [by rewrite Hd', length_put32|].
        destruct (decide (p = t)) as [->|]; [rewrite Ht'; apply length_filled|].
        rewrite Hframe by done. apply Hf0.
    - done.
    - intros j Hj Hpj. destruct (decide (j = i)) as [->|Hji]; [by rewrite Hti|].
      destruct (Hother j Hj Hji) as [E1 E2]. rewrite E1 in Hpj. rewrite E2.
      destruct (do_table _ _ _ Hd j Hj Hpj) as (?&Hn&?). by apply not_elem_of_cons in Hn as [_ ?].
    - assert (forall j, 0 <= j < 1024 -> j <> i -> present s' d j = true -> table s' d j <> t) as Hnt.
      { intros j Hj Hji Hpj. destruct (Hother j Hj Hji) as [E1 E2]. rewrite E1 in Hpj. rewrite E2.
        destruct (do_table _ _ _ Hd j Hj Hpj) as (_&Hn&_). by apply not_elem_of_cons in Hn as [? _]. }
      intros j k Hj Hk Hpj Hpk E. destruct (decide (j = i)) as [->|Hji], (decide (k = i)) as [->|Hki].
      + done.
      + rewrite Hti in E. by destruct (Hnt k).
      + rewrite Hti in E. by destruct (Hnt j).
      + destruct (Hother j Hj Hji) as [Ej Tj], (Hother k Hk Hki) as [Ek Tk].
        apply (do_inj _ _ _ Hd); congruence. }
  split; [|split; [done|split; [done|]]].
  - split; [done|by right| | |].
    + intros j Hj Hpj. destruct (decide (j = i)) as [->|Hji].
      * right. rewrite Hti. split; [left|done].
      * left. destruct (Hother j Hj Hji) as [E1 E2]. by rewrite <- E1.
    + intros j Hj Hpj. destruct (decide (j = i)) as [->|Hji]; [done|].
      destruct (Hother j Hj Hji) as [E1 _]. by rewrite E1.
    + intros p H1 H2 _. apply not_elem_of_cons in H2 as [H2 _]. by apply Hframe.
  - intros m Hm. destruct (index_range m Hm) as [Hmi Hmj]. unfold entry.
    destruct (decide (m / 1024 = i)) as [->|Hmne].
    + rewrite Hp, Hpi, Hti, Ht'. by apply zero_word.
    + destruct (Hother _ Hmi Hmne) as [-> ->]. destruct (present s d (m / 1024)) eqn:E; [|done].
      destruct (do_table _ _ _ Hd _ Hmi E) as (_&Hn&Hnd). apply not_elem_of_cons in Hn as [Hn _].
      by rewrite Hframe.
Qed.

(** [walkpgdir] with allocation. *)
Lemma walk_true s d l va :
  dir_ok s d l -> 0 <= va < 2 ^ 32 ->
  let n := va / PGSIZE in
  exists a s' l', walkpgdir d va true s = Ok a s' /\ grows s d l s' l' /\
    (forall m, 0 <= m < 2 ^ 20 -> entry s' d m = entry s d m) /\
    ((a = 0 /\ l' = []) \/
     (present s' d (n / 1024) = true /\ a = table s' d (n / 1024) + 4 * (n mod 1024))).
Proof.
  intros Hd Hva n. destruct (index_range n (page_range va Hva)) as [Hi Hj].
  unfold walkpgdir. rewrite PDX_page, PTX_page by done. fold n.
  rewrite (bind_Ok _ _ _ _ _ (load_pde s d l _ Hd Hi)). fold (present s d (n / 1024)).
  destruct (present s d (n / 1024)) eqn:Hp.
  { exists (table s d (n / 1024) + 4 * (n mod 1024)), s, l. split; [done|].
    split; [by apply grows_refl|]. split; [done|]. by right. }
  cbn [negb]. pose proof (kalloc_run kend Hend s l (do_free _ _ _ Hd)) as Hk. destruct l as [|t l].
  { rewrite (bind_Ok _ _ _ _ _ Hk). exists 0, s, []. split; [done|].
    split; [by apply grows_refl|]. split; [done|]. by left. }
  destruct Hk as (nx&E&Hf'). rewrite (bind_Ok _ _ _ _ _ E).
  destruct (new_table_ok s d l (n / 1024) t nx Hd Hf' Hi Hp) as (Hg&Hp'&Ht'&Hent).
  pose proof (fr_pages _ _ _ (do_free _ _ _ Hd)) as Hkt. apply Forall_cons in Hkt as [Hkt _].
  pose proof (kpage_pos kend Hend t Hkt) as Htpos. destruct (do_dir _ _ _ Hd) as [Hkd _].
  rewrite (proj2 (Z.eqb_neq t 0)) by lia.
  rewrite (bind_Ok _ _ _ _ _ (set_page_run _ t (filled 0) ltac:(lia))).
  rewrite (bind_Ok _ _ _ _ _ (store32_run _ _ _ d (4 * (n / 1024)) (proj1 Hkd)
    (kpage_pos kend Hend d Hkd) (word_offset _ Hi) eq_refl)).
  exists (t + 4 * (n mod 1024)), (new_table s d (n / 1024) t nx), l.
  split; [done|]. split; [done|]. split; [done|]. right. by rewrite Ht'.
Qed.

(** ** mappages *)

Lemma page_addr n : 0 <= n < 2 ^ 20 -> 0 <= n * PGSIZE < 2 ^ 32 /\ n * PGSIZE / PGSIZE = n.
Proof. intros Hn. split; [unfold PGSIZE; lia|]. by apply Z.div_mul. Qed.

Lemma mapped_present s d n : mapped s d n = true -> present s d (n / 1024) = true.
Proof. unfold mapped, entry. by destruct (present s d (n / 1024)). Qed.

(** One turn: the table is found or made, and the entry is set. *)
Lemma map_turn s d l n last pa perm fuel :
  dir_ok s d l -> 0 <= n < 2 ^ 20 -> pa mod PGSIZE = 0 -> 0 <= pa < 2 ^ 32 -> 0 <= perm < PGSIZE ->
  mapped s d n = false ->
  exists s' l', grows s d l s' l' /\
    ((map_loop (S fuel) d (n * PGSIZE) last pa perm s = Ok (-1) s' /\ l' = [] /\
      forall m, 0 <= m < 2 ^ 20 -> entry s' d m = entry s d m) \/
     (map_loop (S fuel) d (n * PGSIZE) last pa perm s =
        (if n * PGSIZE =? last then ret 0
         else map_loop fuel d (u32 (n * PGSIZE + PGSIZE)) last (u32 (pa + PGSIZE)) perm) s' /\
      forall m, 0 <= m < 2 ^ 20 -> entry s' d m = if decide (m = n) then pte pa perm else entry s d m)).
Proof.
  intros Hd Hn Hpa Hpr Hperm Hm. destruct (page_addr n Hn) as [Hva Hdiv].
  destruct (walk_true s d l (n * PGSIZE) Hd Hva) as (a&s1&l1&E1&Hg1&He1&Hcase).
  rewrite Hdiv in Hcase. cbn [map_loop].
  rewrite (bind_Ok _ _ _ _ _ E1). destruct Hcase as [[-> ->]|[Hp1 ->]].
  { exists s1, []. split; [done|]. by left. }
  pose proof (gw_ok _ _ _ _ _ Hg1) as Hd1. destruct (index_range n Hn) as [Hi Hj].
  destruct (do_table _ _ _ Hd1 _ Hi Hp1) as (Hk&_). pose proof (kpage_pos kend Hend _ Hk).
  rewrite (proj2 (Z.eqb_neq _ 0)) by lia.
  rewrite (bind_Ok _ _ _ _ _ (load_entry s1 d l1 n Hd1 Hn Hp1)), He1 by done. fold (mapped s d n).
  rewrite Hm. rewrite (bind_Ok _ _ _ _ _ (store_entry s1 d l1 n _ Hd1 Hn Hp1)). fold (pte pa perm).
  pose proof (pte_range pa perm Hpa Hpr Hperm) as Her.
  destruct (set_entry_ok s1 d l1 n (pte pa perm) Hd1 Hn Hp1 Her) as (_&He2&_).
  exists (set_entry s1 d n (pte pa perm)), l1. split.
  { eapply grows_trans; [exact Hg1|]. by apply set_entry_grows. }
  right. split; [by destruct (_ =? last)|]. intros m Hm'. rewrite He2, He1 by done. done.
Qed.

(** [k + 1] pages from page [n] on, or as many as there is memory for. *)
Lemma map_loop_run d perm k : forall fuel s l n pa,
  (k < fuel)%nat -> dir_ok s d l -> 0 <= n -> n + Z.of_nat k < 2 ^ 20 ->
  pa mod PGSIZE = 0 -> 0 <= pa -> pa + Z.of_nat k * PGSIZE < 2 ^ 32 -> 0 <= perm < PGSIZE ->
  (forall m, n <= m <= n + Z.of_nat k -> mapped s d m = false) ->
  exists r j s' l', map_loop fuel d (n * PGSIZE) ((n + Z.of_nat k) * PGSIZE) pa perm s = Ok r s' /\
    grows s d l s' l' /\ (r = 0 /\ j = Z.of_nat k + 1 \/ r = -1 /\ 0 <= j <= Z.of_nat k /\ l' = []) /\
    forall m, 0 <= m < 2 ^ 20 -> entry s' d m =
      if decide (n <= m < n + j) then pte (pa + (m - n) * PGSIZE) perm else entry s d m.
Proof.
  induction k as [|k IH]; intros fuel s l n pa Hfuel Hd Hn Hnk Hpa Hp0 Hpr Hperm Hun;
    (destruct fuel as [|fuel]; [lia|]).
  - destruct (map_turn s d l n ((n + Z.of_nat 0) * PGSIZE) pa perm fuel)
      as (s1&l1&Hg&[(E&->&He)|(E&He)]); try done; [lia|lia|apply Hun; lia| |].
    + exists (-1), 0, s1, []. split; [exact E|]. split; [done|]. split; [right; split; [lia|split; [lia|done]]|].
      intros m Hm. rewrite decide_False by lia. by apply He.
    + exists 0, 1, s1, l1. rewrite Z.add_0_r, Z.eqb_refl in E. rewrite Z.add_0_r. split; [exact E|].
      split; [done|]. split; [left; lia|]. intros m Hm. rewrite He by done.
      destruct (decide (m = n)) as [->|Hmn]; [rewrite decide_True by lia|rewrite decide_False by lia; done].
      f_equal. lia.
  - destruct (map_turn s d l n ((n + Z.of_nat (S k)) * PGSIZE) pa perm fuel)
      as (s1&l1&Hg&[(E&->&He)|(E&He)]); try done; [lia|unfold PGSIZE in *; lia|apply Hun; lia| |].
    + exists (-1), 0, s1, []. split; [exact E|]. split; [done|]. split; [right; split; [lia|split; [lia|done]]|].
      intros m Hm. rewrite decide_False by lia. by apply He.
    + rewrite (proj2 (Z.eqb_neq _ _)) in E by (unfold PGSIZE; lia).
      rewrite !u32_small in E by (unfold PGSIZE in *; lia).
      replace (n * PGSIZE + PGSIZE) with ((n + 1) * PGSIZE) in E by (unfold PGSIZE; lia).
      replace (n + Z.of_nat (S k)) with (n + 1 + Z.of_nat k) in * by lia.
      destruct (IH fuel s1 l1 (n + 1) (pa + PGSIZE)) as (r&j&s2&l2&E2&Hg2&Hr&He2);
        [lia|apply Hg|lia|lia| |unfold PGSIZE; lia|unfold PGSIZE in *; lia|done| |].
      { by rewrite <- Z.add_mod_idemp_l, Hpa. }
      { intros m Hm. unfold mapped. rewrite He by lia. rewrite decide_False by lia. apply Hun. lia. }
      rewrite E, E2. exists r, (if decide (r = 0) then Z.of_nat (S k) + 1 else j + 1), s2, l2.
      split; [done|]. split; [by eapply grows_trans|].
      assert ((if decide (r = 0) then Z.of_nat (S k) + 1 else j + 1) = j + 1) as ->
        by (case_decide; lia).
      split; [destruct Hr as [[-> ->]|(->&Hj&->)]; [left; lia|right; split; [lia|split; [lia|done]]]|].
      intros m Hm. rewrite He2, He by done. repeat case_decide; try lia; try done; f_equal; lia.
Qed.

Lemma mappages_loop va size d pa perm :
  0 <= va -> 0 < size -> va + size <= 2 ^ 32 ->
  let n := va / PGSIZE in let k := Z.to_nat ((va + size - 1) / PGSIZE - n) in
  mappages d va size pa perm = map_loop NPAGES d (n * PGSIZE) ((n + Z.of_nat k) * PGSIZE) pa perm /\
  (k < NPAGES)%nat /\ n + Z.of_nat k < 2 ^ 20 /\ n + Z.of_nat k = (va + size - 1) / PGSIZE.
Proof.
  intros Hva Hs Hmax n k. unfold mappages. rewrite !rounddown_div, u32_small by lia. fold n.
  assert (n <= (va + size - 1) / PGSIZE) by (apply Z.div_le_mono; [done|lia]).
  assert ((va + size - 1) / PGSIZE < 2 ^ 20) by (apply page_range; lia).
  assert (0 <= n) by (apply Z.div_pos; done).
  assert (n + Z.of_nat k = (va + size - 1) / PGSIZE) as E by (unfold k; lia).
  rewrite E. split; [done|]. split; [|done]. unfold NPAGES. lia.
Qed.

(** [mappages] maps the pages of the range one after the other to the
    physical pages from [pa] on.  It returns 0 when all are mapped and -1 when
    the memory for page tables has run out after the first [j]; every other
    entry of the directory is unchanged, and so is every page that is neither
    part of the directory nor free.  A page mapped already panics. *)
Theorem mappages_correct s d l va size pa perm :
  dir_ok s d l -> 0 <= va -> 0 < size -> va + size <= 2 ^ 32 ->
  pa mod PGSIZE = 0 -> 0 <= pa -> 0 <= perm < PGSIZE ->
  let n := va / PGSIZE in let last := (va + size - 1) / PGSIZE in
  pa + (last - n) * PGSIZE < 2 ^ 32 ->
  (mapped s d n = true -> mappages d va size pa perm s = Panic "remap") /\
  ((forall m, n <= m <= last -> mapped s d m = false) ->
   exists r j s' l', mappages d va size pa perm s = Ok r s' /\ grows s d l s' l' /\
     (r = 0 /\ j = last + 1 - n \/ r = -1 /\ 0 <= j <= last - n /\ l' = []) /\
     forall m, 0 <= m < 2 ^ 20 -> entry s' d m =
       if decide (n <= m < n + j) then pte (pa + (m - n) * PGSIZE) perm else entry s d m).
Proof.
  intros Hd Hva Hs Hmax Hpa Hp0 Hperm n last Hpr.
  destruct (mappages_loop va size d pa perm Hva Hs Hmax) as (->&Hk&Hn20&Hlast). fold n last in Hk, Hn20, Hlast |- *.
  set (k := Z.to_nat (last - n)) in *.
  assert (0 <= n) by (apply Z.div_pos; done). split.
  - intros Hm. assert (0 <= n < 2 ^ 20) as Hn by lia. destruct (page_addr n Hn) as [Hr Hdiv].
    assert (exists f, NPAGES = S f) as [f ->] by (exists (pred NPAGES); lia). cbn [map_loop].
    pose proof (mapped_present _ _ _ Hm) as Hp. destruct (index_range n Hn) as [Hi Hj].
    unfold walkpgdir. rewrite PDX_page, PTX_page, Hdiv by done. rewrite bind_bind.
    rewrite (bind_Ok _ _ _ _ _ (load_pde s d l _ Hd Hi)). fold (present s d (n / 1024)).
    rewrite Hp, bind_ret. fold (table s d (n / 1024)).
    destruct (do_table _ _ _ Hd _ Hi Hp) as (Hkp&_). pose proof (kpage_pos kend Hend _ Hkp).
    rewrite (proj2 (Z.eqb_neq _ 0)) by lia.
    rewrite (bind_Ok _ _ _ _ _ (load_entry s d l n Hd Hn Hp)). fold (mapped s d n). by rewrite Hm.
  - intros Hun. destruct (map_loop_run d perm k NPAGES s l n pa) as (r&j&s'&l'&E&Hg&Hr&He); try done.
    + by replace (Z.of_nat k) with (last - n) by lia.
    + intros m Hm. apply Hun. lia.
    + exists r, j, s', l'. split; [done|]. split; [done|]. split; [|done].
      destruct Hr as [[-> ->]|(->&Hj&->)]; [left; lia|right; split; [lia|split; [lia|done]]].
Qed.

(** ** User pages *)

Definition frame s (d n : Z) : Z := P2V (PTE_ADDR (entry s d n)).
(** The pages below [KERNBASE]. *)
Definition UPAGES : Z := 0x80000.

(** Every user page has a frame of its own: a page of memory that is neither
    free nor part of the directory. *)
Record user_ok s (d : Z) (l : list Z) : Prop := mkUser {
  us_frame n : 0 <= n < UPAGES -> mapped s d n = true ->
    kpage (frame s d n) /\ (frame s d n ∉ l) /\ frame s d n <> d;
  us_table n i : 0 <= n < UPAGES -> mapped s d n = true -> 0 <= i < 1024 -> present s d i = true ->
    table s d i <> frame s d n;
  us_inj n m : 0 <= n < UPAGES -> 0 <= m < UPAGES -> mapped s d n = true -> mapped s d m = true ->
    frame s d n = frame s d m -> n = m
}.

(** A change that keeps the directory, outside the tables. *)
Lemma entry_frame s s' d l m :
  dir_ok s d l -> 0 <= m < 2 ^ 20 -> m_page s' d = m_page s d ->
  (forall i, 0 <= i < 1024 -> present s d i = true -> m_page s' (table s d i) = m_page s (table s d i)) ->
  entry s' d m = entry s d m.
Proof.
  intros Hd Hm Ed Et. destruct (index_range m Hm) as [Hi _]. unfold entry.
  assert (present s' d (m / 1024) = present s d (m / 1024)) as -> by (unfold present, pde; by rewrite Ed).
  assert (table s' d (m / 1024) = table s d (m / 1024)) as -> by (unfold table, pde; by rewrite Ed).
  destruct (present s d (m / 1024)) eqn:E; [|done]. by rewrite Et.
Qed.

Lemma user_ok_entries s s' d l l' :
  user_ok s d l ->
  (forall m, 0 <= m < UPAGES -> mapped s' d m = true -> entry s' d m = entry s d m) ->
  (forall m, 0 <= m < UPAGES -> mapped s' d m = true -> frame s d m ∉ l') ->
  (forall m i, 0 <= m < UPAGES -> mapped s' d m = true -> 0 <= i < 1024 -> present s' d i = true ->
    table s' d i <> frame s d m) ->
  user_ok s' d l'.
Proof.
  intros [Hf Ht Hi] He Hl Htab.
  assert (forall m, 0 <= m < UPAGES -> mapped s' d m = true ->
    mapped s d m = true /\ frame s' d m = frame s d m) as Hs.
  { intros m Hm Hmm. pose proof (He m Hm Hmm) as E. unfold mapped, frame in *. rewrite E in *. done. }
  split.
  - intros n Hn Hm. destruct (Hs n Hn Hm) as [Hm0 E]. rewrite E.
    destruct (Hf n Hn Hm0) as (H1&_&H3). split; [done|]. split; [by apply Hl|done].
  - intros n i Hn Hm Hir Hp. destruct (Hs n Hn Hm) as [_ E]. rewrite E. by apply Htab.
  - intros n m Hn Hm Hmn Hmm E. destruct (Hs n Hn Hmn) as [Hn0 En], (Hs m Hm Hmm) as [Hm0 Em].
    apply Hi; congruence.
Qed.

(** A page that is neither in the directory nor free goes to the free list. *)
Lemma kfree_dir s d l p :
  dir_ok s d l -> kpage p -> p ∉ l -> p <> d ->
  (forall i, 0 <= i < 1024 -> present s d i = true -> table s d i <> p) ->
  exists s', kfree p s = Ok tt s' /\ dir_ok s' d (p :: l) /\
    (forall m, 0 <= m < 2 ^ 20 -> entry s' d m = entry s d m) /\
    (forall q, q <> p -> m_page s' q = m_page s q).
Proof.
  intros Hd Hp Hl Hpd Ht. destruct (kfree_run kend Hend s l p (do_free _ _ _ Hd) Hp Hl)
    as (s'&E&Hf&Hq&_).
  assert (m_page s' d = m_page s d) as Ed by (apply Hq; congruence).
  exists s'. split; [done|]. split; [|split; [|done]].
  - destruct Hd as [_ [Hkd Hdl] Htab Hinj]. unfold present, table, pde in *.
    split; [done| | |]; unfold present, table, pde; rewrite ?Ed.
    + split; [done|]. apply not_elem_of_cons. split; [congruence|done].
    + intros i Hi Hpi. destruct (Htab i Hi Hpi) as (H1&H2&H3). split; [done|]. split; [|done].
      apply not_elem_of_cons. split; [by apply Ht|done].
    + done.
  - intros m Hm. eapply entry_frame; [exact Hd|done|done|]. intros i Hi Hpi. apply Hq. by apply Ht.
Qed.

(** Unmapping one page. *)
Lemma unmap_one s d l n :
  dir_ok s d l -> user_ok s d l -> 0 <= n < UPAGES -> mapped s d n = true ->
  let p := frame s d n in
  exists s', (kfree p ;; store32 (table s d (n / 1024) + 4 * (n mod 1024)) 0) s = Ok tt s' /\
    dir_ok s' d (p :: l) /\ user_ok s' d (p :: l) /\
    (forall m, 0 <= m < 2 ^ 20 -> entry s' d m = if decide (m = n) then 0 else entry s d m) /\
    (forall i, 0 <= i < 1024 -> present s' d i = present s d i /\ table s' d i = table s d i) /\
    (forall q, q <> p -> (forall i, 0 <= i < 1024 -> present s d i = true -> table s d i <> q) ->
      m_page s' q = m_page s q).
Proof.
  intros Hd Hu Hn Hm p. destruct (us_frame _ _ _ Hu n Hn Hm) as (Hk&Hl&Hpd).
  assert (forall i, 0 <= i < 1024 -> present s d i = true -> table s d i <> p) as Ht
    by (intros; by apply (us_table _ _ _ Hu)).
  destruct (kfree_dir s d l p Hd Hk Hl Hpd Ht) as (s1&E1&Hd1&He1&Hq1).
  assert (0 <= n < 2 ^ 20) as Hn20 by (unfold UPAGES in Hn; lia).
  pose proof (mapped_present _ _ _ Hm) as Hp. destruct (index_range n Hn20) as [Hi Hj].
  assert (forall i, present s1 d i = present s d i /\ table s1 d i = table s d i) as Hs1.
  { intros i. unfold present, table, pde. rewrite Hq1 by (apply not_eq_sym; exact Hpd). done. }
  assert (present s1 d (n / 1024) = true) as Hp1 by (by rewrite (proj1 (Hs1 _))).
  destruct (set_entry_ok s1 d (p :: l) n 0 Hd1 Hn20 Hp1 ltac:(done)) as (Hd2&He2&Hq2).
  pose proof (proj2 (Hs1 (n / 1024))) as Ht1. rewrite Ht1 in Hq2.
  pose proof (do_table _ _ _ Hd _ Hi Hp) as (_&_&Htd).
  assert (forall i, present (set_entry s1 d n 0) d i = present s d i /\
    table (set_entry s1 d n 0) d i = table s d i) as Hs2.
  { intros i. destruct (Hs1 i) as [<- <-]. unfold present, table, pde. by rewrite Hq2. }
  exists (set_entry s1 d n 0). split; [|split; [done|split; [|split; [|split; [done|]]]]].
  - rewrite (bind_Ok _ _ _ _ _ E1), <- Ht1. by apply (store_entry s1 d (p :: l)).
  - assert (forall m, 0 <= m < UPAGES -> mapped (set_entry s1 d n 0) d m = true ->
      m <> n /\ mapped s d m = true /\ entry (set_entry s1 d n 0) d m = entry s d m) as Hmm.
    { intros m Hmr. assert (0 <= m < 2 ^ 20) by (unfold UPAGES in Hmr; lia). unfold mapped.
      rewrite He2, He1 by done. by case_decide. }
    apply (user_ok_entries s _ d l); [done| | |].
    + intros m Hmr Hmap. by apply Hmm.
    + intros m Hmr Hmap. destruct (Hmm m Hmr Hmap) as (Hne&Hm0&_).
      apply not_elem_of_cons. split; [|by apply (us_frame _ _ _ Hu)].
      intros E. apply Hne. by apply (us_inj _ _ _ Hu).
    + intros m i Hmr Hmap Hir Hpi. destruct (Hmm m Hmr Hmap) as (_&Hm0&_).
      destruct (Hs2 i) as [E1' E2']. rewrite E2'. apply (us_table _ _ _ Hu); congruence.
  - intros m Hmr. rewrite He2, He1 by done. done.
  - intros q Hqp Hqt. rewrite Hq2, Hq1; [done|done|]. apply not_eq_sym. by apply Hqt.
Qed.

(** ** deallocuvm *)

(** The frames of the pages from [n] up to [hi], in order. *)
Definition frames s (d n hi : Z) : list Z :=
  omap (fun m => if mapped s d m then Some (frame s d m) else None) (seqZ n (hi - n)).

Lemma frames_done s d n hi : hi <= n -> frames s d n hi = [].
Proof. intros Hn. unfold frames. by rewrite seqZ_nil by lia. Qed.
Lemma frames_cons s d n hi :
  n < hi -> frames s d n hi =
    if mapped s d n then frame s d n :: frames s d (n + 1) hi else frames s d (n + 1) hi.
Proof.
  intros Hn. unfold frames. rewrite seqZ_cons by lia. cbn.
  replace (Z.pred (hi - n)) with (hi - (n + 1)) by lia. by destruct (mapped s d n).
Qed.
Lemma frames_skip s d hi k : forall n,
  (forall m, n <= m < n + Z.of_nat k -> mapped s d m = false) ->
  frames s d n hi = frames s d (n + Z.of_nat k) hi.
Proof.
  induction k as [|k IH]; intros n Hm; [by rewrite Z.add_0_r|].
  destruct (decide (n < hi)).
  - rewrite frames_cons, Hm by lia. rewrite (IH (n + 1)) by (intros; apply Hm; lia). f_equal. lia.
  - by rewrite !frames_done by lia.
Qed.
Lemma frames_ext s s' d n hi :
  (forall m, n <= m < hi -> entry s' d m = entry s d m) -> frames s' d n hi = frames s d n hi.
Proof.
  intros He. unfold frames. apply list_omap_ext, Forall_Forall2_diag, Forall_forall.
  intros m Hm%elem_of_seqZ. unfold mapped, frame. by rewrite He by lia.
Qed.
Lemma elem_of_frames s d n hi p :
  p ∈ frames s d n hi <-> exists m, n <= m < hi /\ mapped s d m = true /\ p = frame s d m.
Proof.
  unfold frames. rewrite list_elem_of_omap. split.
  - intros (m&Hm%elem_of_seqZ&E). exists m. destruct (mapped s d m); [|done]. injection E as <-.
    split; [lia|done].
  - intros (m&Hm&E&->). exists m. rewrite elem_of_seqZ, E. split; [lia|done].
Qed.

(** The jump over an absent table. *)
Lemma skip_table n :
  0 <= n < UPAGES ->
  u32 (u32 (PGADDR (PDX (n * PGSIZE) + 1) 0 0 - PGSIZE) + PGSIZE) = (n / 1024 + 1) * 1024 * PGSIZE /\
  n < (n / 1024 + 1) * 1024 <= UPAGES.
Proof.
  intros Hn. assert (0 <= n < 2 ^ 20) as Hn20 by (unfold UPAGES in Hn; lia).
  destruct (page_addr n Hn20) as [Hr Hdiv].
  pose proof (Z.div_mod n 1024 ltac:(done)) as E. pose proof (Z.mod_pos_bound n 1024 ltac:(done)).
  assert (0 <= n / 1024 < 512) as Hi.
  { split; [apply Z.div_pos; lia|]. apply Z.div_lt_upper_bound; [done|]. unfold UPAGES in Hn. lia. }
  split; [|unfold UPAGES in *; lia]. unfold PGADDR. rewrite PDX_page, Hdiv by done.
  change (Z.shiftl 0 12) with 0. rewrite !Z.lor_0_r, Z.shiftl_mul_pow2 by lia.
  unfold PGSIZE. rewrite (u32_small (_ * 2 ^ 22)) by lia.
  rewrite (u32_small (_ - 4096)) by lia. rewrite u32_small by lia. lia.
Qed.

(** What [dealloc_loop] leaves. *)
Record unmapped s (d : Z) (l : list Z) (n hi : Z) s' : Prop := mkUnmapped {
  um_dir : dir_ok s' d (reverse (frames s d n hi) ++ l);
  um_user : user_ok s' d (reverse (frames s d n hi) ++ l);
  um_entry m : 0 <= m < 2 ^ 20 ->
    entry s' d m = if decide (n <= m < hi /\ mapped s d m = true) then 0 else entry s d m;
  um_table i : 0 <= i < 1024 -> present s' d i = present s d i /\ table s' d i = table s d i;
  um_frame q : q ∉ frames s d n hi ->
    (forall i, 0 <= i < 1024 -> present s d i = true -> table s d i <> q) -> m_page s' q = m_page s q
}.

Lemma unmapped_skip s d l n n' hi s' :
  n <= n' -> (forall m, n <= m < n' -> mapped s d m = false) ->
  unmapped s d l n' hi s' -> unmapped s d l n hi s'.
Proof.
  intros Hn Hm [H1 H2 H3 H4 H5].
  assert (frames s d n hi = frames s d n' hi) as E.
  { rewrite (frames_skip s d hi (Z.to_nat (n' - n)) n); [f_equal; lia|]. intros m Hmr. apply Hm. lia. }
  split; rewrite ?E; try done. intros m Hmr. rewrite H3 by done.
  destruct (decide (n <= m < n')) as [Hin|Hout].
  - rewrite Hm by done. rewrite !decide_False by (by intros [_ ?]). done.
  - apply decide_ext. assert (n' <= m < hi <-> n <= m < hi) as -> by lia. done.
Qed.

Lemma unmapped_one s d l n hi s1 s' :
  0 <= n < UPAGES -> n < hi <= UPAGES -> mapped s d n = true ->
  (forall m, 0 <= m < 2 ^ 20 -> entry s1 d m = if decide (m = n) then 0 else entry s d m) ->
  (forall i, 0 <= i < 1024 -> present s1 d i = present s d i /\ table s1 d i = table s d i) ->
  (forall q, q <> frame s d n ->
    (forall i, 0 <= i < 1024 -> present s d i = true -> table s d i <> q) -> m_page s1 q = m_page s q) ->
  unmapped s1 d (frame s d n :: l) (n + 1) hi s' -> unmapped s d l n hi s'.
Proof.
  intros Hn Hhi Hm He Ht Hq [H1 H2 H3 H4 H5]. unfold UPAGES in *.
  assert (frames s d n hi = frame s d n :: frames s d (n + 1) hi) as Ef
    by (rewrite frames_cons, Hm by lia; done).
  assert (frames s1 d (n + 1) hi = frames s d (n + 1) hi) as E1.
  { apply frames_ext. intros m Hmr. rewrite He by lia. by rewrite decide_False by lia. }
  rewrite E1 in *. split.
  - by rewrite Ef, reverse_cons, <- app_assoc.
  - by rewrite Ef, reverse_cons, <- app_assoc.
  - intros m Hmr. rewrite H3 by done. pose proof (He m Hmr) as Hem. unfold mapped in *. rewrite Hem.
    destruct (decide (m = n)) as [->|Hmn].
    + rewrite decide_False by lia. rewrite decide_True; [done|]. split; [lia|done].
    + apply decide_ext. assert (n + 1 <= m < hi <-> n <= m < hi) as -> by lia. done.
  - intros i Hi. destruct (H4 i Hi) as [-> ->]. by apply Ht.
  - intros q Hqf Hqt. rewrite Ef in Hqf. apply not_elem_of_cons in Hqf as [Hqn Hqf].
    rewrite H5; [by apply Hq|done|]. intros i Hi Hp. destruct (Ht i Hi) as [E2 ->]. apply Hqt; congruence.
Qed.

Lemma dealloc_loop_run d hi oldsz fuel : forall s l n,
  (Z.to_nat (hi - n) <= fuel)%nat -> 0 <= n <= UPAGES -> hi <= UPAGES ->
  (forall m, m * PGSIZE < oldsz <-> m < hi) -> dir_ok s d l -> user_ok s d l ->
  exists s', dealloc_loop fuel d (n * PGSIZE) oldsz s = Ok tt s' /\ unmapped s d l n hi s'.
Proof.
  induction fuel as [|fuel IH]; intros s l n Hfuel Hn Hhi Hsz Hd Hu.
  - assert (hi <= n) as Hge by lia. exists s. split.
    + cbn. rewrite (proj2 (Z.ltb_ge _ _)); [done|]. pose proof (Hsz n). lia.
    + split; rewrite ?frames_done by done; try done. intros m _. rewrite decide_False by lia. done.
  - cbn [dealloc_loop]. destruct (decide (hi <= n)) as [Hge|Hlt].
    { exists s. rewrite (proj2 (Z.ltb_ge _ _)) by (pose proof (Hsz n); lia). split; [done|].
      split; rewrite ?frames_done by done; try done. intros m _. rewrite decide_False by lia. done. }
    rewrite (proj2 (Z.ltb_lt _ _)) by (apply Hsz; lia). cbn [negb].
    assert (0 <= n < UPAGES) as Hnu by lia.
    assert (0 <= n < 2 ^ 20) as Hn20 by (unfold UPAGES in Hnu; lia).
    destruct (page_addr n Hn20) as [Hr Hdiv]. destruct (index_range n Hn20) as [Hi Hj].
    pose proof (walk_false s d l (n * PGSIZE) Hd Hr) as Ew. cbv zeta in Ew. rewrite Hdiv in Ew.
    rewrite (bind_Ok _ _ _ _ _ Ew). clear Ew. destruct (present s d (n / 1024)) eqn:Hp.
    2:{ cbn [Z.eqb]. destruct (skip_table n Hnu) as [-> Hskip].
      set (n' := (n / 1024 + 1) * 1024) in *.
      destruct (IH s l n') as (s'&E&Hum); try done; [lia|lia|].
      exists s'. split; [done|]. apply (unmapped_skip s d l n n'); [lia| |done].
      intros m Hm. unfold mapped, entry.
      assert (m / 1024 = n / 1024) as ->; [|by rewrite Hp].
      pose proof (Z.div_mod n 1024 ltac:(done)). pose proof (Z.mod_pos_bound n 1024 ltac:(done)).
      symmetry. apply (Z.div_unique m 1024 (n / 1024) (m - 1024 * (n / 1024))); unfold n' in Hm; lia. }
    destruct (do_table _ _ _ Hd _ Hi Hp) as (Hk&_). pose proof (kpage_pos kend Hend _ Hk).
    rewrite (proj2 (Z.eqb_neq _ 0)) by lia.
    rewrite (bind_Ok _ _ _ _ _ (load_entry s d l n Hd Hn20 Hp)). fold (mapped s d n). cbv zeta.
    replace (u32 (n * PGSIZE + PGSIZE)) with ((n + 1) * PGSIZE)
      by (rewrite u32_small; unfold PGSIZE, UPAGES in *; lia).
    destruct (mapped s d n) eqn:Hm; cbn [when]; mstep.
    2:{ destruct (IH s l (n + 1)) as (s'&E&Hum); try done; [lia|lia|].
      exists s'. split; [done|]. apply (unmapped_skip s d l n (n + 1)); [lia| |done].
      intros m Hmr. by replace m with n by lia. }
    assert (PTE_ADDR (entry s d n) <> 0) as Ha.
    { intros E0. destruct (us_frame _ _ _ Hu n Hnu Hm) as ((_&Hlo)&_). unfold frame in Hlo.
      rewrite E0 in Hlo. change (P2V 0) with KERNBASE in Hlo. lia. }
    rewrite (proj2 (Z.eqb_neq _ 0)) by done. fold (frame s d n).
    destruct (unmap_one s d l n Hd Hu Hnu Hm) as (s1&E1&Hd1&Hu1&He1&Ht1&Hq1).
    rewrite (bind_Ok _ _ _ _ _ E1).
    destruct (IH s1 (frame s d n :: l) (n + 1)) as (s2&E2&Hum); try done; [lia|lia|].
    exists s2. split; [done|]. apply (unmapped_one s d l n hi s1); (done || lia).
Qed.

(** The pages of a memory of [sz] bytes. *)
Definition pages_of (sz : Z) : Z := (sz + PGSIZE - 1) / PGSIZE.

Lemma pages_of_lt sz m : m * PGSIZE < sz <-> m < pages_of sz.
Proof.
  unfold pages_of. pose proof (Z.div_mod (sz + PGSIZE - 1) PGSIZE ltac:(done)) as E.
  pose proof (Z.mod_pos_bound (sz + PGSIZE - 1) PGSIZE ltac:(done)). unfold PGSIZE in *. lia.
Qed.
Lemma pages_of_range sz : 0 <= sz <= KERNBASE -> 0 <= pages_of sz <= UPAGES.
Proof.
  intros Hs. unfold pages_of, UPAGES. split; [apply Z.div_pos; unfold PGSIZE; lia|].
  apply Z.lt_succ_r, Z.div_lt_upper_bound; [done|]. unfold KERNBASE, PGSIZE in *. lia.
Qed.
Lemma roundup_pages sz : 0 <= sz <= KERNBASE -> PGROUNDUP sz = pages_of sz * PGSIZE.
Proof. intros Hs. apply roundup_div; unfold KERNBASE, PGSIZE in *; lia. Qed.
Lemma fuel_pages hi n : 0 <= n -> hi <= UPAGES -> (Z.to_nat (hi - n) <= NPAGES)%nat.
Proof. unfold UPAGES, NPAGES. lia. Qed.

Lemma deallocuvm_run s d l oldsz newsz :
  dir_ok s d l -> user_ok s d l -> 0 <= newsz < oldsz -> oldsz <= KERNBASE ->
  exists s', deallocuvm d oldsz newsz s = Ok newsz s' /\
    unmapped s d l (pages_of newsz) (pages_of oldsz) s'.
Proof.
  intros Hd Hu Hn Hmax. unfold deallocuvm. rewrite (proj2 (Z.leb_gt oldsz newsz)) by lia.
  rewrite roundup_pages by lia. pose proof (pages_of_range newsz ltac:(lia)).
  pose proof (pages_of_range oldsz ltac:(lia)).
  destruct (dealloc_loop_run d (pages_of oldsz) oldsz NPAGES s l (pages_of newsz)) as (s'&E&Hum);
    try done; [apply fuel_pages; lia|lia|intros; apply pages_of_lt|].
  exists s'. by rewrite (bind_Ok _ _ _ _ _ E).
Qed.

(** [deallocuvm] unmaps every page between the two sizes that is mapped
    and no other, and gives its frames, each once, to the free list.  The
    directory stays well formed, the frames of the other pages and every page
    outside the directory are unchanged, also where the loop jumps over absent
    page tables. *)
Theorem deallocuvm_correct s d l oldsz newsz :
  dir_ok s d l -> user_ok s d l -> 0 <= newsz -> 0 <= oldsz <= KERNBASE ->
  if newsz <? oldsz then
    exists s', deallocuvm d oldsz newsz s = Ok newsz s' /\
      unmapped s d l (pages_of newsz) (pages_of oldsz) s'
  else deallocuvm d oldsz newsz s = Ok oldsz s.
Proof.
  intros Hd Hu Hn Ho. destruct (Z.ltb_spec newsz oldsz).
  - apply deallocuvm_run; try done; lia.
  - unfold deallocuvm. by rewrite (proj2 (Z.leb_le oldsz newsz)).
Qed.

(** ** allocuvm *)

(** From [s] the pages in [W] from [lo] up to [n] have been mapped, with
    permissions [perm] and contents [c], to pages that were free; nothing else
    has changed. *)
Record extended (W : Z -> bool) (perm : Z -> Z) (c : Z -> list Z)
    s (d : Z) (l : list Z) (lo n : Z) s' (l' : list Z) : Prop := mkExtended {
  ex_grows : grows s d l s' l';
  ex_user : user_ok s' d l';
  ex_new m : lo <= m < n -> W m = true -> mapped s' d m = true /\ frame s' d m ∈ l /\
    PTE_FLAGS (entry s' d m) = Z.lor (perm m) PTE_P /\ m_page s' (frame s' d m) = c m;
  ex_entry m : 0 <= m < 2 ^ 20 -> ~ (lo <= m < n /\ W m = true) -> entry s' d m = entry s d m
}.

Lemma extended_refl W perm c s d l lo :
  dir_ok s d l -> user_ok s d l -> extended W perm c s d l lo lo s l.
Proof. intros Hd Hu. split; try done; [by apply grows_refl|]. intros m Hm. lia. Qed.

(** The top of the free list is taken for a user page and filled. *)
Lemma take_frame s d x l n y :
  dir_ok s d (x :: l) -> user_ok s d (x :: l) -> free_ok (s <| m_freelist := n |>) l ->
  length y = Z.to_nat PGSIZE ->
  let s' := s <| m_freelist := n |> <| m_page ::= fun f => fset f x y |> in
  dir_ok s' d l /\ user_ok s' d l /\
  (forall m, 0 <= m < 2 ^ 20 -> entry s' d m = entry s d m) /\
  (forall p, p <> x -> m_page s' p = m_page s p) /\ m_page s' x = y /\
  (forall i, present s' d i = present s d i /\ table s' d i = table s d i).
Proof.
  intros Hd Hu Hf Hy s'. destruct (do_dir _ _ _ Hd) as [Hkd Hdl].
  apply not_elem_of_cons in Hdl as [Hdx Hdl].
  pose proof (fr_nodup _ _ _ (do_free _ _ _ Hd)) as Hnd. apply NoDup_cons in Hnd as [Hxl _].
  assert (forall p, p <> x -> m_page s' p = m_page s p) as Hq
    by (intros p Hp; unfold s'; proj_upd; by apply fset_ne).
  assert (m_page s' x = y) as Hx by (unfold s'; proj_upd; apply fset_eq).
  assert (forall i, present s' d i = present s d i /\ table s' d i = table s d i) as Ht
    by (intros i; unfold present, table, pde; by rewrite Hq).
  assert (forall i, 0 <= i < 1024 -> present s d i = true -> table s d i <> x) as Htx.
  { intros i Hi Hp. destruct (do_table _ _ _ Hd i Hi Hp) as (_&Hn&_).
    by apply not_elem_of_cons in Hn as [? _]. }
  assert (forall m, 0 <= m < 2 ^ 20 -> entry s' d m = entry s d m) as He.
  { intros m Hm. eapply entry_frame; [exact Hd|done|by apply Hq|]. intros i Hi Hp. apply Hq. by apply Htx. }
  split; [|split; [|done]].
  - split.
    + eapply free_ok_frame; [exact Hf| | |done|done].
      * intros p Hp. apply Hq. by intros ->.
      * intros p. destruct (decide (p = x)) as [->|]; [by rewrite Hx|].
        rewrite Hq by done. apply (do_free _ _ _ Hd).
    + done.
    + intros i Hi. destruct (Ht i) as [-> ->]. intros Hp.
      destruct (do_table _ _ _ Hd i Hi Hp) as (H1&Hn&H3). by apply not_elem_of_cons in Hn as [_ ?].
    + intros i j Hi Hj. destruct (Ht i) as [-> ->], (Ht j) as [-> ->]. by apply (do_inj _ _ _ Hd).
  - apply (user_ok_entries s _ d (x :: l)); [done| | |].
    + intros m Hm _. apply He. unfold UPAGES in Hm. lia.
    + intros m Hm. unfold mapped. rewrite He by (unfold UPAGES in Hm; lia). fold (mapped s d m). intros Hmm.
      destruct (us_frame _ _ _ Hu m Hm Hmm) as (_&Hn&_). by apply not_elem_of_cons in Hn as [_ ?].
    + intros m i Hm. unfold mapped. rewrite He by (unfold UPAGES in Hm; lia). fold (mapped s d m).
      intros Hmm Hi. destruct (Ht i) as [-> ->]. by apply (us_table _ _ _ Hu).
Qed.

Lemma mapped_entry s s' d n : entry s' d n = entry s d n -> mapped s' d n = mapped s d n.
Proof. unfold mapped. by intros ->. Qed.
Lemma frame_entry s s' d n : entry s' d n = entry s d n -> frame s' d n = frame s d n.
Proof. unfold frame. by intros ->. Qed.

(** The frames of user pages are not touched when the directory grows. *)
Lemma grows_user s d l s' l' m :
  grows s d l s' l' -> user_ok s d l -> 0 <= m < UPAGES -> mapped s d m = true ->
  m_page s' (frame s d m) = m_page s (frame s d m).
Proof.
  intros Hg Hu Hm Hmm. destruct (us_frame _ _ _ Hu m Hm Hmm) as (_&Hl&Hd).
  apply (gw_frame _ _ _ _ _ Hg); [done|done|]. intros i Hi Hp. by apply (us_table _ _ _ Hu).
Qed.

Lemma user_ok_grows s d l s' l' :
  grows s d l s' l' -> user_ok s d l ->
  (forall m, 0 <= m < UPAGES -> mapped s' d m = true -> entry s' d m = entry s d m) -> user_ok s' d l'.
Proof.
  intros Hg Hu He. apply (user_ok_entries s _ d l); [done|done| |].
  - intros m Hm Hmm. rewrite (mapped_entry s) in Hmm by (by apply He).
    destruct (us_frame _ _ _ Hu m Hm Hmm) as (_&Hl&_). intros Hin. by apply Hl, (gw_sub _ _ _ _ _ Hg).
  - intros m i Hm Hmm Hi Hp. rewrite (mapped_entry s) in Hmm by (by apply He).
    destruct (gw_table _ _ _ _ _ Hg i Hi Hp) as [[Hp0 ->]|[Hin _]]; [by apply (us_table _ _ _ Hu)|].
    intros E. rewrite E in Hin. by destruct (us_frame _ _ _ Hu m Hm Hmm) as (_&?&_).
Qed.

Lemma extended_trans W perm c s0 d l0 lo n s l s' l' :
  0 <= lo <= n -> n < UPAGES ->
  extended W perm c s0 d l0 lo n s l -> extended W perm c s d l n (n + 1) s' l' ->
  extended W perm c s0 d l0 lo (n + 1) s' l'.
Proof.
  intros Hlo Hn [Hg1 Hu1 Hnew1 He1] [Hg2 Hu2 Hnew2 He2]. unfold UPAGES in Hn.
  split; [by eapply grows_trans|done| |].
  - intros m Hm HW. destruct (decide (m = n)) as [->|Hmn].
    + destruct (Hnew2 n ltac:(lia) HW) as (H1&H2&H3&H4). split; [done|]. split; [|done].
      by apply (gw_sub _ _ _ _ _ Hg1).
    + destruct (Hnew1 m ltac:(lia) HW) as (H1&H2&H3&H4). pose proof (He2 m ltac:(lia) ltac:(lia)) as E.
      rewrite (mapped_entry s), (frame_entry s), E by done. split; [done|]. split; [done|]. split; [done|].
      rewrite (grows_user s d l s' l'); try done. unfold UPAGES. lia.
  - intros m Hm Hout. rewrite (He2 m Hm) by (intros [Hr HW]; apply Hout; split; [lia|done]).
    apply He1; [lia|]. intros [Hr HW]. apply Hout. split; [lia|done].
Qed.

Lemma extended_one W perm c s d x l n s' l' :
  dir_ok s d (x :: l) -> user_ok s d (x :: l) -> kpage x -> 0 <= n < UPAGES ->
  W n = true -> 0 <= perm n < PGSIZE -> grows s d (x :: l) s' l' ->
  (forall m, 0 <= m < 2 ^ 20 ->
    entry s' d m = if decide (m = n) then pte (V2P x) (perm n) else entry s d m) ->
  (forall i, 0 <= i < 1024 -> present s' d i = true -> table s' d i <> x) ->
  m_page s' x = c n -> x ∉ l' -> extended W perm c s d (x :: l) n (n + 1) s' l'.
Proof.
  intros Hd Hu Hkx Hn HW Hperm Hg He Htx Hx Hxl. destruct (kpage_phys x Hkx) as (Hpv&Hal&_).
  assert (0 <= n < 2 ^ 20) as Hn20 by (unfold UPAGES in Hn; lia).
  pose proof (He n Hn20) as En. rewrite decide_True in En by done.
  assert (frame s' d n = x) as Hfn by (unfold frame; rewrite En, pte_addr by done; done).
  assert (forall m, 0 <= m < UPAGES -> m <> n -> entry s' d m = entry s d m) as Heo
    by (intros m Hm Hmn; rewrite He by (unfold UPAGES in Hm; lia); by rewrite decide_False).
  assert (forall m, 0 <= m < UPAGES -> m <> n -> mapped s' d m = true ->
    mapped s d m = true /\ frame s' d m = frame s d m) as Hold.
  { intros m Hm Hmn Hmm. rewrite (mapped_entry s) in Hmm by (by apply Heo).
    split; [done|]. by apply frame_entry, Heo. }
  split; [done| | |].
  - split.
    + intros m Hm Hmm. destruct (decide (m = n)) as [->|Hmn].
      * rewrite Hfn. split; [done|]. split; [done|]. destruct (do_dir _ _ _ Hd) as [_ Hdl].
        apply not_elem_of_cons in Hdl as [? _]. congruence.
      * destruct (Hold m Hm Hmn Hmm) as [Hm0 ->]. destruct (us_frame _ _ _ Hu m Hm Hm0) as (H1&H2&H3).
        split; [done|]. split; [|done]. intros Hin. by apply H2, (gw_sub _ _ _ _ _ Hg).
    + intros m i Hm Hmm Hi Hp. destruct (decide (m = n)) as [->|Hmn]; [rewrite Hfn; by apply Htx|].
      destruct (Hold m Hm Hmn Hmm) as [Hm0 ->].
      destruct (gw_table _ _ _ _ _ Hg i Hi Hp) as [[Hp0 ->]|[Hin _]]; [by apply (us_table _ _ _ Hu)|].
      intros E. rewrite E in Hin. by destruct (us_frame _ _ _ Hu m Hm Hm0) as (_&?&_).
    + assert (forall m, 0 <= m < UPAGES -> m <> n -> mapped s' d m = true -> frame s' d m <> x) as Hnx.
      { intros m Hm Hmn Hmm. destruct (Hold m Hm Hmn Hmm) as [Hm0 ->].
        destruct (us_frame _ _ _ Hu m Hm Hm0) as (_&Hno&_). by apply not_elem_of_cons in Hno as [? _]. }
      intros m k Hm Hk Hmm Hkk E. destruct (decide (m = n)) as [->|Hmn], (decide (k = n)) as [->|Hkn].
      * done.
      * rewrite Hfn in E. by destruct (Hnx k).
      * rewrite Hfn in E. by destruct (Hnx m).
      * destruct (Hold m Hm Hmn Hmm) as [Hm0 E1], (Hold k Hk Hkn Hkk) as [Hk0 E2].
        apply (us_inj _ _ _ Hu); congruence.
  - intros m Hm _. replace m with n by lia. unfold mapped. rewrite Hfn, En.
    split; [apply pte_present|]. split; [left|]. split; [by apply pte_flags|done].
  - intros m Hm Hout. rewrite He by done. rewrite decide_False; [done|].
    intros ->. apply Hout. split; [lia|done].
Qed.

(** One page of [allocuvm] or of [copyuvm]. *)
Lemma alloc_page W perm c s d x l n nx :
  dir_ok s d (x :: l) -> user_ok s d (x :: l) -> 0 <= n < UPAGES -> mapped s d n = false ->
  free_ok (s <| m_freelist := nx |>) l ->
  W n = true -> 0 <= perm n < PGSIZE -> length (c n) = Z.to_nat PGSIZE ->
  let s2 := s <| m_freelist := nx |> <| m_page ::= fun f => fset f x (c n) |> in
  exists r s3 l3, mappages d (n * PGSIZE) PGSIZE (V2P x) (perm n) s2 = Ok r s3 /\
    grows s d (x :: l) s3 l3 /\
    (r = 0 /\ extended W perm c s d (x :: l) n (n + 1) s3 l3 \/
     r = -1 /\ l3 = [] /\ user_ok s3 d [] /\
     (forall m, 0 <= m < 2 ^ 20 -> entry s3 d m = entry s d m) /\
     (forall i, 0 <= i < 1024 -> present s3 d i = true -> table s3 d i <> x)).
Proof.
  intros Hd Hu Hn Hm Hf HW Hperm Hc s2. assert (0 <= n < 2 ^ 20) as Hn20 by (unfold UPAGES in Hn; lia).
  pose proof (fr_pages _ _ _ (do_free _ _ _ Hd)) as Hkx. apply Forall_cons in Hkx as [Hkx _].
  pose proof (fr_nodup _ _ _ (do_free _ _ _ Hd)) as Hnd. apply NoDup_cons in Hnd as [Hxl _].
  destruct (take_frame s d x l nx (c n) Hd Hu Hf Hc) as (Hd2&Hu2&He2&Hq2&Hx2&Ht2). fold s2 in Hd2, Hu2, He2, Hq2, Hx2, Ht2.
  destruct (kpage_phys x Hkx) as (Hpv&Hal&Hpr).
  assert (0 <= V2P x < 2 ^ 32) as Hpr32 by (unfold PHYSTOP in *; lia).
  destruct (page_addr n Hn20) as [Hva Hdiv].
  destruct (mappages_loop (n * PGSIZE) PGSIZE d (V2P x) (perm n)) as (->&Hk&_&Hlast);
    [lia|done|unfold PGSIZE, UPAGES in *; lia|].
  assert ((n * PGSIZE + PGSIZE - 1) / PGSIZE = n) as Hl.
  { symmetry. apply (Z.div_unique _ _ _ (PGSIZE - 1)); unfold PGSIZE; lia. }
  rewrite Hdiv, Hl in *. replace (Z.to_nat (n - n)) with O in * by lia.
  destruct (map_loop_run d (perm n) 0 NPAGES s2 l n (V2P x)) as (r&j&s3&l3&E&Hg3&Hr&He3);
    try done; [lia|lia|lia|lia| |].
  { intros m Hmr. replace m with n by lia. rewrite (mapped_entry s) by (by apply He2). done. }
  assert (grows s d (x :: l) s3 l3) as Hg.
  { destruct Hg3 as [Hok Hsub Htab Hkeep Hfr]. split; [done|by right; apply Hsub| | |].
    - intros i Hi Hp. destruct (Htab i Hi Hp) as [[Hp2 ->]|[Hin Hno]].
      + left. by destruct (Ht2 i) as [<- <-].
      + right. split; [by right|done].
    - intros i Hi Hp. apply Hkeep; [done|]. by rewrite (proj1 (Ht2 i)).
    - intros p Hpd Hpl Hpt. apply not_elem_of_cons in Hpl as [Hpx Hpl].
      rewrite Hfr; [by apply Hq2|done|done|]. intros i Hi. destruct (Ht2 i) as [-> ->]. by apply Hpt. }
  assert (forall i, 0 <= i < 1024 -> present s3 d i = true -> table s3 d i <> x) as Htx.
  { intros i Hi Hp. destruct (gw_table _ _ _ _ _ Hg i Hi Hp) as [[Hp2 ->]|[Hin Hno]].
    - destruct (do_table _ _ _ Hd i Hi Hp2) as (_&Hno&_). by apply not_elem_of_cons in Hno as [? _].
    - destruct (gw_table _ _ _ _ _ Hg3 i Hi Hp) as [[Hp2 E2]|[Hin3 _]]; [|by intros E'; rewrite E' in Hin3].
      rewrite (proj1 (Ht2 i)) in Hp2. rewrite E2, (proj2 (Ht2 i)).
      destruct (do_table _ _ _ Hd i Hi Hp2) as (_&Hno'&_). by apply not_elem_of_cons in Hno' as [? _]. }
  exists r, s3, l3. split; [done|]. split; [done|].
  destruct Hr as [[-> ->]|(->&Hj&->)].
  - left. split; [done|]. apply (extended_one W perm c s d x l n s3 l3); try done.
    + intros m Hmr. rewrite He3, He2 by done. destruct (decide (m = n)) as [->|].
      * rewrite decide_True by lia. f_equal. lia.
      * rewrite decide_False by lia. done.
    + rewrite <- Hx2. apply (gw_frame _ _ _ _ _ Hg3); [|done|].
      * destruct (do_dir _ _ _ Hd) as [_ Hdl]. apply not_elem_of_cons in Hdl as [? _]. congruence.
      * intros i Hi. destruct (Ht2 i) as [-> ->]. intros Hp.
        destruct (do_table _ _ _ Hd i Hi Hp) as (_&Hno&_). by apply not_elem_of_cons in Hno as [? _].
    + intros Hin. by apply Hxl, (gw_sub _ _ _ _ _ Hg3).
  - right. split; [done|]. split; [done|].
    assert (forall m, 0 <= m < 2 ^ 20 -> entry s3 d m = entry s d m) as Hes.
    { intros m Hmr. rewrite He3 by done. rewrite decide_False by lia. by apply He2. }
    split; [|by split]. apply (user_ok_grows s2 d l s3 []); [done|done|]. intros m Hmr _.
    assert (0 <= m < 2 ^ 20) by (unfold UPAGES in Hmr; lia). by rewrite Hes, He2.
Qed.

(** What a failed [allocuvm] leaves: no page of the range is mapped and the
    rest is as before, but for page tables that may have been added. *)
Record restored s (d : Z) (l : list Z) (lo hi : Z) s' (l' : list Z) : Prop := mkRestored {
  rs_grows : grows s d l s' l';
  rs_user : user_ok s' d l';
  rs_none m : lo <= m < hi -> mapped s' d m = false;
  rs_entry m : 0 <= m < 2 ^ 20 -> ~ (lo <= m < hi) -> entry s' d m = entry s d m
}.

(** [g]: the evolution up to the failure; [s] is the state then. *)
Lemma undo s0 d l0 lo hi s l s' :
  0 <= lo -> hi <= UPAGES -> grows s0 d l0 s l ->
  (forall m, lo <= m < hi -> mapped s d m = true -> frame s d m ∈ l0) ->
  (forall m, 0 <= m < 2 ^ 20 -> ~ (lo <= m < hi) -> entry s d m = entry s0 d m) ->
  unmapped s d l lo hi s' -> restored s0 d l0 lo hi s' (reverse (frames s d lo hi) ++ l).
Proof.
  intros Hlo Hhi Hg Hnew He [Hd Hu Hent Htab Hq]. unfold UPAGES in Hhi.
  assert (forall p, p ∈ frames s d lo hi -> p ∈ l0) as Hfr.
  { intros p (m&Hm&Hmm&->)%elem_of_frames. by apply Hnew. }
  split; [|done| |].
  - split; [done| | | |].
    + intros p Hp. apply elem_of_app in Hp as [Hp|Hp]; [|by apply (gw_sub _ _ _ _ _ Hg)].
      rewrite reverse_Permutation in Hp. by apply Hfr.
    + intros i Hi Hp. destruct (do_table _ _ _ Hd i Hi Hp) as (_&Hno&_).
      destruct (Htab i Hi) as [E1 E2]. rewrite E1 in Hp. rewrite E2 in *.
      destruct (gw_table _ _ _ _ _ Hg i Hi Hp) as [|[Hin _]]; [by left|by right].
    + intros i Hi Hp. rewrite (proj1 (Htab i Hi)). by apply (gw_keep _ _ _ _ _ Hg).
    + intros p Hpd Hpl Hpt. rewrite Hq; [by apply (gw_frame _ _ _ _ _ Hg)| |].
      * intros Hin. by apply Hpl, Hfr.
      * intros i Hi Hp E. destruct (gw_table _ _ _ _ _ Hg i Hi Hp) as [[Hp0 E0]|[Hin _]].
        -- apply (Hpt i); congruence.
        -- by rewrite E in Hin.
  - intros m Hm. destruct (mapped s d m) eqn:Hmm.
    + unfold mapped. rewrite Hent by lia. by rewrite decide_True by done.
    + rewrite (mapped_entry s); [done|]. rewrite Hent by lia.
      rewrite decide_False; [done|]. intros [_ Ht]. by rewrite Hmm in Ht.
  - intros m Hm Hout. rewrite Hent by done. rewrite decide_False by lia. by apply He.
Qed.

Lemma restored_push s d l lo hi s' l' x :
  0 <= lo -> hi <= UPAGES -> restored s d l lo hi s' l' -> kpage x -> x ∈ l -> x ∉ l' -> x <> d ->
  (forall i, 0 <= i < 1024 -> present s' d i = true -> table s' d i <> x) ->
  (forall m, 0 <= m < UPAGES -> mapped s' d m = true -> frame s' d m <> x) ->
  exists s'', kfree x s' = Ok tt s'' /\ restored s d l lo hi s'' (x :: l').
Proof.
  intros Hlo Hhi [Hg Hu Hnone He] Hk Hxl Hxl' Hxd Htx Hfx. unfold UPAGES in Hhi.
  destruct (kfree_dir s' d l' x (gw_ok _ _ _ _ _ Hg) Hk Hxl' Hxd Htx) as (s''&E&Hd&He''&Hq).
  assert (forall i, present s'' d i = present s' d i /\ table s'' d i = table s' d i) as Ht.
  { intros i. unfold present, table, pde. by rewrite Hq by congruence. }
  exists s''. split; [done|]. split.
  - destruct Hg as [_ Hsub Htab Hkeep Hframe]. split; [done| | | |].
    + intros p [->|Hp]%elem_of_cons; [done|by apply Hsub].
    + intros i Hi Hp. destruct (do_table _ _ _ Hd i Hi Hp) as (_&Hno&_).
      destruct (Ht i) as [E1 E2]. rewrite E1 in Hp. rewrite E2 in *.
      destruct (Htab i Hi Hp) as [|[Hin _]]; [by left|by right].
    + intros i Hi Hp. rewrite (proj1 (Ht i)). by apply Hkeep.
    + intros p Hpd Hpl Hpt. rewrite Hq by (by intros ->). by apply Hframe.
  - apply (user_ok_entries s' _ d l'); [done| | |].
    + intros m Hm _. apply He''. unfold UPAGES in Hm. lia.
    + intros m Hm Hmm. rewrite (mapped_entry s') in Hmm by (apply He''; unfold UPAGES in Hm; lia).
      apply not_elem_of_cons. split; [by apply Hfx|by apply (us_frame _ _ _ Hu)].
    + intros m i Hm Hmm Hi Hp. rewrite (mapped_entry s') in Hmm by (apply He''; unfold UPAGES in Hm; lia).
      destruct (Ht i) as [E1 E2]. rewrite E2. apply (us_table _ _ _ Hu); congruence.
  - intros m Hm. rewrite (mapped_entry s') by (apply He''; lia). by apply Hnone.
  - intros m Hm Hout. rewrite He'' by done. by apply He.
Qed.

(** What [allocuvm] adds: zeroed pages that the user may write. *)
Abbreviation zeroed := (extended (fun _ => true) (fun _ => Z.lor PTE_W PTE_U) (fun _ => filled 0)).

Lemma alloc_loop_run d oldsz newsz fuel : forall s0 l0 s l n,
  let lo := pages_of oldsz in let hi := pages_of newsz in
  (Z.to_nat (hi - n) <= fuel)%nat -> 0 <= oldsz <= newsz -> newsz < KERNBASE -> lo <= n <= hi ->
  dir_ok s0 d l0 -> zeroed s0 d l0 lo n s l -> (forall m, n <= m < hi -> mapped s d m = false) ->
  exists r s' l', alloc_loop fuel d (n * PGSIZE) oldsz newsz s = Ok r s' /\
    (r = newsz /\ zeroed s0 d l0 lo hi s' l' \/ r = 0 /\ restored s0 d l0 lo hi s' l').
Proof.
  induction fuel as [|fuel IH]; intros s0 l0 s l n lo hi Hfuel Hsz Hmax Hn Hd0 Hex Hun;
    cbn [alloc_loop]; (destruct (decide (n = hi)) as [->|Hne];
    [rewrite (proj2 (Z.ltb_ge (hi * PGSIZE) newsz)) by (apply Z.le_ngt; rewrite pages_of_lt; fold hi; lia);
     exists newsz, s, l; split; [done|]; by left|]); [lia|].
  pose proof (pages_of_range oldsz ltac:(lia)) as Hlo. pose proof (pages_of_range newsz ltac:(lia)) as Hhi.
  fold lo in Hlo. fold hi in Hhi.
  rewrite (proj2 (Z.ltb_lt (n * PGSIZE) newsz)) by (apply pages_of_lt; fold hi; lia). cbn [negb].
  pose proof (gw_ok _ _ _ _ _ (ex_grows _ _ _ _ _ _ _ _ _ _ Hex)) as Hd.
  pose proof (ex_user _ _ _ _ _ _ _ _ _ _ Hex) as Hu.
  assert (forall s1 l1, grows s0 d l0 s1 l1 -> user_ok s1 d l1 ->
    (forall m, 0 <= m < 2 ^ 20 -> entry s1 d m = entry s d m) ->
    exists s', deallocuvm d newsz oldsz s1 = Ok oldsz s' /\
      restored s0 d l0 lo hi s' (reverse (frames s1 d lo hi) ++ l1) /\
      unmapped s1 d l1 lo hi s') as Hundo.
  { intros s1 l1 Hg1 Hu1 He1.
    assert (oldsz < newsz) as Hlt.
    { assert (lo * PGSIZE < newsz) by (apply pages_of_lt; fold hi; lia).
      assert (~ lo * PGSIZE < oldsz) by (rewrite pages_of_lt; fold lo; lia). lia. }
    destruct (deallocuvm_run s1 d l1 newsz oldsz (gw_ok _ _ _ _ _ Hg1) Hu1) as (s'&E&Hum); [lia|lia|].
    exists s'. split; [done|]. split; [|done].
    apply (undo s0 d l0 lo hi s1 l1); try done; [lia|lia| |].
    - intros m Hm. assert (0 <= m < 2 ^ 20) by (unfold UPAGES in *; lia).
      rewrite (mapped_entry s), (frame_entry s) by (by apply He1). intros Hmm.
      destruct (decide (m < n)); [apply (ex_new _ _ _ _ _ _ _ _ _ _ Hex m); [lia|done]|].
      by rewrite Hun in Hmm by lia.
    - intros m Hm Hout. rewrite He1 by done. apply (ex_entry _ _ _ _ _ _ _ _ _ _ Hex); [done|]. lia. }
  pose proof (kalloc_run kend Hend s l (do_free _ _ _ Hd)) as Hk. destruct l as [|x l].
  { rewrite (bind_Ok _ _ _ _ _ Hk). cbn [Z.eqb].
    destruct (Hundo s [] (ex_grows _ _ _ _ _ _ _ _ _ _ Hex) Hu ltac:(done)) as (s'&E&Hres&_).
    eexists 0, s', _. rewrite (bind_Ok _ _ _ _ _ E). split; [done|]. right. by split. }
  destruct Hk as (nx&E1&Hf1). rewrite (bind_Ok _ _ _ _ _ E1).
  pose proof (fr_pages _ _ _ (do_free _ _ _ Hd)) as Hkx. apply Forall_cons in Hkx as [Hkx _].
  pose proof (kpage_pos kend Hend x Hkx) as Hxpos. rewrite (proj2 (Z.eqb_neq x 0)) by lia.
  rewrite (bind_Ok _ _ _ _ _ (set_page_run _ x (filled 0) ltac:(lia))).
  destruct (alloc_page (fun _ => true) (fun _ => Z.lor PTE_W PTE_U) (fun _ => filled 0) s d x l n nx) as (r&s3&l3&E3&Hg3&Hcase); try done; [lia|apply Hun; lia|].
  rewrite (bind_Ok _ _ _ _ _ E3). destruct Hcase as [[-> Hex3]|(->&->&Hu3&He3&Ht3)].
  - cbn [Z.ltb Z.compare]. rewrite u32_small by (unfold PGSIZE, UPAGES in *; lia).
    replace (n * PGSIZE + PGSIZE) with ((n + 1) * PGSIZE) by (unfold PGSIZE; lia).
    apply (IH s0 l0 s3 l3 (n + 1)); [fold hi; lia|done|done|fold lo hi; lia|done| |].
    + apply (extended_trans _ _ _ s0 d l0 lo n s (x :: l)); [lia|lia|exact Hex|exact Hex3].
    + intros m Hm. fold hi in Hm. rewrite (mapped_entry s); [apply Hun; lia|].
      apply (ex_entry _ _ _ _ _ _ _ _ _ _ Hex3); unfold UPAGES in *; lia.
  - cbn [Z.ltb Z.compare].
    assert (grows s0 d l0 s3 []) as Hg03 by (eapply grows_trans; [apply Hex|done]).
    destruct (Hundo s3 [] Hg03 Hu3 He3) as (s4&E4&Hres4&Hum4). rewrite app_nil_r in Hres4.
    rewrite (bind_Ok _ _ _ _ _ E4).
    assert (forall m, 0 <= m < UPAGES -> mapped s d m = true -> frame s d m <> x) as Hfx.
    { intros m Hm Hmm. destruct (us_frame _ _ _ Hu m Hm Hmm) as (_&Hno&_).
      by apply not_elem_of_cons in Hno as [? _]. }
    assert (forall m, 0 <= m < UPAGES -> mapped s3 d m = true -> frame s3 d m <> x) as Hfx3.
    { intros m Hm. assert (0 <= m < 2 ^ 20) by (unfold UPAGES in Hm; lia).
      rewrite (mapped_entry s), (frame_entry s) by (by apply He3). by apply Hfx. }
    destruct (restored_push s0 d l0 lo hi s4 (reverse (frames s3 d lo hi)) x) as (s5&E5&Hres5);
      try done; [lia|lia| | | | | |].
    + apply (gw_sub _ _ _ _ _ (ex_grows _ _ _ _ _ _ _ _ _ _ Hex)). by left.
    + rewrite reverse_Permutation. intros (m&Hm&Hmm&E)%elem_of_frames. by apply (Hfx3 m); [lia|..].
    + destruct (do_dir _ _ _ Hd) as [_ Hdl]. apply not_elem_of_cons in Hdl as [? _]. congruence.
    + intros i Hi Hp. destruct (um_table _ _ _ _ _ _ Hum4 i Hi) as [E1' E2']. rewrite E2'.
      apply Ht3; congruence.
    + intros m Hm Hmm. assert (0 <= m < 2 ^ 20) by (unfold UPAGES in Hm; lia).
      pose proof (um_entry _ _ _ _ _ _ Hum4 m ltac:(done)) as Em. unfold mapped in Hmm. rewrite Em in Hmm.
      case_decide; [done|]. rewrite (frame_entry s3) by done. by apply Hfx3.
    + eexists 0, s5, _. rewrite (bind_Ok _ _ _ _ _ E5). split; [done|]. right. by split.
Qed.


(** ** copyout *)

(** The byte at user address [va]. *)
Definition ubyte s (d va : Z) : Z :=
  byte_at (m_page s (frame s d (va / PGSIZE))) (Z.to_nat (va mod PGSIZE)).
(** A page the user may access. *)
Definition uservis s (d n : Z) : bool := mapped s d n && has (entry s d n) PTE_U.

Lemma uva2ka_run s d l n :
  dir_ok s d l -> 0 <= n < UPAGES -> present s d (n / 1024) = true ->
  uva2ka d (n * PGSIZE) s = Ok (if uservis s d n then frame s d n else 0) s.
Proof.
  intros Hd Hn Hp. assert (0 <= n < 2 ^ 20) as Hn20 by (unfold UPAGES in Hn; lia).
  destruct (page_addr n Hn20) as [Hva Hdiv]. pose proof (walk_false s d l _ Hd Hva) as E.
  cbv zeta in E. rewrite Hdiv, Hp in E. unfold uva2ka, uservis. rewrite (bind_Ok _ _ _ _ _ E).
  rewrite (bind_Ok _ _ _ _ _ (load_entry s d l n Hd Hn20 Hp)). fold (mapped s d n).
  destruct (mapped s d n); [|done]. by destruct (has (entry s d n) PTE_U).
Qed.

(** A frame of the process gets other contents. *)
Lemma write_frame s d l n x :
  dir_ok s d l -> user_ok s d l -> 0 <= n < UPAGES -> mapped s d n = true ->
  length x = Z.to_nat PGSIZE ->
  let s' := s <| m_page ::= fun f => fset f (frame s d n) x |> in
  dir_ok s' d l /\ user_ok s' d l /\
  (forall m, 0 <= m < 2 ^ 20 -> entry s' d m = entry s d m) /\
  (forall i, present s' d i = present s d i).
Proof.
  intros Hd Hu Hn Hm Hx s'. destruct (us_frame _ _ _ Hu n Hn Hm) as (Hk&Hl&Hnd).
  assert (forall p, p <> frame s d n -> m_page s' p = m_page s p) as Hq
    by (intros p Hp; unfold s'; proj_upd; by apply fset_ne).
  assert (m_page s' d = m_page s d) as Ed by (apply Hq; congruence).
  assert (forall m, 0 <= m < 2 ^ 20 -> entry s' d m = entry s d m) as He.
  { intros m Hmr. eapply entry_frame; [exact Hd|done|done|]. intros i Hi Hp. apply Hq.
    by apply (us_table _ _ _ Hu). }
  assert (forall i, present s' d i = present s d i /\ table s' d i = table s d i) as Ht
    by (intros i; unfold present, table, pde; by rewrite Ed).
  split; [|split; [|split; [done|intros i; apply Ht]]].
  - apply (dir_ok_frame s); [done|done|]. eapply free_ok_frame; [apply Hd| | |done|done].
    + intros p Hp. apply Hq. by intros ->.
    + intros p. unfold s'. proj_upd. unfold fset. case_decide; [done|]. apply (do_free _ _ _ Hd).
  - apply (user_ok_entries s _ d l); [done| | |].
    + intros m Hmr _. apply He. unfold UPAGES in Hmr. lia.
    + intros m Hmr Hmm. rewrite (mapped_entry s) in Hmm by (apply He; unfold UPAGES in Hmr; lia).
      by apply (us_frame _ _ _ Hu).
    + intros m i Hmr Hmm Hi Hp. rewrite (mapped_entry s) in Hmm by (apply He; unfold UPAGES in Hmr; lia).
      destruct (Ht i) as [E1 E2]. rewrite E2. apply (us_table _ _ _ Hu); congruence.
Qed.

(** [s'] is [s] with [buf] at user address [va]. *)
Definition copied s (d va : Z) (buf : list Z) s' : Prop :=
  forall a, 0 <= a < KERNBASE -> mapped s d (a / PGSIZE) = true -> ubyte s' d a =
    if decide (va <= a < va + Z.of_nat (length buf)) then nth (Z.to_nat (a - va)) buf 0 else ubyte s d a.

Lemma page_split a : a = a / PGSIZE * PGSIZE + a mod PGSIZE /\ 0 <= a mod PGSIZE < PGSIZE.
Proof.
  pose proof (Z.div_mod a PGSIZE ltac:(done)). pose proof (Z.mod_pos_bound a PGSIZE ltac:(done)).
  unfold PGSIZE in *. lia.
Qed.

Lemma copied_page s d l va x :
  dir_ok s d l -> user_ok s d l -> 0 <= va < KERNBASE -> mapped s d (va / PGSIZE) = true ->
  va mod PGSIZE + Z.of_nat (length x) <= PGSIZE ->
  let p := frame s d (va / PGSIZE) in
  copied s d va x (s <| m_page ::= fun f => fset f p (splice (Z.to_nat (va mod PGSIZE)) x (f p)) |>).
Proof.
  intros Hd Hu Hva Hm Hx p. set (y := splice (Z.to_nat (va mod PGSIZE)) x (m_page s p)).
  assert (length (m_page s p) = Z.to_nat PGSIZE) as Hlen by apply (do_free _ _ _ Hd).
  destruct (page_split va) as [Ev Hv].
  assert (length y = Z.to_nat PGSIZE) as Hy by (unfold y; rewrite length_splice; rewrite Hlen; lia).
  assert (forall a, 0 <= a < KERNBASE -> 0 <= a / PGSIZE < UPAGES) as Hpg.
  { intros a Ha. split; [apply Z.div_pos; [lia|done]|]. apply Z.div_lt_upper_bound; [done|].
    unfold KERNBASE, PGSIZE, UPAGES in *. lia. }
  destruct (write_frame s d l (va / PGSIZE) y Hd Hu (Hpg va Hva) Hm Hy) as (_&_&He&_). fold p in He.
  set (s' := s <| m_page ::= fun f => fset f p y |>) in He.
  change (copied s d va x s'). intros a Ha Hma. pose proof (Hpg a Ha) as Hap.
  destruct (page_split a) as [Ea Hao].
  unfold ubyte. rewrite (frame_entry s s') by (apply He; unfold UPAGES in Hap; lia).
  destruct (decide (a / PGSIZE = va / PGSIZE)) as [Esame|Ediff].
  - rewrite Esame. fold p. unfold s'. proj_upd. rewrite fset_eq. unfold y.
    rewrite byte_at_splice by (rewrite Hlen; lia). rewrite Esame in Ea.
    do 2 case_decide; try lia; try done. f_equal. lia.
  - unfold s'. proj_upd. rewrite fset_ne.
    + rewrite decide_False; [done|]. intros Hin. apply Ediff.
      unfold PGSIZE in *. nia.
    + intros E. apply Ediff. apply (us_inj _ _ _ Hu); try done; by apply Hpg.
Qed.

Lemma copied_app s d va x s1 y s2 :
  (forall a, 0 <= a < KERNBASE -> mapped s d (a / PGSIZE) = true -> mapped s1 d (a / PGSIZE) = true) ->
  copied s d va x s1 -> copied s1 d (va + Z.of_nat (length x)) y s2 -> copied s d va (x ++ y) s2.
Proof.
  intros Hm H1 H2 a Ha Hma. rewrite H2, H1, length_app by auto. repeat case_decide; try lia; try done.
  - rewrite app_nth2 by lia. f_equal. lia.
  - by rewrite app_nth1 by lia.
Qed.

Lemma copyout_loop_run d l fuel : forall s va buf,
  (length buf <= fuel)%nat -> 0 <= va -> va + Z.of_nat (length buf) <= KERNBASE ->
  dir_ok s d l -> user_ok s d l ->
  let last := (va + Z.of_nat (length buf) - 1) / PGSIZE in
  (forall n, va / PGSIZE <= n <= last -> uservis s d n = true) ->
  exists s', copyout_loop fuel d va buf s = Ok 0 s' /\ dir_ok s' d l /\ user_ok s' d l /\
    copied s d va buf s' /\ (forall m, 0 <= m < 2 ^ 20 -> entry s' d m = entry s d m) /\
    (forall p, (forall n, va / PGSIZE <= n <= last -> frame s d n <> p) -> m_page s' p = m_page s p).
Proof.
  induction fuel as [|fuel IH]; intros s va buf Hfuel Hva Hmax Hd Hu last Hvis;
    (destruct buf as [|b0 buf']; [exists s; split; [done|]; do 2 (split; [done|]); split;
      [intros a _ _; rewrite decide_False by (cbn; lia); done|done]|]); [cbn in Hfuel; lia|].
  cbn [copyout_loop]. set (buf := b0 :: buf') in *. assert (0 < Z.of_nat (length buf)) as Hlen by (cbn; lia).
  clearbody buf. clear b0 buf'. destruct (page_split va) as [Ev Hv]. set (n := va / PGSIZE) in *.
  rewrite rounddown_div. fold n. replace (va - n * PGSIZE) with (va mod PGSIZE) by lia.
  assert (0 <= n < UPAGES) as Hn.
  { unfold n. split; [apply Z.div_pos; [lia|done]|]. apply Z.div_lt_upper_bound; [done|].
    unfold KERNBASE, PGSIZE, UPAGES in *. lia. }
  assert (n <= last) as Hlast by (apply Z.div_le_mono; [done|lia]).
  pose proof (Hvis n ltac:(lia)) as Hvn.
  assert (mapped s d n = true) as Hm by (unfold uservis in Hvn; by apply andb_true_iff in Hvn as [? _]).
  rewrite (bind_Ok _ _ _ _ _ (uva2ka_run s d l n Hd Hn (mapped_present _ _ _ Hm))). rewrite Hvn.
  destruct (us_frame _ _ _ Hu n Hn Hm) as (Hk&_). pose proof (kpage_pos kend Hend _ Hk) as Hpos.
  rewrite (proj2 (Z.eqb_neq _ 0)) by lia. mstep.
  set (k := Z.min (PGSIZE - va mod PGSIZE) (Z.of_nat (length buf))). assert (0 < k) as Hk0 by lia.
  set (x := take (Z.to_nat k) buf). assert (Z.of_nat (length x) = k) as Hx by (unfold x; rewrite length_take; lia).
  rewrite (bind_Ok _ _ _ _ _ (set_page_run s (frame s d n) _ ltac:(lia))).
  set (y := splice (Z.to_nat (va mod PGSIZE)) x (m_page s (frame s d n))).
  assert (length (m_page s (frame s d n)) = Z.to_nat PGSIZE) as Hpl by apply (do_free _ _ _ Hd).
  assert (length y = Z.to_nat PGSIZE) as Hy by (unfold y; rewrite length_splice; rewrite Hpl; lia).
  destruct (write_frame s d l n y Hd Hu Hn Hm Hy) as (Hd1&Hu1&He1&_).
  pose proof (copied_page s d l va x Hd Hu ltac:(lia) Hm ltac:(lia)) as Hc1. cbv zeta in Hc1. fold n in Hc1.
  change (copied s d va x (s <| m_page ::= fun f => fset f (frame s d n) y |>)) in Hc1.
  set (s1 := s <| m_page ::= fun f => fset f (frame s d n) y |>) in *.
  assert (forall p, frame s d n <> p -> m_page s1 p = m_page s p) as Hq1
    by (intros p Hp; unfold s1; proj_upd; apply fset_ne; congruence).
  destruct (decide (drop (Z.to_nat k) buf = [])) as [Edone|Emore].
  { exists s1. rewrite Edone. split; [by destruct fuel|]. do 2 (split; [done|]). split.
    - apply (eq_ind x (fun z => copied s d va z s1) Hc1). unfold x.
      apply take_ge. apply (f_equal length) in Edone. rewrite length_drop in Edone. cbn in Edone. lia.
    - split; [done|]. intros p Hp. apply Hq1, Hp. lia. }
  assert (k = PGSIZE - va mod PGSIZE) as Ek.
  { assert (k < Z.of_nat (length buf)); [|lia]. apply Z.nle_gt. intros Hge. apply Emore, drop_ge. lia. }
  assert (u32 (n * PGSIZE + PGSIZE) = va + k) as ->
    by (rewrite u32_small; unfold KERNBASE, PGSIZE in *; lia).
  assert ((va + k) / PGSIZE = n + 1) as En1.
  { replace (va + k) with ((n + 1) * PGSIZE) by (unfold PGSIZE in *; lia). by apply Z.div_mul. }
  assert (Z.of_nat (length (drop (Z.to_nat k) buf)) = Z.of_nat (length buf) - k) as Hdl
    by (rewrite length_drop; lia).
  assert (forall m, n <= m <= last -> 0 <= m < 2 ^ 20) as Hr20.
  { intros m Hmr. assert (last < UPAGES); [|unfold UPAGES in *; lia].
    apply Z.div_lt_upper_bound; [done|]. unfold KERNBASE, PGSIZE, UPAGES in *. lia. }
  destruct (IH s1 (va + k) (drop (Z.to_nat k) buf)) as (s2&E2&Hd2&Hu2&Hc2&He2&Hq2); try done; [lia|lia|lia| |].
  { rewrite En1, Hdl. replace (va + k + (Z.of_nat (length buf) - k) - 1)
      with (va + Z.of_nat (length buf) - 1) by lia. fold last. intros m Hmr. unfold uservis, mapped.
    rewrite He1 by (apply Hr20; lia). apply Hvis. lia. }
  rewrite En1, Hdl in Hq2. replace (va + k + (Z.of_nat (length buf) - k) - 1)
    with (va + Z.of_nat (length buf) - 1) in Hq2 by lia. fold last in Hq2.
  exists s2. split; [done|]. do 2 (split; [done|]). split; [|split].
  - rewrite <- (take_drop (Z.to_nat k) buf). fold x. apply (copied_app s d va x s1); [|done|by rewrite Hx].
    intros a Ha. rewrite (mapped_entry s s1); [done|]. apply He1, page_range. unfold KERNBASE in Ha. lia.
  - intros m Hmr. by rewrite He2, He1.
  - intros p Hp. rewrite Hq2, Hq1; [done|apply Hp; lia|]. intros m Hmr.
    rewrite (frame_entry s s1) by (apply He1, Hr20; lia). apply Hp. lia.
Qed.

(** [copyout] to pages that the user may access puts the bytes at the user
    addresses, across page boundaries, and changes no other byte of the
    process and no other page of memory; it returns 0.  A page the user may
    not access makes it return -1, one without a page table faults. *)
Theorem copyout_correct s d l va buf :
  let last := (va + Z.of_nat (length buf) - 1) / PGSIZE in
  dir_ok s d l -> user_ok s d l -> 0 <= va -> va + Z.of_nat (length buf) <= KERNBASE -> buf <> [] ->
  ((forall n, va / PGSIZE <= n <= last -> uservis s d n = true) ->
   exists s', copyout d va buf s = Ok 0 s' /\ dir_ok s' d l /\ user_ok s' d l /\
     copied s d va buf s' /\ (forall m, 0 <= m < 2 ^ 20 -> entry s' d m = entry s d m) /\
     (forall p, (forall n, va / PGSIZE <= n <= last -> frame s d n <> p) -> m_page s' p = m_page s p)) /\
  (present s d (va / PGSIZE / 1024) = true -> uservis s d (va / PGSIZE) = false ->
   copyout d va buf s = Ok (-1) s) /\
  (present s d (va / PGSIZE / 1024) = false -> copyout d va buf s = Fault).
Proof.
  intros last Hd Hu Hva Hmax Hne. split.
  { intros Hvis. by apply copyout_loop_run. }
  assert (exists f, length buf = S f) as [f Ef] by (destruct buf; [done|by eexists]).
  assert (0 <= va / PGSIZE < UPAGES) as Hn.
  { split; [apply Z.div_pos; [lia|done]|]. apply Z.div_lt_upper_bound; [done|].
    rewrite Ef in Hmax. unfold KERNBASE, PGSIZE, UPAGES in *. lia. }
  unfold copyout. rewrite Ef. destruct buf as [|b buf]; [done|]. cbn [copyout_loop].
  rewrite rounddown_div. split.
  - intros Hp Hv. rewrite (bind_Ok _ _ _ _ _ (uva2ka_run s d l _ Hd Hn Hp)). by rewrite Hv.
  - intros Hp. assert (0 <= va / PGSIZE < 2 ^ 20) as Hn20 by (unfold UPAGES in Hn; lia).
    destruct (page_addr _ Hn20) as [Hr Hdiv]. pose proof (walk_false s d l _ Hd Hr) as E.
    cbv zeta in E. rewrite Hdiv, Hp in E. unfold uva2ka. rewrite bind_bind.
    by rewrite (bind_Ok _ _ _ _ _ E).
Qed.

(** ** freevm *)

Definition tables s (d : Z) (ks : list Z) : list Z :=
  omap (fun i => if present s d i then Some (table s d i) else None) ks.
Lemma elem_of_tables s d ks p :
  p ∈ tables s d ks <-> exists i, i ∈ ks /\ present s d i = true /\ p = table s d i.
Proof.
  unfold tables. rewrite list_elem_of_omap. split.
  - intros (i&Hi&E). exists i. destruct (present s d i); [|done]. by injection E as <-.
  - intros (i&Hi&E&->). exists i. by rewrite E.
Qed.

Lemma free_tables_run d ks : forall s l,
  free_ok s l -> kpage d -> NoDup ks -> (forall i, i ∈ ks -> 0 <= i < 1024) ->
  (forall i, i ∈ ks -> present s d i = true ->
    kpage (table s d i) /\ (table s d i ∉ l) /\ table s d i <> d) ->
  (forall i j, i ∈ ks -> j ∈ ks -> present s d i = true -> present s d j = true ->
    table s d i = table s d j -> i = j) ->
  exists s', free_tables d ks s = Ok tt s' /\ free_ok s' (reverse (tables s d ks) ++ l) /\
    (forall q, q ∉ tables s d ks -> m_page s' q = m_page s q).
Proof.
  induction ks as [|i ks IH]; intros s l Hf Hkd Hnd Hr Ht Hinj; [by exists s|].
  apply NoDup_cons in Hnd as [Hni Hnd]. unfold free_tables. cbn [forM].
  assert (load32 (d + 4 * i) s = Ok (pde s d i) s) as E.
  { apply load32_run; [apply Hkd|by eapply kpage_pos|apply word_offset, Hr; left|done]. }
  rewrite bind_bind, (bind_Ok _ _ _ _ _ E). fold (present s d i). fold (table s d i).
  unfold tables. cbn [omap list_omap]. fold (tables s d ks).
  destruct (present s d i) eqn:Hp; cbn [when].
  - destruct (Ht i ltac:(left) Hp) as (Hk&Hl&Htd).
    destruct (kfree_run kend Hend s l (table s d i) Hf Hk Hl) as (s1&E1&Hf1&Hq1&_).
    rewrite (bind_Ok _ _ _ _ _ E1).
    assert (m_page s1 d = m_page s d) as Ed by (apply Hq1; congruence).
    assert (forall j, present s1 d j = present s d j /\ table s1 d j = table s d j) as Hs
      by (intros j; unfold present, table, pde; by rewrite Ed).
    assert (tables s1 d ks = tables s d ks) as Et.
    { unfold tables. apply list_omap_ext, Forall_Forall2_diag, Forall_forall. intros j _.
      by destruct (Hs j) as [-> ->]. }
    destruct (IH s1 (table s d i :: l)) as (s2&E2&Hf2&Hq2); try done.
    + intros j Hj. apply Hr. by right.
    + intros j Hj. destruct (Hs j) as [-> ->]. intros Hpj.
      destruct (Ht j ltac:(by right) Hpj) as (H1&H2&H3). split; [done|]. split; [|done].
      apply not_elem_of_cons. split; [|done]. intros Eij. apply Hni.
      by rewrite <- (Hinj j i ltac:(by right) ltac:(left) Hpj Hp Eij).
    + intros j k Hj Hk'. destruct (Hs j) as [-> ->], (Hs k) as [-> ->]. apply Hinj; by right.
    + exists s2. split; [exact E2|]. rewrite Et in *.
      split; [by rewrite reverse_cons, <- app_assoc|].
      intros q Hq. apply not_elem_of_cons in Hq as [H1 H2]. by rewrite Hq2, Hq1.
  - rewrite bind_ret. apply IH; try done.
    + intros j Hj. apply Hr. by right.
    + intros j Hj. apply Ht. by right.
    + intros j k Hj Hk. apply Hinj; by right.
Qed.

Lemma pages_kernbase : pages_of KERNBASE = UPAGES.
Proof. done. Qed.

(** Everything of a process goes to the free list. *)
Definition all_pages s (d : Z) : list Z :=
  d :: reverse (tables s d (seqZ 0 NPDENTRIES)) ++ reverse (frames s d 0 UPAGES).

Lemma freevm_run s d l :
  dir_ok s d l -> user_ok s d l ->
  exists s', freevm d s = Ok tt s' /\ free_ok s' (all_pages s d ++ l) /\
    (forall q, q ∉ all_pages s d -> m_page s' q = m_page s q).
Proof.
  intros Hd Hu. destruct (do_dir _ _ _ Hd) as [Hkd Hdl]. pose proof (kpage_pos kend Hend d Hkd).
  unfold freevm. rewrite (proj2 (Z.eqb_neq d 0)) by lia.
  destruct (deallocuvm_run s d l KERNBASE 0 Hd Hu) as (s1&E1&Hum); [done|done|].
  rewrite (bind_Ok _ _ _ _ _ E1). rewrite pages_kernbase in Hum. change (pages_of 0) with 0 in Hum.
  destruct Hum as [Hd1 _ _ Ht1 Hq1]. set (l1 := reverse (frames s d 0 UPAGES) ++ l) in *.
  assert (tables s1 d (seqZ 0 NPDENTRIES) = tables s d (seqZ 0 NPDENTRIES)) as Et.
  { unfold tables. apply list_omap_ext, Forall_Forall2_diag, Forall_forall. intros i Hi%elem_of_seqZ.
    by destruct (Ht1 i ltac:(unfold NPDENTRIES in Hi; lia)) as [-> ->]. }
  assert (forall i, i ∈ seqZ 0 NPDENTRIES -> 0 <= i < 1024) as Hir by (intros i Hi%elem_of_seqZ; unfold NPDENTRIES in Hi; lia).
  destruct (free_tables_run d (seqZ 0 NPDENTRIES) s1 l1 (do_free _ _ _ Hd1) Hkd) as (s2&E2&Hf2&Hq2).
  { apply NoDup_seqZ. }
  { done. }
  { intros i Hi. by apply (do_table _ _ _ Hd1), Hir. }
  { intros i j Hi Hj. apply (do_inj _ _ _ Hd1); by apply Hir. }
  rewrite (bind_Ok _ _ _ _ _ E2). rewrite Et in *.
  destruct (kfree_run kend Hend s2 _ d Hf2 Hkd) as (s3&E3&Hf3&Hq3&_).
  { rewrite elem_of_app, reverse_Permutation. intros [Hin|Hin].
    - apply elem_of_tables in Hin as (i&Hi&Hp&E). apply Hir in Hi.
      destruct (do_table _ _ _ Hd i Hi Hp) as (_&_&Hne). congruence.
    - by destruct (do_dir _ _ _ Hd1). }
  exists s3. split; [done|]. split.
  - unfold all_pages. rewrite <- app_comm_cons, <- app_assoc. exact Hf3.
  - intros q Hq. unfold all_pages in Hq. apply not_elem_of_cons in Hq as [Hqd Hq].
    rewrite elem_of_app, !reverse_Permutation in Hq.
    rewrite Hq3 by done. rewrite Hq2 by (intros Hin; apply Hq; by left).
    apply Hq1; [intros Hin; apply Hq; by right|].
    intros i Hi Hp E. apply Hq. left. apply elem_of_tables. exists i. split; [|done].
    apply elem_of_seqZ. unfold NPDENTRIES. lia.
Qed.

(** C11: [freevm] gives back everything a process has: its user pages, its page
    tables and its directory all go to the free list, each once, and no other
    page is touched. *)
Theorem freevm_correct s d l :
  dir_ok s d l -> user_ok s d l ->
  exists s' l', freevm d s = Ok tt s' /\ free_ok s' l' /\
    (forall p, p ∈ l' <-> p ∈ l \/ p = d \/
      (exists i, 0 <= i < 1024 /\ present s d i = true /\ p = table s d i) \/
      (exists n, 0 <= n < UPAGES /\ mapped s d n = true /\ p = frame s d n)) /\
    (forall p, p ∉ l' -> m_page s' p = m_page s p).
Proof.
  intros Hd Hu. destruct (freevm_run s d l Hd Hu) as (s'&E&Hf&Hq).
  exists s', (all_pages s d ++ l). split; [done|]. split; [done|]. split.
  - intros p. rewrite elem_of_app. unfold all_pages.
    rewrite elem_of_cons, elem_of_app, !reverse_Permutation, elem_of_tables, elem_of_frames. split.
    + intros [[?|[(i&Hi%elem_of_seqZ&Hp)|?]]|?]; [by right; left| |by right; right; right|by left].
      right; right; left. exists i. split; [unfold NPDENTRIES in Hi; lia|done].
    + intros [?|[?|[(i&Hi&Hp)|?]]]; [by right|by left; left| |by left; right; right].
      left; right; left. exists i. split; [apply elem_of_seqZ; unfold NPDENTRIES; lia|done].
  - intros p Hp. apply Hq. intros Hin. apply Hp. apply elem_of_app. by left.
Qed.

End vm.

(** ** Witnesses: an address space of one page

    The directory, its only table and the frame of page 0 lie behind the kernel
    of the allocator's examples; [demo_list] is free. *)
Definition demo_at (k : Z) : Z := demo_end + k * PGSIZE.
Definition demo_list : list Z := [demo_at 3; demo_at 4].
Definition demo_space : memst :=
  mkMem (fset (fset (fset (fun _ => filled 0)
      (demo_at 0) (put32 0 (V2P (demo_at 1) + 7) (filled 0)))
      (demo_at 1) (put32 0 (V2P (demo_at 2) + 7) (filled 0)))
      (demo_at 3) (put32 0 (demo_at 4) (filled 0)))
    (demo_at 3) true false 0 0.

(** The tables and pages that are there, by inspection of all 1024 entries. *)
Lemma demo_only (f : Z -> bool) :
  forallb (fun i => negb (f i) || (i =? 0)) (seqZ 0 1024) = true ->
  forall i, 0 <= i < 1024 -> f i = true -> i = 0.
Proof.
  intros H i Hi Hf. rewrite forallb_forall in H. specialize (H i).
  rewrite Hf in H. cbn [negb orb] in H. apply Z.eqb_eq, H, list_elem_of_In, elem_of_seqZ. lia.
Qed.

Lemma demo_present i : 0 <= i < 1024 -> present demo_space (demo_at 0) i = true -> i = 0.
Proof. apply demo_only. vm_compute. reflexivity. Qed.

Lemma demo_mapped n : 0 <= n < UPAGES -> mapped demo_space (demo_at 0) n = true -> n = 0.
Proof.
  intros Hn Hm. assert (0 <= n < 2 ^ 20) as Hn20 by (unfold UPAGES in Hn; lia).
  destruct (index_range n Hn20) as [Hi Hj].
  pose proof (demo_present _ Hi (mapped_present _ _ _ Hm)) as E.
  assert (0 <= n < 1024) as Hn' by (pose proof (Z.div_mod n 1024 ltac:(done)); lia).
  revert Hn' Hm. apply demo_only. vm_compute. reflexivity.
Qed.

Lemma demo_kpage k : 0 <= k < 8 -> kpage demo_end (demo_at k).
Proof.
  intros Hk. unfold demo_at. split.
  - rewrite Z.mod_add by done. reflexivity.
  - unfold demo_end, KERNBASE, PHYSTOP, PGSIZE. lia.
Qed.

Lemma demo_space_free : free_ok demo_end demo_space demo_list.
Proof.
  split.
  - split; [reflexivity|]. split; [reflexivity|]. vm_compute. reflexivity.
  - apply (bool_decide_unpack _). vm_compute. exact I.
  - repeat constructor; try done; apply demo_kpage; lia.
  - reflexivity.
  - intros p. unfold demo_space, fset. cbn [m_page].
    repeat case_decide; rewrite ?length_put32; apply length_filled.
Qed.

Lemma demo_dir : dir_ok demo_end demo_space (demo_at 0) demo_list.
Proof.
  assert (table demo_space (demo_at 0) 0 = demo_at 1) as Et by (vm_compute; reflexivity).
  split; [exact demo_space_free| | |].
  - split; [apply demo_kpage; lia|]. apply (bool_decide_unpack _). vm_compute. exact I.
  - intros i Hi Hp. rewrite (demo_present i Hi Hp), Et. split; [apply demo_kpage; lia|].
    split; apply (bool_decide_unpack _); vm_compute; exact I.
  - intros i j Hi Hj Hp Hq _. by rewrite (demo_present i Hi Hp), (demo_present j Hj Hq).
Qed.

Lemma demo_frame : frame demo_space (demo_at 0) 0 = demo_at 2.
Proof. vm_compute. reflexivity. Qed.

Lemma demo_user : user_ok demo_end demo_space (demo_at 0) demo_list.
Proof.
  split.
  - intros n Hn Hm. rewrite (demo_mapped n Hn Hm), demo_frame. split; [apply demo_kpage; lia|].
    split; apply (bool_decide_unpack _); vm_compute; exact I.
  - intros n i Hn Hm Hi Hp. rewrite (demo_mapped n Hn Hm), (demo_present i Hi Hp), demo_frame.
    apply (bool_decide_unpack _). vm_compute. exact I.
  - intros n m Hn Hm Hp Hq _. by rewrite (demo_mapped n Hn Hp), (demo_mapped m Hm Hq).
Qed.

Lemma deallocuvm_correct_witness :
  exists s', deallocuvm demo_end (demo_at 0) PGSIZE 0 demo_space = Ok 0 s' /\
    unmapped demo_end demo_space (demo_at 0) demo_list (pages_of 0) (pages_of PGSIZE) s'.
Proof.
  exact (deallocuvm_correct demo_end demo_end_ok demo_space (demo_at 0) demo_list PGSIZE 0
    demo_dir demo_user ltac:(lia) ltac:(vm_compute; split; discriminate)).
Defined.


Lemma copyout_correct_witness :
  (exists s', copyout (demo_at 0) 4090 [1; 2; 3] demo_space = Ok 0 s' /\
    copied demo_space (demo_at 0) 4090 [1; 2; 3] s') /\
  copyout (demo_at 0) PGSIZE [1] demo_space = Ok (-1) demo_space.
Proof.
  split.
  - destruct (copyout_correct demo_end demo_end_ok demo_space (demo_at 0) demo_list 4090 [1; 2; 3])
      as [H _]; [exact demo_dir|exact demo_user|lia|vm_compute; discriminate|discriminate|].
    destruct H as (s'&E&_&_&Hc&_); [|exists s'; exact (conj E Hc)].
    intros n Hn. change (4090 / PGSIZE) with 0 in Hn. change ((4090 + Z.of_nat (length [1; 2; 3]) - 1) / PGSIZE) with 0 in Hn.
    assert (n = 0) as -> by lia. vm_compute. reflexivity.
  - apply (copyout_correct demo_end demo_end_ok demo_space (demo_at 0) demo_list PGSIZE [1]);
      [exact demo_dir|exact demo_user|vm_compute; discriminate|vm_compute; discriminate|discriminate
      |vm_compute; reflexivity|vm_compute; reflexivity].
Defined.

Lemma freevm_correct_witness :
  exists s' l', freevm demo_end (demo_at 0) demo_space = Ok tt s' /\ free_ok demo_end s' l' /\
    demo_at 0 ∈ l' /\ demo_at 1 ∈ l' /\ demo_at 2 ∈ l'.
Proof.
  destruct (freevm_correct demo_end demo_end_ok demo_space (demo_at 0) demo_list demo_dir demo_user)
    as (s'&l'&E&Hf&Hl&_).
  exists s', l'. split; [exact E|]. split; [exact Hf|]. split; [apply Hl; right; by left|]. split.
  - apply Hl. right. right. left. exists 0. split; [lia|]. split; vm_compute; reflexivity.
  - apply Hl. right. right. right. exists 0. split; [unfold UPAGES; lia|]. split; vm_compute; reflexivity.
Defined.

Lemma mappages_correct_witness :
  mappages (demo_at 0) 0 PGSIZE 0 PTE_U demo_space = Panic "remap".
Proof.
  apply (mappages_correct demo_end demo_end_ok demo_space (demo_at 0) demo_list 0 PGSIZE 0 PTE_U);
    [exact demo_dir|lia|done|vm_compute; discriminate|reflexivity|lia
    |vm_compute; split; [discriminate|reflexivity]|reflexivity|vm_compute; reflexivity].
Defined.
End Vm.
