(* ===== verification/Vmcopy.v ===== *)
(** * Making page directories (xv6-public/vm.c: setupkvm, copyuvm, copyuvm2)

    The theorems on [setupkvm] and on the copy of an address space; the
    definitions are in Vm.v.  A directory is made from free pages only, so the
    address space that is copied, and every other page in use, is untouched. *)

From S2P Require Import Prelude Bytes Kalloc Vm.

Module Vmcopy.
Import Kalloc Vm.

Section vm.
Context (kend kdata : Z).
Hypothesis Hend : KERNBASE < kend.
Abbreviation kfree := (kfree kend).
Abbreviation kpage := (kpage kend).
Abbreviation free_ok := (free_ok kend).
Abbreviation dir_ok := (dir_ok kend).
Abbreviation user_ok := (user_ok kend).
Abbreviation grows := (grows kend).
Abbreviation extended := (extended kend).
Abbreviation restored := (restored kend).
Abbreviation freevm := (freevm kend).
Abbreviation map_line := (map_line kend).
Abbreviation kmap := (kmap kdata).
Abbreviation setupkvm := (setupkvm kend kdata).
Abbreviation copy_loop := (copy_loop kend).
Implicit Types s : memst.

(** ** setupkvm *)

(** The linker script puts [data] on a page boundary, behind the text. *)
Hypothesis Hdata : kdata mod PGSIZE = 0 /\ KERNLINK < kdata < KERNBASE + PHYSTOP.

(** No user page is mapped. *)
Definition kernel_only s (d : Z) : Prop := forall n, 0 <= n < UPAGES -> mapped s d n = false.

Lemma kernel_only_user s d l : kernel_only s d -> user_ok s d l.
Proof. intros Hk. split; intros n; intros; by rewrite Hk in *. Qed.

Lemma has_zero f : has 0 f = false.
Proof. unfold has. by rewrite Z.land_0_l. Qed.

(** A zeroed page is an empty directory. *)
Lemma empty_dir s d l n :
  free_ok s (d :: l) -> free_ok (s <| m_freelist := n |>) l ->
  let s' := s <| m_freelist := n |> <| m_page ::= fun f => fset f d (filled 0) |> in
  dir_ok s' d l /\ (forall m, 0 <= m < 2 ^ 20 -> entry s' d m = 0) /\
  (forall i, 0 <= i < 1024 -> present s' d i = false) /\ (forall p, p <> d -> m_page s' p = m_page s p).
Proof.
  intros Hf Hf' s'. pose proof (fr_pages _ _ _ Hf) as Hk. apply Forall_cons in Hk as [Hk _].
  pose proof (fr_nodup _ _ _ Hf) as Hnd. apply NoDup_cons in Hnd as [Hdl _].
  assert (forall p, p <> d -> m_page s' p = m_page s p) as Hq
    by (intros p Hp; unfold s'; proj_upd; by apply fset_ne).
  assert (m_page s' d = filled 0) as Ed by (unfold s'; proj_upd; apply fset_eq).
  assert (forall i, 0 <= i < 1024 -> present s' d i = false) as Hp.
  { intros i Hi. unfold present, pde. rewrite Ed, zero_word by done. apply has_zero. }
  split; [|split; [|done]].
  - split.
    + eapply free_ok_frame; [exact Hf'| | |done|done].
      * intros p Hpl. apply Hq. by intros ->.
      * intros p. destruct (decide (p = d)) as [->|]; [rewrite Ed; apply length_filled|].
        rewrite Hq by done. apply Hf.
    + done.
    + intros i Hi Hpi. by rewrite Hp in Hpi.
    + intros i j Hi _ Hpi. by rewrite Hp in Hpi.
  - intros m Hm. destruct (index_range m Hm) as [Hi _]. unfold entry. by rewrite Hp.
Qed.

(** One line of [kmap]. *)
Lemma map_region s d l virt ps size perm :
  dir_ok s d l -> kernel_only s d -> virt mod PGSIZE = 0 -> KERNBASE <= virt ->
  0 < size -> size mod PGSIZE = 0 -> virt + size <= 2 ^ 32 ->
  ps mod PGSIZE = 0 -> 0 <= ps -> ps + size <= 2 ^ 32 -> 0 <= perm < PGSIZE ->
  let n := virt / PGSIZE in let k := size / PGSIZE in
  (forall m, n <= m < n + k -> mapped s d m = false) ->
  exists r s' l', mappages d virt size ps perm s = Ok r s' /\ grows s d l s' l' /\ kernel_only s' d /\
    (r = 0 /\ (forall m, 0 <= m < 2 ^ 20 -> entry s' d m =
       if decide (n <= m < n + k) then pte (ps + (m - n) * PGSIZE) perm else entry s d m) \/ r = -1).
Proof.
  intros Hd Hko Hva Hkb Hs Hsm Hmax Hpa Hp0 Hpmax Hperm n k Hun.
  destruct (page_split virt) as [Ev _]. destruct (page_split size) as [Es _]. fold n in Ev. fold k in Es.
  assert ((virt + size - 1) / PGSIZE = n + k - 1) as Hlast.
  { symmetry. apply (Z.div_unique _ _ _ (PGSIZE - 1)); unfold PGSIZE in *; lia. }
  destruct (mappages_loop virt size d ps perm) as (->&Hk&Hn20&Hlst); [unfold KERNBASE in *; lia|done|done|].
  fold n in Hk, Hn20, Hlst |- *. rewrite Hlast in *. set (kk := Z.to_nat (n + k - 1 - n)) in *.
  assert (UPAGES <= n) as Hnu by (unfold UPAGES, KERNBASE, PGSIZE in *; lia).
  destruct (map_loop_run kend Hend d perm kk NPAGES s l n ps) as (r&j&s'&l'&E&Hg&Hr&He); try done.
  - unfold UPAGES in *. lia.
  - unfold PGSIZE in *. lia.
  - intros m Hm. apply Hun. lia.
  - exists r, s', l'. split; [done|]. split; [done|]. split.
    + intros m Hm. rewrite (mapped_entry s); [by apply Hko|]. rewrite He by (unfold UPAGES in *; lia).
      by rewrite decide_False by lia.
    + destruct Hr as [[-> ->]|(->&_)]; [left|by right]. split; [done|]. intros m Hm.
      rewrite He by done. apply decide_ext. lia.
Qed.

(** The entries after a line of [kmap], and the lines that can be mapped one
    after the other. *)
Definition region (E : Z -> Z) (k : Z * Z * Z * Z) : Z -> Z :=
  let '(virt, ps, pe, perm) := k in
  let n := virt / PGSIZE in
  fun m => if decide (n <= m < n + u32 (pe - ps) / PGSIZE) then pte (ps + (m - n) * PGSIZE) perm else E m.
Fixpoint regions_ok (E : Z -> Z) (ks : list (Z * Z * Z * Z)) : Prop :=
  match ks with
  | [] => True
  | (virt, ps, pe, perm) :: ks' =>
      let size := u32 (pe - ps) in
      virt mod PGSIZE = 0 /\ KERNBASE <= virt /\ 0 < size /\ size mod PGSIZE = 0 /\
      virt + size <= 2 ^ 32 /\ ps mod PGSIZE = 0 /\ 0 <= ps /\ ps + size <= 2 ^ 32 /\ 0 <= perm < PGSIZE /\
      (forall m, virt / PGSIZE <= m < virt / PGSIZE + size / PGSIZE -> has (E m) PTE_P = false) /\
      regions_ok (region E (virt, ps, pe, perm)) ks'
  end.

(** Pages [l] were free before; a page that was not is unchanged. *)
Definition within s (l : list Z) s' (l' : list Z) : Prop :=
  (forall p, p ∈ l' -> p ∈ l) /\ (forall p, p ∉ l -> m_page s' p = m_page s p).

Lemma within_trans s l s1 l1 s2 l2 : within s l s1 l1 -> within s1 l1 s2 l2 -> within s l s2 l2.
Proof.
  intros [H1 H2] [H3 H4]. split; [auto|]. intros p Hp. rewrite H4, H2; [done|done|]. auto.
Qed.

(** The directory [d] has been made from free pages. *)
Record made s (l : list Z) s' (d : Z) (l' : list Z) : Prop := mkMade {
  md_ok : dir_ok s' d l';
  md_within : within s l s' l';
  md_dir : d ∈ l;
  md_table i : 0 <= i < 1024 -> present s' d i = true -> table s' d i ∈ l
}.

Lemma made_grows s l s1 d l1 s2 l2 : made s l s1 d l1 -> grows s1 d l1 s2 l2 -> made s l s2 d l2.
Proof.
  intros [Hok [Hsub Hfr] Hd Ht] Hg. split; [apply Hg| |done|].
  - split; [intros p Hp; by apply Hsub, (gw_sub _ _ _ _ _ _ Hg)|]. intros p Hp.
    rewrite (gw_frame _ _ _ _ _ _ Hg); [by apply Hfr|by intros ->| |].
    + intros Hin. by apply Hp, Hsub.
    + intros i Hi Hpi E. apply Hp. rewrite <- E. by apply Ht.
  - intros i Hi Hp. destruct (gw_table _ _ _ _ _ _ Hg i Hi Hp) as [[Hp1 ->]|[Hin _]]; auto.
Qed.

(** A directory that could not be finished is given back. *)
Lemma made_free s l s1 d l1 :
  made s l s1 d l1 -> user_ok s1 d l1 ->
  (forall n, 0 <= n < UPAGES -> mapped s1 d n = true -> frame s1 d n ∈ l) ->
  exists s' l', freevm d s1 = Ok tt s' /\ free_ok s' l' /\ within s l s' l'.
Proof.
  intros [Hok [Hsub Hfr] Hd Ht] Hu Hfl. destruct (freevm_run kend Hend s1 d l1 Hok Hu) as (s'&E&Hf&Hq).
  assert (forall p, p ∈ all_pages s1 d -> p ∈ l) as Hall.
  { intros p. unfold all_pages. rewrite elem_of_cons, elem_of_app, !reverse_Permutation.
    intros [->|[Hin|Hin]]; [done| |].
    - apply elem_of_tables in Hin as (i&Hi%elem_of_seqZ&Hp&->). apply Ht; [|done].
      unfold NPDENTRIES in Hi. lia.
    - apply elem_of_frames in Hin as (n&Hn&Hm&->). by apply Hfl. }
  exists s', (all_pages s1 d ++ l1). split; [done|]. split; [done|]. split.
  - intros p [Hp|Hp]%elem_of_app; auto.
  - intros p Hp. rewrite Hq, Hfr; [done|done|]. intros Hin. by apply Hp, Hall.
Qed.

Lemma map_lines_run s0 l0 d ks : forall s l E,
  made s0 l0 s d l -> kernel_only s d -> (forall m, 0 <= m < 2 ^ 20 -> entry s d m = E m) ->
  regions_ok E ks ->
  exists r s' l', forR ks (map_line d) s = Ok r s' /\ within s0 l0 s' l' /\
    ((r = Some 0 /\ free_ok s' l') \/
     (r = None /\ made s0 l0 s' d l' /\ kernel_only s' d /\
      forall m, 0 <= m < 2 ^ 20 -> entry s' d m = foldl region E ks m)).
Proof.
  induction ks as [|[[[virt ps] pe] perm] ks IH]; intros s l E Hmd Hko He Hreg.
  { exists None, s, l. split; [done|]. split; [apply Hmd|]. right. by split. }
  destruct Hreg as (H1&H2&H3&H4&H5&H6&H7&H8&H9&H10&Hreg). cbn [forR].
  assert (virt / PGSIZE + u32 (pe - ps) / PGSIZE <= 2 ^ 20) as Htop.
  { destruct (page_split virt) as [Ev _]. destruct (page_split (u32 (pe - ps))) as [Es _].
    unfold PGSIZE in *. lia. }
  assert (0 <= virt / PGSIZE) by (apply Z.div_pos; [unfold KERNBASE in *; lia|done]).
  destruct (map_region s d l virt ps (u32 (pe - ps)) perm) as (r&s1&l1&E1&Hg1&Hko1&Hcase);
    try done; [apply Hmd| |].
  { intros m Hm. unfold mapped. rewrite He by lia. by apply H10. }
  pose proof (made_grows _ _ _ _ _ _ _ Hmd Hg1) as Hmd1.
  unfold map_line at 1. rewrite bind_bind, (bind_Ok _ _ _ _ _ E1). destruct Hcase as [[-> He1]| ->].
  - cbn [Z.ltb Z.compare]. rewrite bind_ret. cbn [foldl].
    apply (IH s1 l1 (region E (virt, ps, pe, perm))); [done|done| |done].
    intros m Hm. rewrite He1, He by done. done.
  - cbn [Z.ltb Z.compare].
    destruct (made_free s0 l0 s1 d l1 Hmd1) as (s2&l2&E2&Hf2&Hw2).
    { by apply kernel_only_user. }
    { intros n Hn Hm. by rewrite Hko1 in Hm. }
    exists (Some 0), s2, l2. rewrite bind_bind, (bind_Ok _ _ _ _ _ E2), bind_ret.
    split; [done|]. split; [done|]. by left.
Qed.

(** A line of [k] pages from page [n] of the address space and page [m] of
    the memory. *)
Lemma region_line E ks virt ps pe perm n m k :
  virt = n * PGSIZE -> ps = m * PGSIZE -> u32 (pe - ps) = k * PGSIZE ->
  UPAGES <= n -> 0 < k -> n + k <= 2 ^ 20 -> 0 <= m -> m + k <= 2 ^ 20 -> 0 <= perm < PGSIZE ->
  (forall i, n <= i < n + k -> has (E i) PTE_P = false) ->
  regions_ok (region E (virt, ps, pe, perm)) ks -> regions_ok E ((virt, ps, pe, perm) :: ks).
Proof.
  intros -> -> Hsz Hn Hk Hnk Hm Hmk Hp HE Hks. cbn [regions_ok]. rewrite Hsz, !Z.mod_mul, !Z.div_mul by done.
  unfold UPAGES, KERNBASE, PGSIZE in *. repeat (split; [done || lia|]). done.
Qed.

(** The table [kmap] can be mapped: its lines do not overlap. *)
Lemma kmap_ok : regions_ok (fun _ => 0) kmap.
Proof.
  destruct Hdata as [Hal Hr]. destruct (page_split kdata) as [Ek _]. rewrite Hal, Z.add_0_r in Ek.
  set (k := kdata / PGSIZE) in *. clearbody k. subst kdata.
  assert (0x80100 < k < 0x8E000) as Hk by (unfold KERNLINK, EXTMEM, KERNBASE, PHYSTOP, PGSIZE in *; lia).
  assert (V2P (k * PGSIZE) = (k - 0x80000) * PGSIZE) as Ev
    by (unfold V2P; rewrite u32_small; unfold KERNBASE, PGSIZE in *; lia).
  assert (u32 (V2P (k * PGSIZE) - EXTMEM) = (k - 0x80100) * PGSIZE) as E1
    by (rewrite Ev, u32_small; unfold EXTMEM, PGSIZE in *; lia).
  assert (u32 (PHYSTOP - V2P (k * PGSIZE)) = (0x8E000 - k) * PGSIZE) as E2
    by (rewrite Ev, u32_small; unfold PHYSTOP, PGSIZE in *; lia).
  unfold Vm.kmap. change (V2P KERNLINK) with EXTMEM.
  apply (region_line _ _ _ _ _ _ 0x80000 0 0x100); try (done || lia).
  apply (region_line _ _ _ _ _ _ 0x80100 0x100 (k - 0x80100)); try (done || lia).
  { intros i Hi. unfold region. rewrite decide_False; [apply has_zero|].
    change (KERNBASE / PGSIZE) with 0x80000. change (u32 (EXTMEM - 0) / PGSIZE) with 0x100. lia. }
  apply (region_line _ _ _ _ _ _ k (k - 0x80000) (0x8E000 - k)); try (done || (unfold UPAGES; lia)).
  { intros i Hi. unfold region. rewrite E1, Z.div_mul by done.
    change (KERNBASE / PGSIZE) with 0x80000. change (u32 (EXTMEM - 0) / PGSIZE) with 0x100.
    change (KERNLINK / PGSIZE) with 0x80100. rewrite !decide_False by lia. apply has_zero. }
  apply (region_line _ _ _ _ _ _ 0xFE000 0xFE000 0x2000); try (done || lia).
  intros i Hi. unfold region. rewrite E1, E2, !Z.div_mul by done.
  change (KERNBASE / PGSIZE) with 0x80000. change (u32 (EXTMEM - 0) / PGSIZE) with 0x100.
  change (KERNLINK / PGSIZE) with 0x80100. rewrite !decide_False by lia. apply has_zero.
Qed.

(** The entries of the kernel half. *)
Definition kernel_entry : Z -> Z := foldl region (fun _ => 0) kmap.

Lemma setupkvm_run s l :
  free_ok s l ->
  exists d s' l', setupkvm s = Ok d s' /\ within s l s' l' /\
    (d = 0 /\ free_ok s' l' \/
     d <> 0 /\ made s l s' d l' /\ kernel_only s' d /\
     forall m, 0 <= m < 2 ^ 20 -> entry s' d m = kernel_entry m).
Proof.
  intros Hf. unfold Vm.setupkvm. pose proof (kalloc_run kend Hend s l Hf) as Hk. destruct l as [|d l].
  { exists 0, s, []. rewrite (bind_Ok _ _ _ _ _ Hk). split; [done|]. split; [done|]. by left. }
  destruct Hk as (nx&E1&Hf1). rewrite (bind_Ok _ _ _ _ _ E1).
  pose proof (fr_pages _ _ _ Hf) as Hkd. apply Forall_cons in Hkd as [Hkd _].
  pose proof (kpage_pos kend Hend d Hkd) as Hpos. rewrite (proj2 (Z.eqb_neq d 0)) by lia.
  rewrite (bind_Ok _ _ _ _ _ (set_page_run _ d (filled 0) ltac:(lia))).
  change (DEVSPACE <? P2V PHYSTOP) with false. cbv iota.
  destruct (empty_dir s d l nx Hf Hf1) as (Hd&He&Hp&Hq). set (s1 := s <| m_freelist := nx |> <| m_page ::= _ |>) in *.
  assert (made s (d :: l) s1 d l) as Hmd.
  { split; [done| |by left|by intros i Hi Hpi; rewrite Hp in Hpi]. split; [by right|].
    intros p Hpl. apply Hq. intros ->. apply Hpl. by left. }
  destruct (map_lines_run s (d :: l) d kmap s1 l (fun _ => 0) Hmd) as (r&s2&l2&E2&Hw&Hcase);
    [|done|apply kmap_ok|].
  { intros n Hn. unfold mapped. rewrite He by (unfold UPAGES in Hn; lia). apply has_zero. }
  rewrite (bind_Ok _ _ _ _ _ E2). destruct Hcase as [[-> Hf2]|(->&Hmd2&Hko&He2)].
  - exists 0, s2, l2. split; [done|]. split; [done|]. by left.
  - exists d, s2, l2. split; [done|]. split; [done|]. right. split; [lia|]. by split.
Qed.

(** ** copyuvm and copyuvm2 *)

(** A directory whose pages were not free is still there after a change
    within the free pages. *)
Lemma within_dir s l s' l' P :
  dir_ok s P l -> user_ok s P l -> within s l s' l' -> free_ok s' l' ->
  dir_ok s' P l' /\ user_ok s' P l' /\
  (forall m, 0 <= m < 2 ^ 20 -> entry s' P m = entry s P m) /\
  (forall i, present s' P i = present s P i) /\
  (forall m, 0 <= m < UPAGES -> mapped s P m = true -> m_page s' (frame s P m) = m_page s (frame s P m)).
Proof.
  intros Hd Hu [Hsub Hfr] Hf. destruct (do_dir _ _ _ _ Hd) as [Hk Hno].
  assert (m_page s' P = m_page s P) as EP by by apply Hfr.
  assert (forall i, present s' P i = present s P i /\ table s' P i = table s P i) as Ht
    by (intros i; unfold present, table, pde; by rewrite EP).
  assert (forall m, 0 <= m < 2 ^ 20 -> entry s' P m = entry s P m) as He.
  { intros m Hm. apply (entry_frame kend s s' P l m Hd Hm EP). intros i Hi Hp. apply Hfr.
    by apply (do_table _ _ _ _ Hd i Hi Hp). }
  split; [|split; [|split; [done|split; [intros i; apply Ht|]]]].
  - split; [done|split; [done|auto]| |].
    + intros i Hi. destruct (Ht i) as [-> ->]. intros Hp.
      destruct (do_table _ _ _ _ Hd i Hi Hp) as (H1&H2&H3). split; [done|]. split; [auto|done].
    + intros i j Hi Hj. destruct (Ht i) as [-> ->], (Ht j) as [-> ->]. by apply (do_inj _ _ _ _ Hd).
  - apply (user_ok_entries kend s s' P l l'); [done|intros m Hm _; apply He; unfold UPAGES in Hm; lia| |].
    + intros m Hm. rewrite (mapped_entry s) by (apply He; unfold UPAGES in Hm; lia). intros Hmm.
      destruct (us_frame _ _ _ _ Hu m Hm Hmm) as (_&Hl&_). auto.
    + intros m i Hm. rewrite (mapped_entry s) by (apply He; unfold UPAGES in Hm; lia).
      destruct (Ht i) as [-> ->]. by apply (us_table _ _ _ _ Hu).
  - intros m Hm Hmm. apply Hfr. by apply (us_frame _ _ _ _ Hu m Hm Hmm).
Qed.

Lemma extended_skip W perm c s d l lo n s' l' :
  W n = false -> extended W perm c s d l lo n s' l' -> extended W perm c s d l lo (n + 1) s' l'.
Proof.
  intros HW [Hg Hu Hnew He]. split; [done|done| |].
  - intros m Hm HWm. apply Hnew; [|done]. assert (m <> n) by congruence. lia.
  - intros m Hm Hout. apply He; [done|]. intros [Hr HWm]. apply Hout. split; [lia|done].
Qed.

Section copy.
(** The parent [P], the size copied, and the state in which the child's
    directory [d] is ready. *)
Context (s0 : memst) (l0 : list Z) (P sz : Z) (sB : memst) (lB : list Z) (d : Z) (strict : bool).
Hypothesis HP : dir_ok s0 P l0.
Hypothesis HPu : user_ok s0 P l0.
Hypothesis Hsz : 0 <= sz <= KERNBASE.
Hypothesis Htabs : forall n, 0 <= n < pages_of sz -> present s0 P (n / 1024) = true.
Hypothesis Hstrict : forall n, strict = true -> 0 <= n < pages_of sz -> mapped s0 P n = true.
Hypothesis HB : made s0 l0 sB d lB.
Hypothesis HBk : kernel_only sB d.

Abbreviation W := (mapped s0 P).
Abbreviation perm := (fun n => PTE_FLAGS (entry s0 P n)).
Abbreviation c := (fun n => m_page s0 (frame s0 P n)).

(** What is mapped of the child lies in pages that were free. *)
Definition fresh s : Prop := forall n, 0 <= n < UPAGES -> mapped s d n = true -> frame s d n ∈ l0.

Lemma extended_fresh s l n :
  0 <= n -> extended W perm c sB d lB 0 n s l -> fresh s.
Proof.
  intros Hn Hex m Hm Hmm. assert (0 <= m < 2 ^ 20) as Hm20 by (unfold UPAGES in Hm; lia).
  destruct (decide (m < n /\ W m = true)) as [[Hmn HW]|Hout].
  - apply (md_within _ _ _ _ _ HB). by apply (ex_new _ _ _ _ _ _ _ _ _ _ _ Hex m); [lia|].
  - rewrite (mapped_entry sB), HBk in Hmm; [done|done|].
    apply (ex_entry _ _ _ _ _ _ _ _ _ _ _ Hex); [done|]. intros [??]. apply Hout. split; [lia|done].
Qed.

Lemma flags_range x : 0 <= PTE_FLAGS x < PGSIZE.
Proof. rewrite PTE_FLAGS_mod. by apply Z.mod_pos_bound. Qed.

(** A page of the parent in a page of the child; [x] is the page allocated. *)
Lemma copy_page s x l n nx (k : M memst bool) :
  0 <= n < UPAGES -> W n = true -> extended W perm c sB d lB 0 n s (x :: l) ->
  free_ok (s <| m_freelist := nx |>) l ->
  let s2 := s <| m_freelist := nx |> <| m_page ::= fun f => fset f x (c n) |> in
  let turn := r <- mappages d (n * PGSIZE) PGSIZE (V2P x) (perm n) ;;
    if r <? 0 then kfree x ;; ret false else k in
  (exists s3 l3, turn s2 = k s3 /\ extended W perm c sB d lB 0 (n + 1) s3 l3) \/
  (exists s3 l3, turn s2 = Ok false s3 /\ made s0 l0 s3 d l3 /\ user_ok s3 d l3 /\ fresh s3).
Proof.
  intros Hn HW Hex Hf1 s2 turn.
  pose proof (made_grows _ _ _ _ _ _ _ HB (ex_grows _ _ _ _ _ _ _ _ _ _ _ Hex)) as Hmd.
  pose proof (ex_user _ _ _ _ _ _ _ _ _ _ _ Hex) as Hu. pose proof (md_ok _ _ _ _ _ Hmd) as Hd.
  assert (0 <= n < 2 ^ 20) as Hn20 by (unfold UPAGES in Hn; lia).
  destruct (alloc_page kend Hend W perm c s d x l n nx) as (r&s3&l3&E3&Hg3&Hcase); try done.
  { rewrite (mapped_entry sB); [by apply HBk|].
    apply (ex_entry _ _ _ _ _ _ _ _ _ _ _ Hex); [done|]. lia. }
  { apply flags_range. }
  { apply (fr_len _ _ _ (do_free _ _ _ _ HP)). }
  unfold turn. rewrite (bind_Ok _ _ _ _ _ E3). destruct Hcase as [[-> Hex3]|(->&->&Hu3&He3&Ht3)].
  - left. exists s3, l3. split; [done|].
    apply (extended_trans _ _ _ _ sB d lB 0 n s (x :: l)); [lia|lia|done|done].
  - right. cbn [Z.ltb Z.compare]. pose proof (do_dir _ _ _ _ Hd) as [_ Hdl].
    assert (forall m, 0 <= m < UPAGES -> mapped s3 d m = mapped s d m /\ frame s3 d m = frame s d m) as Hm3.
    { intros m Hm. assert (entry s3 d m = entry s d m) as E by (apply He3; unfold UPAGES in Hm; lia).
      split; [by apply mapped_entry|by apply frame_entry]. }
    destruct (restored_push kend Hend s d (x :: l) 0 0 s3 [] x) as (s4&E4&Hres); [done|done| | |by left| | |done| |].
    + split; [done|done|lia|]. intros m Hm _. by apply He3.
    + pose proof (fr_pages _ _ _ (do_free _ _ _ _ Hd)) as Hkx. by apply Forall_cons in Hkx as [? _].
    + apply not_elem_of_nil.
    + apply not_elem_of_cons in Hdl as [? _]. congruence.
    + intros m Hm. destruct (Hm3 m Hm) as [-> ->]. intros Hmm.
      destruct (us_frame _ _ _ _ Hu m Hm Hmm) as (_&Hno&_). by apply not_elem_of_cons in Hno as [? _].
    + exists s4, [x]. rewrite (bind_Ok _ _ _ _ _ E4). split; [done|].
      split; [apply (made_grows _ _ _ _ _ _ _ Hmd (rs_grows _ _ _ _ _ _ _ _ Hres))|].
      split; [apply (rs_user _ _ _ _ _ _ _ _ Hres)|]. intros m Hm.
      assert (entry s4 d m = entry s d m) as E
        by (apply (rs_entry _ _ _ _ _ _ _ _ Hres); [unfold UPAGES in Hm|]; lia).
      rewrite (mapped_entry s), (frame_entry s) by done. by apply (extended_fresh s (x :: l) n (proj1 Hn) Hex).
Qed.

Lemma copy_loop_run fuel : forall s l n,
  let hi := pages_of sz in
  (Z.to_nat (hi - n) <= fuel)%nat -> 0 <= n <= hi -> extended W perm c sB d lB 0 n s l ->
  exists ok s' l', copy_loop strict fuel P d (n * PGSIZE) sz s = Ok ok s' /\ made s0 l0 s' d l' /\
    user_ok s' d l' /\ fresh s' /\ (ok = true -> extended W perm c sB d lB 0 hi s' l').
Proof.
  induction fuel as [|fuel IH]; intros s l n hi Hfuel Hn Hex; cbn [Vm.copy_loop];
    pose proof (made_grows _ _ _ _ _ _ _ HB (ex_grows _ _ _ _ _ _ _ _ _ _ _ Hex)) as Hmd;
    pose proof (ex_user _ _ _ _ _ _ _ _ _ _ _ Hex) as Hu;
    pose proof (extended_fresh s l n (proj1 Hn) Hex) as Hfr;
    (destruct (decide (n = hi)) as [->|Hne];
    [rewrite (proj2 (Z.ltb_ge (hi * PGSIZE) sz)) by (apply Z.le_ngt; rewrite pages_of_lt; fold hi; lia);
     by exists true, s, l|]); [lia|].
  pose proof (pages_of_range sz Hsz) as Hhi. fold hi in Hhi.
  assert (0 <= n < UPAGES) as Hnu by lia. assert (0 <= n < 2 ^ 20) as Hn20 by (unfold UPAGES in Hnu; lia).
  rewrite (proj2 (Z.ltb_lt (n * PGSIZE) sz)) by (apply pages_of_lt; fold hi; lia). cbn [negb].
  destruct (within_dir s0 l0 s l P HP HPu (md_within _ _ _ _ _ Hmd) (do_free _ _ _ _ (md_ok _ _ _ _ _ Hmd)))
    as (HsP&HsPu&HsE&Hsp&Hsf).
  destruct (page_addr n Hn20) as [Hva Hdiv].
  assert (present s P (n / 1024) = true) as Hpn by (rewrite Hsp; apply Htabs; fold hi; lia).
  pose proof (walk_false kend Hend s P l _ HsP Hva) as Ew. cbv zeta in Ew. rewrite Hdiv, Hpn in Ew.
  rewrite (bind_Ok _ _ _ _ _ Ew). destruct (index_range n Hn20) as [Hi Hj].
  destruct (do_table _ _ _ _ HsP _ Hi Hpn) as (Hkt&_). pose proof (kpage_pos kend Hend _ Hkt).
  rewrite (proj2 (Z.eqb_neq _ 0)) by lia.
  rewrite (bind_Ok _ _ _ _ _ (load_entry kend Hend s P l n HsP Hn20 Hpn)). rewrite HsE by done.
  assert (n * PGSIZE + PGSIZE = (n + 1) * PGSIZE) as Enext by (unfold PGSIZE; lia).
  assert (u32 (n * PGSIZE + PGSIZE) = (n + 1) * PGSIZE) as Eu
    by (rewrite u32_small; unfold PGSIZE, UPAGES in *; lia).
  fold (W n). destruct (W n) eqn:HW; cbn [negb].
  2: { destruct strict eqn:Est; [by rewrite Hstrict in HW by (done || (fold hi; lia))|].
       rewrite Eu. apply (IH s l (n + 1)); [fold hi; lia|fold hi; lia|]. by apply extended_skip. }
  pose proof (kalloc_run kend Hend s l (do_free _ _ _ _ (md_ok _ _ _ _ _ Hmd))) as Hk. destruct l as [|x l].
  { rewrite (bind_Ok _ _ _ _ _ Hk). by exists false, s, []. }
  destruct Hk as (nx&E1&Hf1). rewrite (bind_Ok _ _ _ _ _ E1).
  pose proof (fr_pages _ _ _ (do_free _ _ _ _ (md_ok _ _ _ _ _ Hmd))) as Hkx. apply Forall_cons in Hkx as [Hkx _].
  pose proof (kpage_pos kend Hend x Hkx) as Hxpos. rewrite (proj2 (Z.eqb_neq x 0)) by lia.
  rewrite bind_gets. proj_upd. fold (frame s0 P n). rewrite Hsf by done.
  rewrite (bind_Ok _ _ _ _ _ (set_page_run _ x _ ltac:(lia))), Eu.
  destruct (copy_page s x l n nx (copy_loop strict fuel P d ((n + 1) * PGSIZE) sz) Hnu HW Hex Hf1)
    as [(s3&l3&E3&Hex3)|(s3&l3&E3&Hrest)]; cbv zeta in E3; rewrite E3.
  - apply (IH s3 l3 (n + 1)); [fold hi; lia|fold hi; lia|done].
  - exists false, s3, l3. split; [done|]. destruct Hrest as (?&?&?). by split.
Qed.
End copy.

(** The child [d] is a copy of the parent's pages below [n]: the same flags
    and contents, in pages that were free, under a kernel half of its own. *)
Record copied_space s (l : list Z) (P n : Z) s' (d : Z) (l' : list Z) : Prop := mkCopied {
  cs_dir : dir_ok s' d l';
  cs_user : user_ok s' d l';
  cs_new : d <> 0 /\ d ∈ l;
  cs_mapped m : 0 <= m < UPAGES -> mapped s' d m = mapped s P m && (m <? n);
  cs_page m : 0 <= m < UPAGES -> mapped s' d m = true ->
    frame s' d m ∈ l /\ PTE_FLAGS (entry s' d m) = PTE_FLAGS (entry s P m) /\
    m_page s' (frame s' d m) = m_page s (frame s P m);
  cs_kernel m : UPAGES <= m < 2 ^ 20 -> entry s' d m = kernel_entry m
}.

Lemma flags_present x : has x PTE_P = true -> Z.lor (PTE_FLAGS x) PTE_P = PTE_FLAGS x.
Proof.
  rewrite has_P. intros H. apply Z.bits_inj'. intros i Hi. rewrite Z.lor_spec. unfold PTE_FLAGS.
  rewrite Z.land_spec. change PTE_P with (2 ^ 0). rewrite Z.pow2_bits_eqb by done.
  destruct (Z.eqb_spec 0 i) as [<-|]; [by rewrite H|by rewrite orb_false_r].
Qed.

Lemma copy_space_run strict s P l sz :
  dir_ok s P l -> user_ok s P l -> 0 <= sz <= KERNBASE ->
  (forall n, 0 <= n < pages_of sz -> present s P (n / 1024) = true) ->
  (forall n, strict = true -> 0 <= n < pages_of sz -> mapped s P n = true) ->
  exists r s' l', copy_space kend kdata strict P sz s = Ok r s' /\ within s l s' l' /\ free_ok s' l' /\
    (r = 0 \/ copied_space s l P (pages_of sz) s' r l').
Proof.
  intros HP HPu Hsz Htabs Hstrict. unfold copy_space.
  destruct (setupkvm_run s l (do_free _ _ _ _ HP)) as (d&sB&lB&E1&Hw1&Hcase).
  rewrite (bind_Ok _ _ _ _ _ E1). destruct Hcase as [[-> Hf]|(Hd0&HB&HBk&HBe)].
  { exists 0, sB, lB. split; [done|]. split; [done|]. split; [done|]. by left. }
  rewrite (proj2 (Z.eqb_neq _ 0)) by done. pose proof (pages_of_range sz Hsz) as Hhi.
  destruct (copy_loop_run s l P sz sB lB d strict HP HPu Hsz Htabs Hstrict HB HBk NPAGES sB lB 0)
    as (ok&s2&l2&E2&Hmd&Hu&Hfr&Hex).
  { apply fuel_pages; lia. }
  { lia. }
  { apply extended_refl; [apply HB|by apply kernel_only_user]. }
  rewrite Z.mul_0_l in E2. rewrite (bind_Ok _ _ _ _ _ E2). destruct ok.
  - specialize (Hex eq_refl). exists d, s2, l2. split; [done|]. split; [apply Hmd|]. split; [apply Hmd|].
    right. assert (forall m, 0 <= m < 2 ^ 20 -> ~ (m < pages_of sz /\ mapped s P m = true) ->
      entry s2 d m = entry sB d m) as Hold.
    { intros m Hm Hout. apply (ex_entry _ _ _ _ _ _ _ _ _ _ _ Hex); [done|].
      intros [??]. apply Hout. split; [lia|done]. }
    assert (forall m, 0 <= m < UPAGES -> mapped s2 d m = mapped s P m && (m <? pages_of sz)) as Hmap.
    { intros m Hm. assert (0 <= m < 2 ^ 20) by (unfold UPAGES in Hm; lia).
      destruct (mapped s P m) eqn:Hmm, (Z.ltb_spec m (pages_of sz)) as [Hlt|Hge]; cbn [andb].
      1: by apply (ex_new _ _ _ _ _ _ _ _ _ _ _ Hex m); [lia|].
      all: rewrite (mapped_entry sB); [by apply HBk|]; apply Hold; [done|]; intros [??]; (congruence || lia). }
    split; [apply Hmd|done|split; [done|exact (md_dir _ _ _ _ _ Hmd)]|done| |].
    + intros m Hm. rewrite Hmap by done. intros [Hmm Hlt%Z.ltb_lt]%andb_true_iff.
      destruct (ex_new _ _ _ _ _ _ _ _ _ _ _ Hex m) as (H1&H2&H3&H4); [lia|done|].
      split; [by apply Hw1|]. rewrite H3. split; [by apply flags_present|done].
    + intros m Hm. assert (0 <= m < 2 ^ 20) by (unfold UPAGES in Hm; lia).
      rewrite Hold; [by apply HBe|done|]. intros [Hlt _]. lia.
  - destruct (made_free s l s2 d l2 Hmd Hu Hfr) as (s3&l3&E3&Hf3&Hw3).
    exists 0, s3, l3. rewrite (bind_Ok _ _ _ _ _ E3). split; [done|]. split; [done|]. split; [done|]. by left.
Qed.


(** The lines do not overlap, so each shows in the end. *)
Lemma kernel_lines E ks : forall virt ps pe perm m,
  regions_ok E ks -> In (virt, ps, pe, perm) ks -> 0 <= m < u32 (pe - ps) / PGSIZE ->
  foldl region E ks (virt / PGSIZE + m) = pte (ps + m * PGSIZE) perm.
Proof.
  assert (forall ks E n, regions_ok E ks -> has (E n) PTE_P = true -> foldl region E ks n = E n) as Hkeep.
  { clear. induction ks as [|[[[virt ps] pe] perm] ks IH]; intros E n Hok Hn; [done|]. cbn [foldl].
    destruct Hok as (_&_&_&_&_&_&_&_&_&Hun&Hok).
    assert (region E (virt, ps, pe, perm) n = E n) as Er.
    { unfold region. rewrite decide_False; [done|]. intros Hr. by rewrite Hun in Hn. }
    rewrite IH, Er; [done|done|by rewrite Er]. }
  revert E. induction ks as [|k ks IH]; intros E virt ps pe perm m Hok Hin Hm; [done|]. cbn [foldl].
  destruct k as [[[virt' ps'] pe'] perm']. destruct Hok as (_&_&_&_&_&_&_&_&_&_&Hok).
  destruct Hin as [Ek|Hin]; [|by apply (IH _ virt ps pe)]. injection Ek as -> -> -> ->.
  assert (region E (virt, ps, pe, perm) (virt / PGSIZE + m) = pte (ps + m * PGSIZE) perm) as Er.
  { unfold region. rewrite decide_True by lia. f_equal. lia. }
  rewrite Hkeep, Er; [done|done|]. rewrite Er. apply pte_present.
Qed.

Lemma lines_range E ks virt ps pe perm :
  regions_ok E ks -> In (virt, ps, pe, perm) ks ->
  0 <= virt / PGSIZE /\ virt / PGSIZE + u32 (pe - ps) / PGSIZE <= 2 ^ 20.
Proof.
  revert E. induction ks as [|[[[virt' ps'] pe'] perm'] ks IH]; intros E Hok Hin; [done|].
  destruct Hok as (H1&H2&H3&H4&H5&_&_&_&_&_&Hok). destruct Hin as [Ek|Hin]; [|by eapply IH].
  injection Ek as -> -> -> ->. split; [apply Z.div_pos; [unfold KERNBASE in *; lia|done]|].
  destruct (page_split virt) as [Ev _]. destruct (page_split (u32 (pe - ps))) as [Es _].
  unfold PGSIZE in *. lia.
Qed.

(** [setupkvm] makes a directory with an empty user half and the kernel
    mappings of [kmap], line by line, or returns 0 having given back what it
    took; it never panics. *)
Theorem setupkvm_correct s l :
  free_ok s l ->
  exists d s' l', setupkvm s = Ok d s' /\ within s l s' l' /\ free_ok s' l' /\
    (d = 0 \/ d ∈ l /\ dir_ok s' d l' /\ kernel_only s' d /\
     (forall virt ps pe perm m, In (virt, ps, pe, perm) kmap ->
        0 <= m < u32 (pe - ps) / PGSIZE ->
        entry s' d (virt / PGSIZE + m) = pte (ps + m * PGSIZE) perm)).
Proof.
  intros Hf. destruct (setupkvm_run s l Hf) as (d&s'&l'&E&Hw&Hcase). exists d, s', l'.
  split; [done|]. split; [done|]. destruct Hcase as [[-> Hf']|(Hd0&[Hd _ Hin _]&Hko&He)].
  { split; [done|]. by left. }
  split; [apply Hd|]. right. split; [done|]. split; [done|]. split; [done|].
  intros virt ps pe perm m Hk Hm. rewrite He; [by apply (kernel_lines _ _ virt ps pe); [apply kmap_ok|..]|].
  destruct (lines_range (fun _ => 0) kmap virt ps pe perm kmap_ok Hk). lia.
Qed.
End vm.

(** ** Witnesses *)
Lemma demo_data_ok : demo_at 0 mod PGSIZE = 0 /\ KERNLINK < demo_at 0 < KERNBASE + PHYSTOP.
Proof. vm_compute. repeat split. Qed.


Lemma setupkvm_correct_witness :
  exists d s' l', setupkvm demo_end (demo_at 0) demo_space = Ok d s' /\ free_ok demo_end s' l'.
Proof.
  destruct (setupkvm_correct demo_end (demo_at 0) demo_end_ok demo_data_ok demo_space demo_list demo_space_free)
    as (d&s'&l'&E&_&Hf&_). exists d, s', l'. exact (conj E Hf).
Defined.
End Vmcopy.
