(* ===== verification/Fcntl.v ===== *)
(** * Open modes (xv6-public/fcntl.h) *)

From S2P Require Import Prelude.

Abbreviation O_RDONLY := 0x000 (only parsing).
Abbreviation O_WRONLY := 0x001 (only parsing).
Abbreviation O_RDWR := 0x002 (only parsing).
Abbreviation O_CREATE := 0x200 (only parsing).
