(* ===== verification/Grep.v ===== *)
(** * grep (xv6-public/grep.c)

    A C string is the list of its bytes before the terminator, so a pointer
    into it is a suffix and the byte behind the last one is 0.  The matcher is
    shown equivalent to the language a pattern denotes; the loop over the input
    buffer is shown to print exactly the lines that match, from a source that
    fills the buffer. *)

From S2P Require Import Prelude.

Module Grep.

Definition CARET : Z := 94.
Definition STAR : Z := 42.
Definition DOLLAR : Z := 36.
Definition DOT : Z := 46.
Definition NL : Z := 10.

(** ** The matcher *)

(** [matchstar(c, re, text)], where [here] is [matchhere(re, _)]. *)
Fixpoint matchstar (here : list Z -> bool) (c : Z) (text : list Z) : bool :=
  if here text then true else
  match text with
  | [] => false
  | t :: text' => if (t =? c) || (c =? DOT) then matchstar here c text' else false
  end.

Fixpoint matchhere (re text : list Z) : bool :=
  match re with
  | [] => true
  | c :: re1 =>
      let single :=
        if (c =? DOLLAR) && (match re1 with [] => true | _ => false end) then
          match text with [] => true | _ => false end
        else
          match text with
          | t :: text' => if (c =? DOT) || (c =? t) then matchhere re1 text' else false
          | [] => false
          end in
      match re1 with
      | s :: re2 => if s =? STAR then matchstar (matchhere re2) c text else single
      | [] => single
      end
  end.

(** The loop of [match]: every suffix, the empty one included. *)
Fixpoint match_from (re text : list Z) : bool :=
  if matchhere re text then true else
  match text with
  | [] => false
  | _ :: text' => match_from re text'
  end.
Definition match_ (re text : list Z) : bool :=
  match re with
  | c :: re' => if c =? CARET then matchhere re' text else match_from re text
  | [] => match_from re text
  end.

(** ** What a pattern denotes *)

(** A character, repeated or not. *)
Record item := mkItem { it_char : Z; it_star : bool }.
Record pattern := mkPattern { pt_bol : bool; pt_items : list item; pt_eol : bool }.

Fixpoint parse_items (re : list Z) : list item * bool :=
  match re with
  | [] => ([], false)
  | c :: re1 =>
      let single := if (c =? DOLLAR) && (match re1 with [] => true | _ => false end) then ([], true) else
        let '(ks, e) := parse_items re1 in (mkItem c false :: ks, e) in
      match re1 with
      | s :: re2 => if s =? STAR then let '(ks, e) := parse_items re2 in (mkItem c true :: ks, e) else single
      | [] => single
      end
  end.
Definition parse_pattern (re : list Z) : pattern :=
  let bol := match re with c :: _ => c =? CARET | [] => false end in
  let '(ks, e) := parse_items (if bol then tail re else re) in mkPattern bol ks e.

Definition accepts (c t : Z) : Prop := c = DOT \/ c = t.
(** The words of an item, of a sequence of items. *)
Definition item_word (k : item) (w : list Z) : Prop :=
  Forall (accepts (it_char k)) w /\ (it_star k = false -> length w = 1%nat).
Inductive word : list item -> list Z -> Prop :=
  | word_nil : word [] []
  | word_cons k ks u w : item_word k u -> word ks w -> word (k :: ks) (u ++ w).

(** A word of the pattern occurs in the text, at its start or end if the
    pattern is anchored there. *)
Definition occurs (p : pattern) (text : list Z) : Prop :=
  exists u w v, text = u ++ w ++ v /\ word (pt_items p) w /\
    (pt_bol p = true -> u = []) /\ (pt_eol p = true -> v = []).

Definition begins (ks : list item) (e : bool) (text : list Z) : Prop :=
  exists w v, text = w ++ v /\ word ks w /\ (e = true -> v = []).

Lemma accepts_orb c t : (c =? DOT) || (c =? t) = true <-> accepts c t.
Proof. unfold accepts. rewrite orb_true_iff, !Z.eqb_eq. tauto. Qed.
Lemma accepts_orb' c t : (t =? c) || (c =? DOT) = true <-> accepts c t.
Proof. rewrite <- accepts_orb, (Z.eqb_sym t c), orb_comm. done. Qed.

Lemma begins_nil text : begins [] false text.
Proof. exists [], text. split; [done|]. split; [constructor|done]. Qed.

Lemma begins_end text : begins [] true text <-> text = [].
Proof.
  split.
  - intros (w&v&->&Hw&Hv). inversion Hw; subst. by rewrite Hv.
  - intros ->. exists [], []. split; [done|]. by split; [constructor|].
Qed.

Lemma begins_once c ks e text :
  begins (mkItem c false :: ks) e text <-> exists t text', text = t :: text' /\ accepts c t /\ begins ks e text'.
Proof.
  split.
  - intros (w&v&->&Hw&Hv). inversion Hw as [|k ks' u w' [Hf Hl] Hw']; subst.
    destruct u as [|t [|]]; cbn in *; try (by specialize (Hl eq_refl)).
    apply Forall_cons in Hf as [Ht _]. exists t, (w' ++ v). split; [done|]. split; [done|]. by exists w', v.
  - intros (t&text'&->&Ht&w&v&->&Hw&Hv). exists (t :: w), v. split; [done|]. split; [|done].
    apply (word_cons (mkItem c false) ks [t] w); [|done]. split; [|done]. by apply Forall_cons.
Qed.

Lemma begins_star c ks e text :
  begins (mkItem c true :: ks) e text <->
  begins ks e text \/ exists t text', text = t :: text' /\ accepts c t /\ begins (mkItem c true :: ks) e text'.
Proof.
  split.
  - intros (w&v&->&Hw&Hv). inversion Hw as [|k ks' u w' [Hf _] Hw']; subst. destruct u as [|t u].
    + left. by exists w', v.
    + right. apply Forall_cons in Hf as [Ht Hf]. exists t, ((u ++ w') ++ v). split; [done|]. split; [done|].
      exists (u ++ w'), v. split; [done|]. split; [|done]. by apply word_cons.
  - intros [(w&v&->&Hw&Hv)|(t&text'&->&Ht&w&v&->&Hw&Hv)].
    + exists w, v. split; [done|]. split; [|done]. apply (word_cons _ _ [] w); [|done]. split; [constructor|done].
    + inversion Hw as [|k ks' u w' [Hf _] Hw']; subst. exists ((t :: u) ++ w'), v. split; [done|].
      split; [|done]. apply word_cons; [|done]. split; [by apply Forall_cons|done].
Qed.

Lemma matchstar_begins here c ks e :
  (forall text, here text = true <-> begins ks e text) ->
  forall text, matchstar here c text = true <-> begins (mkItem c true :: ks) e text.
Proof.
  intros Hh. induction text as [|t text IH]; cbn [matchstar]; rewrite begins_star, <- Hh.
  - destruct (here []); naive_solver.
  - destruct (here (t :: text)); [naive_solver|].
    destruct (_ || _) eqn:E; [apply accepts_orb' in E|apply not_true_iff_false in E; rewrite accepts_orb' in E];
      rewrite ?IH; naive_solver.
Qed.

Lemma parse_items_two c s re :
  parse_items (c :: s :: re) =
    if s =? STAR then let '(ks, e) := parse_items re in (mkItem c true :: ks, e)
    else let '(ks, e) := parse_items (s :: re) in (mkItem c false :: ks, e).
Proof. cbn [parse_items]. by rewrite andb_false_r. Qed.
Lemma matchhere_two c s re text :
  matchhere (c :: s :: re) text =
    if s =? STAR then matchstar (matchhere re) c text
    else match text with
      | t :: text' => if (c =? DOT) || (c =? t) then matchhere (s :: re) text' else false
      | [] => false
      end.
Proof. cbn [matchhere]. by rewrite andb_false_r. Qed.

Lemma matchhere_begins : forall n re text, (length re <= n)%nat ->
  let '(ks, e) := parse_items re in matchhere re text = true <-> begins ks e text.
Proof.
  induction n as [|n IH]; intros [|c re1] text Hn; cbn in Hn; try lia.
  1, 2: cbn; split; [intros _; apply begins_nil|done].
  assert (forall t ks e, parse_items re1 = (ks, e) ->
    (match t with x :: t' => if (c =? DOT) || (c =? x) then matchhere re1 t' else false | [] => false end) = true
    <-> begins (mkItem c false :: ks) e t) as Hone.
  { intros t ks e Ep. rewrite begins_once. destruct t as [|x t]; [naive_solver|].
    specialize (IH re1 t ltac:(lia)). rewrite Ep in IH.
    destruct (_ || _) eqn:E; [apply accepts_orb in E|apply not_true_iff_false in E; rewrite accepts_orb in E];
      rewrite ?IH; naive_solver. }
  destruct re1 as [|s re2].
  - cbn [parse_items matchhere]. destruct (c =? DOLLAR); cbn [andb].
    + rewrite begins_end. destruct text; naive_solver.
    + by apply Hone.
  - rewrite parse_items_two, matchhere_two. destruct (s =? STAR) eqn:Es.
    + destruct (parse_items re2) as [ks e] eqn:Ep. apply matchstar_begins. intros t.
      specialize (IH re2 t ltac:(cbn in *; lia)). by rewrite Ep in IH.
    + destruct (parse_items (s :: re2)) as [ks e] eqn:Ep. by apply Hone.
Qed.

Lemma match_from_occurs re text :
  let '(ks, e) := parse_items re in match_from re text = true <-> occurs (mkPattern false ks e) text.
Proof.
  destruct (parse_items re) as [ks e] eqn:Ep.
  assert (forall t, matchhere re t = true <-> begins ks e t) as Hh.
  { intros t. pose proof (matchhere_begins (length re) re t ltac:(lia)) as H. by rewrite Ep in H. }
  induction text as [|t text IH]; cbn [match_from]; destruct (matchhere re _) eqn:E.
  1, 3: apply Hh in E as (w&v&Et&Hw&Hv); split; [intros _|done]; exists [], w, v; exact (conj Et (conj Hw (conj (fun _ => eq_refl) Hv))).
  - split; [done|]. intros (u&w&v&Et&Hw&_&Hv). symmetry in Et. apply app_eq_nil in Et as [-> Et].
    apply not_true_iff_false in E. destruct E. apply Hh. by exists w, v.
  - rewrite IH. split.
    + intros (u&w&v&->&Hw&_&Hv). exists (t :: u), w, v. done.
    + intros (u&w&v&Et&Hw&_&Hv). destruct u as [|x u].
      * apply not_true_iff_false in E. destruct E. apply Hh. exists w, v. done.
      * injection Et as -> ->. by exists u, w, v.
Qed.

(** C33: the matcher decides whether the pattern occurs in the text: [match]
    returns true exactly when a word of the pattern - a character, [.] for any,
    each possibly repeated by [*] - occurs in the text, at its start under [^]
    and at its end under [$]. *)
Theorem match_correct re text : match_ re text = true <-> occurs (parse_pattern re) text.
Proof.
  unfold match_, parse_pattern. destruct re as [|c re]; [apply (match_from_occurs [])|].
  destruct (c =? CARET) eqn:E; cbn [tail].
  - pose proof (matchhere_begins (length re) re text ltac:(lia)) as H.
    destruct (parse_items re) as [ks e]. rewrite H. unfold occurs. cbn. split.
    + intros (w&v&->&Hw&Hv). by exists [], w, v.
    + intros (u&w&v&->&Hw&Hu&Hv). rewrite Hu by done. by exists w, v.
  - pose proof (match_from_occurs (c :: re) text) as H. by destruct (parse_items (c :: re)) as [ks e].
Qed.

(** ** The loop over the input *)

Definition BUFSIZE : nat := 1024.

(** [strchr(s, c)]: the bytes before the one found, and the string there. *)
Fixpoint strchr (s : list Z) (c : Z) : option (list Z * list Z) :=
  match s with
  | [] => None
  | b :: s' =>
      if b =? 0 then None else
      if b =? c then Some ([], s) else
      match strchr s' c with Some (u, q) => Some (b :: u, q) | None => None end
  end.

(** The lines in the buffer; the result is [p], what is left. *)
Fixpoint scan (fuel : nat) (re p : list Z) (out : list (list Z)) : option (list Z * list (list Z)) :=
  match fuel with
  | O => None
  | S fuel' =>
      match strchr p NL with
      | None => Some (p, out)
      | Some (line, q) =>
          scan fuel' re (tail q) (if match_ re line then out ++ [line ++ [NL]] else out)
      end
  end.

(** A source delivers its bytes in chunks, a file all in one, a pipe or the
    console as they are written; [read] gives at most [n] bytes of the first.
    No bytes are the end of the file. *)
Definition read (n : nat) (src : list (list Z)) : list Z * list (list Z) :=
  match src with
  | [] => ([], [])
  | c :: src' => (take n c, if decide (drop n c = []) then src' else drop n c :: src')
  end.

(** The output is the list of what the calls of [write] print. *)
Fixpoint grep_loop (fuel : nat) (re : list Z) (src : list (list Z)) (m : list Z) (out : list (list Z)) :
    option (list (list Z)) :=
  match fuel with
  | O => None
  | S fuel' =>
      let '(got, src') := read (BUFSIZE - length m - 1) src in
      match got with
      | [] => Some out
      | _ :: _ =>
          let buf := m ++ got in
          match scan (S (length buf)) re buf out with
          | None => None
          | Some (p, out') =>
              grep_loop fuel' re src' (if (length p =? length buf)%nat then [] else p) out'
          end
      end
  end.
(** Every turn but the last takes a byte from the source. *)
Definition grep (re : list Z) (src : list (list Z)) : option (list (list Z)) :=
  grep_loop (S (length (concat src))) re src [] [].

(** Lines with their newlines; those that are printed. *)
Definition joined (ls : list (list Z)) : list Z := concat (map (fun l => l ++ [NL]) ls).
Definition printed (re : list Z) (ls : list (list Z)) : list (list Z) :=
  map (fun l => l ++ [NL]) (List.filter (match_ re) ls).

Lemma printed_app re ls1 ls2 : printed re (ls1 ++ ls2) = printed re ls1 ++ printed re ls2.
Proof. unfold printed. by rewrite List.filter_app, map_app. Qed.

Lemma strchr_None s : NL ∉ s -> strchr s NL = None.
Proof.
  induction s as [|b s IH]; [done|]. intros [Hb Hs]%not_elem_of_cons. cbn.
  rewrite (proj2 (Z.eqb_neq b NL)), IH by (done || congruence). by destruct (b =? 0).
Qed.
Lemma strchr_line l s : (NL ∉ l) -> (0 ∉ l) -> strchr (l ++ NL :: s) NL = Some (l, NL :: s).
Proof.
  induction l as [|b l IH]; [done|]. intros [Hb Hl]%not_elem_of_cons [H0 Hz]%not_elem_of_cons. cbn [strchr app].
  rewrite (proj2 (Z.eqb_neq b 0)), (proj2 (Z.eqb_neq b NL)), IH by congruence. done.
Qed.

(** A line that the buffer can hold. *)
Definition line_ok (l : list Z) : Prop := (NL ∉ l) /\ (0 ∉ l) /\ (length l + 1 < BUFSIZE)%nat.

(** The buffer holds the first bytes of the lines [ls] and of [rest]. *)
Lemma scan_prefix re rest : (NL ∉ rest) -> forall ls buf more out fuel,
  Forall line_ok ls -> buf ++ more = joined ls ++ rest -> (length buf < fuel)%nat ->
  exists ls1 ls2 p, ls = ls1 ++ ls2 /\ buf = joined ls1 ++ p /\ (NL ∉ p) /\
    p ++ more = joined ls2 ++ rest /\ scan fuel re buf out = Some (p, out ++ printed re ls1).
Proof.
  intros Hrest. assert (forall ls buf more out fuel, (NL ∉ buf) -> buf ++ more = joined ls ++ rest ->
    (length buf < fuel)%nat -> exists ls1 ls2 p, ls = ls1 ++ ls2 /\ buf = joined ls1 ++ p /\ (NL ∉ p) /\
    p ++ more = joined ls2 ++ rest /\ scan fuel re buf out = Some (p, out ++ printed re ls1)) as Hnone.
  { intros ls buf more out fuel Hb E Hf. exists [], ls, buf. split; [done|]. split; [done|]. split; [done|].
    split; [done|]. destruct fuel as [|fuel]; [lia|]. cbn [scan]. rewrite strchr_None by done.
    cbn. by rewrite app_nil_r. }
  induction ls as [|l ls IH]; intros buf more out fuel Hls E Hf.
  { apply Hnone; [|done|done]. intros Hin. apply Hrest. cbn in E. rewrite <- E. apply elem_of_app. by left. }
  apply Forall_cons in Hls as [(Hl&Hz&_) Hls].
  assert (joined (l :: ls) ++ rest = (l ++ [NL]) ++ joined ls ++ rest) as Ej by (unfold joined; cbn; by rewrite <- !app_assoc).
  rewrite Ej in E.
  assert ((exists b, buf = (l ++ [NL]) ++ b /\ b ++ more = joined ls ++ rest) \/ (NL ∉ buf)) as [(b&->&Eb)|Hin].
  { destruct (app_eq_inv buf more (l ++ [NL]) (joined ls ++ rest) E) as [(b&Eb&Em)|([|x b]&Eb&Em)].
    - left. by exists b.
    - left. exists []. rewrite app_nil_r in *. by subst.
    - right. intros Hin. apply Hl. destruct (exists_last (l:=x :: b) ltac:(done)) as (b'&y&Ey).
      rewrite Ey, app_assoc in Eb. apply app_inj_tail in Eb as [-> _]. apply elem_of_app. by left. }
  2: { apply Hnone; [done|by rewrite Ej|done]. }
  destruct fuel as [|fuel]; [lia|]. rewrite !length_app in Hf. cbn in Hf.
  destruct (IH b more (if match_ re l then out ++ [l ++ [NL]] else out) fuel Hls Eb ltac:(lia))
    as (ls1&ls2&p&->&->&Hp&Hrem&Hs).
  exists (l :: ls1), ls2, p. split; [done|]. split; [unfold joined; cbn; by rewrite <- !app_assoc|].
  split; [done|]. split; [done|]. rewrite <- app_assoc. cbn [scan app]. rewrite strchr_line by done.
  cbn [tail]. rewrite Hs. unfold printed. cbn. destruct (match_ re l); [|done]. cbn. by rewrite <- app_assoc.
Qed.

(** The bytes a source that holds [d] still gives. *)
Definition source (d : list Z) : list (list Z) := if decide (d = []) then [] else [d].

Lemma read_source n d : read n (source d) = (take n d, source (drop n d)).
Proof.
  unfold source. destruct (decide (d = [])) as [->|Hd]; [by rewrite take_nil, drop_nil|].
  cbn [read]. by case_decide.
Qed.

Lemma joined_nil l ls : joined (l :: ls) <> [].
Proof. unfold joined. cbn. by destruct l. Qed.

Lemma grep_loop_run re fuel : forall ls rest d m out,
  Forall line_ok ls -> (NL ∉ rest) -> (NL ∉ m) -> (length m + 1 < BUFSIZE)%nat ->
  m ++ d = joined ls ++ rest -> (length d < fuel)%nat ->
  grep_loop fuel re (source d) m out = Some (out ++ printed re ls).
Proof.
  induction fuel as [|fuel IH]; intros ls rest d m out Hls Hrest Hm Hlen E Hf; [lia|]. cbn [grep_loop].
  rewrite read_source. set (n := (BUFSIZE - length m - 1)%nat). assert (0 < n)%nat as Hn by lia.
  destruct (take n d) as [|x got] eqn:Et.
  { assert (d = []) as -> by (destruct d; [done|]; destruct n; [lia|done]).
    assert (ls = []) as ->; [|cbn; by rewrite app_nil_r].
    destruct ls as [|l ls]; [done|]. rewrite app_nil_r in E. destruct Hm. rewrite E. unfold joined. cbn.
    rewrite <- !app_assoc. apply elem_of_app. right. by left. }
  rewrite <- Et. set (buf := m ++ take n d). pose proof (take_drop n d) as Etd.
  destruct (scan_prefix re rest Hrest ls buf (drop n d) out (S (length buf)) Hls) as (ls1&ls2&p&->&Eb&Hp&Erem&Hs).
  { unfold buf. by rewrite <- app_assoc, Etd. }
  { lia. }
  rewrite Hs, printed_app, app_assoc. assert (length (drop n d) < fuel)%nat as Hfuel.
  { rewrite length_drop. destruct d; [by rewrite take_nil in Et|]. cbn [length] in *. lia. }
  apply Forall_app in Hls as [Hls1 Hls2].
  assert (length buf <= BUFSIZE - 1)%nat as Hbl by (unfold buf; rewrite length_app, length_take; lia).
  destruct (Nat.eqb_spec (length p) (length buf)) as [Ep|Ep].
  - assert (ls1 = []) as ->.
    { destruct ls1 as [|l ls1]; [done|]. rewrite Eb, length_app in Ep. destruct (joined (l :: ls1)) eqn:Ej; cbn in Ep; [|lia].
      by apply joined_nil in Ej. }
    destruct ls2 as [|l ls2].
    + apply (IH [] (drop n d)); [done| |apply not_elem_of_nil|unfold BUFSIZE; cbn; lia|done|done].
      intros Hin. apply Hrest. cbn in Erem. rewrite <- Erem. apply elem_of_app. by right.
    + exfalso. cbn in Eb. apply Forall_cons in Hls2 as [(Hl&_&Hll) _]. destruct (decide (drop n d = [])) as [Ed|Ed].
      * apply Hp. rewrite Ed, app_nil_r in Erem. rewrite Erem. unfold joined. cbn.
        rewrite <- !app_assoc. apply elem_of_app. right. by left.
      * assert (length p = BUFSIZE - 1)%nat as Hpl.
        { rewrite Ep. unfold buf. rewrite length_app, length_take.
          assert (n <= length d)%nat; [|lia]. apply Nat.nlt_ge. intros Hlt. apply Ed. by apply drop_ge, Nat.lt_le_incl. }
        unfold joined in Erem. cbn in Erem. rewrite <- !app_assoc in Erem.
        apply Hp. assert (p = take (length p) (l ++ [NL] ++ joined ls2 ++ rest)) as ->
          by (unfold joined; rewrite <- Erem; by rewrite take_app_length).
        rewrite Hpl, take_app. apply elem_of_app. right.
        destruct (BUFSIZE - 1 - length l)%nat eqn:E0; [lia|]. cbn. by left.
  - apply (IH ls2 rest); try done. rewrite Eb, length_app in Ep, Hbl. lia.
Qed.

(** [grep] terminates and prints, in order, exactly the lines of the file
    that match the pattern: lines of up to 1022 bytes without NUL, each ended
    by a newline; what follows the last newline is not a line. *)
Theorem grep_correct re ls rest :
  Forall line_ok ls -> NL ∉ rest ->
  grep re (source (joined ls ++ rest)) = Some (printed re ls).
Proof.
  intros Hls Hrest. unfold grep.
  apply (grep_loop_run re _ ls rest (joined ls ++ rest) []); [done|done|apply not_elem_of_nil|unfold BUFSIZE; cbn; lia|done|].
  unfold source. case_decide as E; [rewrite E; cbn; lia|]. cbn. rewrite app_nil_r. lia.
Qed.

Lemma grep_correct_witness :
  grep [CARET; 97; STAR; 98] (source (joined [[97; 97; 98; 99]; [99; 98]; [98]] ++ [98])) =
    Some [[97; 97; 98; 99; NL]; [98; NL]].
Proof.
  apply (grep_correct [CARET; 97; STAR; 98] [[97; 97; 98; 99]; [99; 98]; [98]] [98]).
  - repeat constructor; try (apply (bool_decide_unpack _); vm_compute; exact I).
  - apply (bool_decide_unpack _). vm_compute. exact I.
Defined.

(** A line that arrives in two pieces is lost: the pattern [abc], and a pipe
    into which first [ab] and then [c] with the newline is written. *)
Example split_line_lost : grep [97; 98; 99] [[97; 98]; [99; NL]] = Some [].
Proof. vm_compute. reflexivity. Qed.
End Grep.
