(* ===== verification/Sh.v ===== *)
(** * The shell's parser (xv6-public/sh.c)

    A pointer into the command line is the suffix it points at; the parser's
    state is the pointer [*ps].  A counted string is the pair of the suffixes
    at its begin and end.  [nulterminate] then works on the buffer itself, at
    the position of a suffix.  Tree nodes are values: [malloc] is taken to
    succeed, as the code takes it to. *)

From S2P Require Import Prelude Fcntl.

Module Sh.

Definition MAXARGS : nat := 10.

Definition token : Type := (list Z * list Z)%type.

Inductive cmd : Type :=
  | EXEC (argv : list token)
  | REDIR (c : cmd) (file : token) (mode fd : Z)
  | PIPE (left right : cmd)
  | LIST (left right : cmd)
  | BACK (c : cmd).

(** ** Tokens *)

Definition whitespace : list Z := [32; 9; 13; 10; 11].
(** The characters <|>&;() *)
Definition symbols : list Z := [60; 124; 62; 38; 59; 40; 41].
Definition strchr (cs : list Z) (c : Z) : bool := existsb (Z.eqb c) cs.
Arguments strchr : simpl never.

Fixpoint skipws (s : list Z) : list Z :=
  match s with
  | [] => []
  | c :: s' => if strchr whitespace c then skipws s' else s
  end.
Fixpoint skipword (s : list Z) : list Z :=
  match s with
  | [] => []
  | c :: s' => if negb (strchr whitespace c) && negb (strchr symbols c) then skipword s' else s
  end.

(** The kind of the token, and its begin and end. *)
Definition gettoken : M (list Z) (Z * token) := fun ps =>
  let s := skipws ps in
  let '(r, eq) :=
    match s with
    | [] => (0, s)
    | c :: s1 =>
        if strchr [124; 40; 41; 59; 38; 60] c then (c, s1) else
        if c =? 62 then
          match s1 with
          | c' :: s2 => if c' =? 62 then (43, s2) else (c, s1)
          | [] => (c, s1)
          end
        else (97, skipword s)
    end in
  Ok (r, (s, eq)) (skipws eq).

Definition peek (toks : list Z) : M (list Z) bool := fun ps =>
  let s := skipws ps in
  Ok (match s with [] => false | c :: _ => strchr toks c end) s.

(** ** Commands *)

(** [cmd->argv[argc] = q; cmd->eargv[argc] = eq], where [cmd] is the node
    below the redirections of [r]. *)
Fixpoint push_arg (r : cmd) (t : token) : cmd :=
  match r with
  | EXEC argv => EXEC (argv ++ [t])
  | REDIR c file mode fd => REDIR (push_arg c t) file mode fd
  | _ => r
  end.

Definition redir (tok : Z) (file : token) (c : cmd) : cmd :=
  if tok =? 60 then REDIR c file O_RDONLY 0 else
  if tok =? 62 then REDIR c file (Z.lor O_WRONLY O_CREATE) 1 else
  if tok =? 43 then REDIR c file (Z.lor O_WRONLY O_CREATE) 1 else c.

Fixpoint parseredirs (fuel : nat) (c : cmd) : M (list Z) cmd :=
  match fuel with
  | O => spin
  | S fuel' =>
      b <- peek [60; 62] ;;
      if negb b then ret c else
      t <- gettoken ;;
      f <- gettoken ;;
      if negb (f.1 =? 97) then panic "missing file for redirection" else
      parseredirs fuel' (redir t.1 f.2 c)
  end.

Fixpoint parseargs (fuel : nat) (argc : nat) (r : cmd) : M (list Z) cmd :=
  match fuel with
  | O => spin
  | S fuel' =>
      b <- peek [124; 41; 38; 59] ;;
      if (b : bool) then ret r else
      t <- gettoken ;;
      if t.1 =? 0 then ret r else
      if negb (t.1 =? 97) then panic "syntax" else
      let r := push_arg r t.2 in
      if (MAXARGS <=? argc + 1)%nat then panic "too many args" else
      r <- parseredirs fuel' r ;;
      parseargs fuel' (argc + 1) r
  end.

Fixpoint parsebacks (fuel : nat) (c : cmd) : M (list Z) cmd :=
  match fuel with
  | O => spin
  | S fuel' =>
      b <- peek [38] ;;
      if negb b then ret c else gettoken ;; parsebacks fuel' (BACK c)
  end.

Fixpoint parseline (fuel : nat) : M (list Z) cmd :=
  match fuel with
  | O => spin
  | S fuel' =>
      c <- parsepipe fuel' ;;
      c <- parsebacks fuel' c ;;
      b <- peek [59] ;;
      if negb b then ret c else
      gettoken ;;
      r <- parseline fuel' ;;
      ret (LIST c r)
  end
with parsepipe (fuel : nat) : M (list Z) cmd :=
  match fuel with
  | O => spin
  | S fuel' =>
      c <- parseexec fuel' ;;
      b <- peek [124] ;;
      if negb b then ret c else
      gettoken ;;
      r <- parsepipe fuel' ;;
      ret (PIPE c r)
  end
with parseexec (fuel : nat) : M (list Z) cmd :=
  match fuel with
  | O => spin
  | S fuel' =>
      b <- peek [40] ;;
      if (b : bool) then parseblock fuel' else
      r <- parseredirs fuel' (EXEC []) ;;
      parseargs fuel' 0 r
  end
with parseblock (fuel : nat) : M (list Z) cmd :=
  match fuel with
  | O => spin
  | S fuel' =>
      b <- peek [40] ;;
      if negb b then panic "parseblock" else
      gettoken ;;
      c <- parseline fuel' ;;
      b <- peek [41] ;;
      if negb b then panic "syntax - missing )" else
      gettoken ;;
      parseredirs fuel' c
  end.

(** ** The whole line *)

(** The C string at the begin of a buffer. *)
Fixpoint cstring (b : list Z) : list Z :=
  match b with
  | [] => []
  | c :: b' => if c =? 0 then [] else c :: cstring b'
  end.

(** The position of a suffix in a line of length [n]; a 0 written there. *)
Definition pos (n : nat) (s : list Z) : nat := n - length s.
Definition cut (n : nat) (t : token) (buf : list Z) : list Z := <[pos n t.2 := 0]> buf.

Fixpoint nulterminate (n : nat) (c : cmd) (buf : list Z) : list Z :=
  match c with
  | EXEC argv => foldl (fun b t => cut n t b) buf argv
  | REDIR c file _ _ => cut n file (nulterminate n c buf)
  | PIPE l r | LIST l r => nulterminate n r (nulterminate n l buf)
  | BACK c => nulterminate n c buf
  end.

(** A call of a parsing routine takes a byte within three further calls. *)
Definition parsecmd : M (list Z) cmd := fun buf =>
  let s := cstring buf in
  match parseline (5 * length s + 5) s with
  | Ok c s' =>
      match skipws s' with
      | [] => Ok c (nulterminate (length s) c buf)
      | _ :: _ => Panic "syntax"
      end
  | Sleep ch _ => Sleep ch buf
  | Panic msg => Panic msg
  | Fault => Fault
  | Spin => Spin
  end.

(** ** Tokens are words between delimiters *)

Definition wordchar (c : Z) : bool := negb (strchr whitespace c) && negb (strchr symbols c).
Definition delim (s : list Z) : bool := match s with [] => true | c :: _ => negb (wordchar c) end.

Lemma sfx_trans (a b c : list Z) : a `suffix_of` b -> b `suffix_of` c -> a `suffix_of` c.
Proof. intros. by etrans. Qed.
(** Chains of suffixes. *)
Ltac sfx :=
  cbn [fst snd] in *;
  solve [reflexivity | repeat first [eassumption | eapply sfx_trans; [eassumption|]]].

Lemma skipws_suffix s : skipws s `suffix_of` s.
Proof.
  induction s as [|c s IH]; [done|]. cbn. destruct (strchr whitespace c); [|done]. by apply suffix_cons_r.
Qed.
Lemma skipws_head s c s' : skipws s = c :: s' -> strchr whitespace c = false.
Proof.
  induction s as [|b s IH]; [done|]. cbn. destruct (strchr whitespace b) eqn:E; [exact IH|]. by intros [= <- <-].
Qed.
Lemma skipws_idem s : skipws (skipws s) = skipws s.
Proof.
  induction s as [|b s IH]; [done|]. cbn. destruct (strchr whitespace b) eqn:E; [done|]. cbn. by rewrite E.
Qed.
Lemma skipword_split s : exists w, s = w ++ skipword s /\ Forall (fun c => wordchar c = true) w /\ delim (skipword s) = true.
Proof.
  induction s as [|c s (w&E&Hw&Hd)]; [by exists []|]. cbn [skipword]. fold (wordchar c).
  destruct (wordchar c) eqn:Ec.
  - exists (c :: w). split; [cbn; by rewrite <- E|]. split; [by apply Forall_cons|done].
  - exists []. split; [done|]. split; [done|]. cbn. by rewrite Ec.
Qed.

Definition is_word (t : token) : Prop :=
  exists w, t.1 = w ++ t.2 /\ w <> [] /\ Forall (fun c => wordchar c = true) w /\ delim t.2 = true.

Lemma symbols_cases c :
  strchr symbols c = true -> strchr [124; 40; 41; 59; 38; 60] c = true \/ c = 62.
Proof.
  unfold strchr, symbols. cbn. rewrite !orb_true_iff, !Z.eqb_eq. tauto.
Qed.

(** What [gettoken] returns; it moves on unless the line is at its end. *)
Lemma gettoken_run s : exists r eq,
  gettoken s = Ok (r, (skipws s, eq)) (skipws eq) /\ eq `suffix_of` skipws s /\
  (skipws s <> [] -> (length eq < length (skipws s))%nat) /\ (r = 97 -> is_word (skipws s, eq)) /\
  (skipws s = [] -> r = 0).
Proof.
  unfold gettoken. destruct (skipws s) as [|c s1] eqn:Es.
  { exists 0, []. by repeat split. }
  destruct (strchr [124; 40; 41; 59; 38; 60] c) eqn:E1.
  { exists c, s1. split; [done|]. split; [by apply suffix_cons_r|]. split; [cbn; lia|].
    split; [intros ->; discriminate|done]. }
  destruct (Z.eqb_spec c 62) as [->|Hc].
  { assert (exists r eq, (r = 62 \/ r = 43) /\ eq `suffix_of` s1 /\
      (match s1 with c' :: s2 => if c' =? 62 then (43, s2) else (62, s1) | [] => (62, s1) end) = (r, eq))
      as (r&eq&Hr&Hs&->).
    { destruct s1 as [|c' s2]; [exists 62, []; split; [by left|done]|]. destruct (c' =? 62).
      - exists 43, s2. split; [by right|]. split; [by apply suffix_cons_r|done].
      - exists 62, (c' :: s2). split; [by left|done]. }
    exists r, eq. split; [done|]. split; [by apply suffix_cons_r|]. apply suffix_length in Hs.
    split; [cbn; lia|]. split; [intros ->; by destruct Hr|done]. }
  assert (wordchar c = true) as Hw.
  { unfold wordchar. rewrite (skipws_head _ _ _ Es). cbn. destruct (strchr symbols c) eqn:E2; [|done].
    apply symbols_cases in E2 as [E2|E2]; [by rewrite E1 in E2|done]. }
  exists 97, (skipword (c :: s1)). destruct (skipword_split s1) as (w&E&Hws&Hd).
  assert (skipword (c :: s1) = skipword s1) as Ek by (cbn [skipword]; fold (wordchar c); by rewrite Hw).
  rewrite Ek. split; [done|]. assert (skipword s1 `suffix_of` s1) as Hs by (rewrite E at 2; by eexists).
  split; [by apply suffix_cons_r|]. apply suffix_length in Hs. split; [cbn; lia|]. split; [|done].
  intros _. exists (c :: w). split; [cbn; by rewrite <- E|]. split; [done|]. split; [by apply Forall_cons|done].
Qed.

Lemma peek_run toks s : exists b,
  peek toks s = Ok b (skipws s) /\ (b = true -> skipws s <> []).
Proof. unfold peek. eexists. split; [done|]. by destruct (skipws s). Qed.

(** ** Every line is parsed or rejected *)

(** [m] returns, in a result and state with [Q], or rejects the line. *)
Definition fine {A} (m : M (list Z) A) (Q : A -> list Z -> Prop) (s : list Z) : Prop :=
  match m s with Ok a s' => Q a s' | Panic _ => True | _ => False end.

Lemma fine_bind {A B} (m : M (list Z) A) (k : A -> M (list Z) B) Q s :
  fine m (fun a s' => fine (k a) Q s') s -> fine (bind m k) Q s.
Proof. unfold fine, bind. by destruct (m s). Qed.
Lemma fine_mono {A} (m : M (list Z) A) (Q R : A -> list Z -> Prop) s :
  fine m Q s -> (forall a s', Q a s' -> R a s') -> fine m R s.
Proof. unfold fine. destruct (m s); auto. Qed.
Lemma fine_ret {A} (a : A) (Q : A -> list Z -> Prop) s : Q a s -> fine (ret a) Q s.
Proof. done. Qed.

Lemma fine_peek toks (Q : bool -> list Z -> Prop) s :
  (forall b s', s' `suffix_of` s -> (b = true -> skipws s' <> []) -> Q b s') -> fine (peek toks) Q s.
Proof.
  intros H. unfold fine. destruct (peek_run toks s) as (b&->&Hb). apply H; [apply skipws_suffix|by rewrite skipws_idem].
Qed.
Lemma fine_gettoken (Q : Z * token -> list Z -> Prop) s :
  (forall r q eq s', s' `suffix_of` s -> q `suffix_of` s -> (skipws s <> [] -> (length s' < length s)%nat) ->
     (r = 97 -> is_word (q, eq)) -> (skipws s = [] -> r = 0) -> Q (r, (q, eq)) s') -> fine gettoken Q s.
Proof.
  intros H. unfold fine. destruct (gettoken_run s) as (r&eq&->&Hs&Hl&Hw&H0).
  pose proof (skipws_suffix s) as Hq. pose proof (skipws_suffix eq) as He. apply H; [|done| |done|done].
  - by do 2 (etrans; [done|]).
  - intros Hne. specialize (Hl Hne). apply suffix_length in Hq, He. lia.
Qed.

Section fine.
(** The whole line. *)
Variable line : list Z.

Definition tok_ok (t : token) : Prop := is_word t /\ t.1 `suffix_of` line.

(** At most [MAXARGS - 1] arguments, and words everywhere. *)
Fixpoint tree_ok (c : cmd) : Prop :=
  match c with
  | EXEC argv => Forall tok_ok argv /\ (length argv < MAXARGS)%nat
  | REDIR c f _ _ => tree_ok c /\ tok_ok f
  | PIPE l r | LIST l r => tree_ok l /\ tree_ok r
  | BACK c => tree_ok c
  end.

(** An [EXEC] of [n] arguments below redirections. *)
Fixpoint chain (c : cmd) (n : nat) : Prop :=
  match c with
  | EXEC argv => length argv = n
  | REDIR c _ _ _ => chain c n
  | _ => False
  end.

Lemma push_arg_ok r t n :
  tree_ok r -> chain r n -> tok_ok t -> (n + 1 < MAXARGS)%nat ->
  tree_ok (push_arg r t) /\ chain (push_arg r t) (n + 1).
Proof.
  intros Hr Hc Ht Hn. induction r as [argv|r IH f mode fd| | |]; cbn in *; try done.
  - rewrite length_app. cbn. destruct Hr as [Hf _]. split; [|lia]. split; [|lia].
    apply Forall_app. split; [done|]. by apply Forall_cons.
  - destruct Hr as [Hr Hf]. destruct (IH Hr Hc) as [H1 H2]. auto.
Qed.

Lemma redir_ok tok f c : tree_ok c -> tok_ok f -> tree_ok (redir tok f c) /\ forall n, chain c n -> chain (redir tok f c) n.
Proof. intros Hc Hf. unfold redir. repeat case_match; cbn; auto. Qed.

Lemma parseredirs_fine fuel : forall c s,
  (length s < fuel)%nat -> tree_ok c -> s `suffix_of` line ->
  fine (parseredirs fuel c) (fun c' s' => s' `suffix_of` s /\ tree_ok c' /\ forall n, chain c n -> chain c' n) s.
Proof.
  induction fuel as [|fuel IH]; intros c s Hf Hc Hs; [lia|]. cbn [parseredirs].
  apply fine_bind, fine_peek. intros b s1 H1 Hb. destruct b; cbn [negb]; [|by apply fine_ret].
  apply fine_bind, fine_gettoken. intros r q eq s2 H2 _ Hl2 _ _.
  apply fine_bind, fine_gettoken. intros r' q' eq' s3 H3 Hq3 Hl3 Hw3 _. cbn [fst snd].
  destruct (Z.eqb_spec r' 97) as [->|]; cbn [negb]; [|done].
  assert (tok_ok (q', eq')) as Ht by (split; [by apply Hw3|sfx]).
  destruct (redir_ok r (q', eq') c Hc Ht) as [Hok Hch].
  assert (s3 `suffix_of` s) as H30 by sfx.
  eapply fine_mono; [apply IH; [|done|sfx]|].
  - pose proof (suffix_length _ _ H3). pose proof (suffix_length _ _ H1).
    enough (length s2 < length s1)%nat by lia. by apply Hl2, Hb.
  - intros c' s' (Hs'&Hc'&Hch'). split; [sfx|]. split; [done|]. auto.
Qed.

Lemma parseargs_fine fuel : forall argc r s,
  (length s < fuel)%nat -> (argc < MAXARGS)%nat -> tree_ok r -> chain r argc -> s `suffix_of` line ->
  fine (parseargs fuel argc r) (fun c s' => s' `suffix_of` s /\ tree_ok c) s.
Proof.
  induction fuel as [|fuel IH]; intros argc r s Hf Ha Hr Hc Hs; [lia|]. cbn [parseargs].
  apply fine_bind, fine_peek. intros b s1 H1 Hb. destruct b; [by apply fine_ret|].
  apply fine_bind, fine_gettoken. intros k q eq s2 H2 Hq Hl Hw H0. cbn [fst snd].
  destruct (Z.eqb_spec k 0) as [->|Hk]; [apply fine_ret; split; [sfx|done]|].
  destruct (Z.eqb_spec k 97) as [->|]; cbn [negb]; [|done].
  destruct (Nat.leb_spec MAXARGS (argc + 1)) as [|Hlt]; [done|].
  assert (tok_ok (q, eq)) as Ht by (split; [by apply Hw|sfx]).
  destruct (push_arg_ok r (q, eq) argc Hr Hc Ht Hlt) as [Hr' Hc'].
  assert (length s2 < fuel)%nat as Hf2.
  { pose proof (suffix_length _ _ H1). assert (skipws s1 <> []) as Hne by (intros E; by apply H0 in E).
    specialize (Hl Hne). lia. }
  apply fine_bind. eapply fine_mono; [apply parseredirs_fine; [done|done|sfx]|].
  intros c s3 (H3&Hc3&Hch3). eapply fine_mono; [apply (IH (argc + 1)%nat)|].
  - apply suffix_length in H3. lia.
  - done.
  - done.
  - by apply Hch3.
  - sfx.
  - intros c' s' [Hs' Hc'']. split; [sfx|done].
Qed.

Lemma parsebacks_fine fuel : forall c s,
  (length s < fuel)%nat -> tree_ok c -> fine (parsebacks fuel c) (fun c' s' => s' `suffix_of` s /\ tree_ok c') s.
Proof.
  induction fuel as [|fuel IH]; intros c s Hf Hc; [lia|]. cbn [parsebacks].
  apply fine_bind, fine_peek. intros b s1 H1 Hb. destruct b; cbn [negb]; [|by apply fine_ret].
  apply fine_bind, fine_gettoken. intros k q eq s2 H2 _ Hl _ _. specialize (Hl (Hb eq_refl)).
  eapply fine_mono; [apply IH; [|done]|].
  - apply suffix_length in H1. lia.
  - intros c' s' [Hs' Hc']. split; [sfx|done].
Qed.

Abbreviation parsed s := (fun (c : cmd) s' => s' `suffix_of` s /\ tree_ok c).

Lemma parsers_fine fuel : forall s, s `suffix_of` line ->
  ((5 * length s + 4 <= fuel)%nat -> fine (parseline fuel) (parsed s) s) /\
  ((5 * length s + 3 <= fuel)%nat -> fine (parsepipe fuel) (parsed s) s) /\
  ((5 * length s + 2 <= fuel)%nat -> fine (parseexec fuel) (parsed s) s) /\
  ((5 * length s + 1 <= fuel)%nat -> fine (parseblock fuel) (parsed s) s).
Proof.
  induction fuel as [|fuel IH]; intros s Hs; [repeat split; lia|].
  destruct (IH s Hs) as (_&IHp&IHe&IHb). repeat split; intros Hf.
  - cbn [parseline]. apply fine_bind. eapply fine_mono; [apply IHp; lia|]. intros c s1 [H1 Hc].
    pose proof (suffix_length _ _ H1) as L1. apply fine_bind. eapply fine_mono; [apply parsebacks_fine; [lia|done]|].
    intros c' s2 [H2 Hc']. apply fine_bind, fine_peek. intros b s3 H3 Hb. destruct b; cbn [negb];
      [|apply fine_ret; split; [sfx|done]].
    apply fine_bind, fine_gettoken. intros k q eq s4 H4 _ Hl _ _. specialize (Hl (Hb eq_refl)).
    pose proof (suffix_length _ _ H2). pose proof (suffix_length _ _ H3).
    apply fine_bind. eapply fine_mono; [apply IH; [sfx|lia]|]. intros r s5 [H5 Hr]. apply fine_ret. split; [sfx|done].
  - cbn [parsepipe]. apply fine_bind. eapply fine_mono; [apply IHe; lia|]. intros c s1 [H1 Hc].
    pose proof (suffix_length _ _ H1) as L1. apply fine_bind, fine_peek. intros b s3 H3 Hb. destruct b; cbn [negb];
      [|apply fine_ret; split; [sfx|done]].
    apply fine_bind, fine_gettoken. intros k q eq s4 H4 _ Hl _ _. specialize (Hl (Hb eq_refl)).
    pose proof (suffix_length _ _ H3).
    apply fine_bind. eapply fine_mono; [apply IH; [sfx|lia]|]. intros r s5 [H5 Hr]. apply fine_ret. split; [sfx|done].
  - cbn [parseexec]. apply fine_bind, fine_peek. intros b s1 H1 Hb. pose proof (suffix_length _ _ H1).
    destruct b.
    + eapply fine_mono; [apply IH; [sfx|lia]|]. intros c s' [? ?]. split; [sfx|done].
    + apply fine_bind. eapply fine_mono; [apply parseredirs_fine; [lia| |sfx]|].
      { split; [done|unfold MAXARGS; cbn; lia]. }
      intros c s2 (H2&Hc&Hch). pose proof (suffix_length _ _ H2).
      eapply fine_mono; [apply parseargs_fine; [lia|unfold MAXARGS; lia|done|by apply Hch|sfx]|].
      intros c' s' [? ?]. split; [sfx|done].
  - cbn [parseblock]. apply fine_bind, fine_peek. intros b s1 H1 Hb. destruct b; cbn [negb]; [|done].
    apply fine_bind, fine_gettoken. intros k q eq s2 H2 _ Hl _ _. specialize (Hl (Hb eq_refl)).
    pose proof (suffix_length _ _ H1). apply fine_bind. eapply fine_mono; [apply IH; [sfx|lia]|].
    intros c s3 [H3 Hc]. apply fine_bind, fine_peek. intros b s4 H4 Hb4. destruct b; cbn [negb]; [|done].
    apply fine_bind, fine_gettoken. intros k' q' eq' s5 H5 _ _ _ _.
    pose proof (suffix_length _ _ H3). pose proof (suffix_length _ _ H4). pose proof (suffix_length _ _ H5).
    eapply fine_mono; [apply parseredirs_fine; [lia|done|sfx]|]. intros c' s' (?&?&_). split; [sfx|done].
Qed.
End fine.


(** ** The strings after nulterminate *)

(** The counted strings of a command, in the order in which they are cut. *)
Fixpoint tokens (c : cmd) : list token :=
  match c with
  | EXEC argv => argv
  | REDIR c file _ _ => tokens c ++ [file]
  | PIPE l r | LIST l r => tokens l ++ tokens r
  | BACK c => tokens c
  end.
Definition word_of (t : token) : list Z := take (length t.1 - length t.2) t.1.

Lemma nulterminate_tokens n c : forall buf, nulterminate n c buf = foldl (fun b t => cut n t b) buf (tokens c).
Proof.
  induction c as [argv|c IH f mode fd|l IHl r IHr|l IHl r IHr|c IH]; intros buf; cbn; [done| | | |done];
    rewrite foldl_app.
  - by rewrite IH.
  - by rewrite IHl, IHr.
  - by rewrite IHl, IHr.
Qed.

Lemma tree_ok_tokens line c : tree_ok line c -> Forall (tok_ok line) (tokens c).
Proof.
  induction c as [argv|c IH f mode fd|l IHl r IHr|l IHl r IHr|c IH]; cbn; rewrite ?Forall_app; naive_solver.
Qed.

(** [b'] is [b] with zeros at delimiters. *)
Definition nicked (line b b' : list Z) : Prop :=
  length b' = length b /\
  forall i, b' !! i = b !! i \/ (b' !! i = Some 0 /\ delim (drop i line) = true).

Lemma suffix_drop (s line : list Z) : s `suffix_of` line -> drop (pos (length line) s) line = s.
Proof.
  intros [pre ->]. unfold pos. rewrite length_app. replace (_ - _)%nat with (length pre) by lia.
  apply drop_app_length.
Qed.

Lemma cut_nicked line b b' t :
  tok_ok line t -> nicked line b b' -> nicked line b (cut (length line) t b').
Proof.
  intros [(w&E&_&_&Hd) Hs] [Hl Hn]. unfold cut. split; [by rewrite length_insert|]. intros i.
  assert (t.2 `suffix_of` line) as Hs2 by (etrans; [|done]; rewrite E; by eexists).
  destruct (decide (i = pos (length line) t.2)) as [->|Hi]; [|rewrite list_lookup_insert_ne by done; apply Hn].
  destruct (decide (pos (length line) t.2 < length b')%nat) as [Hlt|Hge].
  - right. rewrite list_lookup_insert_eq by done. split; [done|]. by rewrite suffix_drop.
  - rewrite list_insert_ge by lia. apply Hn.
Qed.

Lemma cuts_nicked line ts : forall b b', Forall (tok_ok line) ts -> nicked line b b' ->
  let b'' := foldl (fun b t => cut (length line) t b) b' ts in
  nicked line b b'' /\ nicked line b' b'' /\
  Forall (fun t => b'' !! pos (length line) t.2 = Some 0 \/ b'' !! pos (length line) t.2 = None) ts.
Proof.
  induction ts as [|t ts IH]; intros b b' Hts Hn; [split; [done|split; [|done]]; split; [done|by left]|].
  apply Forall_cons in Hts as [Ht Hts]. cbn. set (b1 := cut (length line) t b').
  destruct (IH b b1 Hts (cut_nicked _ _ _ _ Ht Hn)) as (H1&H2&H3).
  assert (nicked line b' b1) as Hb1 by (apply cut_nicked; [done|split; [done|by left]]).
  destruct (IH b' b1 Hts Hb1) as (H4&_&_). split; [done|]. split; [done|]. apply Forall_cons. split; [|done].
  destruct H2 as [_ H2]. destruct (H2 (pos (length line) t.2)) as [->|[-> _]]; [|by left].
  unfold b1, cut. destruct (decide (pos (length line) t.2 < length b')%nat) as [Hlt|Hge].
  - left. by apply list_lookup_insert_eq.
  - right. rewrite list_insert_ge by lia. apply lookup_ge_None. lia.
Qed.

Lemma drop_head (b : list Z) i : drop i b = match b !! i with Some c => c :: drop (S i) b | None => [] end.
Proof.
  destruct (b !! i) as [c|] eqn:E; [by apply drop_S|]. apply drop_ge. by apply lookup_ge_None.
Qed.

Lemma nicked_word line b b' w eq : forall i,
  nicked line b b' -> (forall j c, line !! j = Some c -> b !! j = Some c /\ c <> 0) ->
  drop i line = w ++ eq -> Forall (fun c => wordchar c = true) w ->
  b' !! (i + length w)%nat = Some 0 \/ b' !! (i + length w)%nat = None ->
  cstring (drop i b') = w.
Proof.
  induction w as [|c w IH]; intros i Hn Hb Hd Hw Hend.
  - rewrite drop_head. cbn in Hend. rewrite Nat.add_0_r in Hend. by destruct Hend as [-> | ->].
  - apply Forall_cons in Hw as [Hc Hw]. assert (line !! i = Some c) as Hi.
    { rewrite drop_head in Hd. destruct (line !! i); [by injection Hd as -> _|done]. }
    destruct (Hb i c Hi) as [Hbi Hc0]. rewrite drop_head.
    destruct (proj2 Hn i) as [->|[_ Hdel]]; [rewrite Hbi; cbn; rewrite (proj2 (Z.eqb_neq c 0)) by done; f_equal|].
    + apply IH; try done; [|by rewrite Nat.add_succ_comm].
      erewrite drop_S in Hd by done. by injection Hd.
    + rewrite Hd in Hdel. cbn in Hdel. by rewrite Hc in Hdel.
Qed.

Lemma cstring_split buf : exists rest, buf = cstring buf ++ rest /\ (match rest with [] => True | c :: _ => c = 0 end) /\
  Forall (fun c => c <> 0) (cstring buf).
Proof.
  induction buf as [|c buf (r&E&Hr&Hf)]; [by exists []|]. cbn. destruct (Z.eqb_spec c 0) as [->|Hc].
  - by exists (0 :: buf).
  - exists r. split; [cbn; by rewrite <- E|]. split; [done|]. by apply Forall_cons.
Qed.

Lemma word_token t w : t.1 = w ++ t.2 -> word_of t = w.
Proof.
  intros E. unfold word_of. rewrite E, length_app. replace (_ - _)%nat with (length w) by lia.
  apply take_app_length.
Qed.

Lemma nulterminate_words buf c :
  let line := cstring buf in let b' := nulterminate (length line) c buf in
  tree_ok line c -> length b' = length buf /\
  Forall (fun t => cstring (drop (pos (length line) t.1) b') = word_of t /\ word_of t <> []) (tokens c).
Proof.
  intros line b' Hc. pose proof (tree_ok_tokens _ _ Hc) as Ht.
  assert (nicked line buf buf) as Hn0 by (split; [done|by left]).
  destruct (cuts_nicked line (tokens c) buf buf Ht Hn0) as (Hn&_&Hcut). rewrite <- nulterminate_tokens in Hn, Hcut.
  split; [apply Hn|]. apply Forall_forall. intros t Hin.
  rewrite Forall_forall in Ht, Hcut. destruct (Ht t Hin) as [(w&E&Hne&Hw&_) Hs]. specialize (Hcut t Hin).
  rewrite (word_token t w E). split; [|done].
  apply (nicked_word line buf b' w t.2); [done| |by rewrite suffix_drop|done|].
  - intros j x Hj. destruct (cstring_split buf) as (rest&Eb&_&Hf). split.
    + rewrite Eb. by apply lookup_app_l_Some.
    + apply (Forall_lookup_1 _ _ _ _ Hf Hj).
  - replace (pos (length line) t.1 + length w)%nat with (pos (length line) t.2); [done|].
    apply suffix_length in Hs. unfold pos. rewrite E in *. rewrite length_app in *. lia.
Qed.

(** C28: the parser terminates on every command line.  It rejects the line with
    an error message, or returns a command in which every [EXEC] has fewer than
    [MAXARGS] arguments, so its array holds them and the null pointer, and in
    which every argument and file name, read as a C string from the buffer
    after [nulterminate], is the nonempty word that was parsed. *)
Theorem parsecmd_safe buf :
  (exists msg, parsecmd buf = Panic msg) \/
  (exists c buf', parsecmd buf = Ok c buf' /\ length buf' = length buf /\ tree_ok (cstring buf) c /\
    Forall (fun t => cstring (drop (pos (length (cstring buf)) t.1) buf') = word_of t /\ word_of t <> []) (tokens c)).
Proof.
  unfold parsecmd. set (s := cstring buf).
  destruct (parsers_fine s (5 * length s + 5) s ltac:(reflexivity)) as [H _]. specialize (H ltac:(lia)).
  unfold fine in H. destruct (parseline _ s) as [c s'| | | |]; try done; [|by left; eexists].
  destruct H as [_ Hc]. destruct (skipws s') as [|x t]; [right|by left; eexists].
  destruct (nulterminate_words buf c Hc) as [Hl Hw]. by exists c, (nulterminate (length s) c buf).
Qed.

(** ** The grammar

    A line is a pipeline, any number of [&] and possibly [;] and a line; a
    pipeline is made of simple commands, words with redirections before,
    between and after them, and of lines in parentheses. *)

Inductive rop : Type := In | Out | Append.
Abbreviation redirs := (list (rop * list Z)).
Inductive gline : Type :=
  | GPipe (p : gpipe) (amps : nat)
  | GSeq (p : gpipe) (amps : nat) (l : gline)
with gpipe : Type :=
  | GExec (e : gexec)
  | GBar (e : gexec) (p : gpipe)
with gexec : Type :=
  | GWords (rs : redirs) (ws : list (list Z * redirs))
  | GBlock (l : gline) (rs : redirs).

(** The text of a line. *)
Definition show_op (o : rop) : list Z := match o with In => [60] | Out => [62] | Append => [62; 62] end.
Definition show_redirs (rs : redirs) : list Z := concat (map (fun r => show_op r.1 ++ r.2 ++ [32]) rs).
Definition show_args (ws : list (list Z * redirs)) : list Z :=
  concat (map (fun a => a.1 ++ [32] ++ show_redirs a.2) ws).
Fixpoint show_line (l : gline) : list Z :=
  match l with
  | GPipe p n => show_pipe p ++ replicate n 38
  | GSeq p n l => show_pipe p ++ replicate n 38 ++ [59] ++ show_line l
  end
with show_pipe (p : gpipe) : list Z :=
  match p with
  | GExec e => show_exec e
  | GBar e p => show_exec e ++ [124] ++ show_pipe p
  end
with show_exec (e : gexec) : list Z :=
  match e with
  | GWords rs ws => show_redirs rs ++ show_args ws
  | GBlock l rs => [40] ++ show_line l ++ [41] ++ show_redirs rs
  end.

(** The command a line stands for, with its strings. *)
Inductive tree : Type :=
  | TExec (argv : list (list Z))
  | TRedir (t : tree) (file : list Z) (mode fd : Z)
  | TPipe (left right : tree)
  | TList (left right : tree)
  | TBack (t : tree).

Definition tredir (t : tree) (r : rop * list Z) : tree :=
  match r.1 with
  | In => TRedir t r.2 O_RDONLY 0
  | Out | Append => TRedir t r.2 (Z.lor O_WRONLY O_CREATE) 1
  end.
Fixpoint mean_line (l : gline) : tree :=
  match l with
  | GPipe p n => Nat.iter n TBack (mean_pipe p)
  | GSeq p n l => TList (Nat.iter n TBack (mean_pipe p)) (mean_line l)
  end
with mean_pipe (p : gpipe) : tree :=
  match p with
  | GExec e => mean_exec e
  | GBar e p => TPipe (mean_exec e) (mean_pipe p)
  end
with mean_exec (e : gexec) : tree :=
  match e with
  | GWords rs ws => foldl tredir (TExec (map fst ws)) (rs ++ concat (map snd ws))
  | GBlock l rs => foldl tredir (mean_line l) rs
  end.

(** Words are nonempty, without delimiters and NUL; a simple command has fewer
    than [MAXARGS] of them. *)
Definition word_ok (w : list Z) : Prop := w <> [] /\ Forall (fun c => wordchar c = true /\ c <> 0) w.
Definition redirs_ok (rs : redirs) : Prop := Forall (fun r => word_ok r.2) rs.
Fixpoint line_ok (l : gline) : Prop :=
  match l with
  | GPipe p _ => pipe_ok p
  | GSeq p _ l => pipe_ok p /\ line_ok l
  end
with pipe_ok (p : gpipe) : Prop :=
  match p with
  | GExec e => exec_ok e
  | GBar e p => exec_ok e /\ pipe_ok p
  end
with exec_ok (e : gexec) : Prop :=
  match e with
  | GWords rs ws =>
      redirs_ok rs /\ Forall (fun a => word_ok a.1 /\ redirs_ok a.2) ws /\ (length ws < MAXARGS)%nat
  | GBlock l rs => line_ok l /\ redirs_ok rs
  end.

(** The tree of a parsed command. *)
Fixpoint tree_of (c : cmd) : tree :=
  match c with
  | EXEC argv => TExec (map word_of argv)
  | REDIR c f mode fd => TRedir (tree_of c) (word_of f) mode fd
  | PIPE l r => TPipe (tree_of l) (tree_of r)
  | LIST l r => TList (tree_of l) (tree_of r)
  | BACK c => TBack (tree_of c)
  end.

(** ** Sentences are parsed *)

Definition heads (toks s : list Z) : bool := match skipws s with [] => false | c :: _ => strchr toks c end.
Definition follow (toks s : list Z) : bool := match skipws s with [] => true | c :: _ => strchr toks c end.

Lemma peek_bind {A} toks (k : bool -> M (list Z) A) s : bind (peek toks) k s = k (heads toks s) (skipws s).
Proof. done. Qed.

Lemma gettoken_symbol s c s1 :
  skipws s = c :: s1 -> strchr [124; 40; 41; 59; 38; 60] c = true ->
  gettoken s = Ok (c, (c :: s1, s1)) (skipws s1).
Proof. intros E H. unfold gettoken. by rewrite E, H. Qed.

Lemma wordchar_skip c s : wordchar c = true -> skipws (c :: s) = c :: s.
Proof. unfold wordchar. cbn. by destruct (strchr whitespace c). Qed.

Lemma skipword_app w s : Forall (fun c => wordchar c = true) w -> delim s = true -> skipword (w ++ s) = s.
Proof.
  intros Hw Hs. induction Hw as [|c w Hc Hw IH]; cbn [skipword app].
  - destruct s as [|c s]; [done|]. cbn in *. fold (wordchar c). destruct (wordchar c); [done|done].
  - fold (wordchar c). by rewrite Hc.
Qed.

Lemma wordchar_symbols c toks :
  wordchar c = true -> (forall x, strchr toks x = true -> strchr symbols x = true) -> strchr toks c = false.
Proof.
  intros Hc Ht. destruct (strchr toks c) eqn:E; [|done]. apply Ht in E. unfold wordchar in Hc.
  rewrite E, andb_false_r in Hc. done.
Qed.

Lemma strchr_In toks x : strchr toks x = true <-> List.In x toks.
Proof.
  unfold strchr. rewrite existsb_exists. split; [intros (y&Hy&->%Z.eqb_eq); done|]. intros H. exists x.
  split; [done|]. apply Z.eqb_refl.
Qed.

Lemma gettoken_word w s :
  word_ok w -> delim s = true -> gettoken (w ++ s) = Ok (97, (w ++ s, s)) (skipws s).
Proof.
  intros [Hne Hw] Hs. destruct w as [|c w]; [done|]. apply Forall_cons in Hw as [[Hc _] Hw].
  unfold gettoken. rewrite <- app_comm_cons, (wordchar_skip c) by done.
  rewrite (wordchar_symbols c [124; 40; 41; 59; 38; 60]); [|done|intros x; rewrite !strchr_In; cbn; tauto].
  destruct (Z.eqb_spec c 62) as [->|]; [done|]. rewrite app_comm_cons, skipword_app; [done| |done].
  apply Forall_cons. split; [done|]. eapply Forall_impl; [done|]. by intros ? [? _].
Qed.

Lemma follow_heads toks toks' s :
  follow toks s = true -> (forall x, List.In x toks -> strchr toks' x = false) -> heads toks' s = false.
Proof. unfold follow, heads. destruct (skipws s) as [|c ?]; [done|]. rewrite strchr_In. auto. Qed.
Lemma follow_weaken toks toks' s :
  follow toks s = true -> (forall x, List.In x toks -> List.In x toks') -> follow toks' s = true.
Proof. unfold follow. destruct (skipws s) as [|c ?]; [done|]. rewrite !strchr_In. auto. Qed.
Lemma heads_ws toks s : heads toks (skipws s) = heads toks s.
Proof. unfold heads. by rewrite skipws_idem. Qed.
Lemma skipws_symbol c s : strchr symbols c = true -> skipws (c :: s) = c :: s.
Proof.
  intros H%strchr_In. cbn [skipws]. replace (strchr whitespace c) with false; [done|].
  cbn in H. by decompose [or] H; subst.
Qed.
Lemma heads_word toks w s :
  word_ok w -> (forall x, List.In x toks -> List.In x symbols) ->
  heads toks (w ++ s) = false /\ skipws (w ++ s) = w ++ s.
Proof.
  intros [Hne Hw] Ht. destruct w as [|c w]; [done|]. apply Forall_cons in Hw as [[Hc _] _].
  unfold heads. cbn [app]. rewrite (wordchar_skip c) by done. split; [|done].
  apply wordchar_symbols; [done|]. intros x. rewrite !strchr_In. auto.
Qed.

Definition op_code (o : rop) : Z := match o with In => 60 | Out => 62 | Append => 43 end.

Lemma gettoken_op o w s :
  word_ok w -> exists q, gettoken (show_op o ++ w ++ s) = Ok (op_code o, (q, w ++ s)) (w ++ s).
Proof.
  intros Hw. destruct (heads_word [] w s Hw) as [_ Es]; [done|]. destruct o; cbn [show_op app op_code].
  - eexists. erewrite gettoken_symbol; [|by apply skipws_symbol|done]. by rewrite Es.
  - exists (62 :: w ++ s). unfold gettoken. rewrite skipws_symbol by done. change (strchr _ 62) with false.
    cbv beta iota. rewrite Z.eqb_refl. destruct Hw as [Hne Hw]. destruct w as [|c w]; [done|].
    apply Forall_cons in Hw as [[Hc _] _]. cbn [app] in *. destruct (Z.eqb_spec c 62) as [->|]; [done|]. by rewrite Es.
  - eexists. unfold gettoken. rewrite skipws_symbol by done. change (strchr _ 62) with false.
    cbv beta iota. rewrite Z.eqb_refl. by rewrite Es.
Qed.

Lemma tree_redir o t c : tree_of (redir (op_code o) t c) = tredir (tree_of c) (o, word_of t).
Proof. by destruct o. Qed.

Lemma parseredirs_ws fuel c s : parseredirs fuel c (skipws s) = parseredirs fuel c s.
Proof. destruct fuel; [done|]. cbn [parseredirs]. by rewrite !peek_bind, heads_ws, skipws_idem. Qed.
Lemma parseargs_ws fuel argc c s : parseargs fuel argc c (skipws s) = parseargs fuel argc c s.
Proof. destruct fuel; [done|]. cbn [parseargs]. by rewrite !peek_bind, heads_ws, skipws_idem. Qed.
Lemma parsebacks_ws fuel c s : parsebacks fuel c (skipws s) = parsebacks fuel c s.
Proof. destruct fuel; [done|]. cbn [parsebacks]. by rewrite !peek_bind, heads_ws, skipws_idem. Qed.

Lemma parseexec_ws fuel s : parseexec fuel (skipws s) = parseexec fuel s.
Proof. destruct fuel; [done|]. cbn [parseexec]. by rewrite !peek_bind, heads_ws, skipws_idem. Qed.
Lemma parsepipe_ws fuel s : parsepipe fuel (skipws s) = parsepipe fuel s.
Proof. destruct fuel; [done|]. cbn [parsepipe]. unfold bind at 1 3. by rewrite parseexec_ws. Qed.
Lemma parseline_ws fuel s : parseline fuel (skipws s) = parseline fuel s.
Proof. destruct fuel; [done|]. cbn [parseline]. unfold bind at 1 4. by rewrite parsepipe_ws. Qed.

Lemma redirs_run rs : forall fuel c rest,
  redirs_ok rs -> heads [60; 62] rest = false -> (length (show_redirs rs ++ rest) < fuel)%nat ->
  exists c', parseredirs fuel c (show_redirs rs ++ rest) = Ok c' (skipws rest) /\
    tree_of c' = foldl tredir (tree_of c) rs.
Proof.
  induction rs as [|[o w] rs IH]; intros fuel c rest Hrs Hrest Hf; (destruct fuel as [|fuel]; [lia|]); cbn [parseredirs].
  { cbn [app show_redirs concat map]. rewrite peek_bind, Hrest. by exists c. }
  apply Forall_cons in Hrs as [Hw Hrs]. cbn [snd] in Hw.
  assert (show_redirs ((o, w) :: rs) ++ rest = show_op o ++ w ++ 32 :: show_redirs rs ++ rest) as E
    by (unfold show_redirs; cbn; by rewrite <- !app_assoc).
  rewrite E in Hf |- *. rewrite peek_bind.
  assert (heads [60; 62] (show_op o ++ w ++ 32 :: show_redirs rs ++ rest) = true) as -> by (destruct o; reflexivity).
  assert (skipws (show_op o ++ w ++ 32 :: show_redirs rs ++ rest) = show_op o ++ w ++ 32 :: show_redirs rs ++ rest)
    as -> by (destruct o; reflexivity).
  cbn [negb]. destruct (gettoken_op o w (32 :: show_redirs rs ++ rest) Hw) as [q Eg].
  rewrite (bind_Ok _ _ _ _ _ Eg), (bind_Ok _ _ _ _ _ (gettoken_word w (32 :: show_redirs rs ++ rest) Hw eq_refl)).
  cbn [fst snd]. change (97 =? 97) with true. change (97 =? 0) with false. cbn [negb]. change (skipws (32 :: show_redirs rs ++ rest)) with (skipws (show_redirs rs ++ rest)).
  rewrite parseredirs_ws.
  destruct (IH fuel (redir (op_code o) (w ++ 32 :: show_redirs rs ++ rest, 32 :: show_redirs rs ++ rest) c) rest Hrs Hrest)
    as (c'&->&Ht).
  { rewrite !length_app in *. cbn [length] in Hf. rewrite length_app in Hf. lia. }
  exists c'. split; [done|]. rewrite Ht, tree_redir. cbn [foldl]. by rewrite (word_token (_, _) w).
Qed.

(** Arguments in a tree. *)
Fixpoint tpush (t : tree) (w : list Z) : tree :=
  match t with
  | TExec argv => TExec (argv ++ [w])
  | TRedir t f mode fd => TRedir (tpush t w) f mode fd
  | _ => t
  end.
Definition targ (t : tree) (a : list Z * redirs) : tree := foldl tredir (tpush t a.1) a.2.

Lemma tree_push r t : tree_of (push_arg r t) = tpush (tree_of r) (word_of t).
Proof. induction r as [argv|r IH f mode fd| | |]; cbn; [by rewrite map_app|by rewrite IH|done..]. Qed.
Lemma tpush_redirs rs w : forall t, tpush (foldl tredir t rs) w = foldl tredir (tpush t w) rs.
Proof. induction rs as [|[[] f] rs IH]; intros t; cbn [foldl]; [done|by rewrite IH..]. Qed.
Lemma targs_words ws : forall us rs,
  foldl targ (foldl tredir (TExec us) rs) ws = foldl tredir (TExec (us ++ map fst ws)) (rs ++ concat (map snd ws)).
Proof.
  induction ws as [|[w rs'] ws IH]; intros us rs; cbn; [by rewrite !app_nil_r|].
  rewrite tpush_redirs. cbn. rewrite <- foldl_app, IH. by rewrite <- !app_assoc.
Qed.

(** Membership of the small sets of symbols. *)
Ltac symbols := cbn; intuition (subst; done).

Lemma args_no_redir ws rest :
  Forall (fun a => word_ok a.1 /\ redirs_ok a.2) ws -> follow [124; 38; 59; 41] rest = true ->
  heads [60; 62] (show_args ws ++ rest) = false.
Proof.
  intros Hws Hrest. destruct ws as [|[w' rs'] ws'].
  - apply (follow_heads _ _ _ Hrest). symbols.
  - apply Forall_cons in Hws as [[Hw' _] _]. unfold show_args. cbn. rewrite <- !app_assoc.
    apply heads_word; [done|]. symbols.
Qed.
Lemma args_run ws : forall fuel argc r rest,
  Forall (fun a => word_ok a.1 /\ redirs_ok a.2) ws -> (argc + length ws < MAXARGS)%nat ->
  follow [124; 38; 59; 41] rest = true -> (length (show_args ws ++ rest) < fuel)%nat ->
  exists c', parseargs fuel argc r (show_args ws ++ rest) = Ok c' (skipws rest) /\
    tree_of c' = foldl targ (tree_of r) ws.
Proof.
  induction ws as [|[w rs] ws IH]; intros fuel argc r rest Hws Hn Hrest Hf;
    (destruct fuel as [|fuel]; [lia|]); cbn [parseargs]; rewrite peek_bind.
  { cbn [show_args concat map app]. exists r. split; [|done]. unfold follow, heads in *.
    destruct (skipws rest) as [|c s] eqn:E; [done|]. apply strchr_In in Hrest.
    replace (strchr [124; 41; 38; 59] c) with true; [done|]. symmetry. apply strchr_In. cbn in *. tauto. }
  apply Forall_cons in Hws as [[Hw Hrs] Hws]. cbn [fst snd length] in *.
  assert (show_args ((w, rs) :: ws) ++ rest = w ++ 32 :: show_redirs rs ++ show_args ws ++ rest) as E
    by (unfold show_args; cbn; by rewrite <- !app_assoc).
  rewrite E in Hf |- *. rewrite length_app in Hf. cbn [length] in Hf.
  destruct (heads_word [124; 41; 38; 59] w (32 :: show_redirs rs ++ show_args ws ++ rest) Hw) as [-> ->].
  { cbn. tauto. }
  rewrite (bind_Ok _ _ _ _ _ (gettoken_word w (32 :: show_redirs rs ++ show_args ws ++ rest) Hw eq_refl)). cbn [fst snd]. change (97 =? 97) with true. change (97 =? 0) with false. cbn [negb].
  rewrite (proj2 (Nat.leb_gt MAXARGS (argc + 1))) by lia.
  change (skipws (32 :: show_redirs rs ++ show_args ws ++ rest)) with (skipws (show_redirs rs ++ show_args ws ++ rest)).
  assert (heads [60; 62] (show_args ws ++ rest) = false) as Hh by (by apply args_no_redir).
  set (r1 := push_arg r _). destruct (redirs_run rs fuel r1 (show_args ws ++ rest) Hrs Hh ltac:(lia)) as (c1&E1&Ht1).
  unfold bind at 1. rewrite parseredirs_ws, E1, parseargs_ws.
  destruct (IH fuel (argc + 1)%nat c1 rest Hws) as (c'&->&Ht); [lia|done|rewrite length_app in Hf; lia|].
  exists c'. split; [done|]. rewrite Ht, Ht1. unfold r1. rewrite tree_push. cbn [foldl]. unfold targ at 3.
  by rewrite (word_token (_, _) w).
Qed.

Lemma backs_run n : forall fuel c rest,
  heads [38] rest = false -> (length (replicate n (38 : Z) ++ rest) < fuel)%nat ->
  exists c', parsebacks fuel c (replicate n (38 : Z) ++ rest) = Ok c' (skipws rest) /\
    tree_of c' = Nat.iter n TBack (tree_of c).
Proof.
  induction n as [|n IH]; intros fuel c rest Hrest Hf; (destruct fuel as [|fuel]; [lia|]); cbn [parsebacks]; rewrite peek_bind.
  { cbn [replicate app]. rewrite Hrest. by exists c. }
  cbn [replicate app] in *. change (heads [38] (38 :: replicate n (38 : Z) ++ rest)) with true.
  rewrite skipws_symbol by done. cbn [negb]. rewrite (bind_Ok _ _ _ _ _ (gettoken_symbol _ _ _ (skipws_symbol 38 _ eq_refl) eq_refl)).
  rewrite parsebacks_ws. destruct (IH fuel (BACK c) rest Hrest) as (c'&->&Ht); [cbn in Hf; lia|].
  exists c'. split; [done|]. rewrite Ht. cbn [tree_of]. by rewrite <- Nat.iter_succ_r.
Qed.

Scheme gline_mut := Induction for gline Sort Prop
  with gpipe_mut := Induction for gpipe Sort Prop
  with gexec_mut := Induction for gexec Sort Prop.
Combined Scheme grammar_ind from gline_mut, gpipe_mut, gexec_mut.

Lemma follow_symbol toks c s : strchr symbols c = true -> follow toks (c :: s) = strchr toks c.
Proof. intros H. unfold follow. by rewrite skipws_symbol. Qed.
Lemma follow_amps toks n s : strchr toks 38 = true -> follow toks s = true -> follow toks (replicate n (38 : Z) ++ s) = true.
Proof. intros H Hs. destruct n as [|n]; [done|]. cbn [replicate app]. by rewrite follow_symbol. Qed.

(** A symbol that has been seen is taken. *)
Lemma take_symbol {A} (k : bool -> M (list Z) A) (m : M (list Z) A) toks c s :
  strchr [124; 40; 41; 59; 38; 60] c = true -> strchr toks c = true -> k true = (gettoken ;; m) ->
  bind (peek toks) k (c :: s) = m (skipws s).
Proof.
  intros Hc Ht Hk. assert (strchr symbols c = true) as Hs.
  { apply strchr_In in Hc. apply strchr_In. cbn in *. tauto. }
  rewrite peek_bind. unfold heads. rewrite skipws_symbol by done. rewrite Ht, Hk.
  by rewrite (bind_Ok _ _ _ _ _ (gettoken_symbol _ _ _ (skipws_symbol c s Hs) Hc)).
Qed.

Lemma words_no_block rs ws rest :
  redirs_ok rs -> Forall (fun a => word_ok a.1 /\ redirs_ok a.2) ws -> follow [124; 38; 59; 41] rest = true ->
  heads [40] (show_redirs rs ++ show_args ws ++ rest) = false.
Proof.
  intros Hrs Hws Hrest. destruct rs as [|[o w] rs]; [|by destruct o].
  cbn [show_redirs map concat app]. destruct ws as [|[w' rs'] ws'].
  - apply (follow_heads _ _ _ Hrest). symbols.
  - apply Forall_cons in Hws as [[Hw' _] _]. unfold show_args. cbn. rewrite <- !app_assoc.
    apply heads_word; [done|]. symbols.
Qed.

Lemma sentences_run :
  (forall l, line_ok l -> forall fuel rest, follow [41] rest = true ->
    (5 * length (show_line l ++ rest) + 4 <= fuel)%nat ->
    exists c, parseline fuel (show_line l ++ rest) = Ok c (skipws rest) /\ tree_of c = mean_line l) /\
  (forall p, pipe_ok p -> forall fuel rest, follow [38; 59; 41] rest = true ->
    (5 * length (show_pipe p ++ rest) + 3 <= fuel)%nat ->
    exists c, parsepipe fuel (show_pipe p ++ rest) = Ok c (skipws rest) /\ tree_of c = mean_pipe p) /\
  (forall e, exec_ok e -> forall fuel rest, follow [124; 38; 59; 41] rest = true ->
    (5 * length (show_exec e ++ rest) + 2 <= fuel)%nat ->
    exists c, parseexec fuel (show_exec e ++ rest) = Ok c (skipws rest) /\ tree_of c = mean_exec e).
Proof.
  apply grammar_ind.
  - intros p IHp n Hp fuel rest Hrest Hf. destruct fuel as [|fuel]; [lia|]. cbn [parseline show_line] in *.
    rewrite <- app_assoc in *. rewrite !length_app in Hf.
    destruct (IHp Hp fuel (replicate n (38 : Z) ++ rest)) as (c&E&Ht).
    { apply follow_amps; [done|]. apply (follow_weaken _ _ _ Hrest). symbols. }
    { rewrite !length_app. lia. }
    rewrite (bind_Ok _ _ _ _ _ E).
    destruct (backs_run n fuel c rest) as (c'&E'&Ht').
    { apply (follow_heads _ _ _ Hrest). symbols. }
    { rewrite length_app. lia. }
    unfold bind at 1. rewrite parsebacks_ws, E'. rewrite peek_bind, heads_ws, skipws_idem.
    rewrite (follow_heads [41] [59]) by (done || symbols). exists c'. split; [done|]. cbn. by rewrite Ht', Ht.
  - intros p IHp n l IHl [Hp Hl] fuel rest Hrest Hf. destruct fuel as [|fuel]; [lia|]. cbn [parseline show_line] in *.
    rewrite <- !app_assoc in *. rewrite !length_app in Hf. cbn [length] in Hf.
    destruct (IHp Hp fuel (replicate n (38 : Z) ++ 59 :: show_line l ++ rest)) as (c&E&Ht).
    { apply follow_amps; [done|]. by rewrite follow_symbol. }
    { rewrite !length_app. cbn [length]. rewrite length_app. lia. }
    cbn [app]. rewrite (bind_Ok _ _ _ _ _ E).
    destruct (backs_run n fuel c (59 :: show_line l ++ rest)) as (c'&E'&Ht').
    { unfold heads. by rewrite skipws_symbol. }
    { rewrite length_app. cbn [length]. rewrite length_app. lia. }
    unfold bind at 1. rewrite parsebacks_ws, E', skipws_symbol by done.
    rewrite (take_symbol _ (r <- parseline fuel ;; ret (LIST c' r)) [59] 59) by done.
    destruct (IHl Hl fuel rest Hrest) as (r&Er&Htr); [rewrite length_app; lia|].
    unfold bind at 1. rewrite parseline_ws, Er. eexists. split; [done|]. cbn. by rewrite Ht', Ht, Htr.
  - intros e IHe He fuel rest Hrest Hf. destruct fuel as [|fuel]; [lia|]. cbn [parsepipe show_pipe] in *.
    destruct (IHe He fuel rest) as (c&E&Ht); [apply (follow_weaken _ _ _ Hrest); symbols|lia|].
    rewrite (bind_Ok _ _ _ _ _ E), peek_bind, heads_ws, skipws_idem.
    rewrite (follow_heads [38; 59; 41] [124]) by (done || symbols). by exists c.
  - intros e IHe p IHp [He Hp] fuel rest Hrest Hf. destruct fuel as [|fuel]; [lia|]. cbn [parsepipe show_pipe] in *.
    rewrite <- !app_assoc in *. rewrite !length_app in Hf. cbn [length] in Hf. cbn [app].
    destruct (IHe He fuel (124 :: show_pipe p ++ rest)) as (c&E&Ht).
    { by rewrite follow_symbol. }
    { rewrite length_app. cbn [length]. rewrite length_app. lia. }
    rewrite (bind_Ok _ _ _ _ _ E), skipws_symbol by done.
    rewrite (take_symbol _ (r <- parsepipe fuel ;; ret (PIPE c r)) [124] 124) by done.
    destruct (IHp Hp fuel rest Hrest) as (r&Er&Htr); [rewrite length_app; lia|].
    unfold bind at 1. rewrite parsepipe_ws, Er. eexists. split; [done|]. cbn. by rewrite Ht, Htr.
  - intros rs ws (Hrs&Hws&Hn) fuel rest Hrest Hf. destruct fuel as [|fuel]; [lia|]. cbn [parseexec show_exec] in *.
    rewrite <- !app_assoc in *. set (s := show_redirs rs ++ show_args ws ++ rest) in *.
    rewrite peek_bind. unfold s. rewrite (words_no_block rs ws rest) by done. fold s.
    destruct (redirs_run rs fuel (EXEC []) (show_args ws ++ rest) Hrs) as (c&E&Ht).
    { by apply args_no_redir. }
    { unfold s in Hf. lia. }
    unfold bind at 1. rewrite parseredirs_ws. fold s in E. rewrite E, parseargs_ws.
    destruct (args_run ws fuel 0 c rest Hws Hn Hrest) as (c'&->&Ht').
    { unfold s in Hf. rewrite length_app in Hf. lia. }
    exists c'. split; [done|]. rewrite Ht', Ht. cbn [tree_of map mean_exec]. by rewrite targs_words.
  - intros l IHl rs [Hl Hrs] fuel rest Hrest Hf. destruct fuel as [|fuel]; [lia|]. cbn [parseexec show_exec] in *.
    rewrite <- !app_assoc in *. cbn [app] in *. rewrite peek_bind.
    unfold heads. rewrite skipws_symbol by done. change (strchr [40] 40) with true. cbv iota.
    cbn [length] in Hf. rewrite !length_app in Hf. cbn [length] in Hf. rewrite length_app in Hf.
    destruct fuel as [|fuel]; [lia|]. cbn [parseblock].
    rewrite (take_symbol _ (c <- parseline fuel ;; b <- peek [41] ;;
      if negb b then panic "syntax - missing )" else gettoken ;; parseredirs fuel c) [40] 40) by done.
    destruct (IHl Hl fuel (41 :: show_redirs rs ++ rest)) as (c&E&Ht).
    { by rewrite follow_symbol. }
    { rewrite length_app. cbn [length]. rewrite length_app. lia. }
    unfold bind at 1. rewrite parseline_ws, E, skipws_symbol by done.
    rewrite (take_symbol _ (parseredirs fuel c) [41] 41) by done. rewrite parseredirs_ws.
    destruct (redirs_run rs fuel c rest Hrs) as (c'&->&Ht').
    { apply (follow_heads _ _ _ Hrest). symbols. }
    { rewrite length_app. lia. }
    exists c'. split; [done|]. cbn. by rewrite Ht', Ht.
Qed.

(** ** The round trip *)

(** The command as [runcmd] sees it: its strings are read from the buffer. *)
Fixpoint read_tree (n : nat) (buf : list Z) (c : cmd) : tree :=
  let str t := cstring (drop (pos n t.1) buf) in
  match c with
  | EXEC argv => TExec (map str argv)
  | REDIR c f mode fd => TRedir (read_tree n buf c) (str f) mode fd
  | PIPE l r => TPipe (read_tree n buf l) (read_tree n buf r)
  | LIST l r => TList (read_tree n buf l) (read_tree n buf r)
  | BACK c => TBack (read_tree n buf c)
  end.

Lemma read_tree_words n buf c :
  Forall (fun t => cstring (drop (pos n t.1) buf) = word_of t /\ word_of t <> []) (tokens c) ->
  read_tree n buf c = tree_of c.
Proof.
  induction c as [argv|c IH f mode fd|l IHl r IHr|l IHl r IHr|c IH]; cbn; rewrite ?Forall_app; intros H.
  - f_equal. apply map_ext_in. intros t Hin%list_elem_of_In. rewrite Forall_forall in H. by apply H.
  - destruct H as [Hc Hf]. apply Forall_cons in Hf as [[-> _] _]. by rewrite IH.
  - by rewrite IHl, IHr by apply H.
  - by rewrite IHl, IHr by apply H.
  - by rewrite IH.
Qed.

Lemma cstring_app s junk : Forall (fun c => c <> 0) s -> cstring (s ++ 0 :: junk) = s.
Proof.
  intros H. induction H as [|c s Hc _ IH]; [done|]. cbn. rewrite (proj2 (Z.eqb_neq c 0)) by done. by rewrite IH.
Qed.

Lemma word_nonzero w : word_ok w -> Forall (fun c => c <> 0) w.
Proof. intros [_ H]. eapply Forall_impl; [done|]. by intros ? [_ ?]. Qed.
Lemma redirs_nonzero rs : redirs_ok rs -> Forall (fun c => c <> 0) (show_redirs rs).
Proof.
  intros H. unfold show_redirs. induction H as [|[o w] rs Hw _ IH]; [done|]. cbn [map concat].
  rewrite !Forall_app. split; [|done]. split; [by destruct o; repeat constructor|].
  split; [by apply word_nonzero|]. by repeat constructor.
Qed.
Lemma sentences_nonzero :
  (forall l, line_ok l -> Forall (fun c => c <> 0) (show_line l)) /\
  (forall p, pipe_ok p -> Forall (fun c => c <> 0) (show_pipe p)) /\
  (forall e, exec_ok e -> Forall (fun c => c <> 0) (show_exec e)).
Proof.
  assert (forall n, Forall (fun c => c <> 0) (replicate n (38 : Z))) as Ha by (intros n; by apply Forall_replicate).
  apply grammar_ind; cbn [show_line show_pipe show_exec line_ok pipe_ok exec_ok].
  - intros p IHp n Hp. rewrite Forall_app. auto.
  - intros p IHp n l IHl [??]. rewrite !Forall_app. split; [auto|]. split; [done|]. split; [by repeat constructor|auto].
  - auto.
  - intros e IHe p IHp [??]. rewrite !Forall_app. split; [auto|]. split; [by repeat constructor|auto].
  - intros rs ws (?&Hws&_). rewrite Forall_app. split; [by apply redirs_nonzero|].
    unfold show_args. induction Hws as [|[w rs'] ws [Hw Hr] _ IH]; [done|]. cbn [map concat].
    rewrite !Forall_app. split; [|done]. split; [by apply word_nonzero|].
    split; [by repeat constructor|by apply redirs_nonzero].
  - intros l IHl rs [??]. rewrite !Forall_app. split; [by repeat constructor|]. split; [auto|].
    split; [by repeat constructor|by apply redirs_nonzero].
Qed.

(** ** Witness *)
Definition bytes (s : string) : list Z :=
  map (fun a => Z.of_nat (Ascii.nat_of_ascii a)) (String.list_ascii_of_string s).

(** [ls -l |(wc >x ); echo &] *)
Definition demo_line : gline :=
  GSeq (GBar (GWords [] [(bytes "ls", []); (bytes "-l", [])])
             (GExec (GBlock (GPipe (GExec (GWords [] [(bytes "wc", [(Out, bytes "x")])])) 0) []))) 0
    (GPipe (GExec (GWords [] [(bytes "echo", [])])) 1).

Lemma word_ok_b w :
  negb (bool_decide (w = [])) && forallb (fun c => wordchar c && negb (c =? 0)) w = true -> word_ok w.
Proof.
  intros [H1%negb_true_iff%bool_decide_eq_false H2]%andb_true_iff. split; [done|].
  rewrite forallb_forall in H2. apply Forall_forall. intros c Hc%list_elem_of_In.
  by destruct (proj1 (andb_true_iff _ _) (H2 c Hc)) as [? ?%negb_true_iff%Z.eqb_neq].
Qed.

End Sh.
