(* ===== verification/Shrun.v ===== *)
(** * Running commands (xv6-public/sh.c: runcmd)

    What a process of the shell does is a tree of system calls: [fork] has a
    branch for the child and one for the parent, calls that can fail a branch
    for that.  The descriptors of a process are a table in which [open], [pipe]
    and [dup] take the lowest free slots.  [runcmd] is shown to give every
    command exactly the descriptors its place in the command line calls for. *)

From S2P Require Import Prelude Fcntl Sh.

Module Shrun.
Import Sh.

Inductive act : Type :=
  | Exit
  | Exec (argv : list (list Z)) (failed : act)
  | Close (fd : nat) (k : act)
  | Open (file : list Z) (mode : Z) (k failed : act)
  | Fork (child parent : act)
  | Wait (k : act)
  | Pipe (k : nat -> nat -> act) (failed : act)
  | Dup (fd : nat) (k : act)
  | Printf (msg : string) (k : act).

(** [runcmd] never returns: it ends in [exit].  [fork] succeeds. *)
Fixpoint runcmd (c : tree) : act :=
  match c with
  | TExec [] => Exit
  | TExec argv => Exec argv (Printf "exec failed" Exit)
  | TRedir c file mode fd =>
      Close (Z.to_nat fd) (Open file mode (runcmd c) (Printf "open failed" Exit))
  | TList l r => Fork (runcmd l) (Wait (runcmd r))
  | TPipe l r =>
      Pipe (fun p0 p1 =>
        Fork (Close 1 (Dup p1 (Close p0 (Close p1 (runcmd l)))))
       (Fork (Close 0 (Dup p0 (Close p0 (Close p1 (runcmd r)))))
       (Close p0 (Close p1 (Wait (Wait Exit))))))
        (Printf "pipe" Exit)
  | TBack c => Fork (runcmd c) Exit
  end.

(** ** Descriptors *)

Inductive obj : Type := Console | File (name : list Z) (mode : Z) | PipeR (n : nat) | PipeW (n : nat).
Abbreviation fdtable := (list (option obj)).
(** A program started with its table, a shell that waits with its own. *)
Inductive event : Type := Started (argv : list (list Z)) (t : fdtable) | Waits (t : fdtable).

#[global] Instance is_none_dec (x : option obj) : Decision (x = None).
Proof. destruct x; [right|left]; done. Defined.
Definition fdalloc (t : fdtable) : option nat := fst <$> list_find (fun x => x = None) t.

Section run.
(** Which files can be opened. *)
Variable opens : list Z -> Z -> bool.

(** The events of a process and of the children it forks; [n] counts the
    pipes. *)
Fixpoint run (a : act) (t : fdtable) (n : nat) : list event * nat :=
  match a with
  | Exit => ([], n)
  | Exec argv k => ([Started argv t], n)
  | Close fd k => run k (<[fd := None]> t) n
  | Open file mode k failed =>
      match fdalloc t with
      | Some fd => if opens file mode then run k (<[fd := Some (File file mode)]> t) n else run failed t n
      | None => run failed t n
      end
  | Fork child parent =>
      let '(e1, n1) := run child t n in
      let '(e2, n2) := run parent t n1 in (e1 ++ e2, n2)
  | Wait k => let '(e, n) := run k t n in (Waits t :: e, n)
  | Pipe k failed =>
      match fdalloc t with
      | Some p0 =>
          let t1 := <[p0 := Some (PipeR n)]> t in
          match fdalloc t1 with
          | Some p1 => run (k p0 p1) (<[p1 := Some (PipeW n)]> t1) (S n)
          | None => run failed t n
          end
      | None => run failed t n
      end
  | Dup fd k =>
      match t !! fd, fdalloc t with
      | Some (Some o), Some fd' => run k (<[fd' := Some o]> t) n
      | _, _ => run k t n
      end
  | Printf _ k => run k t n
  end.

(** What the command line calls for. *)
Fixpoint meaning (c : tree) (t : fdtable) (n : nat) : list event * nat :=
  match c with
  | TExec [] => ([], n)
  | TExec argv => ([Started argv t], n)
  | TRedir c file mode fd =>
      if opens file mode then meaning c (<[Z.to_nat fd := Some (File file mode)]> t) n else ([], n)
  | TList l r =>
      let '(e1, n1) := meaning l t n in
      let '(e2, n2) := meaning r t n1 in (e1 ++ Waits t :: e2, n2)
  | TPipe l r =>
      let '(e1, n1) := meaning l (<[1%nat := Some (PipeW n)]> t) (S n) in
      let '(e2, n2) := meaning r (<[0%nat := Some (PipeR n)]> t) n1 in (e1 ++ e2 ++ [Waits t; Waits t], n2)
  | TBack c => meaning c t n
  end.

(** Redirections are of standard input and output. *)
Fixpoint std (c : tree) : Prop :=
  match c with
  | TExec _ => True
  | TRedir c _ _ fd => (fd = 0 \/ fd = 1) /\ std c
  | TList l r | TPipe l r => std l /\ std r
  | TBack c => std c
  end.
(** Standard input and output are open, and two descriptors are free. *)
Definition ready (t : fdtable) : Prop :=
  (exists a, t !! 0%nat = Some (Some a)) /\ (exists b, t !! 1%nat = Some (Some b)) /\
  exists p q, p <> q /\ t !! p = Some None /\ t !! q = Some None.

Lemma fdalloc_spec t i :
  t !! i = Some None -> (forall j, (j < i)%nat -> exists o, t !! j = Some (Some o)) -> fdalloc t = Some i.
Proof.
  intros Hi Hlt. unfold fdalloc.
  assert (list_find (fun x => x = None) t = Some (i, None)) as ->; [|done].
  apply list_find_Some. split; [done|]. split; [done|]. intros j y Hj Hji ->.
  destruct (Hlt j Hji) as [o E]. congruence.
Qed.
Lemma fdalloc_free t p : t !! p = Some None -> exists i, fdalloc t = Some i /\ t !! i = Some None.
Proof.
  intros Hp. unfold fdalloc. destruct (list_find (fun x => x = None) t) as [[i x]|] eqn:E.
  - apply list_find_Some in E as (Hi&->&_). by exists i.
  - apply list_find_None in E. rewrite Forall_lookup in E. by destruct (E p None Hp).
Qed.

Lemma ready_insert t i o : ready t -> i = 0%nat \/ i = 1%nat -> ready (<[i := Some o]> t).
Proof.
  intros ((a&Ha)&(b&Hb)&p&q&Hpq&Hp&Hq) Hi.
  assert (p <> i /\ q <> i) as [Hpi Hqi] by (destruct Hi as [-> | ->]; split; congruence).
  assert (i < length t)%nat as Hlt by (destruct Hi as [-> | ->]; by eapply lookup_lt_Some).
  assert (forall j, (exists x, t !! j = Some (Some x)) -> exists x, <[i := Some o]> t !! j = Some (Some x)) as Hk.
  { intros j [x Hx]. destruct (decide (i = j)) as [->|]; [exists o; by apply list_lookup_insert_eq|].
    exists x. by rewrite list_lookup_insert_ne. }
  split; [by apply Hk; exists a|]. split; [by apply Hk; exists b|].
  exists p, q. split; [done|]. by rewrite !list_lookup_insert_ne.
Qed.

(** [close(fd)] and [open] of a standard descriptor. *)
Lemma reopen t i o o' :
  ready t -> i = 0%nat \/ i = 1%nat -> t !! i = Some (Some o') ->
  fdalloc (<[i := None]> t) = Some i /\ <[i := Some o]> (<[i := None]> t) = <[i := Some o]> t.
Proof.
  intros ((a&Ha)&_) Hi Ho. assert (i < length t)%nat as Hlt by (by eapply lookup_lt_Some).
  split; [|apply list_insert_insert_eq]. apply fdalloc_spec; [by apply list_lookup_insert_eq|].
  intros j Hj. destruct Hi as [-> | ->]; [lia|]. assert (j = 0%nat) as -> by lia. exists a.
  by rewrite list_lookup_insert_ne.
Qed.

(** A child of a pipeline: [close(i); dup(q); close(p0); close(p1)]. *)
Lemma plug t p0 p1 r w i q o :
  ready t -> i = 0%nat \/ i = 1%nat -> p0 <> p1 -> t !! p0 = Some None -> t !! p1 = Some None ->
  let t2 := <[p1 := Some w]> (<[p0 := Some r]> t) in
  t2 !! q = Some (Some o) -> q = p0 \/ q = p1 -> forall k n,
  run (Close i (Dup q (Close p0 (Close p1 k)))) t2 n = run k (<[i := Some o]> t) n.
Proof.
  intros Hr Hi Hp H0 H1 t2 Hq Hqp k n. cbn [run].
  assert (exists x, t !! i = Some (Some x)) as [x Hx] by (destruct Hr as (?&?&_); by destruct Hi as [-> | ->]).
  assert (p0 <> i /\ p1 <> i) as [Hi0 Hi1] by (split; congruence).
  assert (p0 < length t /\ p1 < length t /\ i < length t)%nat as (L0&L1&Li) by (repeat split; by eapply lookup_lt_Some).
  rewrite list_lookup_insert_ne by (by destruct Hqp as [-> | ->]; auto). rewrite Hq.
  assert (fdalloc (<[i := None]> t2) = Some i) as ->.
  { apply fdalloc_spec; [apply list_lookup_insert_eq; unfold t2; by rewrite !length_insert|].
    intros j Hj. destruct Hi as [-> | ->]; [lia|]. assert (j = 0%nat) as -> by lia.
    destruct Hr as ((a&Ha)&_). exists a. unfold t2.
    rewrite !list_lookup_insert_ne; [done|congruence|congruence|done]. }
  f_equal. apply list_eq. intros j. unfold t2.
  destruct (decide (j = p1)) as [->|]; [rewrite list_lookup_insert_eq by (rewrite !length_insert; done);
    by rewrite list_lookup_insert_ne, H1|]. rewrite (list_lookup_insert_ne _ p1) by done.
  destruct (decide (j = p0)) as [->|]; [rewrite list_lookup_insert_eq by (rewrite !length_insert; done);
    by rewrite list_lookup_insert_ne, H0|]. rewrite (list_lookup_insert_ne _ p0) by done.
  destruct (decide (j = i)) as [->|]; [rewrite !list_lookup_insert_eq by (rewrite ?length_insert; done); done|].
  by rewrite !list_lookup_insert_ne.
Qed.

(** C29: the shell runs a command line as it reads: every program is started
    with the descriptors of the shell, but for the redirections and the ends of
    the pipes between which it stands; no descriptor of a pipe is left open in
    any other program or in a shell that waits, so a reader sees the end of its
    input when its writer exits. *)
Theorem runcmd_correct c : forall t n,
  std c -> ready t -> run (runcmd c) t n = meaning c t n.
Proof.
  induction c as [argv|c IH file mode fd|l IHl r IHr|l IHl r IHr|c IH]; intros t n Hs Hr.
  - by destruct argv.
  - destruct Hs as [Hfd Hs]. cbn [runcmd run meaning]. set (i := Z.to_nat fd).
    assert (i = 0%nat \/ i = 1%nat) as Hi by (unfold i; destruct Hfd as [-> | ->]; [left|right]; done).
    assert (exists x, t !! i = Some (Some x)) as [x Hx] by (destruct Hr as (?&?&_); by destruct Hi as [-> | ->]).
    destruct (reopen t i (File file mode) x Hr Hi Hx) as [-> ->].
    destruct (opens file mode); [|done]. apply IH; [done|]. by apply ready_insert.
  - destruct Hs as [Hl Hr']. cbn [runcmd run meaning].
    destruct Hr as (H0&H1&p&q&Hpq&Hp&Hq). destruct (fdalloc_free t p Hp) as (p0&->&Hp0).
    assert (exists p', p' <> p0 /\ t !! p' = Some None) as (p'&Hp'&Hn').
    { destruct (decide (p = p0)) as [->|]; [by exists q|by exists p]. }
    destruct (fdalloc_free (<[p0 := Some (PipeR n)]> t) p') as (p1&->&Hp1).
    { by rewrite list_lookup_insert_ne. }
    assert (p0 <> p1) as Hne.
    { intros <-. rewrite list_lookup_insert_eq in Hp1 by (by eapply lookup_lt_Some). done. }
    rewrite list_lookup_insert_ne in Hp1 by done.
    assert (ready t) as Hr by (split; [done|]; split; [done|]; by exists p, q).
    assert (p0 < length t /\ p1 < length t)%nat as [L0 L1] by (split; by eapply lookup_lt_Some).
    set (t2 := <[p1 := Some (PipeW n)]> (<[p0 := Some (PipeR n)]> t)).
    pose proof (plug t p0 p1 (PipeR n) (PipeW n) 1 p1 (PipeW n) Hr ltac:(by right) Hne Hp0 Hp1
      ltac:(apply list_lookup_insert_eq; by rewrite length_insert) ltac:(by right) (runcmd l) (S n)) as El.
    assert (t2 !! p0 = Some (Some (PipeR n))) as Hq0
      by (unfold t2; rewrite list_lookup_insert_ne by done; by apply list_lookup_insert_eq).
    pose proof (plug t p0 p1 (PipeR n) (PipeW n) 0 p0 (PipeR n) Hr ltac:(by left) Hne Hp0 Hp1 Hq0 ltac:(by left) (runcmd r)) as Er.
    fold t2 in El, Er. cbn [run] in El, Er. rewrite El, IHl by (done || (apply ready_insert; auto)).
    destruct (meaning l _ _) as [e1 n1]. rewrite Er, IHr by (done || (apply ready_insert; auto)).
    destruct (meaning r _ _) as [e2 n2].
    assert (<[p1:=None]> (<[p0:=None]> t2) = t) as ->; [|done].
    apply list_eq. intros j. unfold t2.
    destruct (decide (j = p1)) as [->|]; [by rewrite list_lookup_insert_eq by (rewrite !length_insert; done)|].
    rewrite (list_lookup_insert_ne _ p1) by done.
    destruct (decide (j = p0)) as [->|]; [by rewrite list_lookup_insert_eq by (rewrite !length_insert; done)|].
    by rewrite !list_lookup_insert_ne.
  - destruct Hs as [Hl Hr']. cbn [runcmd run meaning]. rewrite IHl by done.
    destruct (meaning l t n) as [e1 n1]. rewrite IHr by done. by destruct (meaning r t n1).
  - cbn [runcmd run meaning]. rewrite IH by done. destruct (meaning c t n). by rewrite app_nil_r.
Qed.
End run.

(** [cat <f | wc >g] from a shell with three descriptors. *)
Lemma runcmd_correct_witness :
  let t := [Some Console; Some Console; Some Console; None; None] in
  run (fun _ _ => true) (runcmd (TPipe (TRedir (TExec [bytes "cat"]) (bytes "f") O_RDONLY 0)
        (TRedir (TExec [bytes "wc"]) (bytes "g") 0x201 1))) t 0 =
    ([Started [bytes "cat"] [Some (File (bytes "f") 0); Some (PipeW 0); Some Console; None; None];
      Started [bytes "wc"] [Some (PipeR 0); Some (File (bytes "g") 0x201); Some Console; None; None];
      Waits t; Waits t], 1%nat).
Proof.
  apply (runcmd_correct (fun _ _ => true) (TPipe (TRedir (TExec [bytes "cat"]) (bytes "f") O_RDONLY 0)
    (TRedir (TExec [bytes "wc"]) (bytes "g") 0x201 1))).
  - cbn. auto.
  - split; [by exists Console|]. split; [by exists Console|]. by exists 3%nat, 4%nat.
Defined.
End Shrun.
