(* ===== verification/Shmain.v ===== *)
(** * The loop of the shell (xv6-public/sh.c: getcmd, main)

    [buf], the line of [main], is a memory of 100 bytes.  A turn of the loop reads
    a line into it and either changes the directory or forks a child that parses
    and runs it; the trace of these jobs is the result.  The prompt and the
    message of a failed [chdir] are left out. *)

From S2P Require Import Prelude Str Ulib Fcntl Sh Shrun.

Module Shmain.
Import Str Sh.
#[local] Existing Instance Ulib.eta_uio.
#[local] Existing Instance Ulib.set_io_mem.

Abbreviation nbuf := 100 (only parsing).

Definition getcmd : M Ulib.uio Z :=
  zoom Ulib.io_mem (Ulib.memset 0 0 nbuf) ;;
  Ulib.gets 0 nbuf ;;
  c <- zoom Ulib.io_mem (load 0) ;;
  ret (if c =? 0 then -1 else 0).

(** [chdir(buf+3)], or [fork1] and, in the child, [runcmd(parsecmd(buf))]. *)
Inductive job : Type := Chdir (dir : list Z) | Run (buf : list Z).

Definition is_cd (buf : list Z) : bool :=
  match buf with
  | a :: b :: c :: _ => (a =? 99) && (b =? 100) && (c =? 32)
  | _ => false
  end.

Definition next_job : M Ulib.uio job :=
  m <- gets Ulib.io_mem ;;
  if is_cd m then
    n <- zoom Ulib.io_mem (Ulib.strlen 0) ;;
    zoom Ulib.io_mem (store (n - 1) 0) ;;
    m <- gets Ulib.io_mem ;;
    ret (Chdir (cstring (drop 3 m)))
  else ret (Run m).

(** A turn takes a byte of the input at least. *)
Fixpoint main_loop (fuel : nat) : M Ulib.uio (list job) :=
  match fuel with
  | O => spin
  | S fuel' =>
      r <- getcmd ;;
      if r <? 0 then ret [] else
      j <- next_job ;;
      js <- main_loop fuel' ;;
      ret (j :: js)
  end.
Definition main : M Ulib.uio (list job) := fun s => main_loop (S (length (Ulib.io_in s))) s.

(** [while((fd = open("console", O_RDWR)) >= 0)]: the console is there. *)
Fixpoint ensure_open (fuel : nat) (t : list (option Shrun.obj)) : list (option Shrun.obj) :=
  match fuel with
  | O => t
  | S fuel' =>
      match Shrun.fdalloc t with
      | None => t
      | Some fd => if 3 <=? Z.of_nat fd then t else ensure_open fuel' (<[fd := Some Shrun.Console]> t)
      end
  end.

(** ** Lines *)

(** The input in pieces of at most 99 bytes that end with a line. *)
Fixpoint pieces (fuel : nat) (l : list Z) : list (list Z) :=
  match fuel, l with
  | S fuel', _ :: _ => let x := Ulib.line_of 99 l in x :: pieces fuel' (drop (length x) l)
  | _, _ => []
  end.
Definition does (x : list Z) (j : job) : Prop :=
  match j with
  | Chdir d => is_cd x = true /\ d = removelast (drop 3 x)
  | Run b => is_cd x = false /\ cstring b = x
  end.

Lemma cstr_cstring m l : forall a, cstr m (Z.of_nat a) l -> cstring (drop a m) = l.
Proof.
  induction l as [|c l IH]; intros a H.
  - pose proof (cstr_nil _ _ H) as E. unfold rd in E. rewrite zlookup_nat in E. by rewrite (drop_S _ _ _ E).
  - destruct (cstr_cons _ _ _ _ H) as (E & Hc & H'). unfold rd in E. rewrite zlookup_nat in E. rewrite (drop_S _ _ _ E).
    cbn [cstring]. rewrite (proj2 (Z.eqb_neq c 0) Hc), IH; [done|]. by replace (Z.of_nat (S a)) with (Z.of_nat a + 1) by lia.
Qed.

Lemma is_cd_cstring m : is_cd (cstring m) = is_cd m.
Proof.
  destruct m as [|a [|b [|c m]]]; cbn [cstring].
  - done.
  - by destruct (a =? 0).
  - destruct (a =? 0); [done|]. by destruct (b =? 0).
  - destruct (Z.eqb_spec a 0) as [->|]; [done|]. destruct (Z.eqb_spec b 0) as [->|]; [cbn [is_cd]; by rewrite andb_false_r|].
    destruct (Z.eqb_spec c 0) as [->|]; [cbn [is_cd]; by rewrite andb_false_r|done].
Qed.

(** The string without its last byte. *)
Lemma cstr_chop m m' a x : 0 <= a -> cstr m a x -> x <> [] ->
  (forall b, rd m' b = if b =? a + Z.of_nat (length x) - 1 then Some 0 else rd m b) -> cstr m' a (removelast x).
Proof.
  revert a. induction x as [|c x IH]; intros a Ha H Hne Hm; [done|]. destruct (cstr_cons _ _ _ _ H) as (E & Hc & H').
  destruct x as [|d x].
  - cbn [removelast]. split; [intros i v Hi; done|]. rewrite Hm. cbn [length]. rewrite (proj2 (Z.eqb_eq _ _)); [done|lia].
  - change (removelast (c :: d :: x)) with (c :: removelast (d :: x)). apply cstr_intro; [|done|].
    + rewrite Hm. cbn [length]. rewrite (proj2 (Z.eqb_neq _ _)); [done|lia].
    + apply IH; [lia|done|done|]. intros b. rewrite Hm. cbn [length]. by replace (a + 1 + Z.of_nat (S (length x)) - 1) with (a + Z.of_nat (S (S (length x))) - 1) by lia.
Qed.
(** ** The turns of the loop *)

Lemma ustrlen_run m l : forall a n fuel, (length l < fuel)%nat -> cstr m (a + n) l ->
  Ulib.strlen_loop fuel a n m = Ok (n + Z.of_nat (length l)) m.
Proof.
  induction l as [|c l IH]; intros a n [|fuel] Hf H; cbn [length] in *; try lia; cbn [Ulib.strlen_loop].
  - rewrite (bind_Ok _ _ _ _ _ (load_run _ _ _ (cstr_nil _ _ H))). unfold ret. cbn. f_equal. lia.
  - destruct (cstr_cons _ _ _ _ H) as (E & Hc & H'). rewrite (bind_Ok _ _ _ _ _ (load_run _ _ _ E)).
    rewrite (proj2 (Z.eqb_neq c 0) Hc), (IH a (n + 1) fuel) by (lia || by rewrite Z.add_assoc). f_equal. lia.
Qed.

Lemma line_of_nonzero n l : Forall (fun c => 0 < c < 256) l -> Forall (fun c => 0 < c < 256) (Ulib.line_of n l).
Proof. intros H. rewrite Forall_forall in *. intros c Hc. by apply H, (Ulib.line_of_elem n). Qed.

Lemma getcmd_run m l (x := Ulib.line_of 99 l) : Forall (fun c => 0 < c < 256) l -> msize m = nbuf ->
  exists m', getcmd (Ulib.mkUio m l) = Ok (match l with [] => -1 | _ => 0 end) (Ulib.mkUio m' (drop (length x) l)) /\
    cstr m' 0 x /\ msize m' = nbuf.
Proof.
  intros Hl Hm. unfold getcmd, Ulib.memset.
  destruct (stosb_run (Z.to_nat nbuf) m 0 0 ltac:(lia)) as (m1 & E1 & L1 & _); [lia|].
  assert (zoom Ulib.io_mem (stosb 0 0 (Z.to_nat nbuf) ;; ret 0) (Ulib.mkUio m l) = Ok 0 (Ulib.mkUio m1 l)) as Ez.
  { unfold zoom. cbn [Ulib.io_mem]. by rewrite (bind_Ok _ _ _ _ _ E1). }
  rewrite (bind_Ok _ _ _ _ _ Ez).
  destruct (Ulib.gets_correct m1 l 0 nbuf Hl ltac:(lia) eq_refl ltac:(unfold msize in *; lia)) as (m2 & E2 & Hs & Hu & _).
  change (Z.to_nat (nbuf - 1)) with 99%nat in E2, Hs. fold x in E2, Hs. rewrite (bind_Ok _ _ _ _ _ E2).
  assert (exists c, rd m2 0 = Some c /\ (if c =? 0 then -1 else 0) = match l with [] => -1 | _ => 0 end) as (c & Ec & Hc).
  { destruct l as [|c l].
    - exists 0. split; [by apply cstr_nil|done].
    - destruct (cstr_cons _ _ _ _ Hs) as (E & Hc & _). exists c. split; [done|]. by rewrite (proj2 (Z.eqb_neq c 0) Hc). }
  assert (zoom Ulib.io_mem (load 0) (Ulib.mkUio m2 (drop (length x) l)) = Ok c (Ulib.mkUio m2 (drop (length x) l))) as Ez2.
  { unfold zoom. cbn [Ulib.io_mem]. by rewrite (load_run _ _ _ Ec). }
  rewrite (bind_Ok _ _ _ _ _ Ez2). exists m2. unfold ret. rewrite Hc. split_and!; [done|done|]. unfold msize in *. lia.
Qed.

Lemma cd_argument m m2 x : cstr m 0 x -> is_cd x = true ->
  (forall b, rd m2 b = if b =? Z.of_nat (length x) - 1 then Some (u8 0) else rd m b) -> cstr m2 3 (removelast (drop 3 x)).
Proof.
  intros Hs Hcd H2. destruct x as [|a [|b [|c x]]]; try done. cbn [drop].
  destruct (cstr_cons _ _ _ _ Hs) as (_ & _ & H1). destruct (cstr_cons _ _ _ _ H1) as (_ & _ & H3).
  destruct (cstr_cons _ _ _ _ H3) as (_ & _ & H4). change (0 + 1 + 1 + 1) with 3 in H4. cbn [length] in H2.
  destruct x as [|d x].
  - split; [intros i v Hi; done|]. rewrite H2. by apply cstr_nil in H4.
  - apply (cstr_chop m m2 3 (d :: x)); [lia|done|done|]. intros e. rewrite H2. cbn [length].
    by replace (3 + Z.of_nat (S (length x)) - 1) with (Z.of_nat (S (S (S (S (length x))))) - 1) by lia.
Qed.

Lemma line_of_prefix n : forall l, Ulib.line_of n l ++ drop (length (Ulib.line_of n l)) l = l.
Proof.
  induction n as [|n IH]; intros [|c l]; cbn [Ulib.line_of]; try done.
  destruct ((c =? Ulib.NL) || (c =? Ulib.CR)); [done|]. cbn [length drop app]. by rewrite IH.
Qed.
Lemma pieces_concat fuel : forall l, (length l < fuel)%nat -> concat (pieces fuel l) = l.
Proof.
  induction fuel as [|fuel IH]; intros [|c l] Hf; cbn [pieces]; try done; [lia|].
  set (x := Ulib.line_of 99 (c :: l)). assert (0 < length x)%nat by (unfold x; cbn; lia).
  cbn [concat]. rewrite IH; [apply line_of_prefix|]. rewrite length_drop. cbn [length] in *. lia.
Qed.

Lemma next_job_run m l x : cstr m 0 x -> x <> [] -> msize m = nbuf ->
  exists j m', next_job (Ulib.mkUio m l) = Ok j (Ulib.mkUio m' l) /\ does x j /\ msize m' = nbuf.
Proof.
  intros Hs Hx Hm. pose proof (cstr_cstring m x 0 Hs) as Ec. rewrite drop_0 in Ec.
  unfold next_job. mstep. cbn [Ulib.io_mem]. rewrite <- is_cd_cstring, Ec. destruct (is_cd x) eqn:Hcd.
  - pose proof (cstr_size m 0 x ltac:(lia) Hs) as Hsz. set (n := Z.of_nat (length x)) in *.
    assert (zoom Ulib.io_mem (Ulib.strlen 0) (Ulib.mkUio m l) = Ok n (Ulib.mkUio m l)) as E1.
    { unfold zoom, Ulib.strlen. cbn [Ulib.io_mem]. rewrite (ustrlen_run m x 0 0); [done|unfold msize in *; lia|done]. }
    rewrite (bind_Ok _ _ _ _ _ E1). destruct (store_run m (n - 1) 0) as (m2 & R2 & L2 & H2); [destruct x; [done|cbn in n; lia]|].
    assert (zoom Ulib.io_mem (store (n - 1) 0) (Ulib.mkUio m l) = Ok tt (Ulib.mkUio m2 l)) as E2.
    { unfold zoom. cbn [Ulib.io_mem]. by rewrite R2. }
    rewrite (bind_Ok _ _ _ _ _ E2). mstep. cbn [Ulib.io_mem]. eexists _, m2. split; [reflexivity|]. split; [|unfold msize in *; lia].
    split; [done|]. apply (cstr_cstring m2 _ 3). by apply (cd_argument m m2 x).
  - eexists _, m. split; [reflexivity|]. by split.
Qed.

Lemma main_loop_run fuel : forall m l, Forall (fun c => 0 < c < 256) l -> msize m = nbuf -> (length l < fuel)%nat ->
  exists js m', main_loop fuel (Ulib.mkUio m l) = Ok js (Ulib.mkUio m' []) /\ Forall2 does (pieces fuel l) js.
Proof.
  induction fuel as [|fuel IH]; intros m l Hl Hm Hf; [lia|]. cbn [main_loop].
  destruct (getcmd_run m l Hl Hm) as (m1 & E1 & Hs & Hm1). rewrite (bind_Ok _ _ _ _ _ E1). destruct l as [|c l].
  { exists [], m1. split; [done|]. constructor. }
  set (x := Ulib.line_of 99 (c :: l)) in *. assert (x <> []) as Hx by done. change (0 <? 0) with false. cbv iota.
  destruct (next_job_run m1 (drop (length x) (c :: l)) x Hs Hx Hm1) as (j & m2 & E2 & Hj & Hm2). rewrite (bind_Ok _ _ _ _ _ E2).
  assert (0 < length x)%nat by (destruct x; [done|cbn; lia]).
  destruct (IH m2 (drop (length x) (c :: l))) as (js & m3 & E3 & Hjs).
  - by apply Forall_drop.
  - done.
  - rewrite length_drop. cbn [length] in *. lia.
  - rewrite (bind_Ok _ _ _ _ _ E3). exists (j :: js), m3. split; [done|]. cbn [pieces]. fold x. by constructor.
Qed.


Definition session : list Z := [99; 100; 32; 47; 10; 108; 115; 10].

(** The jobs of a session: [cd /] and [ls]. *)
Example session_jobs : match main (Ulib.mkUio (replicate 100 0) session) with
  | Ok [Chdir d; Run b] _ => d = [47] /\ cstring b = [108; 115; 10]
  | _ => False
  end.
Proof. vm_compute. done. Qed.

(** A line of 120 bytes is executed as two commands. *)
Example long_line_split : map (length (A := Z)) (pieces 200 (replicate 119 97 ++ [10])) = [99; 21]%nat.
Proof. vm_compute. reflexivity. Qed.

(** ** The descriptors of the shell *)

Lemma ensure_open_step t fuel fd : Shrun.fdalloc t = Some fd -> (3 <=? Z.of_nat fd) = false ->
  ensure_open (S fuel) t = ensure_open fuel (<[fd := Some Shrun.Console]> t).
Proof. intros E H. cbn [ensure_open]. by rewrite E, H. Qed.
Lemma ensure_open_done x y z t fuel :
  ensure_open fuel (Some x :: Some y :: Some z :: t) = Some x :: Some y :: Some z :: t.
Proof.
  destruct fuel as [|fuel]; [done|]. cbn [ensure_open]. unfold Shrun.fdalloc. cbn [list_find].
  do 3 (rewrite decide_False by done). destruct (list_find _ t) as [[i o]|]; cbn; [|done].
  by rewrite (proj2 (Z.leb_le _ _)) by lia.
Qed.

(** Descriptors 0, 1 and 2 are open before the first command, the others are as they were. *)
Lemma ensure_open_three a b c t :
  let t' := ensure_open 4 (a :: b :: c :: t) in drop 3 t' = t /\ Forall is_Some (take 3 t').
Proof.
  assert (exists x y z, ensure_open 4 (a :: b :: c :: t) = Some x :: Some y :: Some z :: t) as (x & y & z & E).
  { destruct a as [a|], b as [b|], c as [c|]; eexists _, _, _; repeat (apply ensure_open_done || (etransitivity; [eapply ensure_open_step; reflexivity|cbn [insert list_insert]])). }
  cbv zeta. rewrite E. split; [done|]. repeat constructor; done.
Qed.
End Shmain.
