(* ===== verification/Wc.v ===== *)
(** * Counting lines, words and bytes (xv6-public/wc.c)

    The input arrives in the pieces that [read] returns; a negative result of
    [read] ends the program.  [int] counters wrap. *)

From S2P Require Import Prelude.

Module Wc.

Record counts := mkCounts { n_l : Z; n_w : Z; n_c : Z; inword : bool }.

(** A blank, a carriage return, a tab, a newline or a vertical tab: [strchr] of [ulib.c]. *)
Definition separator (b : Z) : bool := existsb (Z.eqb b) [32; 13; 9; 10; 11].

(** The body of the inner loop. *)
Definition count_byte (s : counts) (b : Z) : counts :=
  let c := i32 (n_c s + 1) in
  let l := if b =? 10 then i32 (n_l s + 1) else n_l s in
  if separator b then mkCounts l (n_w s) c false
  else if negb (inword s) then mkCounts l (i32 (n_w s + 1)) c true
  else mkCounts l (n_w s) c true.

(** The loop over the results of [read]: a piece, the end, or an error; [None] is the
    message and the exit. *)
Inductive got : Type := Piece (buf : list Z) | Error.
Fixpoint wc_loop (s : counts) (reads : list got) : option counts :=
  match reads with
  | [] => Some s
  | Error :: _ => None
  | Piece [] :: _ => Some s
  | Piece buf :: reads' => wc_loop (foldl count_byte s buf) reads'
  end.
Definition wc (reads : list got) : option (Z * Z * Z) :=
  match wc_loop (mkCounts 0 0 0 false) reads with
  | Some s => Some (n_l s, n_w s, n_c s)
  | None => None
  end.

(** ** Words *)

(** The maximal runs of bytes that are no separators. *)
Fixpoint words (cur : list Z) (l : list Z) : list (list Z) :=
  match l with
  | [] => match cur with [] => [] | _ => [rev cur] end
  | b :: l' =>
      if separator b then match cur with [] => words [] l' | _ => rev cur :: words [] l' end
      else words (b :: cur) l'
  end.
Definition newlines (l : list Z) : nat := length (filter (fun b => b = 10) l).

Definition open_word (cur : list Z) : bool := match cur with [] => false | _ => true end.
Definition small (s : counts) : Prop := 0 <= n_l s <= n_c s /\ 0 <= n_w s <= n_c s.

Lemma count_run l : forall s cur, inword s = open_word cur -> small s -> n_c s + Z.of_nat (length l) < 2 ^ 31 ->
  let s' := foldl count_byte s l in
  n_c s' = n_c s + Z.of_nat (length l) /\ n_l s' = n_l s + Z.of_nat (newlines l) /\
  n_w s' + (if open_word cur then 1 else 0) = n_w s + Z.of_nat (length (words cur l)).
Proof.
  induction l as [|b l IH]; intros s cur Hin Hs Hl; cbv zeta.
  { cbn. split_and!; [lia|lia|]. destruct cur; cbn; lia. }
  cbn [foldl length] in *. destruct Hs as [H1 H2]. assert (i32 (n_c s + 1) = n_c s + 1) as Ec by (apply i32_small; lia).
  assert (Z.of_nat (newlines (b :: l)) = (if b =? 10 then 1 else 0) + Z.of_nat (newlines l)) as En.
  { unfold newlines. rewrite filter_cons. destruct (Z.eqb_spec b 10); [rewrite decide_True by done; cbn [length]; lia|by rewrite decide_False]. }
  set (s1 := count_byte s b).
  assert (n_c s1 = n_c s + 1 /\ n_l s1 = n_l s + (if b =? 10 then 1 else 0) /\
    n_w s1 = n_w s + (if negb (separator b) && negb (inword s) then 1 else 0) /\ inword s1 = negb (separator b)) as (E1 & E2 & E3 & E4).
  { unfold s1, count_byte. rewrite Ec. destruct (b =? 10), (separator b), (inword s); cbn [n_c n_l n_w inword negb andb];
      rewrite ?i32_small by lia; split_and!; lia || done. }
  assert (small s1) as Hs1 by (unfold small; destruct (b =? 10), (negb (separator b) && negb (inword s)); lia).
  destruct (IH s1 (if separator b then [] else b :: cur)) as (F1 & F2 & F3); [by destruct (separator b)|done|lia|].
  rewrite F1, F2, E1, E2, En. split; [lia|]. split; [lia|]. rewrite E3, Hin in F3. cbn [words].
  destruct (separator b), cur; cbn in *; lia.
Qed.

Lemma wc_pieces ps : forall s, Forall (fun p => p <> []) ps ->
  wc_loop s (map Piece ps ++ [Piece []]) = Some (foldl count_byte s (concat ps)).
Proof.
  induction ps as [|p ps IH]; intros s H; [done|]. apply Forall_cons in H as [Hp H].
  cbn [map app concat wc_loop]. rewrite foldl_app. destruct p; [done|]. by apply IH.
Qed.

(** [wc] counts the lines, the words and the bytes of its input, however [read] cuts it: a
    word across two pieces counts once. *)
Theorem wc_correct ps : Forall (fun p => p <> []) ps -> Z.of_nat (length (concat ps)) < 2 ^ 31 ->
  wc (map Piece ps ++ [Piece []]) =
    Some (Z.of_nat (newlines (concat ps)), Z.of_nat (length (words [] (concat ps))), Z.of_nat (length (concat ps))).
Proof.
  intros Hp Hl. unfold wc. rewrite wc_pieces by done.
  destruct (count_run (concat ps) (mkCounts 0 0 0 false) []) as (E1 & E2 & E3); [done|by split; cbn|cbn; lia|].
  cbn in E3. rewrite E1, E2. cbn. do 3 f_equal. lia.
Qed.

Example wc_cut : wc [Piece [97; 98]; Piece [99; 32; 100; 10]; Piece []] = Some (1, 2, 6).
Proof. vm_compute. reflexivity. Qed.
End Wc.
