(* ===== verification/File.v ===== *)
(** * Files (xv6-public/file.c, pipe.c: pipealloc)

    The table of open files over the file system and the pipes.  A file is an
    index into [ftable.file], an inode an index into the inode cache, a pipe the
    address of its page, which the page allocator supplies.  Sections under
    [ftable.lock] are one step. *)

From S2P Require Import Prelude Spinlock Bytes Bufcache Log Txdisk Fs Pipes Kalloc.

Module File.
Import Fs.

Abbreviation NFILE := 100%nat (only parsing).

Inductive fdtype : Type := FD_NONE | FD_PIPE | FD_INODE.
#[global] Instance fdtype_eq_dec : EqDecision fdtype.
Proof. solve_decision. Defined.

Record file := mkFile {
  fl_type : fdtype;
  fl_ref : Z;
  fl_readable : bool;
  fl_writable : bool;
  fl_pipe : Z;
  fl_ip : nat;
  fl_off : Z
}.
#[export] Instance eta_file : Eta file := fun r =>
  mkFile (fl_type r) (fl_ref r) (fl_readable r) (fl_writable r) (fl_pipe r) (fl_ip r) (fl_off r).
#[export] Instance set_fl_type : Setter fl_type.
Proof. build_setter. Defined.
#[export] Instance set_fl_ref : Setter fl_ref.
Proof. build_setter. Defined.
#[export] Instance set_fl_readable : Setter fl_readable.
Proof. build_setter. Defined.
#[export] Instance set_fl_writable : Setter fl_writable.
Proof. build_setter. Defined.
#[export] Instance set_fl_pipe : Setter fl_pipe.
Proof. build_setter. Defined.
#[export] Instance set_fl_ip : Setter fl_ip.
Proof. build_setter. Defined.
#[export] Instance set_fl_off : Setter fl_off.
Proof. build_setter. Defined.

(** The file system, the open files, the pipes by address, memory,
    [myproc()->killed] and the channels woken. *)
Record sysst (B : Type) := mkSys {
  y_fs : fsst (Log.logst B);
  y_files : list file;
  y_pipes : gmap Z Pipe.pipe;
  y_mem : memst;
  y_killed : bool;
  y_wakes : list channel
}.
Arguments mkSys {B}. Arguments y_fs {B}. Arguments y_files {B}. Arguments y_pipes {B}.
Arguments y_mem {B}. Arguments y_killed {B}. Arguments y_wakes {B}.
#[export] Instance eta_sysst {B} : Eta (sysst B) := fun r =>
  mkSys (y_fs r) (y_files r) (y_pipes r) (y_mem r) (y_killed r) (y_wakes r).
#[export] Instance set_y_fs {B} : Setter (@y_fs B).
Proof. build_setter. Defined.
#[export] Instance set_y_files {B} : Setter (@y_files B).
Proof. build_setter. Defined.
#[export] Instance set_y_pipes {B} : Setter (@y_pipes B).
Proof. build_setter. Defined.
#[export] Instance set_y_mem {B} : Setter (@y_mem B).
Proof. build_setter. Defined.
#[export] Instance set_y_wakes {B} : Setter (@y_wakes B).
Proof. build_setter. Defined.

Section file.
Context {B : Type} `{BufCache B}.
Variable sw : devsw (T:=Log.logst B).
(** The symbol [end] of the linker script. *)
Variable kend : Z.
Abbreviation Y := (sysst B).
Abbreviation F := (fsst (Log.logst B)).

Definition fs {A} (m : M F A) : M Y A := zoom y_fs m.
Definition begin_op : M Y unit := fs (zoom f_disk Log.begin_op).
Definition end_op : M Y unit := fs (zoom f_disk Log.end_op).

Definition getf (f : nat) : M Y file := l <- gets y_files ;; deref (l !! f).
Definition setf (f : nat) (g : file -> file) : M Y unit :=
  getf f ;; modify (fun s => s <| y_files ::= alter g f |>).

(** A null pointer is a failure. *)
Definition kalloc : M Y (option Z) :=
  p <- zoom y_mem Kalloc.kalloc ;;
  ret (if p =? 0 then None else Some p).
Definition kfree (p : Z) : M Y unit := zoom y_mem (Kalloc.kfree kend p).

(** A routine of pipe.c on the pipe at [p]; its page goes to [kfree] when the
    routine says so. *)
Definition with_pipe {A} (p : Z) (m : M Pipe.world A) : M Y A :=
  l <- gets y_pipes ;;
  pp <- deref (l !! p) ;;
  killed <- gets y_killed ;;
  wakes <- gets y_wakes ;;
  match m (Pipe.mkWorld pp killed wakes false) with
  | Ok a w =>
      modify (fun s => s <| y_wakes := Pipe.w_wakes w |>) ;;
      (if Pipe.w_freed w then modify (fun s => s <| y_pipes ::= delete p |>) ;; kfree p
       else modify (fun s => s <| y_pipes ::= <[p := Pipe.w_pipe w]> |>)) ;;
      ret a
  | Sleep c _ => sleepon c
  | Panic msg => panic msg
  | Fault => fault
  | Spin => spin
  end.

(** ** file.c *)

Definition filealloc : M Y (option nat) :=
  forR (seq 0 NFILE) (fun f =>
    x <- getf f ;;
    if fl_ref x =? 0 then setf f (fun x => x <| fl_ref := 1 |>) ;; ret (Some f) else ret None).

Definition filedup (f : nat) : M Y nat :=
  x <- getf f ;;
  if fl_ref x <? 1 then panic "filedup" else
  setf f (fun x => x <| fl_ref ::= Z.add 1 |>) ;;
  ret f.

Definition fileclose (f : nat) : M Y unit :=
  x <- getf f ;;
  if fl_ref x <? 1 then panic "fileclose" else
  setf f (fun x => x <| fl_ref ::= Z.add (-1) |>) ;;
  ff <- getf f ;;
  if 0 <? fl_ref ff then ret tt else
  setf f (fun x => x <| fl_ref := 0 |>) ;;
  setf f (fun x => x <| fl_type := FD_NONE |>) ;;
  match fl_type ff with
  | FD_PIPE => with_pipe (fl_pipe ff) (Pipe.pipeclose (fl_pipe ff) (fl_writable ff))
  | FD_INODE => begin_op ;; fs (iput (fl_ip ff)) ;; end_op
  | FD_NONE => ret tt
  end.

(** The metadata, or -1. *)
Definition filestat (f : nat) : M Y (option stat) :=
  x <- getf f ;;
  match fl_type x with
  | FD_INODE =>
      fs (ilock (fl_ip x)) ;;
      st <- fs (stati (fl_ip x)) ;;
      fs (iunlock (fl_ip x)) ;;
      ret (Some st)
  | _ => ret None
  end.

(** [Pipe.RSleep] and [Pipe.WSleep] are a process asleep in pipe.c. *)
Definition fileread (f : nat) (n : Z) : M Y Pipe.rres :=
  x <- getf f ;;
  if negb (fl_readable x) then ret (Pipe.RDone (-1) []) else
  match fl_type x with
  | FD_PIPE => with_pipe (fl_pipe x) (Pipe.piperead (fl_pipe x) n)
  | FD_INODE =>
      fs (ilock (fl_ip x)) ;;
      x <- getf f ;;
      r <- fs (readi sw (fl_ip x) (fl_off x) n) ;;
      when (0 <? r.1) (setf f (fun x => x <| fl_off := u32 (fl_off x + r.1) |>)) ;;
      fs (iunlock (fl_ip x)) ;;
      ret (Pipe.RDone r.1 r.2)
  | FD_NONE => panic "fileread"
  end.

Definition maxwrite : Z := (Log.MAXOPBLOCKS - 1 - 3 - 4) / 2 * 512.

(** The loop of [filewrite]; the result is [i].  Every turn writes a byte. *)
Fixpoint filewrite_loop (fuel : nat) (f : nat) (addr : list Z) (i n : Z) : M Y Z :=
  if negb (i <? n) then ret i else
  match fuel with
  | O => spin
  | S fuel' =>
      let n1 := Z.min (n - i) maxwrite in
      begin_op ;;
      x <- getf f ;;
      fs (ilock (fl_ip x)) ;;
      x <- getf f ;;
      r <- fs (writei sw (fl_ip x) (slice (Z.to_nat i) (Z.to_nat n1) addr) (fl_off x)) ;;
      when (0 <? r) (setf f (fun x => x <| fl_off := u32 (fl_off x + r) |>)) ;;
      fs (iunlock (fl_ip x)) ;;
      end_op ;;
      if r <? 0 then ret i else
      if negb (r =? n1) then panic "short filewrite" else
      filewrite_loop fuel' f addr (i + r) n
  end.

Definition filewrite (f : nat) (addr : list Z) (n : Z) : M Y Pipe.wres :=
  x <- getf f ;;
  if negb (fl_writable x) then ret (Pipe.WDone (-1)) else
  match fl_type x with
  | FD_PIPE => with_pipe (fl_pipe x) (Pipe.pipewrite (fl_pipe x) addr n)
  | FD_INODE =>
      i <- filewrite_loop (Z.to_nat n) f addr 0 n ;;
      ret (Pipe.WDone (if i =? n then n else -1))
  | FD_NONE => panic "filewrite"
  end.

(** ** pipealloc *)

(** The exit [bad]: [p], if it was allocated, and the files are given back. *)
Definition pipealloc_bad (f0 f1 : option nat) (p : option Z) : M Y (option (nat * nat)) :=
  match p with Some p => kfree p | None => ret tt end ;;
  match f0 with Some f => fileclose f | None => ret tt end ;;
  match f1 with Some f => fileclose f | None => ret tt end ;;
  ret None.

(** The page of a new pipe holds bytes of no meaning, here zeros. *)
Definition pipealloc : M Y (option (nat * nat)) :=
  f0 <- filealloc ;;
  match f0 with
  | None => pipealloc_bad None None None
  | Some f0 =>
      f1 <- filealloc ;;
      match f1 with
      | None => pipealloc_bad (Some f0) None None
      | Some f1 =>
          p <- kalloc ;;
          match p with
          | None => pipealloc_bad (Some f0) (Some f1) None
          | Some p =>
              modify (fun s => s <| y_pipes ::= <[p := Pipe.pipe_init (replicate (Z.to_nat Pipe.PIPESIZE) 0)]> |>) ;;
              setf f0 (fun x => x <| fl_type := FD_PIPE |> <| fl_readable := true |>
                                  <| fl_writable := false |> <| fl_pipe := p |>) ;;
              setf f1 (fun x => x <| fl_type := FD_PIPE |> <| fl_readable := false |>
                                  <| fl_writable := true |> <| fl_pipe := p |>) ;;
              ret (Some (f0, f1))
          end
      end
  end.
End file.
End File.
