(* ===== verification/Kenv.v ===== *)
(** * The kernel put together

    Memory (Kalloc.v, Vm.v), files, pipes and the file system (File.v, Fs.v,
    Log.v) provide what proc.c relies on: an instance of [KernelEnv].  Over it
    the kernel state is [kernel (sysst B)] for a buffer cache [B].  The kernel
    reaches user memory through the page directory of the process. *)

From S2P Require Import Prelude Spinlock Bytes Bufcache Log Txdisk Fs Pipes Kalloc Vm File Procdef.

Module Kenv.
Import File.

(** Symbols of the linker script and of the assembly files, the program
    [initcode] and the devices. *)
Record layout (B : Type) := mkLayout {
  l_end : Z;
  l_data : Z;
  l_forkret : Z;
  l_trapret : Z;
  l_kpgdir : Z;          (* [kpgdir], made by [kvmalloc] at boot *)
  l_initcode : list Z;
  l_sw : Fs.devsw (T:=Log.logst B)
}.
Arguments mkLayout {B}. Arguments l_end {B}. Arguments l_data {B}. Arguments l_forkret {B}.
Arguments l_trapret {B}. Arguments l_kpgdir {B}. Arguments l_initcode {B}. Arguments l_sw {B}.

Definition bytes_of (s : string) : list Z :=
  map (fun a => Z.of_nat (Ascii.nat_of_ascii a)) (String.list_ascii_of_string s).

(** A page of memory by virtual address: the kernel maps physical memory from
    [KERNBASE] on, user pages go through the page directory [d]. *)
Definition page_of (s : memst) (d va : Z) : option Z :=
  if KERNBASE <=? va then Some (PGROUNDDOWN va)
  else if Vm.mapped s d (va / Kalloc.PGSIZE) then Some (Vm.frame s d (va / Kalloc.PGSIZE)) else None.

(** A byte at a virtual address; an address that is not mapped faults. *)
Definition load8 (d va : Z) : M memst Z :=
  s <- gets id ;;
  p <- deref (page_of s d va) ;;
  ret (byte_at (m_page s p) (Z.to_nat (va mod Kalloc.PGSIZE))).
Definition store8 (d va v : Z) : M memst unit :=
  s <- gets id ;;
  p <- deref (page_of s d va) ;;
  modify (fun s => s <| m_page ::= fun f => fset f p (put8 (Z.to_nat (va mod Kalloc.PGSIZE)) v (f p)) |>).

(** [n] bytes from [va] up, and a little-endian word. *)
Fixpoint load_bytes (d va : Z) (n : nat) : M memst (list Z) :=
  match n with
  | O => ret []
  | S n' => b <- load8 d va ;; l <- load_bytes d (va + 1) n' ;; ret (b :: l)
  end.
Fixpoint store_bytes (d va : Z) (l : list Z) : M memst unit :=
  match l with
  | [] => ret tt
  | b :: l' => store8 d va b ;; store_bytes d (va + 1) l'
  end.
Definition load_word (d va : Z) : M memst Z := l <- load_bytes d va 4 ;; ret (get32 l 0).
Definition store_word (d va v : Z) : M memst unit := store_bytes d va (put32 0 v [0; 0; 0; 0]).

Section env.
Context {B : Type} `{BufCache B}.
Variable lay : layout B.
Abbreviation Y := (sysst B).

Definition mem {A} (m : M memst A) : M Y A := zoom y_mem m.

(** The task state segment is not part of the model; [lcr3] takes the virtual
    address of the directory. *)
#[local, refine] Instance sys_env : KernelEnv Y := {|
  Procdef.kalloc := mem Kalloc.kalloc;
  Procdef.kfree p := mem (Kalloc.kfree (l_end lay) p);
  Procdef.setupkvm := mem (Vm.setupkvm (l_end lay) (l_data lay));
  Procdef.inituvm d := mem (Vm.inituvm d (l_initcode lay));
  Procdef.copyuvm2 d sz := mem (Vm.copyuvm2 (l_end lay) (l_data lay) d sz);
  Procdef.allocuvm d o n := mem (Vm.allocuvm (l_end lay) d o n);
  Procdef.deallocuvm d o n := mem (Vm.deallocuvm (l_end lay) d o n);
  Procdef.freevm d := mem (Vm.freevm (l_end lay) d);
  Procdef.clearpteu d a := mem (Vm.clearpteu d a);
  Procdef.store32 a v := mem (d <- gets m_cr3 ;; store_word (P2V d) a v);
  Procdef.filedup f := File.filedup f ;; ret tt;
  Procdef.fileclose f := File.fileclose (l_end lay) f;
  Procdef.idup i := fs (Fs.idup i) ;; ret tt;
  Procdef.iput i := fs (Fs.iput i);
  Procdef.forkret := l_forkret lay;
  Procdef.trapret := l_trapret lay;
  Procdef.begin_op := File.begin_op;
  Procdef.end_op := File.end_op;
  Procdef.namei s := fs (Fs.namei (l_sw lay) (bytes_of s));
  Procdef.load_tss _ := ret tt;
  Procdef.lcr3 d := mem (modify (fun s => s <| m_cr3 := V2P d |>));
  Procdef.kpgdir := l_kpgdir lay
|}.
Defined.
End env.
End Kenv.
