(* ===== verification/Syscall.v ===== *)
(** * System call arguments and dispatch (xv6-public/syscall.c, syscall.h)

    Arguments lie on the user's stack.  What a process passes is checked
    against the size of its address space, which the threads of a process share
    with the highest master. *)

From S2P Require Import Prelude Spinlock Bytes Bufcache Log Fs Kalloc Vm File Procdef Mlfq Sched Kenv.

Module Syscall.
Import File Kenv.

Section args.
Context {B : Type} `{BufCache B}.
Abbreviation K := (kernel (sysst B)).

(** The running process; the kernel runs on its page directory. *)
Definition curproc : M K nat := o <- myproc ;; deref o.
Definition umem {A} (m : M memst A) : M K A := env (mem m).

(** [if(curproc->master) curproc->sz = get_highest_master(curproc)->sz]. *)
Definition share_sz : M K unit :=
  me <- curproc ;;
  p <- getproc me ;;
  when (bool_decide (is_Some (master p)))
    (h <- get_highest_master me ;;
     hm <- getproc h ;;
     setproc me (fun p => p <| sz := sz hm |>)).

(** The value, or -1. *)
Definition fetchint (addr : Z) : M K (option Z) :=
  share_sz ;;
  me <- curproc ;;
  p <- getproc me ;;
  if (sz p <=? addr) || (sz p <? u32 (addr + 4)) then ret None else
  v <- umem (load_word (pgdir p) addr) ;;
  ret (Some (i32 v)).

(** The bytes from [s] on, up to a zero before [ep]. *)
Fixpoint scan_str (fuel : nat) (d s ep : Z) : M K (option (list Z)) :=
  if negb (s <? ep) then ret None else
  match fuel with
  | O => spin
  | S fuel' =>
      c <- umem (load8 d s) ;;
      if c =? 0 then ret (Some []) else
      r <- scan_str fuel' d (s + 1) ep ;;
      ret (match r with Some l => Some (c :: l) | None => None end)
  end.
(** The string, whose length is the result, or -1. *)
Definition fetchstr (addr : Z) : M K (option (list Z)) :=
  share_sz ;;
  me <- curproc ;;
  p <- getproc me ;;
  if sz p <=? addr then ret None else
  scan_str (Z.to_nat (sz p - addr)) (pgdir p) addr (sz p).

Definition argint (n : Z) : M K (option Z) :=
  me <- curproc ;;
  p <- getproc me ;;
  fetchint (u32 (esp (tf p) + 4 + 4 * n)).

Definition argptr (n size : Z) : M K (option Z) :=
  share_sz ;;
  r <- argint n ;;
  match r with
  | None => ret None
  | Some i =>
      me <- curproc ;;
      p <- getproc me ;;
      if (size <? 0) || (sz p <=? u32 i) || (sz p <? u32 (u32 i + size)) then ret None
      else ret (Some (u32 i))
  end.

Definition argstr (n : Z) : M K (option (list Z)) :=
  r <- argint n ;;
  match r with
  | None => ret None
  | Some addr => fetchstr (u32 addr)
  end.

(** ** Dispatch *)

Inductive sysname : Type :=
  | sys_fork | sys_exit | sys_wait | sys_pipe | sys_read | sys_kill | sys_exec | sys_fstat
  | sys_chdir | sys_dup | sys_getpid | sys_sbrk | sys_sleep | sys_uptime | sys_open | sys_write
  | sys_mknod | sys_unlink | sys_link | sys_mkdir | sys_close | sys_my_syscall | sys_getppid
  | sys_yield | sys_cpu_share | sys_run_MLFQ | sys_getlev | sys_thread_create | sys_thread_exit
  | sys_thread_join | sys_sync | sys_get_log_num.

(** The table, from number 1 on; number 0 has no entry. *)
Definition syscalls : list sysname :=
  [sys_fork; sys_exit; sys_wait; sys_pipe; sys_read; sys_kill; sys_exec; sys_fstat;
   sys_chdir; sys_dup; sys_getpid; sys_sbrk; sys_sleep; sys_uptime; sys_open; sys_write;
   sys_mknod; sys_unlink; sys_link; sys_mkdir; sys_close; sys_my_syscall; sys_getppid;
   sys_yield; sys_cpu_share; sys_run_MLFQ; sys_getlev; sys_thread_create; sys_thread_exit;
   sys_thread_join; sys_sync; sys_get_log_num].
Definition lookup_call (num : Z) : option sysname :=
  if (0 <? num) && (num <? Z.of_nat (length syscalls) + 1) then syscalls !! Z.to_nat (num - 1) else None.

(** [handler] stands for the routines of sysproc.c and sysfile.c. *)
Definition syscall (handler : sysname -> M K Z) : M K unit :=
  me <- curproc ;;
  p <- getproc me ;;
  match lookup_call (i32 (eax (tf p))) with
  | Some c =>
      r <- handler c ;;
      setproc me (fun p => p <| tf ::= fun t => t <| eax := u32 r |> |>)
  | None => setproc me (fun p => p <| tf ::= fun t => t <| eax := u32 (-1) |> |>)
  end.

(** ** What a process may pass

    The process [me], with record [p], may address the [z] bytes of its
    highest master; every page of them is mapped. *)
Record caller (s : K) (me : nat) (p : proc) (z : Z) : Prop := {
  ca_cur : k_curproc s = Some me;
  ca_proc : k_procs s !! me = Some p;
  ca_size : exists h hm, Sched.highest_master (k_procs s) me = Some h /\
              k_procs s !! h = Some hm /\ sz hm = z;
  ca_bound : 0 <= z <= KERNBASE;
  ca_pages : forall va, 0 <= va < z -> is_Some (page_of (y_mem (k_env s)) (pgdir p) va)
}.

(** The state once the thread has taken over the size. *)
Definition synced (s : K) (me : nat) (z : Z) : K :=
  s <| k_procs ::= alter (fun p => p <| sz := z |>) me |>.

(** User memory. *)
Definition ubyte (s : K) (d va : Z) : Z :=
  match page_of (y_mem (k_env s)) d va with
  | Some pg => byte_at (m_page (y_mem (k_env s)) pg) (Z.to_nat (va mod Kalloc.PGSIZE))
  | None => 0
  end.
Definition ubytes (s : K) (d va : Z) (n : nat) : list Z :=
  map (fun i => ubyte s d (va + Z.of_nat i)) (seq 0 n).

Lemma alter_sz_same (ps : list proc) me p : ps !! me = Some p -> alter (fun q => q <| sz := sz p |>) me ps = ps.
Proof.
  intros Hp. rewrite (alter_as_insert _ _ _ _ Hp). apply list_insert_id.
  rewrite Hp. by destruct p.
Qed.

Lemma highest_alter ps me z fuel : forall i,
  Sched.highest (alter (fun q => q <| sz := z |>) me ps) fuel i = Sched.highest ps fuel i.
Proof.
  induction fuel as [|fuel IH]; intros i; [done|]. cbn.
  destruct (decide (i = me)) as [->|].
  - rewrite list_lookup_alter_eq. destruct (ps !! me) as [p|]; [|done]. cbn. proj_upd. destruct (master p); [apply IH|done].
  - rewrite list_lookup_alter_ne by done. destruct (ps !! i) as [p|]; [|done]. cbn. destruct (master p); [apply IH|done].
Qed.

Lemma caller_synced s me p z : caller s me p z -> caller (synced s me z) me (p <| sz := z |>) z.
Proof.
  intros [Hc Hp (h&hm&Hh&Hhm&Hz) Hb Hpg]. split; [done| | |done|done].
  - unfold synced. proj_upd. by rewrite list_lookup_alter_eq, Hp.
  - exists h. unfold synced. proj_upd. unfold Sched.highest_master. rewrite highest_alter.
    destruct (decide (h = me)) as [->|].
    + rewrite list_lookup_alter_eq, Hp. by eexists.
    + rewrite list_lookup_alter_ne by done. by exists hm.
Qed.

Lemma synced_synced s me z : synced (synced s me z) me z = synced s me z.
Proof.
  unfold synced. kernel_eq. apply list_eq. intros i. destruct (decide (i = me)) as [->|].
  - rewrite !list_lookup_alter_eq. by destruct (k_procs s !! me).
  - by rewrite !list_lookup_alter_ne.
Qed.

Lemma curproc_run s me p z : caller s me p z -> curproc s = Ok me s.
Proof. intros [Hc _ _ _ _]. unfold curproc, myproc. rewrite bind_gets, Hc. done. Qed.

Lemma share_sz_run s me p z : caller s me p z -> share_sz s = Ok tt (synced s me z).
Proof.
  intros Hca. pose proof Hca as [Hc Hp (h&hm&Hh&Hhm&Hz) Hb Hpg]. unfold share_sz.
  rewrite (bind_Ok _ _ _ _ _ (curproc_run _ _ _ _ Hca)), (bind_Ok _ _ _ _ _ (Sched.getproc_run _ _ _ Hp)).
  destruct (master p) as [m|] eqn:Hm; cbn.
  - unfold get_highest_master.
    rewrite (bind_Ok _ _ _ _ _ (Sched.highest_from_run _ _ _ _ Hh)), (bind_Ok _ _ _ _ _ (Sched.getproc_run _ _ _ Hhm)).
    unfold setproc. rewrite (bind_Ok _ _ _ _ _ (Sched.getproc_run _ _ _ Hp)), Hz. done.
  - unfold Sched.highest_master in Hh. cbn in Hh. rewrite Hp in Hh. cbn in Hh. rewrite Hm in Hh.
    injection Hh as <-. rewrite Hp in Hhm. injection Hhm as <-. unfold ret, synced. f_equal.
    kernel_eq. rewrite <- Hz. symmetry. by apply alter_sz_same.
Qed.

Lemma umem_read {A} (m : M memst A) s a :
  m (y_mem (k_env s)) = Ok a (y_mem (k_env s)) -> umem m s = Ok a s.
Proof.
  intros E. unfold umem, env, mem, zoom. rewrite E. f_equal. kernel_eq.
  by destruct (k_env s).
Qed.

Lemma load8_run s d va : is_Some (page_of (y_mem (k_env s)) d va) ->
  load8 d va (y_mem (k_env s)) = Ok (ubyte s d va) (y_mem (k_env s)).
Proof. intros [pg E]. unfold load8, ubyte. rewrite bind_gets. unfold id. by rewrite E. Qed.

Lemma load_bytes_run s d n : forall va,
  (forall i, va <= i < va + Z.of_nat n -> is_Some (page_of (y_mem (k_env s)) d i)) ->
  load_bytes d va n (y_mem (k_env s)) = Ok (ubytes s d va n) (y_mem (k_env s)).
Proof.
  induction n as [|n IH]; intros va Hm; [done|]. cbn [load_bytes].
  rewrite (bind_Ok _ _ _ _ _ (load8_run s d va ltac:(apply Hm; lia))).
  rewrite (bind_Ok _ _ _ _ _ (IH (va + 1) ltac:(intros; apply Hm; lia))).
  unfold ret, ubytes. cbn. rewrite Z.add_0_r. f_equal. f_equal.
  rewrite <- seq_shift, map_map. apply map_ext. intros i. f_equal. lia.
Qed.

Lemma ubytes_synced s me z d va n : ubytes (synced s me z) d va n = ubytes s d va n.
Proof. done. Qed.

(** The [n]th argument word, when it lies in the process. *)
Definition word_at (s : K) (d va z : Z) : option Z :=
  if decide (va + 4 <= z) then Some (i32 (get32 (ubytes s d va 4) 0)) else None.
Definition arg_word (s : K) (p : proc) (z n : Z) : option Z :=
  word_at s (pgdir p) (u32 (esp (tf p) + 4 + 4 * n)) z.
(** The string at [va], when it ends before [z]. *)
Definition string_at (s : K) (d va z : Z) : option (list Z) :=
  let l := ubytes s d va (Z.to_nat (z - va)) in
  (fun r => take r.1 l) <$> list_find (fun c => c = 0) l.

Lemma KERNBASE_u32 : KERNBASE < 2 ^ 32 - 4.
Proof. unfold KERNBASE. lia. Qed.

Lemma fetchint_run s me p z a :
  caller s me p z -> 0 <= a < 2 ^ 32 ->
  fetchint a s = Ok (word_at s (pgdir p) a z) (synced s me z).
Proof.
  intros Hc Ha. pose proof (ca_bound _ _ _ _ Hc). pose proof KERNBASE_u32. pose proof (caller_synced _ _ _ _ Hc) as Hs.
  unfold fetchint, word_at.
  rewrite (bind_Ok _ _ _ _ _ (share_sz_run _ _ _ _ Hc)), (bind_Ok _ _ _ _ _ (curproc_run _ _ _ _ Hs)).
  rewrite (bind_Ok _ _ _ _ _ (Sched.getproc_run _ _ _ (ca_proc _ _ _ _ Hs))). proj_upd.
  destruct (Z.leb_spec z a); cbn [orb].
  { rewrite decide_False by lia. done. }
  rewrite u32_small by lia. destruct (Z.ltb_spec z (a + 4)).
  { rewrite decide_False by lia. done. }
  rewrite decide_True by lia.
  rewrite (bind_Ok _ _ _ (get32 (ubytes s (pgdir p) a 4) 0) (synced s me z)); [done|].
  apply umem_read. unfold load_word. erewrite bind_Ok; [|apply load_bytes_run].
  - done.
  - intros i Hi. apply (ca_pages _ _ _ _ Hc). lia.
Qed.

Lemma scan_str_run s d z n : forall va,
  n = Z.to_nat (z - va) -> (forall i, va <= i < z -> is_Some (page_of (y_mem (k_env s)) d i)) ->
  scan_str n d va z s = Ok (string_at s d va z) s.
Proof.
  induction n as [|n IH]; intros va Hn Hm; cbn [scan_str]; unfold string_at.
  - destruct (Z.ltb_spec va z); [lia|]. cbn. by rewrite <- Hn.
  - destruct (Z.ltb_spec va z); [|lia]. cbn [negb].
    rewrite (bind_Ok _ _ _ _ _ (umem_read _ _ _ (load8_run s d va ltac:(apply Hm; lia)))).
    replace (Z.to_nat (z - va)) with (S n). cbn [ubytes seq map list_find Z.of_nat].
    rewrite Z.add_0_r. replace (map _ (seq 1 n)) with (ubytes s d (va + 1) n); cycle 1.
    { unfold ubytes. rewrite <- seq_shift, map_map. apply map_ext. intros i. f_equal. lia. }
    destruct (Z.eqb_spec (ubyte s d va) 0) as [E|E].
    + by rewrite decide_True.
    + rewrite decide_False by done.
      rewrite (bind_Ok _ _ _ _ _ (IH (va + 1) ltac:(lia) ltac:(intros; apply Hm; lia))).
      unfold ret, string_at. replace (Z.to_nat (z - (va + 1))) with n by lia.
      by destruct (list_find _ _) as [[i c]|].
Qed.

Lemma argint_run s me p z n :
  caller s me p z -> argint n s = Ok (arg_word s p z n) (synced s me z).
Proof.
  intros Hc. unfold argint.
  rewrite (bind_Ok _ _ _ _ _ (curproc_run _ _ _ _ Hc)), (bind_Ok _ _ _ _ _ (Sched.getproc_run _ _ _ (ca_proc _ _ _ _ Hc))).
  apply fetchint_run; [done|apply u32_range].
Qed.

Lemma argint_synced s me p z n :
  caller s me p z -> argint n (synced s me z) = Ok (arg_word s p z n) (synced s me z).
Proof.
  intros Hc. rewrite (argint_run _ _ _ _ n (caller_synced _ _ _ _ Hc)), synced_synced. done.
Qed.

(** C16: [argptr] accepts a pointer exactly when the whole block lies in the
    process's memory: the comparisons at 32 bits, which can wrap, agree with
    the ones on integers, for every argument and every [int] size.  A pointer
    outside, a block that would end past the size or past the top of the
    address space, a negative size and an argument word that is itself outside
    are refused.  Nothing changes but the thread's copy of the size. *)
Theorem argptr_correct s me p z n size :
  caller s me p z -> size < 2 ^ 31 ->
  argptr n size s =
    Ok (i ← arg_word s p z n;
        if decide (0 <= size /\ u32 i < z /\ u32 i + size <= z) then Some (u32 i) else None)
       (synced s me z).
Proof.
  intros Hc Hn. pose proof (caller_synced _ _ _ _ Hc) as Hs. pose proof (ca_bound _ _ _ _ Hc). unfold argptr.
  rewrite (bind_Ok _ _ _ _ _ (share_sz_run _ _ _ _ Hc)), (bind_Ok _ _ _ _ _ (argint_synced _ _ _ _ n Hc)).
  destruct (arg_word s p z n) as [i|]; [|done]. cbn [mbind option_bind].
  rewrite (bind_Ok _ _ _ _ _ (curproc_run _ _ _ _ Hs)), (bind_Ok _ _ _ _ _ (Sched.getproc_run _ _ _ (ca_proc _ _ _ _ Hs))).
  proj_upd. pose proof (u32_range i). unfold KERNBASE in *.
  destruct (Z.ltb_spec size 0); cbn [orb]; [by rewrite decide_False by lia|].
  destruct (Z.leb_spec z (u32 i)); cbn [orb]; [by rewrite decide_False by lia|].
  rewrite (u32_small (u32 i + size)) by lia.
  destruct (Z.ltb_spec z (u32 i + size)); [by rewrite decide_False by lia|by rewrite decide_True by lia].
Qed.

(** [argstr] yields the bytes from the pointer up to the first zero, when
    pointer, bytes and zero all lie in the process's memory, and -1 for a
    pointer outside and for a string that does not end there.  The scan ends
    on every input and reads no byte past the size. *)
Theorem argstr_correct s me p z n :
  caller s me p z ->
  argstr n s =
    Ok (i ← arg_word s p z n;
        if decide (u32 i < z) then string_at s (pgdir p) (u32 i) z else None)
       (synced s me z).
Proof.
  intros Hc. pose proof (caller_synced _ _ _ _ Hc) as Hs. unfold argstr.
  rewrite (bind_Ok _ _ _ _ _ (argint_run _ _ _ _ n Hc)).
  destruct (arg_word s p z n) as [i|]; [|done]. cbn [mbind option_bind]. unfold fetchstr.
  rewrite (bind_Ok _ _ _ _ _ (share_sz_run _ _ _ _ Hs)), synced_synced.
  rewrite (bind_Ok _ _ _ _ _ (curproc_run _ _ _ _ Hs)), (bind_Ok _ _ _ _ _ (Sched.getproc_run _ _ _ (ca_proc _ _ _ _ Hs))).
  proj_upd. pose proof (u32_range i).
  destruct (Z.leb_spec z (u32 i)); [by rewrite decide_False by lia|]. rewrite decide_True by lia.
  apply (scan_str_run (synced s me z)); [done|]. intros j Hj. apply (ca_pages _ _ _ _ Hc). lia.
Qed.
End args.

(** ** Witnesses: a thread whose master has one page

    The thread's argument words, from offset 104 on, are 200, where a string
    lies, and -8. *)
Definition demo_mem : memst :=
  Vm.demo_space <| m_page ::= fun f => fset f (Vm.demo_at 2)
    (put8 200 104 (put8 201 105 (put32 104 200 (put32 108 (-8) (f (Vm.demo_at 2)))))) |>.
Definition demo_sys (l : Log.logst Bufcache.view) : sysst Bufcache.view :=
  mkSys (Fs.mkFs (Log.mkSb 1000 900 200 60 2 62 90) [] 1 None l) [] ∅ demo_mem false [].
Definition demo_proc : proc :=
  proc0 <| sz := 4096 |> <| pgdir := Vm.demo_at 0 |> <| state := RUNNING |>.
Definition demo_thread : proc :=
  demo_proc <| sz := 0 |> <| master := Some 0%nat |> <| tf := mkTf 0 0 0 0 0 0 0 0 0 0 0 0 0 0 0 0 0 100 0 |>.
Definition demo_kernel : kernel (sysst Bufcache.view) :=
  (kernel0 (mkCpu 0 0 true true) (demo_sys Log.empty_log))
    <| k_curproc := Some 1%nat |> <| k_procs := [demo_proc; demo_thread] |>.

Lemma demo_caller : caller demo_kernel 1 demo_thread 4096.
Proof.
  split; [reflexivity|reflexivity|exists 0%nat, demo_proc; repeat split|unfold KERNBASE; lia|].
  intros va Hva. unfold page_of, KERNBASE. destruct (Z.leb_spec 0x80000000 va); [lia|].
  rewrite Z.div_small by (unfold Kalloc.PGSIZE; lia).
  assert (Vm.mapped (y_mem (k_env demo_kernel)) (pgdir demo_thread) 0 = true) as -> by (vm_compute; reflexivity).
  by eexists.
Qed.

Lemma argptr_correct_witness :
  argptr 0 3896 demo_kernel = Ok (Some 200) (synced demo_kernel 1 4096) /\
  argptr 0 3897 demo_kernel = Ok None (synced demo_kernel 1 4096) /\
  argptr 1 16 demo_kernel = Ok None (synced demo_kernel 1 4096).
Proof.
  split_and!.
  - rewrite (argptr_correct _ _ _ _ 0 3896 demo_caller ltac:(lia)).
    apply (f_equal (fun x => Ok x _)). vm_compute. reflexivity.
  - rewrite (argptr_correct _ _ _ _ 0 3897 demo_caller ltac:(lia)).
    apply (f_equal (fun x => Ok x _)). vm_compute. reflexivity.
  - rewrite (argptr_correct _ _ _ _ 1 16 demo_caller ltac:(lia)).
    apply (f_equal (fun x => Ok x _)). vm_compute. reflexivity.
Defined.

Lemma argstr_correct_witness :
  argstr 0 demo_kernel = Ok (Some [104; 105]) (synced demo_kernel 1 4096) /\
  argstr 1 demo_kernel = Ok None (synced demo_kernel 1 4096).
Proof.
  split.
  - rewrite (argstr_correct _ _ _ _ 0 demo_caller).
    apply (f_equal (fun x => Ok x _)). vm_compute. reflexivity.
  - rewrite (argstr_correct _ _ _ _ 1 demo_caller).
    apply (f_equal (fun x => Ok x _)). vm_compute. reflexivity.
Defined.
End Syscall.
