(* ===== verification/Sysfile.v ===== *)
(** * File system calls (xv6-public/sysfile.c)

    The system calls on files and directories, from their arguments on the
    user's stack to their result.  The part of a call that lies between
    [begin_op] and [end_op] and does not look at the process is a routine on
    files and inodes ([linkat], [unlinkat], [create]); [exec] is in Exec.v. *)

From S2P Require Import Prelude Spinlock Bytes Bufcache Log Txdisk Fs Pipes Kalloc Vm File Procdef Mlfq Sched Kenv Fcntl Syscall.

Module Sysfile.
Import Fs File Kenv Syscall.

#[export] Instance set_f_pid {T} : Setter (@f_pid T).
Proof. build_setter. Defined.
#[export] Instance set_f_cwd {T} : Setter (@f_cwd T).
Proof. build_setter. Defined.
#[export] Instance set_y_killed {B} : Setter (@y_killed B).
Proof. build_setter. Defined.

Section sysfile.
Context {B : Type} `{BufCache B}.
Variable lay : layout B.
Abbreviation sw := (l_sw lay).
Abbreviation Y := (sysst B).
Abbreviation F := (fsst (Log.logst B)).
Abbreviation K := (kernel Y).

(** A routine of the file system run by the current process, whose [pid],
    [cwd] and [killed] it can ask for. *)
Definition as_me {A} (m : M Y A) : M K A :=
  me <- curproc ;;
  p <- getproc me ;;
  env (modify (fun y => y <| y_fs ::= fun f => f <| f_pid := pid p |> <| f_cwd := cwd p |> |>
                          <| y_killed := killed p |>)) ;;
  env m.

(** ** Descriptors *)

(** The descriptor and its file, or -1. *)
Definition argfd (n : Z) : M K (option (nat * nat)) :=
  r <- argint n ;;
  match r with
  | None => ret None
  | Some fd =>
      if (fd <? 0) || (Z.of_nat NOFILE <=? fd) then ret None else
      me <- curproc ;;
      p <- getproc me ;;
      o <- deref (ofile p !! Z.to_nat fd) ;;
      ret (match o with Some f => Some (Z.to_nat fd, f) | None => None end)
  end.

Definition set_ofile (me fd : nat) (o : option nat) : M K unit :=
  setproc me (fun p => p <| Procdef.ofile ::= <[fd := o]> |>).

(** The descriptor, or -1. *)
Definition fdalloc (f : nat) : M K (option nat) :=
  me <- curproc ;;
  forR (seq 0 NOFILE) (fun fd =>
    p <- getproc me ;;
    o <- deref (ofile p !! fd) ;;
    match o with
    | None => set_ofile me fd (Some f) ;; ret (Some fd)
    | Some _ => ret None
    end).

Definition sys_dup : M K Z :=
  r <- argfd 0 ;;
  match r with
  | None => ret (-1)
  | Some (_, f) =>
      fd <- fdalloc f ;;
      match fd with
      | None => ret (-1)
      | Some fd => as_me (File.filedup f) ;; ret (Z.of_nat fd)
      end
  end.

(** [argfd(0), argint(2), argptr(1)]: file, buffer and length. *)
Definition rw_args : M K (option (nat * Z * Z)) :=
  r <- argfd 0 ;;
  match r with
  | None => ret None
  | Some (_, f) =>
      r <- argint 2 ;;
      match r with
      | None => ret None
      | Some n =>
          r <- argptr 1 n ;;
          ret (match r with Some p => Some (f, p, n) | None => None end)
      end
  end.

(** [None]: the process sleeps in pipe.c. *)
Definition sys_read : M K (option Z) :=
  r <- rw_args ;;
  match r with
  | None => ret (Some (-1))
  | Some (f, p, n) =>
      r <- as_me (fileread sw (l_end lay) f n) ;;
      match r with
      | Pipe.RDone r bytes =>
          me <- curproc ;;
          pr <- getproc me ;;
          umem (store_bytes (pgdir pr) p bytes) ;;
          ret (Some r)
      | Pipe.RSleep => ret None
      end
  end.

Definition sys_write : M K (option Z) :=
  r <- rw_args ;;
  match r with
  | None => ret (Some (-1))
  | Some (f, p, n) =>
      me <- curproc ;;
      pr <- getproc me ;;
      bytes <- umem (load_bytes (pgdir pr) p (Z.to_nat n)) ;;
      r <- as_me (filewrite sw (l_end lay) f bytes n) ;;
      ret (match r with Pipe.WDone r => Some r | Pipe.WSleep _ => None end)
  end.

Definition sys_close : M K Z :=
  r <- argfd 0 ;;
  match r with
  | None => ret (-1)
  | Some (fd, f) =>
      me <- curproc ;;
      set_ofile me fd None ;;
      as_me (File.fileclose (l_end lay) f) ;;
      ret 0
  end.

Definition sizeof_stat : Z := 20.
(** The fields of [struct stat] at [a]: short, int, uint, short, uint. *)
Definition store_stat (d a : Z) (st : stat) : M memst unit :=
  store_word d (a + 4) (st_dev st) ;;
  store_word d (a + 8) (st_ino st) ;;
  store_bytes d a (put16 0 (st_type st) [0; 0]) ;;
  store_bytes d (a + 12) (put16 0 (st_nlink st) [0; 0]) ;;
  store_word d (a + 16) (st_size st).

Definition sys_fstat : M K Z :=
  r <- argfd 0 ;;
  match r with
  | None => ret (-1)
  | Some (_, f) =>
      r <- argptr 1 sizeof_stat ;;
      match r with
      | None => ret (-1)
      | Some a =>
          st <- as_me (filestat f) ;;
          match st with
          | None => ret (-1)
          | Some st =>
              me <- curproc ;;
              p <- getproc me ;;
              umem (store_stat (pgdir p) a st) ;;
              ret 0
          end
      end
  end.

(** ** Links *)

(** [ip->nlink += d]. *)
Definition add_nlink (i : nat) (d : Z) : M F unit :=
  seti i (fun ip => ip <| i_nlink ::= fun n => i16 (n + d) |>).

(** The exit [bad] of [sys_link]. *)
Definition link_bad (ip : nat) : M Y Z :=
  fs (ilock ip) ;;
  fs (add_nlink ip (-1)) ;;
  fs (iupdate ip) ;;
  fs (iunlockput ip) ;;
  end_op ;;
  ret (-1).

(** [sys_link] once it has its arguments. *)
Definition linkat (old new : list Z) : M Y Z :=
  begin_op ;;
  o <- fs (namei sw old) ;;
  match o with
  | None => end_op ;; ret (-1)
  | Some ip =>
      fs (ilock ip) ;;
      x <- fs (geti ip) ;;
      if i_type x =? T_DIR then
        fs (iunlockput ip) ;; end_op ;; ret (-1)
      else
        fs (add_nlink ip 1) ;;
        fs (iupdate ip) ;;
        fs (iunlock ip) ;;
        r <- fs (nameiparent sw new) ;;
        match r.1 with
        | None => link_bad ip
        | Some dp =>
            fs (ilock dp) ;;
            d <- fs (geti dp) ;;
            x <- fs (geti ip) ;;
            w <- (if negb (i_dev d =? i_dev x) then ret (-1) else fs (dirlink sw dp r.2 (i_inum x))) ;;
            if w <? 0 then fs (iunlockput dp) ;; link_bad ip else
            fs (iunlockput dp) ;;
            fs (iput ip) ;;
            end_op ;;
            ret 0
        end
  end.

Definition sys_link : M K Z :=
  old <- argstr 0 ;;
  match old with
  | None => ret (-1)
  | Some old =>
      new <- argstr 1 ;;
      match new with
      | None => ret (-1)
      | Some new => as_me (linkat old new)
      end
  end.

Fixpoint isdirempty_loop (fuel : nat) (dp : nat) (off : Z) : M F bool :=
  x <- geti dp ;;
  if negb (off <? i_size x) then ret true else
  match fuel with
  | O => spin
  | S fuel' =>
      r <- readi sw dp off sizeof_de ;;
      if negb (r.1 =? sizeof_de) then panic "isdirempty: readi" else
      if negb (de_inum r.2 =? 0) then ret false else
      isdirempty_loop fuel' dp (off + sizeof_de)
  end.
Definition isdirempty (dp : nat) : M F bool :=
  x <- geti dp ;;
  isdirempty_loop (Z.to_nat (i_size x)) dp (2 * sizeof_de).

Definition dot : list Z := [46].
Definition dotdot : list Z := [46; 46].

(** The exit [bad] of [sys_unlink]. *)
Definition unlink_bad (dp : nat) : M Y Z :=
  fs (iunlockput dp) ;;
  end_op ;;
  ret (-1).

(** [sys_unlink] once it has its argument. *)
Definition unlinkat (path : list Z) : M Y Z :=
  begin_op ;;
  r <- fs (nameiparent sw path) ;;
  match r.1 with
  | None => end_op ;; ret (-1)
  | Some dp =>
      fs (ilock dp) ;;
      if (namecmp r.2 dot =? 0) || (namecmp r.2 dotdot =? 0) then unlink_bad dp else
      e <- fs (dirlookup sw dp r.2) ;;
      match e with
      | None => unlink_bad dp
      | Some (ip, off) =>
          fs (ilock ip) ;;
          x <- fs (geti ip) ;;
          if i_nlink x <? 1 then panic "unlink: nlink < 1" else
          full <- (if i_type x =? T_DIR then b <- fs (isdirempty ip) ;; ret (negb b) else ret false) ;;
          if full : bool then fs (iunlockput ip) ;; unlink_bad dp else
          w <- fs (writei sw dp (replicate (Z.to_nat sizeof_de) 0) off) ;;
          if negb (w =? sizeof_de) then panic "unlink: writei" else
          x <- fs (geti ip) ;;
          when (i_type x =? T_DIR) (fs (add_nlink dp (-1)) ;; fs (iupdate dp)) ;;
          fs (iunlockput dp) ;;
          fs (add_nlink ip (-1)) ;;
          fs (iupdate ip) ;;
          fs (iunlockput ip) ;;
          end_op ;;
          ret 0
      end
  end.

Definition sys_unlink : M K Z :=
  path <- argstr 0 ;;
  match path with
  | None => ret (-1)
  | Some path => as_me (unlinkat path)
  end.

(** ** Creation *)

(** The entries [.] and [..] of the new directory [ip] in [dp]. *)
Definition make_dots (dp ip : nat) : M F unit :=
  add_nlink dp 1 ;;
  iupdate dp ;;
  x <- geti ip ;;
  d <- geti dp ;;
  r <- dirlink sw ip dot (i_inum x) ;;
  if r <? 0 then panic "create dots" else
  r <- dirlink sw ip dotdot (i_inum d) ;;
  if r <? 0 then panic "create dots" else ret tt.

(** The inode, locked, or null. *)
Definition create (path : list Z) (type major minor : Z) : M F (option nat) :=
  r <- nameiparent sw path ;;
  match r.1 with
  | None => ret None
  | Some dp =>
      ilock dp ;;
      e <- dirlookup sw dp r.2 ;;
      match e with
      | Some (ip, _) =>
          iunlockput dp ;;
          ilock ip ;;
          x <- geti ip ;;
          if (type =? T_FILE) && (i_type x =? T_FILE) then ret (Some ip) else
          iunlockput ip ;;
          ret None
      | None =>
          d <- geti dp ;;
          ip <- ialloc (i_dev d) type ;;
          ilock ip ;;
          seti ip (fun x => x <| i_major := i16 major |> <| i_minor := i16 minor |> <| i_nlink := 1 |>) ;;
          iupdate ip ;;
          when (type =? T_DIR) (make_dots dp ip) ;;
          x <- geti ip ;;
          w <- dirlink sw dp r.2 (i_inum x) ;;
          if w <? 0 then panic "create: dirlink" else
          iunlockput dp ;;
          ret (Some ip)
      end
  end.

(** The inode [sys_open] opens, locked; on failure the transaction is over. *)
Definition open_inode (path : list Z) (omode : Z) : M Y (option nat) :=
  begin_op ;;
  if negb (Z.land omode O_CREATE =? 0) then
    o <- fs (create path T_FILE 0 0) ;;
    match o with
    | None => end_op ;; ret None
    | Some ip => ret (Some ip)
    end
  else
    o <- fs (namei sw path) ;;
    match o with
    | None => end_op ;; ret None
    | Some ip =>
        fs (ilock ip) ;;
        x <- fs (geti ip) ;;
        if (i_type x =? T_DIR) && negb (omode =? O_RDONLY) then
          fs (iunlockput ip) ;; end_op ;; ret None
        else ret (Some ip)
    end.

(** [filealloc() == 0 || fdalloc(f) < 0] fails: what was allocated goes back. *)
Definition open_bad (f : option nat) (ip : nat) : M K Z :=
  as_me (match f with Some f => File.fileclose (l_end lay) f | None => ret tt end ;;
         fs (iunlockput ip) ;;
         end_op) ;;
  ret (-1).

Definition sys_open : M K Z :=
  path <- argstr 0 ;;
  match path with
  | None => ret (-1)
  | Some path =>
      omode <- argint 1 ;;
      match omode with
      | None => ret (-1)
      | Some omode =>
          o <- as_me (open_inode path omode) ;;
          match o with
          | None => ret (-1)
          | Some ip =>
              f <- as_me filealloc ;;
              match f with
              | None => open_bad None ip
              | Some f =>
                  fd <- fdalloc f ;;
                  match fd with
                  | None => open_bad (Some f) ip
                  | Some fd =>
                      as_me (fs (iunlock ip) ;; end_op) ;;
                      as_me (setf f (fun x => x <| fl_type := FD_INODE |> <| fl_ip := ip |> <| fl_off := 0 |>
                        <| fl_readable := Z.land omode O_WRONLY =? 0 |>
                        <| fl_writable := negb (Z.land omode O_WRONLY =? 0) || negb (Z.land omode O_RDWR =? 0) |>)) ;;
                      ret (Z.of_nat fd)
                  end
              end
          end
      end
  end.

(** [create] in the transaction that [sys_mkdir] and [sys_mknod] have begun:
    to its end, with the result. *)
Definition make_node (path : list Z) (type major minor : Z) : M Y Z :=
  o <- fs (create path type major minor) ;;
  match o with
  | None => end_op ;; ret (-1)
  | Some ip => fs (iunlockput ip) ;; end_op ;; ret 0
  end.

Definition sys_mkdir : M K Z :=
  as_me begin_op ;;
  path <- argstr 0 ;;
  match path with
  | None => as_me end_op ;; ret (-1)
  | Some path => as_me (make_node path T_DIR 0 0)
  end.

Definition sys_mknod : M K Z :=
  as_me begin_op ;;
  path <- argstr 0 ;;
  match path with
  | None => as_me end_op ;; ret (-1)
  | Some path =>
      major <- argint 1 ;;
      match major with
      | None => as_me end_op ;; ret (-1)
      | Some major =>
          minor <- argint 2 ;;
          match minor with
          | None => as_me end_op ;; ret (-1)
          | Some minor => as_me (make_node path T_DEV (i16 major) (i16 minor))
          end
      end
  end.

(** The new working directory, with the old one given back, or -1. *)
Definition chdir_to (path : list Z) (old : option nat) : M Y (option nat) :=
  o <- fs (namei sw path) ;;
  match o with
  | None => end_op ;; ret None
  | Some ip =>
      fs (ilock ip) ;;
      x <- fs (geti ip) ;;
      if negb (i_type x =? T_DIR) then
        fs (iunlockput ip) ;; end_op ;; ret None
      else
        fs (iunlock ip) ;;
        old <- deref old ;;
        fs (iput old) ;;
        end_op ;;
        ret (Some ip)
  end.

Definition sys_chdir : M K Z :=
  me <- curproc ;;
  as_me begin_op ;;
  path <- argstr 0 ;;
  match path with
  | None => as_me end_op ;; ret (-1)
  | Some path =>
      p <- getproc me ;;
      o <- as_me (chdir_to path (cwd p)) ;;
      match o with
      | None => ret (-1)
      | Some ip => setproc me (fun p => p <| cwd := Some ip |>) ;; ret 0
      end
  end.

Definition sys_pipe : M K Z :=
  r <- argptr 0 8 ;;
  match r with
  | None => ret (-1)
  | Some a =>
      r <- as_me (pipealloc (l_end lay)) ;;
      match r with
      | None => ret (-1)
      | Some (rf, wf) =>
          me <- curproc ;;
          fd0 <- fdalloc rf ;;
          match fd0 with
          | None =>
              as_me (File.fileclose (l_end lay) rf ;; File.fileclose (l_end lay) wf) ;;
              ret (-1)
          | Some fd0 =>
              fd1 <- fdalloc wf ;;
              match fd1 with
              | None =>
                  set_ofile me fd0 None ;;
                  as_me (File.fileclose (l_end lay) rf ;; File.fileclose (l_end lay) wf) ;;
                  ret (-1)
              | Some fd1 =>
                  p <- getproc me ;;
                  umem (store_word (pgdir p) a (Z.of_nat fd0) ;;
                        store_word (pgdir p) (a + 4) (Z.of_nat fd1)) ;;
                  ret 0
              end
          end
      end
  end.
End sysfile.
End Sysfile.
