(* ===== verification/Sysproc.v ===== *)
(** * Process system calls (xv6-public/sysproc.c, prac_syscall.c)

    A call that can sleep ends in a [stage]: with its result, or off the CPU
    with the interrupt flag for [sched_in].  [ticks] is the clock's counter,
    which the timer interrupt advances; [tickslock] protects nothing else. *)

From S2P Require Import Prelude Double Spinlock Dll Bytes Bufcache Log Txdisk Fs Pipes Kalloc Vm File Procdef Mlfq Sched Proc Kenv Syscall.

Module Sysproc.
Import Fs File Kenv Syscall Proc.

Section sysproc.
Context {B : Type} `{BufCache B}.
Variable lay : layout B.
Abbreviation Y := (sysst B).
Abbreviation K := (kernel Y).
#[local] Instance kernel_env : KernelEnv Y := sys_env lay.

Definition sys_fork : M K Z := fork.

(** [exit] up to the first [sleep]; see [exit_again] and [exit_finish]. *)
Definition sys_exit : M K (stage unit) := exit_begin.

Definition sys_wait : M K (stage Z) := wait_begin.

Definition sys_kill : M K Z :=
  r <- argint 0 ;;
  match r with
  | None => ret (-1)
  | Some pid => kill pid
  end.

Definition sys_getpid : M K Z :=
  me <- curproc ;;
  p <- getproc me ;;
  ret (pid p).

(** [myproc()->parent->pid]. *)
Definition sys_getppid : M K Z :=
  me <- curproc ;;
  p <- getproc me ;;
  pp <- deref (parent p) ;;
  q <- getproc pp ;;
  ret (pid q).

(** Up to the switch; [yield_in] follows. *)
Definition sys_yield : M K bool := yield_out.

Definition sys_sbrk : M K Z :=
  r <- argint 0 ;;
  match r with
  | None => ret (-1)
  | Some n =>
      v <- growproc n ;;
      let addr := i32 (v - n) in
      if addr <? 0 then ret (-1) else ret addr
  end.

Definition tickslock : lockref (E:=Y) := LkEnv (ret tt) (ret tt).

(** The loop of [sys_sleep] from its head, at the time [ticks]. *)
Definition sleep_loop (ticks0 n ticks : Z) : M K (stage Z) :=
  if u32 (ticks - ticks0) <? u32 n then
    me <- curproc ;;
    p <- getproc me ;;
    if killed p then ret (Done (-1)) else
    ie <- sleep_out ChTicks (Some tickslock) ;;
    ret (Asleep ie)
  else ret (Done 0).
Definition sys_sleep (ticks : Z) : M K (stage Z) :=
  r <- argint 0 ;;
  match r with
  | None => ret (Done (-1))
  | Some n => sleep_loop ticks n ticks
  end.
(** Woken at the time [ticks]. *)
Definition sleep_again (ticks0 n ticks : Z) (ie : bool) : M K (stage Z) :=
  sleep_in tickslock ie ;; sleep_loop ticks0 n ticks.

Definition sys_uptime (ticks : Z) : M K Z := ret (i32 ticks).

Definition sys_cpu_share : M K Z :=
  r <- argint 0 ;;
  match r with
  | None => ret (-1)
  | Some n => Sched.cpu_share n
  end.

Definition sys_run_MLFQ : M K Z := Sched.run_MLFQ.

Definition sys_getlev : M K Z := Sched.getlev.

(** [thread_create] stores the new thread's id through its first argument. *)
Definition sys_thread_create : M K Z :=
  i <- argptr 0 4 ;;
  match i with
  | None => ret (-1)
  | Some i =>
      fcn <- argptr 1 4 ;;
      match fcn with
      | None => ret (-1)
      | Some fcn =>
          arg <- argptr 2 4 ;;
          match arg with
          | None => ret (-1)
          | Some arg =>
              r <- thread_create fcn arg ;;
              when (r.1 =? 0)
                (me <- curproc ;; p <- getproc me ;; umem (store_word (pgdir p) i r.2)) ;;
              ret r.1
          end
      end
  end.

(** [None]: the thread is off the CPU for good. *)
Definition sys_thread_exit : M K (option Z) :=
  arg <- argptr 0 4 ;;
  match arg with
  | None => ret (Some (-1))
  | Some arg => thread_exit arg ;; ret None
  end.

(** [*retval = ...]: the pointer is used as it was passed. *)
Definition store_retval (retval : Z) (r : stage (Z * option Z)) : M K (stage Z) :=
  match r with
  | Done (v, Some x) =>
      me <- curproc ;;
      p <- getproc me ;;
      umem (store_word (pgdir p) (u32 retval) x) ;;
      ret (Done v)
  | Done (v, None) => ret (Done v)
  | Asleep ie => ret (Asleep ie)
  end.
Definition sys_thread_join : M K (stage Z) :=
  i <- argint 0 ;;
  match i with
  | None => ret (Done (-1))
  | Some i =>
      retval <- argint 1 ;;
      match retval with
      | None => ret (Done (-1))
      | Some retval =>
          r <- thread_join (u32 i) ;;
          store_retval retval r.1
      end
  end.

Definition sys_sync : M K Z := env (File.fs (zoom Fs.f_disk Log.sync)).

Definition sys_get_log_num : M K Z := env (File.fs (zoom Fs.f_disk Log.get_log_num)).

(** [my_syscall] prints its argument. *)
Definition my_syscall (str : list Z) : Z := i32 0xABCDABCD.
Definition sys_my_syscall : M K Z :=
  r <- argstr 0 ;;
  match r with
  | None => ret (-1)
  | Some str => ret (my_syscall str)
  end.
End sysproc.

(** ** Three calls on the process of Syscall.v

    Its page holds the arguments from offset 104 on. *)
Definition call_mem (a0 a1 : Z) : memst :=
  Vm.demo_space <| m_page ::= fun f => fset f (Vm.demo_at 2) (put32 104 a0 (put32 108 a1 (f (Vm.demo_at 2)))) |>.
Definition call_layout : layout Bufcache.view :=
  mkLayout Kalloc.demo_end Kalloc.demo_end 0 0 0 [] (mkDevsw (fun _ => None) (fun _ => None)).
Definition call_proc : proc :=
  Syscall.demo_proc <| kstack := Vm.demo_at 7 |> <| next_thread := Some 1%nat |>
    <| tf := mkTf 0 0 0 0 0 0 0 0 0 0 0 0 0 0 0 0 0 100 0 |>.
Definition call_thread : proc :=
  Syscall.demo_proc <| state := ZOMBIE |> <| master := Some 0%nat |> <| prev_thread := Some 0%nat |>
    <| tid := 7 |> <| retval := 77 |> <| kstack := Vm.demo_at 5 |> <| originalbase := 8192 |>.
Definition call_kernel (a0 a1 : Z) : kernel (sysst Bufcache.view) :=
  (kernel0 (mkCpu 0 0 true true)
    (mkSys (mkFs (Log.mkSb 1000 900 200 60 2 62 90) [] 1 None Log.empty_log) [] ∅ (call_mem a0 a1) false []))
    <| k_curproc := Some 0%nat |> <| k_procs := call_proc :: call_thread :: replicate 62 proc0 |>.
Import Ideal.

(** [sys_thread_join] does not check the pointer it stores the thread's value
    through: given the address of a page of the kernel, it writes there. *)
Theorem thread_join_unchecked :
  match sys_thread_join call_layout (call_kernel 7 (Vm.demo_at 6)) with
  | Ok r k => r = Done 0 /\ get32 (m_page (y_mem (k_env k)) (Vm.demo_at 6)) 0 = 77
  | _ => False
  end.
Proof. vm_compute. split; reflexivity. Qed.

(** [sbrk] that gives back all memory: [growproc] takes the size 0 for a failure,
    so that the size stays as it was, with the pages gone and [memlock] held, and
    [sys_sbrk] returns 4095 instead of -1. *)
Example sbrk_to_nothing :
  match sys_sbrk call_layout (call_kernel (-4096) 0) with
  | Ok r k => r = 4095 /\ sz <$> k_procs k !! 0%nat = Some 4096 /\ locked (k_memlock k) = true /\
      Vm.mapped (y_mem (k_env k)) (Vm.demo_at 0) 0 = false
  | _ => False
  end.
Proof. vm_compute. split_and!; reflexivity. Qed.

(** [thread_exit] with a value that is not an address of the process, here
    5000: the check for a pointer refuses it and the thread goes on. *)
Example thread_exit_refused :
  match sys_thread_exit call_layout (call_kernel 5000 0) with
  | Ok r k => r = Some (-1) /\ state <$> k_procs k !! 0%nat = Some RUNNING
  | _ => False
  end.
Proof. vm_compute. split; reflexivity. Qed.
End Sysproc.
