(* ===== verification/Exec.v ===== *)
(** * exec (xv6-public/exec.c, elf.h, vm.c: loaduvm, proc.c: sleep_other_threads,
    sysfile.c: sys_exec)

    A new address space is built from an ELF file and the arguments; only when
    it is complete does the process change over to it. *)

From S2P Require Import Prelude Double Spinlock Dll Bytes Bufcache Log Txdisk Fs Pipes Kalloc Vm File Procdef Mlfq Sched Proc Kenv Syscall Sysfile.

Module Exec.
Import Fs File Kenv Syscall Sysfile Proc.

Abbreviation ELF_MAGIC := 0x464C457F (only parsing).
Abbreviation ELF_PROG_LOAD := 1 (only parsing).
Abbreviation MAXARG := 32%nat (only parsing).

(** [struct elfhdr] and [struct proghdr] in bytes. *)
Definition sizeof_elfhdr : Z := 52.
Definition elf_magic (h : list Z) : Z := get32 h 0.
Definition elf_entry (h : list Z) : Z := get32 h 24.
Definition elf_phoff (h : list Z) : Z := get32 h 28.
Definition elf_phnum (h : list Z) : Z := get16 h 44.
Definition sizeof_proghdr : Z := 32.
Definition ph_type (h : list Z) : Z := get32 h 0.
Definition ph_off (h : list Z) : Z := get32 h 4.
Definition ph_vaddr (h : list Z) : Z := get32 h 8.
Definition ph_filesz (h : list Z) : Z := get32 h 16.
Definition ph_memsz (h : list Z) : Z := get32 h 20.

Section exec.
Context {B : Type} `{BufCache B}.
Variable lay : layout B.
Abbreviation sw := (l_sw lay).
Abbreviation Y := (sysst B).
Abbreviation K := (kernel Y).
#[local] Instance kernel_env : KernelEnv Y := sys_env lay.

(** *** Threads *)

(** The walk of [sleep_other_threads]. *)
Fixpoint put_to_sleep (fuel : nat) (self : nat) (p : option nat) : M K unit :=
  match p with
  | None => ret tt
  | Some i =>
      match fuel with
      | O => spin
      | S fuel' =>
          q <- getproc i ;;
          when (negb (bool_decide (i = self)) && bool_decide (state q = RUNNABLE))
            (setproc i (fun p => p <| state := SLEEPING |>)) ;;
          put_to_sleep fuel' self (next_thread q)
      end
  end.
Definition sleep_other_threads (self : nat) : M K unit :=
  acquire_ptable ;;
  p <- get_highest_master self ;;
  put_to_sleep (S NPROC) self (Some p) ;;
  release_ptable.

(** *** The image *)

Fixpoint loaduvm_loop (fuel : nat) (d addr : Z) (ip : nat) (offset i sz : Z) : M Y Z :=
  if negb (i <? sz) then ret 0 else
  match fuel with
  | O => spin
  | S fuel' =>
      pte <- mem (Vm.walkpgdir d (addr + i) false) ;;
      if pte =? 0 then panic "loaduvm: address should exist" else
      e <- mem (Kalloc.load32 pte) ;;
      let page := P2V (Vm.PTE_ADDR e) in
      let n := Z.min (sz - i) Kalloc.PGSIZE in
      r <- fs (readi sw ip (u32 (offset + i)) n) ;;
      x <- gets (fun y => m_page (y_mem y) page) ;;
      mem (Kalloc.set_page page (splice 0 r.2 x)) ;;
      if negb (r.1 =? n) then ret (-1) else
      loaduvm_loop fuel' d addr ip offset (i + Kalloc.PGSIZE) sz
  end.
Definition loaduvm (d addr : Z) (ip : nat) (offset sz : Z) : M Y Z :=
  if negb (addr mod Kalloc.PGSIZE =? 0) then panic "loaduvm: addr must be page aligned" else
  loaduvm_loop (Z.to_nat (sz / Kalloc.PGSIZE + 1)) d addr ip offset 0 sz.

(** The loop over the program headers, [n] of them left; [None] is [goto bad]. *)
Fixpoint load_segments (n : nat) (ip : nat) (d off sz : Z) : M Y (option Z) :=
  match n with
  | O => ret (Some sz)
  | S n' =>
      r <- fs (readi sw ip (u32 off) sizeof_proghdr) ;;
      if negb (r.1 =? sizeof_proghdr) then ret None else
      let ph := r.2 in
      let off := i32 (off + sizeof_proghdr) in
      if negb (ph_type ph =? ELF_PROG_LOAD) then load_segments n' ip d off sz else
      if ph_memsz ph <? ph_filesz ph then ret None else
      if u32 (ph_vaddr ph + ph_memsz ph) <? ph_vaddr ph then ret None else
      sz <- mem (Vm.allocuvm (l_end lay) d sz (u32 (ph_vaddr ph + ph_memsz ph))) ;;
      if sz =? 0 then ret None else
      if negb (ph_vaddr ph mod Kalloc.PGSIZE =? 0) then ret None else
      r <- loaduvm d (ph_vaddr ph) ip (ph_off ph) (ph_filesz ph) ;;
      if r <? 0 then ret None else
      load_segments n' ip d off sz
  end.

(** The exit [bad]: the address space, if there is one, and the inode, if it is
    still held. *)
Definition exec_bad (d : option Z) (ip : option nat) : M Y unit :=
  match d with Some d => mem (Vm.freevm (l_end lay) d) | None => ret tt end ;;
  match ip with Some ip => fs (iunlockput ip) ;; end_op | None => ret tt end.

(** Lines 44 to 76: page directory, size and entry point, or [goto bad] done. *)
Definition load_image (ip : nat) : M Y (option (Z * Z * Z)) :=
  fs (ilock ip) ;;
  r <- fs (readi sw ip 0 sizeof_elfhdr) ;;
  if negb (r.1 =? sizeof_elfhdr) then exec_bad None (Some ip) ;; ret None else
  let elf := r.2 in
  if negb (elf_magic elf =? ELF_MAGIC) then exec_bad None (Some ip) ;; ret None else
  d <- mem (Vm.setupkvm (l_end lay) (l_data lay)) ;;
  if d =? 0 then exec_bad None (Some ip) ;; ret None else
  s <- load_segments (Z.to_nat (elf_phnum elf)) ip d (i32 (elf_phoff elf)) 0 ;;
  match s with
  | None => exec_bad (Some d) (Some ip) ;; ret None
  | Some sz =>
      fs (iunlockput ip) ;;
      end_op ;;
      ret (Some (d, sz, elf_entry elf))
  end.

(** *** The stack *)

(** Lines 89 to 96: the strings below [sp]; the result is the stack pointer and
    [ustack[3..]].  [argc] counts them. *)
Fixpoint push_args (d : Z) (argc : nat) (argv : list (list Z)) (sp : Z) : M memst (option (Z * list Z)) :=
  match argv with
  | [] => ret (Some (sp, []))
  | a :: argv' =>
      if (MAXARG <=? argc)%nat then ret None else
      let sp := Z.land (u32 (sp - (Z.of_nat (length a) + 1))) (Z.lnot 3) in
      r <- Vm.copyout d sp (a ++ [0]) ;;
      if r <? 0 then ret None else
      r <- push_args d (S argc) argv' sp ;;
      ret (match r with Some (sp', l) => Some (sp', sp :: l) | None => None end)
  end.

Definition words (l : list Z) : list Z := concat (map (fun w => put32 0 w [0; 0; 0; 0]) l).

(** Lines 88 to 105: the final stack pointer. *)
Definition build_stack (d : Z) (argv : list (list Z)) (sz : Z) : M memst (option Z) :=
  r <- push_args d 0 argv sz ;;
  match r with
  | None => ret None
  | Some (sp, l) =>
      let argc := Z.of_nat (length l) in
      let ustack := [0xffffffff; argc; u32 (sp - (argc + 1) * 4)] ++ l ++ [0] in
      let sp := u32 (sp - (3 + argc + 1) * 4) in
      r <- Vm.copyout d sp (words ustack) ;;
      if r <? 0 then ret None else ret (Some sp)
  end.

(** Lines 108 to 111: what follows the last slash. *)
Fixpoint last_elem (path last : list Z) : list Z :=
  match path with
  | [] => last
  | c :: p => last_elem p (if c =? slash then p else last)
  end.
Definition string_of (l : list Z) : string :=
  String.string_of_list_ascii (map (fun c => Ascii.ascii_of_nat (Z.to_nat c)) l).

(** *** The change-over *)

(** Lines 114 to 129. *)
Definition commit_image (me : nat) (d size entry sp : Z) : M K (stage Z) :=
  p <- getproc me ;;
  setproc me (fun p => p <| pgdir := d |> <| sz := size |>
    <| tf ::= fun t => t <| eip := entry |> <| esp := sp |> |>) ;;
  Sched.switchuvm me ;;
  r <- dealloc_other_threads me ;;
  if bool_decide (master p = None) then
    match r with
    | Done _ => env (mem (Vm.freevm (l_end lay) (pgdir p))) ;; ret (Done 0)
    | Asleep ie => ret (Asleep ie)
    end
  else ret (match r with Done _ => Done 0 | Asleep ie => Asleep ie end).

Definition exec (path : list Z) (argv : list (list Z)) : M K (stage Z) :=
  me <- curproc ;;
  p <- getproc me ;;
  if killed p then ret (Done (-1)) else
  sleep_other_threads me ;;
  as_me begin_op ;;
  o <- as_me (fs (namei sw path)) ;;
  match o with
  | None => as_me end_op ;; ret (Done (-1))
  | Some ip =>
      img <- as_me (load_image ip) ;;
      match img with
      | None => ret (Done (-1))
      | Some (d, sz, entry) =>
          let sz := PGROUNDUP sz in
          setproc me (fun p => p <| originalbase := sz |>) ;;
          sz <- umem (Vm.allocuvm (l_end lay) d sz (u32 (sz + 2 * Kalloc.PGSIZE))) ;;
          if sz =? 0 then as_me (exec_bad (Some d) None) ;; ret (Done (-1)) else
          umem (Vm.clearpteu d (u32 (sz - 2 * Kalloc.PGSIZE))) ;;
          sp <- umem (build_stack d argv sz) ;;
          match sp with
          | None => as_me (exec_bad (Some d) None) ;; ret (Done (-1))
          | Some sp =>
              setproc me (fun p => p <| name := name16 (string_of (last_elem path path)) |>) ;;
              commit_image me d sz entry sp
          end
      end
  end.

(** *** sys_exec *)

(** The loop that fetches the arguments, [n] words left in [argv]. *)
Fixpoint fetch_args (n : nat) (uargv i : Z) : M K (option (list (list Z))) :=
  match n with
  | O => ret None
  | S n' =>
      r <- fetchint (u32 (uargv + 4 * i)) ;;
      match r with
      | None => ret None
      | Some uarg =>
          if uarg =? 0 then ret (Some []) else
          s <- fetchstr (u32 uarg) ;;
          match s with
          | None => ret None
          | Some s =>
              r <- fetch_args n' uargv (i + 1) ;;
              ret (match r with Some l => Some (s :: l) | None => None end)
          end
      end
  end.
Definition sys_exec : M K (stage Z) :=
  path <- argstr 0 ;;
  match path with
  | None => ret (Done (-1))
  | Some path =>
      uargv <- argint 1 ;;
      match uargv with
      | None => ret (Done (-1))
      | Some uargv =>
          argv <- fetch_args MAXARG uargv 0 ;;
          match argv with
          | None => ret (Done (-1))
          | Some argv => exec path argv
          end
      end
  end.
End exec.

(** ** A failing [exec]

    A thread of a process calls [exec] on a directory (the empty path is the
    working directory), which is no program. *)
Definition dir_inode : inode :=
  inode0 <| i_dev := 1 |> <| i_inum := 1 |> <| i_ref := 1 |> <| i_valid := true |> <| i_type := T_DIR |> <| i_nlink := 1 |>.
Definition fail_kernel : kernel (sysst Bufcache.view) :=
  (kernel0 (mkCpu 0 0 true true)
    (mkSys (mkFs (Log.mkSb 1000 900 200 60 2 62 90) (dir_inode :: replicate 49 inode0) 1 None Log.empty_log)
       [] ∅ Vm.demo_space false []))
    <| k_curproc := Some 0%nat |>
    <| k_procs := Syscall.demo_proc <| pid := 1 |> <| cwd := Some 0%nat |> <| next_thread := Some 1%nat |>
               :: Syscall.demo_proc <| pid := 1 |> <| state := RUNNABLE |> <| master := Some 0%nat |>
                                    <| prev_thread := Some 0%nat |>
               :: replicate 62 proc0 |>.
Definition fail_layout : layout Bufcache.view :=
  mkLayout Kalloc.demo_end Kalloc.demo_end 0 0 0 [] (mkDevsw (fun _ => None) (fun _ => None)).
Import Ideal.

(** An [exec] that fails leaves the other threads of the process asleep on no
    channel: [exec] has taken them off the run queue before it looks for the file
    and nothing makes them runnable again. *)
Theorem failed_exec_freezes_threads :
  match exec fail_layout [] [] fail_kernel with
  | Ok r k => r = Done (-1) /\
      (fun p => (state p, chan p)) <$> k_procs fail_kernel !! 1%nat = Some (RUNNABLE, None) /\
      (fun p => (state p, chan p)) <$> k_procs k !! 1%nat = Some (SLEEPING, None)
  | _ => False
  end.
Proof. vm_compute. split_and!; reflexivity. Qed.
End Exec.
