(* ===== verification/Execstack.v ===== *)
(** * The first stack of a program (xv6-public/exec.c, lines 88 to 105)

    [exec] puts the argument strings at the top of the new stack and below them
    the return address, [argc] and [argv] that [main] expects. *)

From S2P Require Import Prelude Bytes Kalloc Vm Exec.

Module Execstack.
Import Kalloc Vm Exec.

Section stack.
Context (kend : Z) (Hend : KERNBASE < kend) (d : Z) (l : list Z).
Implicit Types s : memst.

(** The bytes at user address [va]. *)
Definition at_mem s (va : Z) (buf : list Z) : Prop :=
  forall i x, buf !! i = Some x -> ubyte s d (va + Z.of_nat i) = x.
Definition uword s (a : Z) : Z :=
  ubyte s d a + 256 * ubyte s d (a + 1) + 65536 * (ubyte s d (a + 2) + 256 * ubyte s d (a + 3)).

(** The stack from [lo] up to [hi]: pages that the user may access. *)
Record stack_ok s (lo hi : Z) : Prop := {
  sk_dir : dir_ok kend s d l;
  sk_user : user_ok kend s d l;
  sk_range : 0 <= lo /\ hi <= KERNBASE;
  sk_vis n : lo / PGSIZE <= n <= (hi - 1) / PGSIZE -> uservis s d n = true
}.
(** Nothing but the bytes from [lo] up to [hi] has changed. *)
Definition only s (lo hi : Z) s' : Prop :=
  (forall m, 0 <= m < 2 ^ 20 -> entry s' d m = entry s d m) /\
  forall a, 0 <= a < KERNBASE -> mapped s d (a / PGSIZE) = true -> ~ (lo <= a < hi) -> ubyte s' d a = ubyte s d a.

Lemma only_refl s lo : only s lo lo s.
Proof. done. Qed.
Lemma page_bound a : 0 <= a < KERNBASE -> 0 <= a / PGSIZE < 2 ^ 20.
Proof.
  intros Ha. unfold PGSIZE, KERNBASE in *. split; [apply Z.div_pos; lia|apply Z.div_lt_upper_bound; lia].
Qed.
Lemma only_trans s s1 s2 lo mid hi :
  lo <= mid <= hi -> only s mid hi s1 -> only s1 lo mid s2 -> only s lo hi s2.
Proof.
  intros Hle [E1 H1] [E2 H2]. split.
  - intros m Hm. by rewrite E2, E1.
  - intros a Ha Hm Hout. rewrite H2, H1; [done|done|done|lia|done| |lia].
    rewrite (mapped_entry s); [done|]. by apply E1, page_bound.
Qed.

Lemma stack_keep s s' lo hi :
  stack_ok s lo hi -> dir_ok kend s' d l -> user_ok kend s' d l ->
  (forall m, 0 <= m < 2 ^ 20 -> entry s' d m = entry s d m) -> stack_ok s' lo hi.
Proof.
  intros [H1 H2 H3 H4] Hd Hu He. split; [done|done|done|]. intros n Hn. rewrite <- (H4 n Hn).
  unfold uservis, mapped. rewrite He; [done|].
  pose proof (Z.div_pos lo PGSIZE ltac:(lia) ltac:(done)).
  assert ((hi - 1) / PGSIZE < 2 ^ 20) by (apply Z.div_lt_upper_bound; unfold KERNBASE, PGSIZE in *; lia). lia.
Qed.

Lemma vis_mapped s n : uservis s d n = true -> mapped s d n = true.
Proof. unfold uservis. by intros [? _]%andb_prop. Qed.

(** A write inside the stack. *)
Lemma push_run s lo hi va buf :
  stack_ok s lo hi -> lo <= va -> va + Z.of_nat (length buf) <= hi -> buf <> [] ->
  exists s', copyout d va buf s = Ok 0 s' /\ stack_ok s' lo hi /\ at_mem s' va buf /\
    only s va (va + Z.of_nat (length buf)) s'.
Proof.
  intros Hs Hva Hhi Hne. destruct (sk_range _ _ _ Hs) as [Hlo Hmax].
  assert (0 < Z.of_nat (length buf)) as Hlen by (destruct buf; [done|cbn; lia]).
  assert (forall n, va / PGSIZE <= n <= (va + Z.of_nat (length buf) - 1) / PGSIZE -> uservis s d n = true) as Hvis.
  { intros n Hn. apply (sk_vis _ _ _ Hs).
    pose proof (Z.div_le_mono lo va PGSIZE ltac:(done) Hva).
    pose proof (Z.div_le_mono (va + Z.of_nat (length buf) - 1) (hi - 1) PGSIZE ltac:(done) ltac:(lia)). lia. }
  destruct (copyout_loop_run kend Hend d l (length buf) s va buf) as (s'&E&Hd&Hu&Hc&He&_);
    [lia|lia|lia|apply Hs|apply Hs|done|].
  exists s'. split; [exact E|]. split; [by eapply stack_keep|]. split.
  - intros i x Hx. pose proof (lookup_lt_Some _ _ _ Hx) as Hi. rewrite Hc.
    + rewrite decide_True by lia. replace (va + Z.of_nat i - va) with (Z.of_nat i) by lia.
      rewrite Nat2Z.id. by apply nth_lookup_Some.
    + lia.
    + assert (uservis s d ((va + Z.of_nat i) / PGSIZE) = true) as Hv.
      { apply Hvis. split; apply Z.div_le_mono; done || lia. }
      by apply vis_mapped.
  - split; [done|]. intros a Ha Hm Hout. rewrite Hc by done. by rewrite decide_False.
Qed.

(** *** Strings *)

Lemma align4 a : Z.land a (Z.lnot 3) = a / 4 * 4.
Proof.
  change 3 with (Z.ones 2). rewrite <- Z.ldiff_land, Z.ldiff_ones_r by lia.
  rewrite Z.shiftl_mul_pow2, Z.shiftr_div_pow2 by lia. done.
Qed.

(** What the strings take, each with its zero and the alignment. *)
Definition strings_size (argv : list (list Z)) : Z :=
  foldr (fun a n => Z.of_nat (length a) + 4 + n) 0 argv.
Lemma strings_size_pos argv : 0 <= strings_size argv.
Proof. unfold strings_size. induction argv as [|a argv IH]; cbn [foldr]; lia. Qed.

(** The strings lie at [ps], between [lo] and [hi]. *)
Definition strings_at s (lo hi : Z) (argv : list (list Z)) (ps : list Z) : Prop :=
  Forall2 (fun a p => lo <= p /\ p + Z.of_nat (length a) + 1 <= hi /\ at_mem s p (a ++ [0])) argv ps.

Lemma push_args_run argv : forall argc s lo hi sp,
  stack_ok s lo hi -> sp <= hi -> lo <= sp - strings_size argv -> (argc + length argv <= MAXARG)%nat ->
  exists sp' ps s', push_args d argc argv sp s = Ok (Some (sp', ps)) s' /\ stack_ok s' lo hi /\
    sp - strings_size argv <= sp' <= sp /\ (argv <> [] -> sp' mod 4 = 0) /\ (argv = [] -> sp' = sp) /\
    only s sp' sp s' /\ strings_at s' sp' sp argv ps.
Proof.
  induction argv as [|a argv IH]; intros argc s lo hi sp Hs Hhi Hlo Hn.
  { exists sp, [], s. cbn. split; [done|]. split; [done|]. split; [lia|]. split; [done|]. split; [done|].
    split; [apply only_refl|]. constructor. }
  cbn [push_args strings_size foldr length] in *. fold (strings_size argv) in *. pose proof (strings_size_pos argv) as Hpos.
  destruct (MAXARG <=? argc)%nat eqn:Em; [apply Nat.leb_le in Em; lia|].
  destruct (sk_range _ _ _ Hs) as [H0 HK]. unfold KERNBASE in HK. rewrite u32_small, align4 by lia.
  pose proof (Z.div_mod (sp - (Z.of_nat (length a) + 1)) 4 ltac:(lia)).
  pose proof (Z.mod_pos_bound (sp - (Z.of_nat (length a) + 1)) 4 ltac:(lia)).
  set (sp1 := (sp - (Z.of_nat (length a) + 1)) / 4 * 4) in *.
  assert (sp - (Z.of_nat (length a) + 4) <= sp1 <= sp - (Z.of_nat (length a) + 1)) as Hsp1 by lia.
  assert (length (a ++ [0]) = S (length a)) as Hla by (rewrite length_app; cbn; lia).
  destruct (push_run s lo hi sp1 (a ++ [0])) as (s1&E1&Hs1&Hm1&Ho1);
    [done|lia|rewrite Hla; lia|by destruct a|]. rewrite (bind_Ok _ _ _ _ _ E1). cbn [Z.ltb Z.compare].
  destruct (IH (S argc) s1 lo hi sp1) as (sp'&ps&s'&E&Hs'&Hb&Ha&Hnil&Ho&Hst); [done|lia|lia|lia|].
  rewrite (bind_Ok _ _ _ _ _ E). exists sp', (sp1 :: ps), s'. split; [done|]. split; [done|]. split; [lia|].
  split. { intros _. destruct argv; [rewrite Hnil by done; unfold sp1; apply Z.mod_mul; lia|by apply Ha]. }
  split; [done|]. rewrite Hla in Ho1. split.
  - apply (only_trans s s1 s' sp' sp1 sp); [lia| |done]. destruct Ho1 as [He1 Ho1]. split; [done|].
    intros b Hb1 Hb2 Hb3. apply Ho1; [done|done|lia].
  - constructor; [|eapply Forall2_impl; [exact Hst|]; cbn; intros x p (?&?&?); split_and!; [lia|lia|done]].
    split_and!; [lia|lia|]. intros i x Hx. pose proof (lookup_lt_Some _ _ _ Hx) as Hi. rewrite Hla in Hi.
    destruct Ho as [_ Ho]. rewrite Ho; [by apply Hm1|unfold KERNBASE; lia| |lia].
    assert (uservis s1 d ((sp1 + Z.of_nat i) / PGSIZE) = true) as Hv.
    { apply (sk_vis _ _ _ Hs1). split; (apply Z.div_le_mono; [done|lia]). }
    by apply vis_mapped.
Qed.

(** *** Words *)

Lemma words_lookup ws : forall i w j x,
  ws !! i = Some w -> put32 0 w [0; 0; 0; 0] !! j = Some x -> words ws !! (4 * i + j)%nat = Some x.
Proof.
  induction ws as [|v ws IH]; intros i w j x Hw Hx; [done|]. unfold words. cbn [map concat]. fold (words ws).
  pose proof (lookup_lt_Some _ _ _ Hx) as Hj. rewrite length_put32 in Hj. cbn in Hj. destruct i as [|i].
  - injection Hw as ->. rewrite lookup_app_l; [done|]. rewrite length_put32. cbn. lia.
  - rewrite lookup_app_r by (rewrite length_put32; cbn; lia). rewrite length_put32. cbn [length].
    replace (4 * S i + j - 4)%nat with (4 * i + j)%nat by lia. by apply (IH i w).
Qed.
Lemma length_words ws : length (words ws) = (4 * length ws)%nat.
Proof.
  induction ws as [|w ws IH]; [done|]. unfold words in *. cbn [map concat length]. rewrite length_app, IH, length_put32. cbn. lia.
Qed.

Lemma uword_words s sp ws i w :
  at_mem s sp (words ws) -> ws !! i = Some w -> 0 <= w < 2 ^ 32 -> uword s (sp + 4 * Z.of_nat i) = w.
Proof.
  intros Hm Hw Hr.
  assert (forall j x, put32 0 w [0; 0; 0; 0] !! j = Some x -> ubyte s d (sp + 4 * Z.of_nat i + Z.of_nat j) = x) as Hb.
  { intros j x Hx. rewrite <- (Hm _ _ (words_lookup ws i w j x Hw Hx)). f_equal. lia. }
  pose proof (get32_put32 0 w [0; 0; 0; 0] ltac:(cbn; lia)) as Hg. rewrite (u32_small w) in Hg by done.
  etrans; [|exact Hg]. unfold get32, get16, byte_at, uword.
  pose proof (Hb 0%nat _ eq_refl) as H0. pose proof (Hb 1%nat _ eq_refl) as H1.
  pose proof (Hb 2%nat _ eq_refl) as H2. pose proof (Hb 3%nat _ eq_refl) as H3.
  change (Z.of_nat 1) with 1 in H1. change (Z.of_nat 2) with 2 in H2. change (Z.of_nat 3) with 3 in H3.
  change (Z.of_nat 0) with 0 in H0. rewrite Z.add_0_r in H0.
  rewrite H0, H1, H2, H3. reflexivity.
Qed.

(** C8: The new program finds its arguments.  For up to [MAXARG] strings that fit
    into the stack, [exec] lays out, below the strings, a return address that
    faults, [argc], the address of [argv] and [argv] itself, whose entries point
    at the strings, each ended by a zero, and whose last entry is null; the stack
    pointer is aligned, and no byte outside is touched. *)
Theorem build_stack_correct argv s lo hi :
  stack_ok s lo hi -> hi mod 4 = 0 -> (length argv <= MAXARG)%nat ->
  lo <= hi - strings_size argv - 4 * (4 + Z.of_nat (length argv)) ->
  exists sp ps s', build_stack d argv hi s = Ok (Some sp) s' /\ lo <= sp /\ sp mod 4 = 0 /\
    uword s' sp = 0xffffffff /\ uword s' (sp + 4) = Z.of_nat (length argv) /\ uword s' (sp + 8) = sp + 12 /\
    (forall i p, ps !! i = Some p -> uword s' (sp + 12 + 4 * Z.of_nat i) = p) /\
    uword s' (sp + 12 + 4 * Z.of_nat (length argv)) = 0 /\
    strings_at s' sp hi argv ps /\ only s sp hi s'.
Proof.
  intros Hs Hal Hn Hlo. pose proof (strings_size_pos argv).
  destruct (push_args_run argv 0 s lo hi hi) as (sp1&ps&s1&E1&Hs1&Hb1&Ha1&Hnil1&Ho1&Hst1); [done|lia|lia|lia|].
  destruct (sk_range _ _ _ Hs) as [H0 HK]. pose proof HK as HK'. unfold KERNBASE in HK'.
  assert (length ps = length argv) as Hlps by (symmetry; by eapply Forall2_length).
  unfold build_stack. rewrite (bind_Ok _ _ _ _ _ E1). cbv zeta. rewrite Hlps.
  set (argc := Z.of_nat (length argv)) in *. rewrite (u32_small (sp1 - (argc + 1) * 4)), (u32_small (sp1 - (3 + argc + 1) * 4)) by lia.
  set (ws := [_; _; _] ++ ps ++ [0]). assert (length ws = (4 + length argv)%nat) as Hlw
    by (unfold ws; rewrite !length_app, Hlps; cbn; lia).
  set (sp := sp1 - (3 + argc + 1) * 4).
  destruct (push_run s1 lo hi sp (words ws)) as (s2&E2&Hs2&Hm2&Ho2); [done|lia|rewrite length_words; lia| |].
  { intros Hw. apply (f_equal length) in Hw. rewrite length_words in Hw. cbn in Hw. lia. }
  rewrite (bind_Ok _ _ _ _ _ E2). cbn [Z.ltb Z.compare]. exists sp, ps, s2.
  assert (forall i w, ws !! i = Some w -> 0 <= w < 2 ^ 32 -> uword s2 (sp + 4 * Z.of_nat i) = w) as Hw
    by (intros i w; by apply uword_words).
  assert (sp1 mod 4 = 0) as Hal1 by (destruct argv; [by rewrite Hnil1|by apply Ha1]).
  assert (forall p, p ∈ ps -> 0 <= p < 2 ^ 32) as Hps.
  { intros p (i&Hp)%list_elem_of_lookup. destruct (Forall2_lookup_r _ _ _ _ _ Hst1 Hp) as (a&_&?&?&_). lia. }
  rewrite length_words, Hlw in Ho2. split; [done|]. split; [lia|]. split_and!.
  - unfold sp. rewrite Z.mod_divide in * by lia. destruct Hal1 as [q Hq]. exists (q - (3 + argc + 1)). lia.
  - rewrite <- (Z.add_0_r sp). apply (Hw 0%nat); [done|lia].
  - apply (Hw 1%nat); [done|lia].
  - etrans; [apply (Hw 2%nat); [done|lia]|lia].
  - intros i p Hp. replace (sp + 12 + 4 * Z.of_nat i) with (sp + 4 * Z.of_nat (3 + i)) by lia. apply Hw.
    + unfold ws. rewrite lookup_app_r by (cbn; lia). cbn [length]. replace (3 + i - 3)%nat with i by lia.
      rewrite lookup_app_l; [done|]. by eapply lookup_lt_Some.
    + by apply Hps, list_elem_of_lookup_2 with i.
  - replace (sp + 12 + 4 * argc) with (sp + 4 * Z.of_nat (3 + length ps)) by lia. apply Hw; [|lia].
    unfold ws. rewrite lookup_app_r by (cbn; lia). cbn [length]. replace (3 + length ps - 3)%nat with (length ps) by lia.
    by rewrite lookup_app_r, Nat.sub_diag by lia.
  - eapply Forall2_impl; [exact Hst1|]. cbn. intros a p (Hp1&Hp2&Hp3). split_and!; [lia|lia|].
    intros i x Hx. pose proof (lookup_lt_Some _ _ _ Hx) as Hi. rewrite length_app in Hi. cbn in Hi.
    destruct Ho2 as [_ Ho2]. rewrite Ho2; [by apply Hp3|lia| |lia].
    apply vis_mapped, (sk_vis _ _ _ Hs1). split; (apply Z.div_le_mono; [done|lia]).
  - apply (only_trans s s1 s2 sp sp1 hi); [lia|done|]. replace sp1 with (sp + Z.of_nat (4 * (4 + length argv))) by lia. done.
Qed.
End stack.

(** ** Witness: two arguments on the page of Vm.v *)
Lemma demo_stack : stack_ok demo_end (demo_at 0) demo_list demo_space 0 PGSIZE.
Proof.
  split; [exact demo_dir|exact demo_user|vm_compute; split; discriminate|].
  intros n Hn. change (0 / PGSIZE) with 0 in Hn. change ((PGSIZE - 1) / PGSIZE) with 0 in Hn.
  assert (n = 0) as -> by lia. vm_compute. reflexivity.
Qed.

Lemma build_stack_correct_witness :
  exists sp ps s', build_stack (demo_at 0) [[104; 105]; [97]] PGSIZE demo_space = Ok (Some sp) s' /\
    uword (demo_at 0) s' (sp + 4) = 2 /\ strings_at (demo_at 0) s' sp PGSIZE [[104; 105]; [97]] ps.
Proof.
  destruct (build_stack_correct demo_end demo_end_ok (demo_at 0) demo_list [[104; 105]; [97]] demo_space 0 PGSIZE)
    as (sp&ps&s'&E&_&_&_&Hc&_&_&_&Hs&_);
    [exact demo_stack|reflexivity|cbn; lia|vm_compute; discriminate|].
  exists sp, ps, s'. exact (conj E (conj Hc Hs)).
Defined.
End Execstack.
