(* ===== verification/Acct.v ===== *)
(** * What the file system takes and gives back

    References to inodes, locks on inodes and open transactions are counted;
    [moves m d] says by how much a routine changes each count when it returns.
    The rule for sequencing subtracts what is accounted for as it goes along the
    text of a routine, so that for a routine that gives back all it takes what
    is left at each [return] is zero. *)

From S2P Require Import Prelude Spinlock Bytes Bufcache Log Txdisk Fs.

(** The references to inode [i], the locks on it, the transactions open and the
    references to file [f]. *)
Inductive obs : Type := IRef (i : nat) | ILock (i : nat) | Ops | FRef (f : nat).
#[global] Instance obs_eq_dec : EqDecision obs.
Proof. solve_decision. Defined.

Definition one (x o : obs) : Z := if decide (x = o) then 1 else 0.
#[global] Arguments one : simpl never.

(** ** Accounting *)

(** A state in which things are counted, and what is well formed about it. *)
Class Tally (S : Type) := { tally : S -> obs -> Z; okay : S -> Prop }.

(** From a state in [P], if [m] returns [a], then the counts have moved by
    [d a] and the state is in [Q a]. *)
Definition acc {S} `{Tally S} {A} (P : S -> Prop) (m : M S A) (d : A -> obs -> Z) (Q : A -> S -> Prop) : Prop :=
  forall s a s', P s -> m s = Ok a s' -> Q a s' /\ forall o, tally s' o = tally s o + d a o.
Definition moves {S} `{Tally S} {A} (m : M S A) (d : A -> obs -> Z) : Prop :=
  acc okay m d (fun _ => okay).
(** Nothing changes. *)
Abbreviation still m := (moves m (fun _ _ => 0)).

Section acc.
Context {S : Type} `{Tally S}.

Lemma acc_bind {A B} (m : M S A) (k : A -> M S B) P R Q d1 d :
  acc P m d1 R -> (forall a, acc (R a) (k a) (fun b o => d b o - d1 a o) Q) -> acc P (bind m k) d Q.
Proof.
  intros Hm Hk s b s'' HP (a&s'&E1&E2)%bind_inv.
  destruct (Hm _ _ _ HP E1) as [HR H1]. destruct (Hk a _ _ _ HR E2) as [HQ H2].
  split; [done|]. intros o. rewrite H2, H1. lia.
Qed.
Lemma acc_ret {A} (a : A) P Q d :
  (forall o, d a o = 0) -> (forall s, P s -> Q a s) -> acc P (ret a) d Q.
Proof. intros Hd HQ s ? ? HP [= <- <-]. split; [by apply HQ|]. intros o. rewrite Hd. lia. Qed.
Lemma acc_conseq {A} (m : M S A) (P P' : S -> Prop) (Q Q' : A -> S -> Prop) d d' :
  acc P' m d' Q' -> (forall s, P s -> P' s) -> (forall a s, Q' a s -> Q a s) ->
  (forall a o, d a o = d' a o) -> acc P m d Q.
Proof.
  intros Hm HP HQ Hd s a s' Hs E. destruct (Hm _ _ _ (HP _ Hs) E) as [H1 H2].
  split; [by apply HQ|]. intros o. by rewrite Hd.
Qed.
Lemma acc_stop {A} (m : M S A) P Q d : (forall s a s', m s <> Ok a s') -> acc P m d Q.
Proof. intros Hm s a s' _ E. by destruct (Hm _ _ _ E). Qed.
Lemma moves_bind {A B} (m : M S A) (k : A -> M S B) d1 d :
  moves m d1 -> (forall a, moves (k a) (fun b o => d b o - d1 a o)) -> moves (bind m k) d.
Proof. apply acc_bind. Qed.
Lemma moves_ret {A} (a : A) d : (forall o, d a o = 0) -> moves (ret a) d.
Proof. intros Hd. apply acc_ret; [done|]. intros s Hs. exact Hs. Qed.
Lemma moves_eq {A} (m : M S A) d d' : moves m d' -> (forall a o, d a o = d' a o) -> moves m d.
Proof. intros Hm Hd. eapply acc_conseq; [exact Hm|done|done|done]. Qed.
Lemma moves_assoc {A B C} (m : M S A) (k : A -> M S B) (k' : B -> M S C) d :
  moves (bind m (fun a => bind (k a) k')) d -> moves (bind (bind m k) k') d.
Proof. intros Hm s c s' Hs E. rewrite bind_bind in E. by eapply Hm. Qed.
Lemma moves_ret_bind {A B} (a : A) (k : A -> M S B) d : moves (k a) d -> moves (bind (ret a) k) d.
Proof. done. Qed.
Lemma still_run {A} (m : M S A) s a s' :
  m s = Ok a s' -> okay s -> still m -> forall o, tally s' o = tally s o.
Proof. intros E Hs Hm o. destruct (Hm _ _ _ Hs E) as [_ ->]. lia. Qed.
Lemma still_gets {A} (f : S -> A) : still (gets f).
Proof. intros s a s' Hs [= <- <-]. split; [done|]. intros o. lia. Qed.
Lemma still_deref {A} (o : option A) : still (deref o : M S A).
Proof. destruct o; [by apply moves_ret|by apply acc_stop]. Qed.
Lemma still_when b (m : M S unit) : still m -> still (when b m).
Proof. intros Hm. destruct b; [done|by apply moves_ret]. Qed.
Lemma still_forM {X} (f : X -> M S unit) l : (forall x, still (f x)) -> still (forM l f).
Proof.
  intros Hf. induction l as [|x l IH]; [by apply moves_ret|].
  eapply moves_bind; [apply Hf|]. intros ?. eapply moves_eq; [apply IH|]. intros ? o. lia.
Qed.
Lemma moves_forR {X B} (f : X -> M S (option B)) l d :
  (forall x, moves (f x) d) -> (forall o, d None o = 0) -> moves (forR l f) d.
Proof.
  intros Hf Hd. induction l as [|x l IH]; [by apply moves_ret|].
  eapply moves_bind; [apply Hf|]. intros [b|].
  - apply moves_ret. intros o. lia.
  - eapply moves_eq; [apply IH|]. intros a o. rewrite Hd. lia.
Qed.
End acc.

Create HintDb moves.
#[export] Hint Resolve still_gets still_deref : moves.

(** Along the text of a routine; calls are looked up in the database [moves]. *)
Ltac moves_call := first [assumption | solve [eauto 4 with moves]].
Ltac moves_step :=
  lazymatch goal with
  | |- forall _, _ => intros ?; cbv beta
  | |- moves (bind (match ?x with _ => _ end) _) _ => destruct x
  | |- moves (bind (bind _ _) _) _ => apply moves_assoc
  | |- moves (bind (ret _) _) _ => apply moves_ret_bind
  | |- moves (bind (deref (Some _)) _) _ => apply moves_ret_bind
  | |- moves (bind (deref None) _) _ => apply acc_stop; intros ? ? ?; discriminate
  | |- moves (bind _ _) _ => eapply moves_bind; [moves_call|intros ?; cbv beta]
  | |- moves (ret _) _ => apply moves_ret; intros ?; cbn; lia
  | |- moves (panic _) _ => apply acc_stop; intros ? ? ?; discriminate
  | |- moves fault _ => apply acc_stop; intros ? ? ?; discriminate
  | |- moves spin _ => apply acc_stop; intros ? ? ?; discriminate
  | |- moves (sleepon _) _ => apply acc_stop; intros ? ? ?; discriminate
  | |- moves (match ?x with _ => _ end) _ => destruct x
  | |- moves _ _ => eapply moves_eq; [moves_call|intros ? ?; cbn; lia]
  end.
Ltac moves_tac := repeat moves_step.
Ltac to_moves := lazymatch goal with |- acc _ ?m ?d _ => change (moves m d) end.

(** ** The routines of fs.c *)

Module Acct.
Import Log Sleeplock Fs.

Section fs.
Context {B : Type} `{BufCache B}.
Abbreviation L := (Log.logst B).
Abbreviation F := (fsst L).

Definition fs_count (s : F) (o : obs) : Z :=
  match o with
  | IRef i => from_option i_ref 0 (f_inodes s !! i)
  | ILock i => if from_option (fun x => sl_locked (i_lock x)) false (f_inodes s !! i) then 1 else 0
  | Ops => Log.lg_outstanding (f_disk s)
  | FRef _ => 0
  end.
#[export] Instance fs_tally : Tally F := {| tally := fs_count; okay _ := True |}.

(** Routines of the log that leave the number of open transactions alone. *)
Definition same_ops : relation L := fun l l' => Log.lg_outstanding l' = Log.lg_outstanding l.
#[local] Instance same_ops_po : PreOrder same_ops.
Proof. split; [by intros ?|]. intros ? ? ? H1 H2. unfold same_ops in *. congruence. Qed.

Lemma ops_zoom {A} (m : M B A) : keeps same_ops (zoom Log.lg_st m).
Proof. by apply keeps_zoom. Qed.
Lemma ops_modify (g : L -> L) : (forall l, Log.lg_outstanding (g l) = Log.lg_outstanding l) -> keeps same_ops (modify g).
Proof. intros. by apply keeps_modify. Qed.
Hint Resolve ops_zoom : keeps.
Hint Extern 1 (keeps same_ops (modify _)) => apply ops_modify; intros; reflexivity : keeps.

Lemma ops_acquire : keeps same_ops Log.acquire_log.
Proof. unfold Log.acquire_log. keeps_tac. Qed.
Lemma ops_release : keeps same_ops Log.release_log.
Proof. unfold Log.release_log. keeps_tac. Qed.
Lemma ops_wake c : keeps same_ops (Log.wake c).
Proof. unfold Log.wake. keeps_tac. Qed.
Hint Resolve ops_acquire ops_release ops_wake : keeps.
Lemma ops_log_write i : keeps same_ops (Log.log_write i).
Proof. unfold Log.log_write, Log.entry. keeps_tac. Qed.
Lemma ops_entry j : keeps same_ops (Log.entry j).
Proof. unfold Log.entry. keeps_tac. Qed.
Lemma ops_rd b : keeps same_ops (Log.rd b).
Proof. unfold Log.rd. keeps_tac. Qed.
Hint Resolve ops_entry ops_rd : keeps.
Lemma ops_log_one t : keeps same_ops (Log.log_one t).
Proof. unfold Log.log_one, Log.buf_data, Log.buf_set, Log.buf_write, Log.buf_release. keeps_tac. Qed.
Lemma ops_install_one t : keeps same_ops (Log.install_one t).
Proof. unfold Log.install_one, Log.buf_data, Log.buf_set, Log.buf_write, Log.buf_release. keeps_tac. Qed.
Lemma ops_write_head : keeps same_ops Log.write_head.
Proof. unfold Log.write_head, Log.buf_data, Log.buf_set, Log.buf_write, Log.buf_release. keeps_tac. Qed.
Hint Resolve ops_log_one ops_install_one ops_write_head : keeps.
Lemma ops_commit : keeps same_ops Log.commit.
Proof. unfold Log.commit, Log.write_log, Log.install_trans. keeps_tac. Qed.

Lemma ops_sleepon {A} c : keeps (A:=A) same_ops (sleepon c).
Proof. done. Qed.
Hint Resolve ops_log_write ops_commit ops_sleepon : keeps.
Lemma ops_sync : keeps same_ops Log.sync.
Proof. unfold Log.sync, Log.sync_enter, Log.sync_wait, Log.sync_finish, Log.sleep_log. keeps_tac. Qed.

(** *** Transactions *)

Lemma tally_disk (s : F) l o :
  tally (s <| f_disk := l |>) o =
    tally s o + (if decide (o = Ops) then Log.lg_outstanding l - Log.lg_outstanding (f_disk s) else 0).
Proof. cbn [tally fs_tally]; unfold fs_count. destruct o; case_decide; try congruence; proj_upd; lia. Qed.

Lemma still_disk {A} (m : M L A) : keeps same_ops m -> still (zoom f_disk m).
Proof.
  intros Hm s a s' _. unfold zoom. destruct (m (f_disk s)) eqn:E; intros [= <- <-].
  split; [done|]. intros o. rewrite tally_disk, (Hm _ _ _ E). case_decide; lia.
Qed.

Lemma begin_op_moves : moves (zoom f_disk Log.begin_op) (fun _ => one Ops).
Proof.
  intros s a s' _. unfold zoom. destruct (Log.begin_op (f_disk s)) eqn:E; intros [= <- <-].
  split; [done|]. intros o. rewrite tally_disk. unfold Log.begin_op in E.
  apply bind_inv in E as (?&l1&E1&E). pose proof (ops_acquire _ _ _ E1) as H1. unfold same_ops in H1.
  rewrite bind_gets in E. unfold id in E.
  destruct (Log.lg_committing l1); [by apply bind_inv in E as (?&?&_&[=])|].
  destruct (_ <? _); [by apply bind_inv in E as (?&?&_&[=])|].
  rewrite bind_modify in E. apply ops_release in E. unfold same_ops in E. proj_upd in E.
  unfold one. repeat case_decide; try congruence; lia.
Qed.

Lemma end_op_moves : moves (zoom f_disk Log.end_op) (fun _ o => - one Ops o).
Proof.
  intros s a s' _. unfold zoom. destruct (Log.end_op (f_disk s)) eqn:E; intros [= <- <-].
  split; [done|]. intros o. rewrite tally_disk. unfold Log.end_op in E.
  apply bind_inv in E as (?&l1&E1&E). pose proof (ops_acquire _ _ _ E1) as H1. unfold same_ops in H1.
  rewrite bind_modify in E. set (l2 := l1 <| _ ::= _ |>) in E.
  assert (Log.lg_outstanding l2 = Log.lg_outstanding l1 - 1) as H2 by (unfold l2; proj_upd; lia).
  assert (same_ops l2 s0) as H3.
  { lazymatch type of E with ?m l2 = Ok _ _ => enough (keeps same_ops m) as Hk by exact (Hk _ _ _ E) end.
    pose proof ops_sync. keeps_tac. }
  unfold same_ops in H3. unfold one. repeat case_decide; try congruence; lia.
Qed.

(** *** Blocks *)

Lemma still_bread dev b : still (bread dev b).
Proof. apply still_disk, ops_zoom. Qed.
Lemma still_bdata i : still (bdata i).
Proof. apply still_disk, ops_zoom. Qed.
Lemma still_bset i x : still (bset i x).
Proof. apply still_disk, ops_zoom. Qed.
Lemma still_blog i : still (blog i).
Proof. apply still_disk, ops_log_write. Qed.
Lemma still_brelse i : still (brelse i).
Proof. apply still_disk, ops_zoom. Qed.
Lemma still_sb (g : F -> F) : (forall s, f_inodes (g s) = f_inodes s /\ f_disk (g s) = f_disk s) -> still (modify g).
Proof.
  intros Hg s a s' _ [= <- <-]. split; [done|]. intros o. destruct (Hg s) as [Hi Hd].
  cbn [tally fs_tally]; unfold fs_count. destruct o; rewrite ?Hi, ?Hd; lia.
Qed.
Hint Resolve still_bread still_bdata still_bset still_blog still_brelse : moves.

Lemma still_readsb dev : still (readsb dev).
Proof.
  unfold readsb. moves_tac. eapply moves_bind; [apply (still_sb _); done|intros ?]. moves_tac.
Qed.
Lemma still_bzero dev b : still (bzero dev b).
Proof. unfold bzero. moves_tac. Qed.
Hint Resolve still_readsb still_bzero : moves.
Lemma still_balloc dev : still (balloc dev).
Proof.
  unfold balloc. moves_step. eapply moves_bind.
  - apply moves_forR with (d := fun _ _ => 0); [|done]. intros b. unfold balloc_one. moves_tac.
  - moves_tac.
Qed.
Lemma still_bfree dev b : still (bfree dev b).
Proof. unfold bfree. moves_tac. Qed.
Hint Resolve still_balloc still_bfree : moves.

(** *** Inodes *)

Lemma still_geti i : still (geti i).
Proof. unfold geti. moves_tac. Qed.
Hint Resolve still_geti : moves.

Lemma geti_inv i (s : F) x s' : geti i s = Ok x s' -> s' = s /\ f_inodes s !! i = Some x.
Proof. unfold geti. rewrite bind_gets. by destruct (f_inodes s !! i) eqn:E; intros [= <- <-]. Qed.

(** The counts after an update of inode [i]. *)
Lemma seti_inv i g (s : F) u s' :
  seti i g s = Ok u s' -> exists x, f_inodes s !! i = Some x /\
    forall o, tally s' o = tally s o + (i_ref (g x) - i_ref x) * one (IRef i) o +
      ((if sl_locked (i_lock (g x)) then 1 else 0) - (if sl_locked (i_lock x) then 1 else 0)) * one (ILock i) o.
Proof.
  unfold seti. intros (x&s1&(->&Hx)%geti_inv&[= <- <-])%bind_inv. exists x. split; [done|]. intros o.
  cbn [tally fs_tally]; unfold fs_count, one. destruct o as [j|j| |f]; proj_upd; repeat case_decide; simplify_eq; try lia.
  - rewrite list_lookup_alter_eq, Hx. cbn. lia.
  - rewrite list_lookup_alter_ne by congruence. lia.
  - rewrite list_lookup_alter_eq, Hx. cbn. repeat case_match; lia.
  - rewrite list_lookup_alter_ne by congruence. lia.
Qed.

Lemma still_seti i g :
  (forall x, i_ref (g x) = i_ref x /\ sl_locked (i_lock (g x)) = sl_locked (i_lock x)) -> still (seti i g).
Proof.
  intros Hg s u s' _ (x&Hx&Ht)%seti_inv. split; [done|]. intros o. destruct (Hg x) as [Hr Hl].
  rewrite Ht, Hr, Hl. lia.
Qed.
Hint Extern 1 (moves (seti _ _) _) => apply still_seti; intros; split; reflexivity : moves.

Lemma still_iupdate i : still (iupdate i).
Proof. unfold iupdate. moves_tac. Qed.
Hint Resolve still_iupdate : moves.

Lemma idup_moves i : moves (idup i) (fun r o => one (IRef r) o).
Proof.
  intros s r s' _ (?&s1&(x&Hx&Ht)%seti_inv&[= <- <-])%bind_inv. split; [done|]. intros o. rewrite Ht. proj_upd. lia.
Qed.

Lemma iget_scan_acc dev inum l : forall e,
  acc (fun s => forall i, e = Some i -> tally s (IRef i) = 0) (iget_scan l dev inum e)
    (fun r o => match r with inl i => one (IRef i) o | inr _ => 0 end)
    (fun r s => forall i, r = inr (Some i) -> tally s (IRef i) = 0).
Proof.
  induction l as [|i l IH]; intros e; cbn [iget_scan].
  - apply acc_ret; [done|]. intros s He j [= ->]. by apply He.
  - intros s r s' He (x&s1&(->&Hx)%geti_inv&E)%bind_inv. destruct (_ && _ && _).
    + apply bind_inv in E as (?&s1&(y&Hy&Ht)%seti_inv&[= <- <-]). split; [done|]. intros o. rewrite Ht. proj_upd. lia.
    + eapply IH; [|exact E]. intros j. case_match eqn:Eb; [|by apply He]. intros [= ->]. bool_hyps.
      cbn [tally fs_tally]; unfold fs_count. rewrite Hx. cbn. lia.
Qed.

Lemma iget_moves dev inum : moves (iget dev inum) (fun i o => one (IRef i) o).
Proof.
  unfold iget. eapply acc_bind; [eapply acc_conseq; [apply iget_scan_acc|done|intros ? ? HQ; exact HQ|done]|].
  intros [i|[i|]].
  - apply acc_ret; [|done]. intros o. lia.
  - intros s a s' HR (?&s1&(x&Hx&Ht)%seti_inv&[= <- <-])%bind_inv. split; [done|]. intros o.
    specialize (HR _ eq_refl). cbn [tally fs_tally] in HR; unfold fs_count in HR. rewrite Hx in HR. cbn in HR.
    rewrite Ht. proj_upd. lia.
  - by apply acc_stop.
Qed.
Hint Resolve idup_moves iget_moves : moves.

Lemma ialloc_moves dev type : moves (ialloc dev type) (fun i o => one (IRef i) o).
Proof.
  unfold ialloc. moves_step. eapply moves_bind.
  - apply moves_forR with (d := fun r o => match r with Some i => one (IRef i) o | None => 0 end); [|done].
    intros inum. moves_tac.
  - intros [i|]; moves_tac.
Qed.
Hint Resolve ialloc_moves : moves.

Lemma lock_inode_moves i : moves (lock_inode i) (fun _ o => one (ILock i) o).
Proof.
  unfold lock_inode. intros s u s' _ (x&s1&(->&Hx)%geti_inv&E)%bind_inv. rewrite bind_gets in E.
  destruct (sl_locked (i_lock x)) eqn:El; [done|]. apply seti_inv in E as (y&Hy&Ht). split; [done|].
  intros o. rewrite Hx in Hy. injection Hy as <-. rewrite Ht. proj_upd. rewrite El. cbn. lia.
Qed.
Hint Resolve lock_inode_moves : moves.

Lemma ilock_moves i : moves (ilock i) (fun _ o => one (ILock i) o).
Proof. unfold ilock. moves_tac. Qed.

(** A lock that is held is let go. *)
Lemma unlock_inode_acc i :
  acc (fun s => tally s (ILock i) = 1) (unlock_inode i) (fun _ o => - one (ILock i) o) (fun _ _ => True).
Proof.
  unfold unlock_inode. intros s u s' HP (x&Hx&Ht)%seti_inv. split; [done|]. intros o. rewrite Ht. proj_upd.
  cbn [tally fs_tally] in HP; unfold fs_count in HP. rewrite Hx in HP. cbn in HP |- *. destruct (sl_locked _); lia.
Qed.

Lemma iunlock_moves i : moves (iunlock i) (fun _ o => - one (ILock i) o).
Proof.
  unfold iunlock. intros s u s' _ (x&s1&(->&Hx)%geti_inv&E)%bind_inv. rewrite bind_gets in E.
  destruct (negb _ || _) eqn:Eh; [done|]. unfold holdingsleep in Eh. bool_hyps.
  eapply unlock_inode_acc; [|exact E]. cbn [tally fs_tally]; unfold fs_count. rewrite Hx. cbn.
  by destruct (sl_locked (i_lock x)).
Qed.
Hint Resolve ilock_moves iunlock_moves : moves.

(** *** The blocks of a file *)

Lemma still_addr_slot i k : still (addr_slot i k).
Proof. unfold addr_slot. moves_tac. Qed.
Lemma still_indirect dev a k : still (indirect dev a k).
Proof. unfold indirect. moves_tac. Qed.
Hint Resolve still_addr_slot still_indirect : moves.
Lemma still_bmap i bn : still (bmap i bn).
Proof. unfold bmap. moves_tac. Qed.
Lemma still_free_tree depth : forall dev a, still (free_tree depth dev a).
Proof.
  induction depth as [|depth IH]; intros dev a; cbn [free_tree]; [apply still_bfree|].
  eapply moves_bind; [moves_call|intros bp]. eapply moves_bind; [apply still_forM; intros j|moves_tac].
  eapply moves_bind; [moves_call|intros d]. cbv beta zeta.
  eapply moves_eq; [apply still_when, IH|]. intros. cbn. lia.
Qed.
Hint Resolve still_bmap still_free_tree : moves.
Lemma still_free_slot depth i k : still (free_slot depth i k).
Proof. unfold free_slot, when. moves_tac. Qed.
Hint Resolve still_free_slot : moves.
Lemma still_itrunc i : still (itrunc i).
Proof.
  unfold itrunc. eapply moves_bind; [apply still_forM; intros; apply still_free_slot|]. moves_tac.
Qed.
Hint Resolve still_itrunc : moves.

(** [iput] gives back one reference; the lock it takes in between is free again. *)
Lemma iput_moves i : moves (iput i) (fun _ o => - one (IRef i) o).
Proof.
  unfold iput. intros s u s3 _ (u1&s1&E1&E)%bind_inv.
  destruct (lock_inode_moves i _ _ _ I E1) as [_ H1].
  apply bind_inv in E as (x&s1'&(->&Hx)%geti_inv&E). apply bind_inv in E as (u2&s2&E2&E).
  pose proof (still_run _ _ _ _ E2 I ltac:(unfold when; moves_tac)) as H2.
  apply bind_inv in E as (?&s4&E3&E).
  assert (tally s2 (ILock i) = 1) as Hl.
  { rewrite H2. cbn [tally fs_tally] in *; unfold fs_count, lock_inode in *.
    apply bind_inv in E1 as (y&s5&(->&Hy)%geti_inv&E1). rewrite bind_gets in E1.
    destruct (sl_locked (i_lock y)); [done|]. unfold seti in E1.
    apply bind_inv in E1 as (z&s6&(->&Hz)%geti_inv&[= _ <-]). proj_upd. by rewrite list_lookup_alter_eq, Hz. }
  destruct (unlock_inode_acc i _ _ _ Hl E3) as [_ H3].
  apply seti_inv in E as (y&Hy&Ht). split; [done|]. intros o. rewrite Ht, H3, H2, H1. proj_upd. lia.
Qed.
Hint Resolve iput_moves : moves.
Lemma iunlockput_moves i : moves (iunlockput i) (fun _ o => - one (ILock i) o - one (IRef i) o).
Proof. unfold iunlockput. moves_tac. Qed.
Lemma still_stati i : still (stati i).
Proof. unfold stati. moves_tac. Qed.
Hint Resolve iunlockput_moves still_stati : moves.

(** *** Files and directories

    The functions of the devices give back what they take (consoleread lets go
    of the inode and locks it again). *)
Variable sw : devsw (T:=L).
Definition devices_still : Prop :=
  (forall m f i n, dev_read sw m = Some f -> still (f i n)) /\
  (forall m f i l, dev_write sw m = Some f -> still (f i l)).
Hypothesis Hsw : devices_still.

Lemma still_readi_loop fuel : forall i off n, still (readi_loop fuel i off n).
Proof. induction fuel as [|fuel IH]; intros i off n; cbn [readi_loop]; moves_tac. Qed.
Hint Resolve still_readi_loop : moves.
Lemma still_readi i off n : still (readi sw i off n).
Proof.
  unfold readi. eapply moves_bind; [moves_call|intros x]. destruct (_ =? _); [|moves_tac].
  destruct (_ || _); [moves_tac|]. destruct (dev_read sw (i_major x)) eqn:E; [|moves_tac].
  eapply moves_eq; [by eapply Hsw|]. intros. cbn. lia.
Qed.
Lemma still_writei_loop fuel : forall i l off, still (writei_loop fuel i l off).
Proof. induction fuel as [|fuel IH]; intros i l off; cbn [writei_loop]; moves_tac. Qed.
Hint Resolve still_readi still_writei_loop : moves.
Lemma still_writei i l off : still (writei sw i l off).
Proof.
  unfold writei. eapply moves_bind; [moves_call|intros x]. destruct (_ =? _); [|unfold when; moves_tac].
  destruct (_ || _); [moves_tac|]. destruct (dev_write sw (i_major x)) eqn:E; [|moves_tac].
  eapply moves_eq; [by eapply Hsw|]. intros. cbn. lia.
Qed.
Hint Resolve still_writei : moves.

(** What a search has found comes with a reference. *)
Definition found {X} (r : option (nat * X)) (o : obs) : Z :=
  match r with Some (i, _) => one (IRef i) o | None => 0 end.
Definition got (r : option nat) (o : obs) : Z := match r with Some i => one (IRef i) o | None => 0 end.

Lemma dirlookup_loop_moves fuel : forall dp name off, moves (dirlookup_loop sw fuel dp name off) found.
Proof. induction fuel as [|fuel IH]; intros dp name off; cbn [dirlookup_loop]; moves_tac. Qed.
Hint Resolve dirlookup_loop_moves : moves.
Lemma dirlookup_moves dp name : moves (dirlookup sw dp name) found.
Proof. unfold dirlookup. moves_tac. Qed.
Lemma still_empty_entry fuel : forall dp off, still (empty_entry sw fuel dp off).
Proof. induction fuel as [|fuel IH]; intros dp off; cbn [empty_entry]; moves_tac. Qed.
Hint Resolve dirlookup_moves still_empty_entry : moves.
Lemma still_dirlink dp name inum : still (dirlink sw dp name inum).
Proof. unfold dirlink. moves_tac. Qed.
Hint Resolve still_dirlink : moves.

(** The walk of a path gives back the inode it starts from and holds the one
    it ends at; a failure holds none. *)
Lemma namex_loop_moves fuel : forall path np ip name,
  moves (namex_loop sw fuel path np ip name) (fun r o => got r.1 o - one (IRef ip) o).
Proof.
  induction fuel as [|fuel IH]; intros path np ip name; cbn [namex_loop]; [moves_tac|].
  destruct (skipelem path) as [[path' name']|]; moves_tac.
Qed.
Lemma namex_moves path np : moves (namex sw path np) (fun r o => got r.1 o).
Proof. pose proof namex_loop_moves. unfold namex. moves_tac. Qed.
Hint Resolve namex_moves : moves.
Lemma namei_moves path : moves (namei sw path) got.
Proof. unfold namei. moves_tac. Qed.
Lemma nameiparent_moves path : moves (nameiparent sw path) (fun r o => got r.1 o).
Proof. apply namex_moves. Qed.
End fs.

#[export] Hint Resolve begin_op_moves end_op_moves still_geti still_iupdate idup_moves iget_moves ialloc_moves
  ilock_moves iunlock_moves iput_moves iunlockput_moves still_stati still_readi still_writei dirlookup_moves
  still_dirlink namei_moves nameiparent_moves : moves.
#[export] Hint Extern 1 (moves (seti _ _) _) => apply still_seti; intros; split; reflexivity : moves.
End Acct.
