(* ===== verification/Acctsys.v ===== *)
(** * Descriptors, files and inodes are accounted for

    The counts of Acct.v over the whole kernel: a reference to a file belongs to
    a descriptor, a reference to an inode to an open file or to a process whose
    working directory it is, and between system calls no inode is locked and no
    transaction open.  What is counted in the kernel is the difference between
    the references that there are and those that belong to something; every
    system call on files leaves it as it was, on every path, errors included. *)

From S2P Require Import Prelude Spinlock Bytes Bufcache Log Txdisk Fs Pipes Kalloc Vm File Procdef Mlfq Sched Kenv Fcntl Syscall Sysfile Acct.

Module Acctsys.
Import Fs File Kenv Syscall Sysfile Acct.

(** ** Sums over lists *)
Definition total {X} (h : X -> Z) (l : list X) : Z := foldr (fun x n => h x + n) 0 l.

Lemma total_alter {X} (h : X -> Z) g l : forall i x,
  l !! i = Some x -> total h (alter g i l) = total h l + h (g x) - h x.
Proof.
  induction l as [|y l IH]; intros [|i] x Hx; simplify_eq/=; [lia|].
  change (alter g (S i) (y :: l)) with (y :: alter g i l). cbn. rewrite (IH i x Hx). lia.
Qed.
Lemma total_insert {X} (h : X -> Z) l i x y :
  l !! i = Some x -> total h (<[i := y]> l) = total h l + h y - h x.
Proof. intros Hx. rewrite <- (total_alter h (fun _ => y) l i x Hx). by rewrite (alter_as_insert _ _ _ _ Hx). Qed.

Lemma alter_twice {X} (g h : X -> X) i (l : list X) : alter g i (alter h i l) = alter (fun x => g (h x)) i l.
Proof.
  apply list_eq. intros j. destruct (decide (i = j)) as [->|].
  - rewrite !list_lookup_alter_eq. by destruct (l !! j).
  - by rewrite !list_lookup_alter_ne.
Qed.

Lemma total_pos {X} (h : X -> Z) l : (forall x, 0 <= h x) -> 0 <= total h l.
Proof.
  intros Hh. unfold total. induction l as [|x l IH]; cbn [foldr]; [lia|]. specialize (Hh x). lia.
Qed.
Lemma total_le {X} (h : X -> Z) l : forall i x, (forall x, 0 <= h x) -> l !! i = Some x -> h x <= total h l.
Proof.
  intros i x Hh. revert i.
  induction l as [|y l IH]; intros [|i] Hx; simplify_eq/=.
  - pose proof (total_pos h l Hh). lia.
  - specialize (IH i Hx). specialize (Hh y). lia.
Qed.

Section sys.
Context {B : Type} `{BufCache B}.
Abbreviation Y := (sysst B).
Abbreviation K := (kernel Y).

(** ** Files *)

(** The inode an open file refers to. *)
Definition holds (x : file) (o : obs) : Z :=
  match fl_type x with FD_INODE => one (IRef (fl_ip x)) o | _ => 0 end.
(** A file that nobody refers to refers to nothing. *)
Definition files_ok (l : list file) : Prop := Forall (fun x => fl_ref x = 0 -> fl_type x = FD_NONE) l.

Definition sys_count (y : Y) (o : obs) : Z :=
  tally (y_fs y) o + match o with FRef f => from_option fl_ref 0 (y_files y !! f) | _ => 0 end -
    total (fun x => holds x o) (y_files y).
#[export] Instance sys_tally : Tally Y := {| tally := sys_count; okay y := files_ok (y_files y) |}.

(** A routine of the file system leaves the table of files alone. *)
Lemma fs_acc {A} (m : M (fsst (Log.logst B)) A) d (P : list file -> Prop) :
  moves m d -> acc (fun y => P (y_files y)) (fs m) d (fun _ y => P (y_files y)).
Proof.
  intros Hm y a y' HP. unfold fs, zoom. destruct (m (y_fs y)) eqn:E; intros [= <- <-].
  destruct (Hm _ _ _ I E) as [_ Ht]. split; [done|]. intros o. cbn [tally sys_tally]. unfold sys_count.
  proj_upd. rewrite Ht. lia.
Qed.
Lemma fs_moves {A} (m : M (fsst (Log.logst B)) A) d : moves m d -> moves (fs m) d.
Proof. intros Hm. exact (fs_acc m d files_ok Hm). Qed.
(** One that touches neither. *)
Lemma still_rest {A} (m : M Y A) :
  keeps (fun y y' => y_fs y' = y_fs y /\ y_files y' = y_files y) m -> still m.
Proof.
  intros Hm y a y' HP E. destruct (Hm _ _ _ E) as [H1 H2]. cbn [okay tally sys_tally] in *. unfold sys_count.
  rewrite H1, H2. split; [done|]. intros o. lia.
Qed.

Lemma begin_op_sys : moves (File.begin_op (B:=B)) (fun _ => one Ops).
Proof. apply fs_moves, begin_op_moves. Qed.
Lemma end_op_sys : moves (File.end_op (B:=B)) (fun _ o => - one Ops o).
Proof. apply fs_moves, end_op_moves. Qed.

Lemma getf_inv f (y : Y) x y' : getf f y = Ok x y' -> y' = y /\ y_files y !! f = Some x.
Proof. unfold getf. rewrite bind_gets. by destruct (y_files y !! f) eqn:E; intros [= <- <-]. Qed.
Lemma still_getf f : still (getf (B:=B) f).
Proof. apply still_rest. by intros y a y' [-> _]%getf_inv. Qed.

(** The counts after an update of file [f]. *)
Lemma setf_inv f g (y : Y) u y' :
  setf f g y = Ok u y' -> exists x, y_files y !! f = Some x /\ y_files y' = alter g f (y_files y) /\
    forall o, tally y' o = tally y o + (fl_ref (g x) - fl_ref x) * one (FRef f) o - holds (g x) o + holds x o.
Proof.
  unfold setf. intros (x&s1&(->&Hx)%getf_inv&[= <- <-])%bind_inv. exists x. split; [done|]. split; [done|]. intros o.
  cbn [tally sys_tally]. unfold sys_count. proj_upd. rewrite (total_alter _ _ _ _ _ Hx). unfold one.
  destruct o as [j|j| |f']; case_decide; simplify_eq; try lia.
  - rewrite list_lookup_alter_eq, Hx. cbn. lia.
  - rewrite list_lookup_alter_ne by congruence. lia.
Qed.

Lemma files_ok_alter g l f x :
  files_ok l -> l !! f = Some x -> (fl_ref (g x) = 0 -> fl_type (g x) = FD_NONE) -> files_ok (alter g f l).
Proof.
  intros Hl Hx Hg. unfold files_ok. rewrite (alter_as_insert _ _ _ _ Hx). by apply Forall_insert.
Qed.

(** A file just allocated. *)
Definition fresh (f : nat) (l : list file) : Prop :=
  exists x, l !! f = Some x /\ fl_ref x = 1 /\ fl_type x = FD_NONE.

Lemma filealloc_acc (P : list file -> Prop) :
  (forall l f x, P l -> l !! f = Some x -> fl_ref x = 0 -> P (alter (fun x => x <| fl_ref := 1 |>) f l)) ->
  acc (fun y : Y => files_ok (y_files y) /\ P (y_files y)) filealloc
    (fun r o => match r with Some f => one (FRef f) o | None => 0 end)
    (fun r y => files_ok (y_files y) /\ P (y_files y) /\ match r with
      | Some f => fresh f (y_files y) /\ exists l x, P l /\ l !! f = Some x /\ fl_ref x = 0
      | None => True
      end).
Proof.
  intros HP. unfold filealloc. generalize (seq 0 NFILE). intros l.
  induction l as [|f l IH]; cbn [forR].
  - apply acc_ret; [done|]. by intros y [].
  - intros y r y' [Hok Hy] (r1&y1&E1&E)%bind_inv.
    apply bind_inv in E1 as (x&?&(->&Hx)%getf_inv&E1). destruct (Z.eqb_spec (fl_ref x) 0) as [H0|].
    + apply bind_inv in E1 as (?&y2&E2&[= <- <-]). injection E as <- <-.
      apply setf_inv in E2 as (x'&Hx'&Hf&Ht). rewrite Hx in Hx'. injection Hx' as <-.
      assert (fl_type x = FD_NONE) as Hn by (by apply (Forall_lookup_1 _ _ _ _ Hok Hx)).
      rewrite Hf. split_and!; [by eapply files_ok_alter|by eapply HP| |by exists (y_files y), x|].
      * eexists. rewrite list_lookup_alter_eq, Hx. split; [done|]. by proj_upd.
      * intros o. rewrite Ht, H0. unfold holds. proj_upd. lia.
    + injection E1 as <- <-. by apply IH.
Qed.

Lemma filealloc_moves :
  moves (filealloc (B:=B)) (fun r o => match r with Some f => one (FRef f) o | None => 0 end).
Proof.
  eapply acc_conseq; [apply (filealloc_acc (fun _ => True)); done|by intros|by intros ? ? []|done].
Qed.

Lemma filedup_moves f : moves (File.filedup (B:=B) f) (fun _ o => one (FRef f) o).
Proof.
  unfold File.filedup. intros y a y' Hok (x&?&(->&Hx)%getf_inv&E)%bind_inv.
  destruct (Z.ltb_spec (fl_ref x) 1); [done|].
  apply bind_inv in E as (?&y1&(x'&Hx'&Hf&Ht)%setf_inv&[= <- <-]). rewrite Hx in Hx'. injection Hx' as <-.
  split; [|intros o; rewrite Ht; unfold holds; proj_upd; lia].
  cbn. rewrite Hf. apply files_ok_alter with x; [done|done|]. proj_upd. lia.
Qed.

(** A file's position and the like. *)
Lemma still_setf f g :
  (forall x, fl_ref (g x) = fl_ref x /\ fl_type (g x) = fl_type x /\ fl_ip (g x) = fl_ip x) -> still (setf (B:=B) f g).
Proof.
  intros Hg y a y' Hok (x&Hx&Hf&Ht)%setf_inv. destruct (Hg x) as (H1&H2&H3). split.
  - cbn. rewrite Hf. apply files_ok_alter with x; [done|done|]. rewrite H1, H2. by apply (Forall_lookup_1 _ _ _ _ Hok Hx).
  - intros o. rewrite Ht. unfold holds. rewrite H1, H2, H3. lia.
Qed.

Variable kend : Z.

Lemma still_mem {A} (m : M memst A) : still (zoom (y_mem (B:=B)) m).
Proof.
  apply still_rest. intros y a y'. unfold zoom. destruct (m (y_mem y)); intros [= <- <-]. by proj_upd.
Qed.
Lemma still_modify (g : Y -> Y) :
  (forall y, y_fs (g y) = y_fs y /\ y_files (g y) = y_files y) -> still (modify g).
Proof. intros Hg. apply still_rest. intros y a y' [= <- <-]. apply Hg. Qed.
Hint Resolve still_mem still_getf begin_op_sys end_op_sys fs_moves : moves.
Hint Extern 1 (moves (setf _ _) _) => apply still_setf; intros; split_and!; reflexivity : moves.
Hint Extern 1 (moves (modify _) _) => apply still_modify; intros; split; reflexivity : moves.

Lemma still_kfree p : still (File.kfree (B:=B) kend p).
Proof. unfold File.kfree. moves_tac. Qed.
Lemma still_kalloc : still (File.kalloc (B:=B)).
Proof. unfold File.kalloc. moves_tac. Qed.
Hint Resolve still_kfree still_kalloc : moves.
Lemma still_with_pipe {A} p (m : M Pipe.world A) : still (with_pipe (B:=B) kend p m).
Proof. unfold with_pipe. moves_tac. Qed.
Hint Resolve still_with_pipe : moves.

(** [fileclose] gives back a reference to the file; with the last one the file
    gives back the inode. *)
Lemma fileclose_moves f : moves (File.fileclose (B:=B) kend f) (fun _ o => - one (FRef f) o).
Proof.
  unfold File.fileclose. intros y a y4 Hok (x&?&(->&Hx)%getf_inv&E)%bind_inv.
  destruct (Z.ltb_spec (fl_ref x) 1); [done|].
  apply bind_inv in E as (?&y1&(x1&Hx1&Hf1&Ht1)%setf_inv&E). rewrite Hx in Hx1. injection Hx1 as <-.
  apply bind_inv in E as (ff&?&(->&Hff)%getf_inv&E). rewrite Hf1, list_lookup_alter_eq, Hx in Hff.
  injection Hff as <-. proj_upd in E. destruct (Z.ltb_spec 0 (-1 + fl_ref x)).
  { injection E as <- <-. split; [|intros o; rewrite Ht1; unfold holds; proj_upd; lia].
    cbn. rewrite Hf1. apply files_ok_alter with x; [done|done|]. proj_upd. lia. }
  apply bind_inv in E as (?&y2&(x2&Hx2&Hf2&Ht2)%setf_inv&E). rewrite Hf1, list_lookup_alter_eq, Hx in Hx2.
  injection Hx2 as <-.
  apply bind_inv in E as (?&y3&(x3&Hx3&Hf3&Ht3)%setf_inv&E). rewrite Hf2, Hf1, !list_lookup_alter_eq, Hx in Hx3.
  injection Hx3 as <-.
  assert (okay y3) as Hok3.
  { cbn. rewrite Hf3, Hf2, Hf1, !alter_twice. by apply files_ok_alter with x. }
  assert (forall o, tally y3 o = tally y o - one (FRef f) o + holds x o) as Ht.
  { intros o. rewrite Ht3, Ht2, Ht1. unfold holds. proj_upd. replace (fl_ref x) with 1 by lia. lia. }
  assert (moves (match fl_type x with
    | FD_PIPE => with_pipe kend (fl_pipe x) (Pipe.pipeclose (fl_pipe x) (fl_writable x))
    | FD_INODE => File.begin_op ;; fs (Fs.iput (fl_ip x)) ;; File.end_op
    | FD_NONE => ret tt
    end) (fun _ o => - holds x o)) as Hm by (unfold holds; destruct (fl_type x); moves_tac).
  destruct (Hm _ _ _ Hok3 E) as [Hok4 Ht4]. split; [done|]. intros o. rewrite Ht4, Ht. lia.
Qed.
Hint Resolve filealloc_moves filedup_moves fileclose_moves : moves.

Variable sw : devsw (T:=Log.logst B).
Hypothesis Hsw : devices_still sw.

Lemma still_filestat f : still (filestat (B:=B) f).
Proof. unfold filestat. moves_tac. Qed.

(** While a file is used its inode stays the same. *)
Definition at_ip (f i : nat) (l : list file) : Prop := files_ok l /\ exists x, l !! f = Some x /\ fl_ip x = i.

Lemma getf_acc {A} f i (k : file -> M Y A) d Q :
  (forall x, fl_ip x = i -> acc (fun y => at_ip f i (y_files y)) (k x) d Q) ->
  acc (fun y => at_ip f i (y_files y)) (bind (getf f) k) d Q.
Proof.
  intros Hk y a y' [Hok (x&Hx&Hi)] (x'&?&(->&Hx')%getf_inv&E)%bind_inv. rewrite Hx in Hx'. injection Hx' as <-.
  eapply Hk; [done| |exact E]. split; [done|]. by exists x.
Qed.
Lemma getf_acc_start {A} f (k : file -> M Y A) d :
  (forall x, acc (fun y => at_ip f (fl_ip x) (y_files y)) (k x) d (fun _ => okay)) -> moves (bind (getf f) k) d.
Proof.
  intros Hk y a y' Hok (x'&?&(->&Hx')%getf_inv&E)%bind_inv.
  eapply Hk; [|exact E]. split; [done|]. by exists x'.
Qed.
Lemma fs_at {A} f i (m : M (fsst (Log.logst B)) A) d :
  moves m d -> acc (fun y => at_ip f i (y_files y)) (fs m) d (fun _ y => at_ip f i (y_files y)).
Proof. apply fs_acc. Qed.
Lemma off_at f i b v :
  acc (fun y : Y => at_ip f i (y_files y)) (when b (setf f (fun x => x <| fl_off := u32 (fl_off x + v) |>)))
    (fun _ _ => 0) (fun _ y => at_ip f i (y_files y)).
Proof.
  destruct b; [|by apply acc_ret].
  intros y a y' [Hok (x&Hx&Hi)] E. cbn [when] in E.
  destruct (still_setf f (fun x => x <| fl_off := u32 (fl_off x + v) |>) ltac:(done) y a y' Hok E) as [Hok' Ht].
  split; [|done]. split; [done|]. apply setf_inv in E as (x'&Hx'&Hf&_). rewrite Hx in Hx'. injection Hx' as <-.
  rewrite Hf, list_lookup_alter_eq, Hx. eexists. split; [done|]. by proj_upd.
Qed.

Lemma still_fileread f n : still (fileread sw kend f n).
Proof.
  unfold fileread. apply getf_acc_start. intros x. destruct (negb _).
  { apply acc_ret; [done|]. by intros ? []. }
  destruct (fl_type x).
  { by apply acc_stop. }
  { eapply acc_conseq; [apply still_with_pipe|by intros ? []|done|done]. }
  eapply acc_bind; [apply fs_at, ilock_moves|]. intros ?. apply getf_acc. intros x' Hi. rewrite Hi.
  eapply acc_bind; [by apply fs_at, still_readi|]. intros r.
  eapply acc_bind; [apply off_at|]. intros ?.
  eapply acc_bind; [apply fs_at, iunlock_moves|]. intros ?. apply acc_ret; [intros o; lia|]. by intros ? [].
Qed.

Lemma still_filewrite_loop fuel : forall f l i n, still (filewrite_loop sw fuel f l i n).
Proof.
  induction fuel as [|fuel IH]; intros f l i n; cbn [filewrite_loop]; (destruct (negb (i <? n)); [moves_tac|]).
  { moves_tac. }
  eapply moves_bind; [apply begin_op_sys|]. intros ?. apply getf_acc_start. intros x.
  eapply acc_bind; [apply fs_at, ilock_moves|]. intros ?. apply getf_acc. intros x' Hi. rewrite Hi.
  eapply acc_bind; [by apply fs_at, still_writei|]. intros r.
  eapply acc_bind; [apply off_at|]. intros ?.
  eapply acc_bind; [apply fs_at, iunlock_moves|]. intros ?.
  eapply acc_bind; [eapply acc_conseq; [apply end_op_sys|by intros ? []|intros ? ? HQ; exact HQ|done]|]. intros ?.
  to_moves. moves_tac.
Qed.
Hint Resolve still_filewrite_loop : moves.
Lemma still_filewrite f l n : still (filewrite sw kend f l n).
Proof. unfold filewrite. moves_tac. Qed.

Lemma pipealloc_bad_moves f0 f1 p :
  moves (pipealloc_bad (B:=B) kend f0 f1 p)
    (fun _ o => - match f0 with Some f => one (FRef f) o | None => 0 end
                - match f1 with Some f => one (FRef f) o | None => 0 end).
Proof. unfold pipealloc_bad. destruct p, f0, f1; moves_tac. Qed.
Lemma pipealloc_bad_none f0 f1 p (y : Y) r y' : pipealloc_bad kend f0 f1 p y = Ok r y' -> r = None.
Proof. unfold pipealloc_bad. intros (?&?&_&(?&?&_&(?&?&_&[= <- _])%bind_inv)%bind_inv)%bind_inv. done. Qed.

(** A fresh file is made one end of a pipe. *)
Lemma setf_pipe_acc f g (P : list file -> Prop) :
  (forall x, fl_ref (g x) = fl_ref x /\ fl_type (g x) = FD_PIPE) ->
  (forall l, P l -> P (alter g f l)) ->
  acc (fun y : Y => files_ok (y_files y) /\ fresh f (y_files y) /\ P (y_files y)) (setf f g) (fun _ _ => 0)
    (fun _ y => files_ok (y_files y) /\ P (y_files y)).
Proof.
  intros Hg HP y a y' (Hok&(x&Hx&H1&H2)&Hy) (x'&Hx'&Hf&Ht)%setf_inv. rewrite Hx in Hx'. injection Hx' as <-.
  destruct (Hg x) as [G1 G2]. rewrite Hf. split_and!; [|by apply HP|].
  - apply files_ok_alter with x; [done|done|]. rewrite G1, H1. done.
  - intros o. rewrite Ht. unfold holds. rewrite G1, G2, H2. lia.
Qed.

Lemma fresh_alter f f' g l : f <> f' -> fresh f l -> fresh f (alter g f' l).
Proof. intros Hn (x&Hx&?). exists x. by rewrite list_lookup_alter_ne. Qed.

Lemma pipealloc_moves :
  moves (pipealloc (B:=B) kend)
    (fun r o => match r with Some (f0, f1) => one (FRef f0) o + one (FRef f1) o | None => 0 end).
Proof.
  assert (Hbad : forall f0 f1 p P, (forall l, P l -> files_ok l) ->
    acc (fun y : Y => P (y_files y)) (pipealloc_bad kend f0 f1 p)
      (fun r o => match r with Some (f0, f1) => one (FRef f0) o + one (FRef f1) o | None => 0 end
                  - match f0 with Some f => one (FRef f) o | None => 0 end
                  - match f1 with Some f => one (FRef f) o | None => 0 end) (fun _ => okay)).
  { intros f0 f1 p P HP y r y' Hy E. rewrite (pipealloc_bad_none _ _ _ _ _ _ E).
    destruct (pipealloc_bad_moves f0 f1 p y r y' (HP _ Hy) E) as [Ho Ht]. split; [done|]. intros o. rewrite Ht. lia. }
  unfold pipealloc. eapply acc_bind.
  { eapply acc_conseq; [apply (filealloc_acc (fun _ => True)); done|by intros|intros ? ? HQ; exact HQ|done]. }
  intros [f0|]; [|eapply acc_conseq; [apply (Hbad None None None files_ok); done|by intros ? []|done|intros [[]|] o; lia]].
  eapply acc_bind.
  { eapply acc_conseq; [apply (filealloc_acc (fresh f0))| |intros ? ? HQ; exact HQ|done].
    - intros l f x Hl Hx H0. apply fresh_alter; [|done]. intros <-. destruct Hl as (z&Hz&?&_). congruence.
    - by intros y (?&_&?&_). }
  intros [f1|]; [|eapply acc_conseq; [apply (Hbad (Some f0) None None files_ok); done|by intros ? []|done|intros [[]|] o; lia]].
  set (R := fun l => files_ok l /\ fresh f0 l /\ fresh f1 l /\ f0 <> f1).
  eapply acc_conseq with (P' := fun y => R (y_files y)); [|
    |intros ? ? HQ; exact HQ|intros; reflexivity]; cycle 1.
  { intros y (Hok&H0&H1&l&x&(z&Hz&Hz1&_)&Hx&Hx0). split_and!; [done|done|done|]. intros <-. congruence. }
  eapply acc_bind with (R := fun _ y => R (y_files y)) (d1 := fun _ _ => 0).
  { intros y a y' HR E. destruct (still_kalloc y a y') as [_ Ht]; [apply HR|done|]. split; [|done].
    unfold File.kalloc, zoom, bind in E. destruct (Kalloc.kalloc (y_mem y)); try discriminate. injection E as <- <-. done. }
  intros [p|]; [|eapply acc_conseq; [apply (Hbad (Some f0) (Some f1) None R); by intros ? []|done|done|intros [[]|] o; lia]].
  eapply acc_bind with (R := fun _ y => R (y_files y)) (d1 := fun _ _ => 0).
  { intros y a y' HR E. destruct (still_modify (fun s => s <| y_pipes ::= <[p := Pipe.pipe_init (replicate (Z.to_nat Pipe.PIPESIZE) 0)]> |>)
      ltac:(done) y a y') as [_ Ht]; [apply HR|done|]. split; [|done]. by injection E as <- <-. }
  intros ?. eapply acc_bind.
  { eapply acc_conseq; [apply (setf_pipe_acc f0 _ (fun l => fresh f1 l /\ f0 <> f1)); [done|]| | |].
    - intros l [H1 Hn]. split; [|done]. by apply fresh_alter.
    - by intros y (?&?&?&?).
    - intros ? ? HQ; exact HQ.
    - done. }
  intros ?. eapply acc_bind.
  { eapply acc_conseq; [apply (setf_pipe_acc f1 _ (fun l => True)); done|by intros y (?&?&?)|intros ? ? HQ; exact HQ|done]. }
  intros ?. apply acc_ret; [intros o; lia|]. by intros y [].
Qed.

(** ** Processes *)

(** The files and the inode a process refers to. *)
Definition slot (s : option nat) (o : obs) : Z := match s with Some f => one (FRef f) o | None => 0 end.
Definition hold (p : proc) (o : obs) : Z := total (fun s => slot s o) (ofile p) + got (cwd p) o.
(** A slot of the table that is free or will be has nothing open. *)
Definition clean (p : proc) : Prop := Forall (fun s => s = None) (ofile p) /\ cwd p = None.
Definition table_ok (ps : list proc) : Prop :=
  Forall (fun p => length (ofile p) = NOFILE /\ (state p = UNUSED \/ state p = ZOMBIE -> clean p)) ps.
Definition running (k : K) : Prop :=
  forall me p, k_curproc k = Some me -> k_procs k !! me = Some p -> state p = RUNNING.

Definition kernel_count (k : K) (o : obs) : Z := tally (k_env k) o - total (fun p => hold p o) (k_procs k).
Definition kernel_ok (k : K) : Prop := files_ok (y_files (k_env k)) /\ table_ok (k_procs k) /\ running k.
#[export] Instance kernel_tally : Tally K := {| tally := kernel_count; okay := kernel_ok |}.

(** *** The counts, spelled out *)

Definition file_refs (k : K) (f : nat) : Z := from_option fl_ref 0 (y_files (k_env k) !! f).
Definition descriptors (k : K) (f : nat) : Z :=
  total (fun p => total (fun s => if decide (s = Some f) then 1 else 0) (ofile p)) (k_procs k).
Definition inode_refs (k : K) (i : nat) : Z := from_option i_ref 0 (f_inodes (y_fs (k_env k)) !! i).
Definition opens (k : K) (i : nat) : Z :=
  total (fun x => if decide (fl_type x = FD_INODE /\ fl_ip x = i) then 1 else 0) (y_files (k_env k)).
Definition cwds (k : K) (i : nat) : Z := total (fun p => if decide (cwd p = Some i) then 1 else 0) (k_procs k).
Definition locked (k : K) (i : nat) : bool :=
  from_option (fun x => Sleeplock.sl_locked (i_lock x)) false (f_inodes (y_fs (k_env k)) !! i).
Definition transactions (k : K) : Z := Log.lg_outstanding (f_disk (y_fs (k_env k))).

(** No reference has been lost or made up between [k] and [k'], no inode is
    left locked and no transaction open. *)
Definition balanced (k k' : K) : Prop :=
  (forall f, file_refs k' f - descriptors k' f = file_refs k f - descriptors k f) /\
  (forall i, inode_refs k' i - opens k' i - cwds k' i = inode_refs k i - opens k i - cwds k i) /\
  (forall i, locked k' i = locked k i) /\
  transactions k' = transactions k.

Lemma total_ext {X} (g h : X -> Z) l : (forall x, g x = h x) -> total g l = total h l.
Proof. intros E. induction l as [|x l IH]; [done|]. unfold total in *. cbn. by rewrite E, IH. Qed.
Lemma total_zero {X} (g : X -> Z) l : (forall x, g x = 0) -> total g l = 0.
Proof. intros E. induction l as [|x l IH]; [done|]. unfold total in *. cbn. by rewrite E, IH. Qed.

Lemma count_file (k : K) f : tally k (FRef f) = file_refs k f - descriptors k f.
Proof.
  cbn. unfold kernel_count. cbn. unfold sys_count. cbn [tally fs_tally fs_count].
  rewrite (total_zero (fun x => holds x (FRef f))) by (intros x; unfold holds, one; by destruct (fl_type x)).
  unfold file_refs, descriptors. rewrite (total_ext (fun p => hold p (FRef f))
    (fun p => total (fun s => if decide (s = Some f) then 1 else 0) (ofile p))); [lia|].
  intros p. unfold hold. rewrite (total_ext (fun s => slot s (FRef f)) (fun s => if decide (s = Some f) then 1 else 0)).
  - unfold got, one. destruct (cwd p); [rewrite decide_False by done|]; lia.
  - intros [g|]; cbn; unfold one; repeat case_decide; congruence.
Qed.
Lemma count_inode (k : K) i : tally k (IRef i) = inode_refs k i - opens k i - cwds k i.
Proof.
  cbn. unfold kernel_count. cbn. unfold sys_count. cbn [tally fs_tally fs_count]. unfold inode_refs, opens, cwds.
  rewrite (total_ext (fun x => holds x (IRef i)) (fun x => if decide (fl_type x = FD_INODE /\ fl_ip x = i) then 1 else 0)).
  - rewrite (total_ext (fun p => hold p (IRef i)) (fun p => if decide (cwd p = Some i) then 1 else 0)); [lia|].
    intros p. unfold hold. rewrite total_zero by (intros [g|]; done).
    unfold got, one. destruct (cwd p); repeat case_decide; simplify_eq; lia.
  - intros x. unfold holds, one. destruct (fl_type x); repeat case_decide; naive_solver.
Qed.

Lemma balanced_tally (k k' : K) : (forall o, tally k' o = tally k o + 0) -> balanced k k'.
Proof.
  intros Ht. assert (forall o, tally k' o = tally k o) as Ho by (intros o; rewrite Ht; lia). split_and!.
  - intros f. by rewrite <- !count_file.
  - intros i. by rewrite <- !count_inode.
  - intros i. specialize (Ho (ILock i)). revert Ho. cbn. unfold kernel_count. cbn. unfold sys_count, locked.
    cbn [tally fs_tally fs_count]. rewrite !total_zero; [repeat case_match; by intros|..].
    1, 3: intros p; unfold hold; rewrite total_zero by (intros [g|]; done); by destruct (cwd p).
    all: intros x; unfold holds; by destruct (fl_type x).
  - specialize (Ho Ops). revert Ho. cbn. unfold kernel_count. cbn. unfold sys_count, transactions.
    cbn [tally fs_tally fs_count]. rewrite !total_zero; [intros; lia|..].
    1, 3: intros p; unfold hold; rewrite total_zero by (intros [g|]; done); by destruct (cwd p).
    all: intros x; unfold holds; by destruct (fl_type x).
Qed.

Lemma env_acc {A} (m : M Y A) d (P : list proc -> Prop) :
  moves m d ->
  acc (fun k : K => okay k /\ P (k_procs k)) (env m) d (fun _ k => okay k /\ P (k_procs k)).
Proof.
  intros Hm k a k' [(Hf&Ht&Hr) HP]. unfold env, zoom. destruct (m (k_env k)) eqn:E; intros [= <- <-].
  destruct (Hm _ _ _ Hf E) as [Hok Hc]. split; [done|]. intros o. cbn [tally kernel_tally]. unfold kernel_count.
  proj_upd. rewrite Hc. lia.
Qed.
Lemma env_moves {A} (m : M Y A) d : moves m d -> moves (env m) d.
Proof.
  intros Hm. eapply acc_conseq; [apply (env_acc m d (fun _ => True) Hm)|done|by intros ? ? []|done].
Qed.

(** Routines that touch neither the process table nor what is below it. *)
Lemma still_kernel {A} (m : M K A) :
  keeps (fun k k' => k_env k' = k_env k /\ k_procs k' = k_procs k /\ k_curproc k' = k_curproc k) m -> still m.
Proof.
  intros Hm k a k' (Hf&Ht&Hr) E. destruct (Hm _ _ _ E) as (H1&H2&H3). cbn [okay tally kernel_tally]. unfold kernel_ok, kernel_count, running in *.
  rewrite H1, H2, H3. split; [done|]. intros o. lia.
Qed.
Lemma still_getproc i : still (getproc (E:=Y) i).
Proof. apply still_kernel. by intros k a k' [-> _]%Sched.getproc_inv. Qed.
Lemma still_curproc : still (curproc (B:=B)).
Proof.
  apply still_kernel. unfold curproc, myproc. intros k a k'. rewrite bind_gets.
  destruct (k_curproc k) eqn:E; [intros [= <- <-]; done|done].
Qed.

Lemma setproc_count i g (k : K) u k' :
  setproc i g k = Ok u k' -> exists p, k_procs k !! i = Some p /\ k' = k <| k_procs ::= alter g i |> /\
    forall o, tally k' o = tally k o - hold (g p) o + hold p o.
Proof.
  unfold setproc. intros (p&?&[-> Hp]%Sched.getproc_inv&[= <- <-])%bind_inv. exists p. split; [done|]. split; [done|].
  intros o. cbn [tally kernel_tally]. unfold kernel_count. proj_upd. rewrite (total_alter _ _ _ _ _ Hp). lia.
Qed.

(** An update that opens and closes nothing, and makes no slot free. *)
Lemma still_setproc i g :
  (forall p, ofile (g p) = ofile p /\ cwd (g p) = cwd p /\ state (g p) = state p) -> still (setproc (E:=Y) i g).
Proof.
  intros Hg k a k' (Hf&Ht&Hr) (p&Hp&->&Hc)%setproc_count. destruct (Hg p) as (H1&H2&H3). split.
  - cbn. unfold kernel_ok. proj_upd. split_and!; [done| |].
    + unfold table_ok. rewrite (alter_as_insert _ _ _ _ Hp). apply Forall_insert; [done|].
      unfold clean. rewrite H1, H2, H3. apply (Forall_lookup_1 _ _ _ _ Ht Hp).
    + intros me q. proj_upd. intros Hme. destruct (decide (i = me)) as [->|].
      * rewrite list_lookup_alter_eq, Hp. intros [= <-]. rewrite H3. by eapply Hr.
      * rewrite list_lookup_alter_ne by done. by eapply Hr.
  - intros o. rewrite Hc. unfold hold. rewrite H1, H2. lia.
Qed.
Hint Resolve env_moves still_getproc still_curproc : moves.
Hint Extern 1 (moves (setproc _ _) _) => apply still_setproc; intros; split_and!; reflexivity : moves.

Lemma as_me_moves {A} (m : M Y A) d : moves m d -> moves (as_me m) d.
Proof.
  intros Hm. unfold as_me. eapply moves_bind; [moves_call|intros me]. eapply moves_bind; [moves_call|intros p].
  eapply moves_bind with (d1 := fun _ _ => 0).
  - apply env_moves. intros y a y' Hok [= <- <-]. split; [done|]. intros o. cbn [tally sys_tally]. unfold sys_count.
    proj_upd. cbn [tally fs_tally]. unfold fs_count. destruct o; proj_upd; lia.
  - intros ?. eapply moves_eq; [apply env_moves, Hm|]. intros. lia.
Qed.

(** ** Arguments *)

Lemma still_umem {A} (m : M memst A) : still (umem (B:=B) m).
Proof. apply env_moves, still_mem. Qed.
Lemma still_highest_master i : still (get_highest_master (E:=Y) i).
Proof.
  unfold get_highest_master. generalize (S NPROC). intros n. revert i.
  induction n as [|n IH]; intros i; cbn [highest_master_from]; moves_tac.
Qed.
Hint Resolve as_me_moves still_umem still_highest_master : moves.
Lemma still_share_sz : still (share_sz (B:=B)).
Proof. unfold share_sz, when. moves_tac. Qed.
Hint Resolve still_share_sz : moves.
Lemma still_fetchint a : still (fetchint (B:=B) a).
Proof. unfold fetchint. moves_tac. Qed.
Lemma still_scan_str n : forall d a z, still (scan_str (B:=B) n d a z).
Proof. induction n as [|n IH]; intros d a z; cbn [scan_str]; moves_tac. Qed.
Hint Resolve still_fetchint still_scan_str : moves.
Lemma still_fetchstr a : still (fetchstr (B:=B) a).
Proof. unfold fetchstr. moves_tac. Qed.
Lemma still_argint n : still (argint (B:=B) n).
Proof. unfold argint. moves_tac. Qed.
Hint Resolve still_fetchstr still_argint : moves.
Lemma still_argptr n size : still (argptr (B:=B) n size).
Proof. unfold argptr. moves_tac. Qed.
Lemma still_argstr n : still (argstr (B:=B) n).
Proof. unfold argstr. moves_tac. Qed.
Hint Resolve still_argptr still_argstr : moves.

(** ** Descriptors *)

(** Descriptor [fd] of the running process is the file [f]. *)
Definition descr (k : K) (fd f : nat) : Prop :=
  exists me p, k_curproc k = Some me /\ k_procs k !! me = Some p /\ ofile p !! fd = Some (Some f).

Lemma curproc_inv (k : K) me k' : curproc k = Ok me k' -> k' = k /\ k_curproc k = Some me.
Proof.
  unfold curproc, myproc. rewrite bind_gets. destruct (k_curproc k) eqn:E; [by intros [= <- <-]|done].
Qed.

Lemma argfd_acc n :
  acc okay (argfd (B:=B) n) (fun _ _ => 0)
    (fun r k => okay k /\ match r with Some (fd, f) => descr k fd f | None => True end).
Proof.
  unfold argfd. eapply acc_bind; [apply still_argint|]. intros [fd|]; [|by apply acc_ret].
  destruct (_ || _); [by apply acc_ret|].
  intros k r k' Hok (me&?&[-> Hme]%curproc_inv&E)%bind_inv. apply bind_inv in E as (p&?&[-> Hp]%Sched.getproc_inv&E).
  destruct (ofile p !! Z.to_nat fd) as [s|] eqn:Hs; [|done]. rewrite bind_deref in E. injection E as <- <-.
  split; [split; [done|]|intros o; lia]. destruct s as [f|]; [|done]. by exists me, p.
Qed.
Lemma still_argfd n : still (argfd (B:=B) n).
Proof. eapply acc_conseq; [apply argfd_acc|done|by intros ? ? []|done]. Qed.

(** The counts after descriptor [fd] has been set. *)
Lemma set_ofile_inv me fd v (k : K) u k' p s :
  set_ofile me fd v k = Ok u k' -> okay k -> k_curproc k = Some me ->
  k_procs k !! me = Some p -> ofile p !! fd = Some s ->
  okay k' /\ (forall o, tally k' o = tally k o - slot v o + slot s o) /\
  k' = k <| k_procs ::= alter (fun p => p <| Procdef.ofile ::= <[fd := v]> |>) me |>.
Proof.
  intros E (Hf&Ht&Hr) Hme Hp Hs. unfold set_ofile in E. apply setproc_count in E as (q&Hq&->&Hc).
  rewrite Hp in Hq. injection Hq as <-. split_and!; [| |done].
  - cbn. unfold kernel_ok. proj_upd. split_and!; [done| |].
    + unfold table_ok. rewrite (alter_as_insert _ _ _ _ Hp). apply Forall_insert; [done|].
      proj_upd. rewrite length_insert, (Hr _ _ Hme Hp). split; [apply (Forall_lookup_1 _ _ _ _ Ht Hp)|by intros []].
    + intros me' q. proj_upd. intros Hme'. rewrite Hme in Hme'. injection Hme' as <-.
      rewrite list_lookup_alter_eq, Hp. intros [= <-]. proj_upd. by eapply Hr.
  - intros o. rewrite Hc. unfold hold. proj_upd. rewrite (total_insert _ _ _ _ _ Hs). lia.
Qed.

Definition taken (f : nat) (r : option nat) (o : obs) : Z := match r with Some _ => - one (FRef f) o | None => 0 end.

(** A descriptor is made from the caller's reference to the file, or nothing
    happens. *)
Lemma fdalloc_inv f (k : K) r k' :
  fdalloc f k = Ok r k' -> okay k ->
  okay k' /\ (forall o, tally k' o = tally k o + taken f r o) /\ k_env k' = k_env k /\ k_curproc k' = k_curproc k /\
  match r with Some fd => descr k' fd f | None => k' = k end.
Proof.
  unfold fdalloc. intros (me&?&[-> Hme]%curproc_inv&E)%bind_inv Hok. revert E.
  generalize (seq 0 NOFILE). intros l. induction l as [|fd l IH]; cbn [forR].
  { intros [= <- <-]. split_and!; try done. intros o. cbn. lia. }
  intros (r1&k1&E1&E)%bind_inv. apply bind_inv in E1 as (p&?&[-> Hp]%Sched.getproc_inv&E1).
  destruct (ofile p !! fd) as [[g|]|] eqn:Hs; [| |done]; rewrite bind_deref in E1.
  - injection E1 as <- <-. by apply IH.
  - apply bind_inv in E1 as (?&k2&E2&[= <- <-]). injection E as <- <-.
    destruct (set_ofile_inv _ _ _ _ _ _ _ _ E2 Hok Hme Hp Hs) as (Hok'&Ht&->). split_and!; [done| |done|done|].
    + intros o. rewrite Ht. cbn. lia.
    + eexists me, _. proj_upd. split; [done|]. rewrite list_lookup_alter_eq, Hp. split; [done|]. proj_upd.
      apply list_lookup_insert_eq. by eapply lookup_lt_Some.
Qed.
Lemma fdalloc_moves f : moves (fdalloc (B:=B) f) (taken f).
Proof. intros k r k' Hok E. destruct (fdalloc_inv _ _ _ _ E Hok) as (H1&H2&_). done. Qed.
Hint Resolve still_argfd fdalloc_moves : moves.

(** The descriptor is taken away; the caller has its reference. *)
Lemma drop_ofile {A} fd f (m : nat -> M K A) d :
  (forall me, moves (m me) (fun a o => d a o - one (FRef f) o)) ->
  acc (fun k => okay k /\ descr k fd f) (me <- curproc ;; set_ofile me fd None ;; m me) d (fun _ => okay).
Proof.
  intros Hm k a k' (Hok&me&p&Hme&Hp&Hs) (me'&?&[-> Hme']%curproc_inv&E)%bind_inv.
  rewrite Hme in Hme'. injection Hme' as <-. apply bind_inv in E as (?&k1&E1&E).
  destruct (set_ofile_inv _ _ _ _ _ _ _ _ E1 Hok Hme Hp Hs) as (Hok1&Ht&_).
  destruct (Hm _ _ _ _ Hok1 E) as [Hok' Ht']. split; [done|]. intros o. rewrite Ht', Ht. cbn. lia.
Qed.
End sys.

#[export] Hint Resolve still_mem still_getf begin_op_sys end_op_sys fs_moves still_with_pipe filealloc_moves
  filedup_moves fileclose_moves still_filestat still_fileread still_filewrite pipealloc_moves env_moves
  still_getproc still_curproc as_me_moves still_umem still_highest_master still_fetchint still_fetchstr
  still_argint still_argptr still_argstr still_argfd fdalloc_moves : moves.
#[export] Hint Extern 1 (moves (setf _ _) _) => apply still_setf; intros; split_and!; reflexivity : moves.
#[export] Hint Extern 1 (moves (setproc _ _) _) => apply still_setproc; intros; split_and!; reflexivity : moves.

(** ** The system calls *)

Section calls.
Context {B : Type} `{BufCache B}.
Variable lay : layout B.
Hypothesis Hsw : devices_still (l_sw lay).
Abbreviation Y := (sysst B).
Abbreviation K := (kernel Y).

Lemma still_add_nlink i d : still (add_nlink (B:=B) i d).
Proof. unfold add_nlink. moves_tac. Qed.
Hint Resolve still_add_nlink : moves.
Lemma link_bad_moves ip :
  moves (link_bad (B:=B) ip) (fun _ o => - one (IRef ip) o - one Ops o).
Proof. unfold link_bad. moves_tac. Qed.
Hint Resolve link_bad_moves : moves.
Lemma still_linkat old new : still (linkat lay old new).
Proof. unfold linkat. moves_tac. Qed.
Lemma still_isdirempty_loop n : forall dp off, still (isdirempty_loop lay n dp off).
Proof. induction n as [|n IH]; intros dp off; cbn [isdirempty_loop]; moves_tac. Qed.
Hint Resolve still_isdirempty_loop : moves.
Lemma still_isdirempty dp : still (isdirempty lay dp).
Proof. unfold isdirempty. moves_tac. Qed.
Lemma unlink_bad_moves dp :
  moves (unlink_bad (B:=B) dp) (fun _ o => - one (ILock dp) o - one (IRef dp) o - one Ops o).
Proof. unfold unlink_bad. moves_tac. Qed.
Hint Resolve still_isdirempty unlink_bad_moves : moves.
Lemma still_unlinkat path : still (unlinkat lay path).
Proof. unfold unlinkat, when. moves_tac. Qed.
Lemma still_make_dots dp ip : still (make_dots lay dp ip).
Proof. unfold make_dots. moves_tac. Qed.
Hint Resolve still_linkat still_unlinkat still_make_dots : moves.

(** [create] holds the inode it returns, and its lock. *)
Definition got_locked (r : option nat) (o : obs) : Z :=
  match r with Some i => one (IRef i) o + one (ILock i) o | None => 0 end.
Lemma create_moves path type major minor : moves (create lay path type major minor) got_locked.
Proof. unfold create, when. moves_tac. Qed.
Hint Resolve create_moves : moves.
Lemma open_inode_moves path omode :
  moves (open_inode lay path omode)
    (fun r o => got_locked r o + match r with Some _ => one Ops o | None => 0 end).
Proof. unfold open_inode. moves_tac. Qed.
Lemma make_node_moves path type major minor :
  moves (make_node lay path type major minor) (fun _ o => - one Ops o).
Proof. unfold make_node. moves_tac. Qed.
Hint Resolve open_inode_moves make_node_moves : moves.
Lemma chdir_to_moves path old :
  moves (chdir_to lay path old) (fun r o => got r o - match r with Some _ => got old o | None => 0 end - one Ops o).
Proof. unfold chdir_to. destruct old; moves_tac. Qed.
Hint Resolve chdir_to_moves : moves.

Lemma still_sys_dup : still (sys_dup (B:=B)).
Proof. unfold sys_dup. moves_tac. Qed.
Lemma still_rw_args : still (rw_args (B:=B)).
Proof. unfold rw_args. moves_tac. Qed.
Hint Resolve still_rw_args : moves.
Lemma still_sys_read : still (sys_read lay).
Proof. unfold sys_read. moves_tac. Qed.
Lemma still_sys_write : still (sys_write lay).
Proof. unfold sys_write. moves_tac. Qed.
Lemma still_sys_fstat : still (sys_fstat (B:=B)).
Proof. unfold sys_fstat. moves_tac. Qed.
Lemma still_sys_link : still (sys_link lay).
Proof. unfold sys_link. moves_tac. Qed.
Lemma still_sys_unlink : still (sys_unlink lay).
Proof. unfold sys_unlink. moves_tac. Qed.
Lemma still_sys_mkdir : still (sys_mkdir lay).
Proof. unfold sys_mkdir. moves_tac. Qed.
Lemma still_sys_mknod : still (sys_mknod lay).
Proof. unfold sys_mknod. moves_tac. Qed.

Lemma still_sys_close : still (sys_close lay).
Proof.
  unfold sys_close. eapply acc_bind; [apply argfd_acc|]. intros [[fd f]|].
  - apply drop_ofile. intros me. moves_tac.
  - apply acc_ret; [done|]. by intros ? [].
Qed.

Lemma open_bad_moves f ip :
  moves (open_bad lay f ip)
    (fun _ o => - match f with Some f => one (FRef f) o | None => 0 end - got_locked (Some ip) o - one Ops o).
Proof.
  unfold open_bad. eapply moves_bind with (d1 := fun _ o => - slot f o - got_locked (Some ip) o - one Ops o).
  - apply as_me_moves. destruct f; moves_tac.
  - intros ?. apply moves_ret. intros o. destruct f; cbn; lia.
Qed.

(** The last step of [sys_open]: the fresh file takes over the inode. *)
Lemma as_me_acc {A} (m : M Y A) d (P : list file -> Prop) Q :
  acc (fun y => files_ok (y_files y) /\ P (y_files y)) m d (fun a y => files_ok (y_files y) /\ Q a (y_files y)) ->
  acc (fun k : K => okay k /\ P (y_files (k_env k))) (as_me m) d (fun a k => okay k /\ Q a (y_files (k_env k))).
Proof.
  intros Hm k a k' [(Hf&Ht&Hr) HP] (me&?&[-> Hme]%curproc_inv&E)%bind_inv.
  apply bind_inv in E as (p&?&[-> Hp]%Sched.getproc_inv&E). apply bind_inv in E as (?&k1&E1&E).
  injection E1 as <- <-. unfold env, zoom in E. proj_upd in E. revert E.
  set (y1 := _ <| y_killed := _ |>). destruct (m y1) eqn:E; intros [= <- <-].
  destruct (Hm y1 _ _ (conj Hf HP) E) as [[Hf' HQ] Hc]. split; [done|]. intros o.
  cbn [tally kernel_tally]. unfold kernel_count. proj_upd. rewrite Hc.
  replace (tally y1 o) with (tally (k_env k) o); [lia|].
  cbn [tally sys_tally]. unfold sys_count, y1. proj_upd. cbn [tally fs_tally]. unfold fs_count. by destruct o.
Qed.

Lemma open_file_acc f ip omode :
  acc (fun y : Y => files_ok (y_files y) /\ fresh f (y_files y))
    (setf f (fun x => x <| fl_type := FD_INODE |> <| fl_ip := ip |> <| fl_off := 0 |>
                        <| fl_readable := Z.land omode O_WRONLY =? 0 |>
                        <| fl_writable := negb (Z.land omode O_WRONLY =? 0) || negb (Z.land omode O_RDWR =? 0) |>))
    (fun _ o => - one (IRef ip) o) (fun _ y => files_ok (y_files y) /\ True).
Proof.
  intros y a y' (Hok&x&Hx&H1&H2) (x'&Hx'&Hf&Ht)%setf_inv. rewrite Hx in Hx'. injection Hx' as <-.
  rewrite Hf. split_and!; [|done|].
  - apply files_ok_alter with x; [done|done|]. proj_upd. rewrite H1. done.
  - intros o. rewrite Ht. unfold holds. proj_upd. rewrite H2. lia.
Qed.

Lemma still_sys_open : still (sys_open lay).
Proof.
  unfold sys_open. moves_step. destruct a as [path|]; [|moves_tac].
  moves_step. destruct a as [omode|]; [|moves_tac]. moves_step. destruct a as [ip|]; [|moves_tac].
  eapply acc_bind.
  { eapply acc_conseq; [apply (as_me_acc filealloc _ (fun _ => True) (fun r l => match r with Some f => fresh f l | None => True end))|
      by intros|intros ? ? HQ; exact HQ|intros; reflexivity].
    eapply acc_conseq; [apply (filealloc_acc (fun _ => True)); done|done| |intros; reflexivity].
    intros [f|] y (?&_&Hy); [destruct Hy as [Hy _]|]; done. }
  intros [f|]; [|eapply acc_conseq; [apply open_bad_moves|by intros ? []|done|intros; cbn; lia]].
  eapply acc_bind with (d1 := taken f) (R := fun _ k => okay k /\ fresh f (y_files (k_env k))).
  { intros k r k' [Hok Hfr] E. destruct (fdalloc_inv _ _ _ _ E Hok) as (H1&H2&H3&_). by rewrite H3. }
  intros [fd|]; [|eapply acc_conseq; [apply open_bad_moves|by intros ? []|done|intros; cbn; lia]].
  eapply acc_bind with (d1 := fun _ o => - one (ILock ip) o - one Ops o).
  { apply (as_me_acc _ _ (fresh f) (fun _ l => fresh f l)). eapply acc_bind; [apply (fs_acc _ _ (fun l => files_ok l /\ fresh f l)), iunlock_moves|].
    intros ?. eapply acc_conseq; [apply (fs_acc _ _ (fun l => files_ok l /\ fresh f l)), end_op_moves|done|done|intros; cbn; lia]. }
  intros ?. eapply acc_bind.
  { apply (as_me_acc _ _ (fresh f) (fun _ _ => True)), open_file_acc. }
  intros ?. apply acc_ret; [intros o; cbn; lia|]. by intros ? [].
Qed.

Lemma still_sys_pipe : still (sys_pipe lay).
Proof.
  assert (forall rf wf, moves (as_me (File.fileclose (B:=B) (l_end lay) rf ;; File.fileclose (l_end lay) wf))
    (fun _ o => - one (FRef rf) o - one (FRef wf) o)) as Hclose by (intros; apply as_me_moves; moves_tac).
  unfold sys_pipe. moves_step. destruct a as [a|]; [|moves_tac]. moves_step. destruct a0 as [[rf wf]|]; [|moves_tac].
  intros k r k' Hok (me&?&[-> Hme]%curproc_inv&E)%bind_inv. apply bind_inv in E as ([fd0|]&k1&E1&E);
    destruct (fdalloc_inv _ _ _ _ E1 Hok) as (Hok1&Ht1&_&Hc1&Hd); cycle 1.
  { subst k1. apply bind_inv in E as (?&k2&E2&[= <- <-]). destruct (Hclose rf wf _ _ _ Hok E2) as [Hok2 Ht2].
    split; [done|]. intros o. rewrite Ht2. lia. }
  apply bind_inv in E as ([fd1|]&k2&E2&E); destruct (fdalloc_inv _ _ _ _ E2 Hok1) as (Hok2&Ht2&_&_&Hd2).
  { enough (still (p <- getproc (E:=Y) me ;; umem (store_word (pgdir p) a (Z.of_nat fd0) ;;
      store_word (pgdir p) (a + 4) (Z.of_nat fd1)) ;; ret 0)) as Hs by (
      destruct (Hs _ _ _ Hok2 E) as [Hok3 Ht3]; split; [done|]; intros o; rewrite Ht3, Ht2, Ht1; cbn; lia).
    moves_tac. }
  subst k2. destruct Hd as (me'&p&Hme'&Hp&Hs). rewrite Hc1, Hme in Hme'. injection Hme' as <-.
  apply bind_inv in E as (?&k3&E3&E). rewrite <- Hc1 in Hme.
  destruct (set_ofile_inv _ _ _ _ _ _ _ _ E3 Hok1 Hme Hp Hs) as (Hok3&Ht3&_).
  apply bind_inv in E as (?&k4&E4&[= <- <-]). destruct (Hclose rf wf _ _ _ Hok3 E4) as [Hok4 Ht4].
  split; [done|]. intros o. rewrite Ht4, Ht3, Ht1. cbn. lia.
Qed.

(** The calls stay with the running process. *)
Definition same_cur : relation K := fun k k' => k_curproc k' = k_curproc k.
#[local] Instance same_cur_po : PreOrder same_cur.
Proof. split; [by intros ?|]. intros ? ? ? H1 H2. unfold same_cur in *. congruence. Qed.
Lemma cur_env {A} (m : M Y A) : keeps same_cur (env m).
Proof. by apply keeps_zoom. Qed.
Lemma cur_getproc i : keeps same_cur (getproc (E:=Y) i).
Proof. unfold getproc. keeps_tac. Qed.
Lemma cur_curproc : keeps same_cur (curproc (B:=B)).
Proof. unfold curproc, myproc. keeps_tac. Qed.
Lemma cur_setproc i g : keeps same_cur (setproc (E:=Y) i g).
Proof. pose proof cur_getproc. unfold setproc. keeps_tac. by apply keeps_modify. Qed.
Hint Resolve cur_env cur_getproc cur_curproc cur_setproc : keeps.
Lemma cur_highest_master i : keeps same_cur (get_highest_master (E:=Y) i).
Proof.
  unfold get_highest_master. generalize (S NPROC). intros n. revert i.
  induction n as [|n IH]; intros i; cbn [highest_master_from]; keeps_tac.
Qed.
Hint Resolve cur_highest_master : keeps.
Lemma cur_share_sz : keeps same_cur (share_sz (B:=B)).
Proof. unfold share_sz. keeps_tac. Qed.
Lemma cur_umem {A} (m : M memst A) : keeps same_cur (umem (B:=B) m).
Proof. apply cur_env. Qed.
Hint Resolve cur_share_sz cur_umem : keeps.
Lemma cur_scan_str n : forall d a z, keeps same_cur (scan_str (B:=B) n d a z).
Proof. induction n as [|n IH]; intros d a z; cbn [scan_str]; keeps_tac. Qed.
Hint Resolve cur_scan_str : keeps.
Lemma cur_argstr n : keeps same_cur (argstr (B:=B) n).
Proof. unfold argstr, argint, fetchint, fetchstr. keeps_tac. Qed.
Lemma cur_as_me {A} (m : M Y A) : keeps same_cur (as_me m).
Proof. unfold as_me. keeps_tac. Qed.

Lemma still_sys_chdir : still (sys_chdir lay).
Proof.
  unfold sys_chdir. intros k r k' Hok (me&?&[-> Hme]%curproc_inv&E)%bind_inv.
  apply bind_inv in E as (?&k1&E1&E). pose proof (cur_as_me _ _ _ _ E1) as Hc1.
  destruct (as_me_moves _ _ begin_op_sys _ _ _ Hok E1) as [Hok1 Ht1].
  apply bind_inv in E as (path&k2&E2&E). pose proof (cur_argstr _ _ _ _ E2) as Hc2.
  destruct (still_argstr _ _ _ _ Hok1 E2) as [Hok2 Ht2]. destruct path as [path|]; cycle 1.
  { apply bind_inv in E as (?&k3&E3&[= <- <-]). destruct (as_me_moves _ _ end_op_sys _ _ _ Hok2 E3) as [Hok3 Ht3].
    split; [done|]. intros o. rewrite Ht3, Ht2, Ht1. lia. }
  apply bind_inv in E as (p&?&[-> Hp]%Sched.getproc_inv&E). apply bind_inv in E as (ip&k3&E3&E).
  destruct (as_me_moves _ _ (chdir_to_moves path (cwd p)) _ _ _ Hok2 E3) as [Hok3 Ht3].
  destruct ip as [ip|]; [|injection E as <- <-; split; [done|]; intros o; rewrite Ht3, Ht2, Ht1; cbn; lia].
  assert (k_procs k3 = k_procs k2 /\ k_curproc k3 = Some me) as [Hps Hc3].
  { split; [|by rewrite (cur_as_me _ _ _ _ E3), Hc2, Hc1]. unfold as_me in E3.
    apply bind_inv in E3 as (me'&?&[-> _]%curproc_inv&E3). apply bind_inv in E3 as (p'&?&[-> _]%Sched.getproc_inv&E3).
    apply bind_inv in E3 as (?&k4&[= <- <-]&E3). unfold env, zoom in E3. revert E3.
    destruct (chdir_to _ _ _ _); intros [= -> <-]. done. }
  apply bind_inv in E as (?&k4&(q&Hq&->&Ht4)%setproc_count&[= <- <-]). rewrite Hps, Hp in Hq. injection Hq as <-.
  destruct Hok3 as (Hf3&Htb3&Hr3). split.
  - cbn. unfold kernel_ok. proj_upd. rewrite <- Hps in Hp. split_and!; [done| |].
    + unfold table_ok. rewrite (alter_as_insert _ _ _ _ Hp). apply Forall_insert; [done|].
      proj_upd. rewrite (Hr3 _ _ Hc3 Hp). split; [apply (Forall_lookup_1 _ _ _ _ Htb3 Hp)|by intros []].
    + intros me' q. proj_upd. rewrite Hc3. intros [= <-]. rewrite list_lookup_alter_eq, Hp. intros [= <-].
      proj_upd. by eapply Hr3.
  - intros o. rewrite Ht4, Ht3, Ht2, Ht1. unfold hold. proj_upd. cbn. lia.
Qed.

(** ** The system calls, together *)

Inductive fcall : Type :=
  | Fdup | Fread | Fwrite | Fclose | Ffstat | Flink | Funlink | Fopen | Fmkdir | Fmknod | Fchdir | Fpipe.
(** [None] is a process asleep in a pipe. *)
Definition do_call (c : fcall) : M K (option Z) :=
  match c with
  | Fdup => r <- sys_dup ;; ret (Some r)
  | Fread => sys_read lay
  | Fwrite => sys_write lay
  | Fclose => r <- sys_close lay ;; ret (Some r)
  | Ffstat => r <- sys_fstat ;; ret (Some r)
  | Flink => r <- sys_link lay ;; ret (Some r)
  | Funlink => r <- sys_unlink lay ;; ret (Some r)
  | Fopen => r <- sys_open lay ;; ret (Some r)
  | Fmkdir => r <- sys_mkdir lay ;; ret (Some r)
  | Fmknod => r <- sys_mknod lay ;; ret (Some r)
  | Fchdir => r <- sys_chdir lay ;; ret (Some r)
  | Fpipe => r <- sys_pipe lay ;; ret (Some r)
  end.

Lemma still_do_call c : still (do_call c).
Proof.
  pose proof still_sys_dup. pose proof still_sys_close. pose proof still_sys_fstat. pose proof still_sys_link.
  pose proof still_sys_unlink. pose proof still_sys_open. pose proof still_sys_mkdir. pose proof still_sys_mknod.
  pose proof still_sys_chdir. pose proof still_sys_pipe. pose proof still_sys_read. pose proof still_sys_write.
  destruct c; cbn [do_call]; moves_tac.
Qed.

(** C6: Every system call on files, on every path on which it returns, errors
    included, leaves the accounts balanced: the references to each file are as
    many as before beyond those of the descriptors of all processes, the
    references to each inode as many beyond those of the open files and the
    working directories, no inode stays locked and no transaction open; and a
    file without references refers to nothing, so that it can be handed out
    again. *)
Theorem file_calls_balanced c k r k' :
  kernel_ok k -> do_call c k = Ok r k' -> kernel_ok k' /\ balanced k k'.
Proof.
  intros Hk E. destruct (still_do_call c k r k' Hk E) as [Hok Ht]. split; [exact Hok|by apply balanced_tally].
Qed.

(** In a kernel whose accounts are balanced every descriptor refers to a
    file of the table with at least one reference, so that neither [filedup] nor
    [fileclose] panics on it. *)
Theorem descriptors_live (k : K) fd f :
  (forall g, 0 <= file_refs k g - descriptors k g) -> descr k fd f ->
  exists x, y_files (k_env k) !! f = Some x /\ 1 <= fl_ref x.
Proof.
  intros Hk (me&p&_&Hp&Hs).
  assert (forall s : option nat, 0 <= if decide (s = Some f) then 1 else 0) as H01 by (intros s; case_decide; lia).
  assert (1 <= descriptors k f) as Hd.
  { unfold descriptors. etrans; [|apply (total_le _ _ me p); [intros q; by apply total_pos|done]].
    etrans; [|apply (total_le _ _ fd (Some f)); done]. cbv beta. by rewrite decide_True. }
  specialize (Hk f). unfold file_refs in Hk. destruct (y_files (k_env k) !! f) as [x|]; cbn in Hk; [|lia].
  exists x. split; [done|lia].
Qed.
End calls.

(** ** Witnesses: a process with one file open *)
Import Ideal.
Definition file0 : file := mkFile FD_NONE 0 false false 0 0 0.
Definition acct_layout : layout Bufcache.view :=
  mkLayout Kalloc.demo_end Kalloc.demo_end 0 0 0 [] (mkDevsw (fun _ => None) (fun _ => None)).
Definition acct_sys : sysst Bufcache.view :=
  mkSys (mkFs (Log.mkSb 1000 900 200 60 2 62 90) (inode0 <| i_ref := 2 |> <| i_dev := 1 |> <| i_inum := 1 |> :: replicate 49 inode0) 1 None Log.empty_log)
    (mkFile FD_INODE 1 true false 0 0 0 :: replicate 99 file0) ∅ Syscall.demo_mem false [].
Definition acct_proc : proc :=
  Syscall.demo_proc <| pid := 1 |> <| ofile := Some 0%nat :: replicate 15 None |> <| cwd := Some 0%nat |>
    <| tf := mkTf 0 0 0 0 0 0 0 0 0 0 0 0 0 0 0 0 0 100 0 |>.
Definition acct_kernel : kernel (sysst Bufcache.view) :=
  (kernel0 (mkCpu 0 0 true true) acct_sys) <| k_curproc := Some 0%nat |> <| k_procs := acct_proc :: replicate 63 proc0 |>.

Lemma acct_devices : devices_still (l_sw acct_layout).
Proof. by split. Qed.
Lemma acct_ok : kernel_ok acct_kernel.
Proof.
  split_and!.
  - apply Forall_cons. split; [by intros [=]|]. by apply Forall_replicate.
  - apply Forall_cons. split; [split; [done|by intros [[=]|[=]]]|]. apply Forall_replicate.
    split; [done|]. intros _. split; [by apply Forall_replicate|done].
  - intros me p [= <-] [= <-]. done.
Qed.

Lemma file_calls_balanced_witness :
  match do_call acct_layout Fpipe acct_kernel with
  | Ok r k => r = Some 0 /\ kernel_ok k /\ balanced acct_kernel k
  | _ => False
  end.
Proof.
  assert (match do_call acct_layout Fpipe acct_kernel with Ok r _ => bool_decide (r = Some 0) | _ => false end = true) as Hr
    by (vm_compute; reflexivity).
  destruct (do_call acct_layout Fpipe acct_kernel) as [r k|? ?|?| |] eqn:E; [|discriminate Hr..].
  split; [exact (bool_decide_eq_true_1 _ Hr)|]. exact (file_calls_balanced acct_layout acct_devices Fpipe _ _ _ acct_ok E).
Defined.

Lemma acct_accounts g : 0 <= file_refs acct_kernel g - descriptors acct_kernel g.
Proof.
  destruct g as [|g]; [vm_compute; discriminate|].
  assert (descriptors acct_kernel (S g) = 0) as -> by (vm_compute; reflexivity).
  change (file_refs acct_kernel (S g)) with (from_option fl_ref 0 (replicate 99 file0 !! g)).
  destruct (replicate 99 file0 !! g) eqn:E; [|done]. by apply lookup_replicate_1 in E as [-> _].
Qed.

Lemma descriptors_live_witness :
  exists x, y_files (k_env acct_kernel) !! 0%nat = Some x /\ 1 <= fl_ref x.
Proof.
  apply (descriptors_live acct_kernel 0 0 acct_accounts). by exists 0%nat, acct_proc.
Defined.
End Acctsys.
