(* ===== verification/Acctproc.v ===== *)
(** * Processes and threads are accounted for

    The counts of Acctsys.v over the life of processes: [fork] and
    [thread_create] give the child references of its own, [exit] and
    [thread_exit] give back all of the caller's, and a slot of the process table
    that is handed out has nothing open.  [exec] by the first thread of a process
    breaks this: the other threads are freed with their files open. *)

From S2P Require Import Prelude Spinlock Dll Bytes Bufcache Log Txdisk Fs Pipes Kalloc Vm File Procdef Mlfq Sched Proc Kenv Fcntl Syscall Sysfile Acct Acctsys.

Module Acctproc.
Import File Kenv Syscall Acct Acctsys.

Section procs.
Context {B : Type} `{BufCache B}.
Variable lay : layout B.
Abbreviation Y := (sysst B).
Abbreviation K := (kernel Y).
#[local] Instance kernel_env : KernelEnv Y := sys_env lay.

(** ** What the accounts see of the process table *)
Definition key (p : proc) : procstate * list (option nat) * option nat := (state p, ofile p, cwd p).
Definition keys (k : K) : list (procstate * list (option nat) * option nat) := key <$> k_procs k.
Definition seen (k : K) : option nat * list (procstate * list (option nat) * option nat) := (k_curproc k, keys k).

Definition quiet : relation K := fun k k' => seen k' = seen k /\ k_env k' = k_env k.
#[local] Instance quiet_po : PreOrder quiet.
Proof. split; [by intros ?|]. intros ? ? ? [H1 H2] [H3 H4]. split; congruence. Qed.

Lemma keys_total (k k' : K) o :
  keys k' = keys k -> total (fun p => hold p o) (k_procs k') = total (fun p => hold p o) (k_procs k).
Proof.
  assert (forall ps : list proc, total (fun p => hold p o) ps =
    total (fun x => total (fun s => slot s o) x.1.2 + got x.2 o) (key <$> ps)) as Hk.
  { induction ps as [|p ps IH]; [done|]. unfold total in *. cbn [foldr fmap list_fmap]. by rewrite IH. }
  intros E. rewrite !Hk. unfold keys in E. by rewrite E.
Qed.
Lemma keys_table (k k' : K) : keys k' = keys k -> table_ok (k_procs k) -> table_ok (k_procs k').
Proof.
  assert (forall ps, table_ok ps <-> Forall (fun x => length x.1.2 = NOFILE /\
    (x.1.1 = UNUSED \/ x.1.1 = ZOMBIE -> Forall (fun s => s = None) x.1.2 /\ x.2 = None)) (key <$> ps)) as Hp.
  { intros ps. unfold table_ok. by rewrite Forall_fmap. }
  intros Hk Ht. apply Hp. unfold keys in Hk. rewrite Hk. by apply Hp.
Qed.
Lemma keys_okay (k k' : K) : seen k' = seen k -> k_env k' = k_env k -> okay k -> okay k'.
Proof.
  intros [= Hc Hk] He (Hf&Ht&Hr). cbn. unfold kernel_ok. rewrite He. split_and!; [done|by eapply keys_table|].
  - intros me p Hme Hp. rewrite Hc in Hme.
    assert (keys k' !! me = Some (key p)) as Hl by (unfold keys; by rewrite list_lookup_fmap, Hp).
    rewrite Hk in Hl. unfold keys in Hl. rewrite list_lookup_fmap in Hl.
    destruct (k_procs k !! me) as [q|] eqn:Hq; [|done]. injection Hl as Hs _ _. rewrite <- Hs. by eapply Hr.
Qed.

(** Accounts that hold of what is seen. *)
Definition okv (R : option nat * list (procstate * list (option nat) * option nat) -> Prop) (k : K) : Prop :=
  okay k /\ R (seen k).

Lemma acc_quiet {A} (m : M K A) R : keeps quiet m -> acc (okv R) m (fun _ _ => 0) (fun _ => okv R).
Proof.
  intros Hm k a k' [Hok HR] E. destruct (Hm _ _ _ E) as [H1 H2]. split.
  - split; [by eapply keys_okay|by rewrite H1].
  - intros o. cbn [tally kernel_tally]. unfold kernel_count. rewrite H2, (keys_total k k'); [lia|]. by injection H1.
Qed.
Lemma acc_env {A} (m : M Y A) d R : moves m d -> acc (okv R) (env m) d (fun _ => okv R).
Proof.
  intros Hm k a k' [Hok HR] E. destruct (env_moves m d Hm k a k' Hok E) as [Hok' Ht]. split; [|done]. split; [done|].
  unfold env, zoom in E. destruct (m (k_env k)); injection E as <- <- || discriminate. exact HR.
Qed.

(** *** Routines of proc.c that open and close nothing *)

Lemma quiet_get i : keeps quiet (getproc (E:=Y) i).
Proof. unfold getproc. keeps_tac. Qed.
Lemma quiet_set i g : (forall p, key (g p) = key p) -> keeps quiet (setproc (E:=Y) i g).
Proof.
  intros Hg k a k' (p&Hp&->&_)%setproc_count. split; [|done]. unfold seen, keys. proj_upd. f_equal.
  apply list_eq. intros j. rewrite !list_lookup_fmap.
  destruct (decide (i = j)) as [->|].
  - rewrite list_lookup_alter_eq. destruct (k_procs k !! j); [cbn; by rewrite Hg|done].
  - by rewrite list_lookup_alter_ne.
Qed.
Lemma quiet_modify (g : K -> K) :
  (forall k, k_curproc (g k) = k_curproc k /\ k_procs (g k) = k_procs k /\ k_env (g k) = k_env k) -> keeps quiet (modify g).
Proof.
  intros Hg. apply keeps_modify. intros k. destruct (Hg k) as (H1&H2&H3). unfold quiet, seen, keys. by rewrite H1, H2, H3.
Qed.
Lemma quiet_lock {A} (proj : K -> spinlock) `{!Setter proj} (m : M view A) :
  (forall k c l, quiet k (k <| k_cpu := c |> <| proj := l |>)) -> keeps quiet (with_lock proj m).
Proof.
  intros Hp k a k' E. unfold with_lock in E. destruct (m _); try discriminate. injection E as <- <-. apply Hp.
Qed.
Lemma quiet_acquire_ptable : keeps quiet (acquire_ptable (E:=Y)).
Proof. by apply quiet_lock. Qed.
Lemma quiet_release_ptable : keeps quiet (release_ptable (E:=Y)).
Proof. by apply quiet_lock. Qed.
Lemma quiet_acquire_memlock : keeps quiet (acquire_memlock (E:=Y)).
Proof. by apply quiet_lock. Qed.
Lemma quiet_release_memlock : keeps quiet (release_memlock (E:=Y)).
Proof. by apply quiet_lock. Qed.
Lemma quiet_holding : keeps quiet (with_lock (E:=Y) k_ptlock holding).
Proof. by apply quiet_lock. Qed.
Lemma quiet_nodes {A} (m : M (list mlfqnode) A) : keeps quiet (zoom (k_slabs (E:=Y)) m).
Proof. by apply keeps_zoom. Qed.
Lemma quiet_myproc : keeps quiet (myproc (E:=Y)).
Proof. unfold myproc. keeps_tac. Qed.
Hint Resolve quiet_get quiet_acquire_ptable quiet_release_ptable quiet_acquire_memlock quiet_release_memlock
  quiet_holding quiet_nodes quiet_myproc : keeps.
Hint Extern 1 (keeps quiet (setproc _ _)) => apply quiet_set; intros; reflexivity : keeps.
Hint Extern 1 (keeps quiet (modify _)) => apply quiet_modify; intros; split_and!; reflexivity : keeps.
Lemma quiet_highest_master i : keeps quiet (get_highest_master (E:=Y) i).
Proof.
  unfold get_highest_master. generalize (S NPROC). intros n. revert i.
  induction n as [|n IH]; intros i; cbn [highest_master_from]; keeps_tac.
Qed.
Lemma quiet_minpathlevel : keeps quiet (Sched.getminpathlevel (E:=Y)).
Proof. unfold Sched.getminpathlevel. keeps_tac. Qed.
Lemma quiet_mlfqnode i : keeps quiet (Sched.allocmlfqnode (E:=Y) i).
Proof. unfold Sched.allocmlfqnode. keeps_tac. Qed.
Lemma quiet_header0 : keeps quiet (Sched.header0 (E:=Y)).
Proof. unfold Sched.header0. keeps_tac. Qed.
Lemma quiet_link_thread me np : keeps quiet (Proc.link_thread (E:=Y) me np).
Proof. unfold Proc.link_thread. keeps_tac. Qed.
Lemma quiet_undo_pid : keeps quiet (Proc.undo_pid (E:=Y)).
Proof. unfold Proc.undo_pid. keeps_tac. Qed.
Lemma quiet_find_unused : keeps quiet (Proc.find_unused (E:=Y)).
Proof.
  unfold Proc.find_unused. induction all_procs as [|i l IH]; cbn [forR]; keeps_tac.
Qed.
Lemma quiet_sched_out : keeps quiet (Proc.sched_out (E:=Y)).
Proof. unfold Proc.sched_out. keeps_tac. Qed.
Hint Resolve quiet_highest_master quiet_minpathlevel quiet_mlfqnode quiet_header0 quiet_link_thread quiet_undo_pid
  quiet_find_unused quiet_sched_out : keeps.

(** *** What proc.c calls below *)

Lemma mem_moves {A} (m : M memst A) : still (mem (B:=B) m).
Proof. apply still_mem. Qed.
Lemma env_filedup f : moves (Procdef.filedup f) (fun _ o => one (FRef f) o).
Proof. cbn. pose proof (filedup_moves (B:=B)). moves_tac. Qed.
Lemma env_fileclose f : moves (Procdef.fileclose f) (fun _ o => - one (FRef f) o).
Proof. cbn. apply fileclose_moves. Qed.
Lemma env_idup i : moves (Procdef.idup i) (fun _ o => one (IRef i) o).
Proof.
  cbn. intros y a y' Hok (j&y1&E1&[= <- <-])%bind_inv. destruct (fs_moves _ _ (idup_moves i) _ _ _ Hok E1) as [H1 H2].
  replace j with i in H2; [done|]. unfold fs, zoom in E1. destruct (Fs.idup i (y_fs y)) eqn:E; simplify_eq/=.
  unfold Fs.idup in E. by apply bind_inv in E as (?&?&_&[= <- _]).
Qed.
Lemma env_iput i : moves (Procdef.iput i) (fun _ o => - one (IRef i) o).
Proof. cbn. apply fs_moves, iput_moves. Qed.
Lemma env_begin_op : moves Procdef.begin_op (fun _ o => one Ops o).
Proof. cbn. apply begin_op_sys. Qed.
Lemma env_end_op : moves Procdef.end_op (fun _ o => - one Ops o).
Proof. cbn. apply end_op_sys. Qed.
Hint Resolve env_filedup env_fileclose env_idup env_iput env_begin_op env_end_op : moves.
Hint Extern 2 (moves _ _) => exact (mem_moves _) : moves.

Lemma acc_assoc {A C D} (m : M K A) (g : A -> M K C) (h : C -> M K D) P d Q :
  acc P (bind m (fun a => bind (g a) h)) d Q -> acc P (bind (bind m g) h) d Q.
Proof. intros Hm s c s' HP E. rewrite bind_bind in E. by eapply Hm. Qed.

(** Along the text of a routine of proc.c. *)
Lemma acc_pre {A} (P' P : K -> Prop) (m : M K A) d Q : (forall k, P k -> P' k) -> acc P' m d Q -> acc P m d Q.
Proof. intros HP Hm k a k' Hk. by apply Hm, HP. Qed.

Create HintDb acc.
Ltac acc_call :=
  first [ solve [apply acc_quiet; keeps_tac] | solve [apply acc_env; moves_call] | solve [eauto with acc] ].
Ltac acc_step :=
  lazymatch goal with
  | |- forall _, _ => intros ?; cbv beta
  | |- acc _ (bind (match ?x with _ => _ end) _) _ _ => destruct x
  | |- acc _ (bind (bind _ _) _) _ _ => apply acc_assoc
  | |- acc _ (bind _ _) _ _ => eapply acc_bind; [acc_call|intros ?; cbv beta]
  | |- acc _ (ret _) _ _ => apply acc_ret; [intros ?; cbn; lia|try (intros ? []; done); try done]
  | |- acc _ (match ?x with _ => _ end) _ _ => destruct x
  end.
Ltac acc_tac := repeat acc_step.

(** An update of a slot, in general. *)
Lemma setproc_acc i g (k : K) u k' p :
  setproc i g k = Ok u k' -> okay k -> k_procs k !! i = Some p ->
  length (ofile (g p)) = NOFILE -> (state (g p) = UNUSED \/ state (g p) = ZOMBIE -> clean (g p)) ->
  (state p = RUNNING -> state (g p) = RUNNING) ->
  okay k' /\ (forall o, tally k' o = tally k o - hold (g p) o + hold p o) /\
  seen k' = (k_curproc k, <[i := key (g p)]> (keys k)).
Proof.
  intros E (Hf&Ht&Hr) Hp Hl Hc Hrun. apply setproc_count in E as (q&Hq&->&Hc'). rewrite Hp in Hq. injection Hq as <-.
  split_and!; [|done|].
  - cbn. unfold kernel_ok. proj_upd. split_and!; [done| |].
    + unfold table_ok. rewrite (alter_as_insert _ _ _ _ Hp). apply Forall_insert; [done|by split].
    + intros me q. proj_upd. intros Hme. destruct (decide (i = me)) as [->|].
      * rewrite list_lookup_alter_eq, Hp. intros [= <-]. apply Hrun. by eapply Hr.
      * rewrite list_lookup_alter_ne by done. by eapply Hr.
  - unfold seen, keys. proj_upd. f_equal. rewrite (alter_as_insert _ _ _ _ Hp). apply list_fmap_insert.
Qed.

Lemma lookup_key (k : K) i x : keys k !! i = Some x -> exists p, k_procs k !! i = Some p /\ key p = x.
Proof. unfold keys. rewrite list_lookup_fmap. destruct (k_procs k !! i) as [p|]; [|done]. intros [= <-]. by exists p. Qed.

(** Slot [i] is being set up; its descriptors from [n] on and, if [c], its
    directory are empty. *)
Definition newborn (i n : nat) (c : bool) (v : option nat * list (procstate * list (option nat) * option nat)) : Prop :=
  exists fs w, v.2 !! i = Some (EMBRYO, fs, w) /\ length fs = NOFILE /\
    (forall j, (n <= j < NOFILE)%nat -> fs !! j = Some None) /\ (c = true -> w = None).

(** An update of the newborn slot [i]. *)
Lemma newborn_set i n c g n' c' d :
  (forall p, state p = EMBRYO -> length (ofile p) = NOFILE ->
     (forall j, (n <= j < NOFILE)%nat -> ofile p !! j = Some None) -> (c = true -> cwd p = None) ->
     length (ofile (g p)) = NOFILE /\ state (g p) = EMBRYO /\
     (forall j, (n' <= j < NOFILE)%nat -> ofile (g p) !! j = Some None) /\ (c' = true -> cwd (g p) = None) /\
     forall o, d o = hold p o - hold (g p) o) ->
  acc (okv (newborn i n c)) (setproc (E:=Y) i g) (fun _ => d) (fun _ => okv (newborn i n' c')).
Proof.
  intros Hg k u k' (Hok&fs&w&Hk&Hl&Hn&Hc) E. apply lookup_key in Hk as (p&Hp&Hk). injection Hk as Hs <- <-.
  destruct (Hg p Hs Hl Hn Hc) as (G1&G2&G3&G4&G5).
  destruct (setproc_acc _ _ _ _ _ _ E Hok Hp) as (Hok'&Ht&Hseen); [done|rewrite G2; by intros []|by rewrite Hs|].
  split; [split; [done|]|].
  - rewrite Hseen. exists (ofile (g p)), (cwd (g p)). cbn. unfold keys. split; [|done].
    rewrite list_lookup_insert_eq; [unfold key; by rewrite G2|]. rewrite length_fmap. by eapply lookup_lt_Some.
  - intros o. rewrite Ht, G5. lia.
Qed.
(** The newborn slot is given up again, or made runnable. *)
Lemma newborn_end i n c g :
  (forall p, ofile (g p) = ofile p /\ cwd (g p) = cwd p) ->
  (forall p, state (g p) = UNUSED /\ n = 0%nat /\ c = true \/ state (g p) = RUNNABLE) ->
  acc (okv (newborn i n c)) (setproc (E:=Y) i g) (fun _ _ => 0) (fun _ => okv (fun _ => True)).
Proof.
  intros Hg Hst k u k' (Hok&fs&w&Hk&Hl&Hn&Hc) E. apply lookup_key in Hk as (p&Hp&Hk). injection Hk as Hs <- <-.
  destruct (Hg p) as [G1 G2].
  destruct (setproc_acc _ _ _ _ _ _ E Hok Hp) as (Hok'&Ht&_); [by rewrite G1| |by rewrite Hs|].
  - destruct (Hst p) as [(_&->&->)| -> ]; [|by intros []]. intros _. unfold clean. rewrite G1, G2. split; [|by apply Hc].
    apply Forall_lookup_2. intros j s Hj. pose proof (lookup_lt_Some _ _ _ Hj). rewrite Hn in Hj by lia. by simplify_eq.
  - split; [done|]. intros o. rewrite Ht. unfold hold. rewrite G1, G2. lia.
Qed.
Definition any : option nat * list (procstate * list (option nat) * option nat) -> Prop := fun _ => True.

Lemma okv_any k : okay k -> okv any k.
Proof. intros Hk. exact (conj Hk I). Qed.

Lemma find_unused_acc :
  acc (okv any) (Proc.find_unused (E:=Y)) (fun _ _ => 0)
    (fun r k => okay k /\ match r with Some i => exists p, k_procs k !! i = Some p /\ state p = UNUSED | None => True end).
Proof.
  unfold Proc.find_unused. induction all_procs as [|i l IH]; cbn [forR].
  { apply acc_ret; [done|]. by intros ? []. }
  intros k r k' [Hok Ha] (r1&k1&E1&E)%bind_inv. apply bind_inv in E1 as (p&?&[-> Hp]%Sched.getproc_inv&[= <- <-]).
  case_bool_decide; [|by apply IH]. injection E as <- <-. split; [|intros o; lia]. split; [done|]. by exists p.
Qed.

(** The slot that [allocproc] hands out has nothing open. *)
Lemma allocproc_acc :
  acc okay (Proc.allocproc (E:=Y)) (fun _ _ => 0)
    (fun r => match r with Some i => okv (newborn i 0 true) | None => okv any end).
Proof.
  unfold Proc.allocproc.
  apply (acc_pre (okv any)); [exact okv_any|].
  acc_step. eapply acc_bind; [apply find_unused_acc|]. intros [i|]; cycle 1.
  { apply (acc_pre (okv any)); [intros ? []; by apply okv_any|]. acc_tac. }
  eapply acc_bind with (d1 := fun _ _ => 0) (R := fun _ k => okay k /\ exists p, k_procs k !! i = Some p /\ state p = UNUSED).
  { intros k n k' Hk [= <- <-]. split; [done|]. intros o. lia. }
  intros npid. eapply acc_bind with (d1 := fun _ _ => 0) (R := fun _ => okv (newborn i 0 true)).
  { intros k u k' (Hok&p&Hp&Hs) E. destruct (Forall_lookup_1 _ _ _ _ (proj1 (proj2 Hok)) Hp) as [Hl Hc].
    destruct (Hc (or_introl Hs)) as [Hc1 Hc2].
    destruct (setproc_acc _ _ _ _ _ _ E Hok Hp) as (Hok'&Ht&Hseen); [done|by intros []|by rewrite Hs|].
    split; [split; [done|]|].
    - rewrite Hseen. exists (ofile p), (cwd p). cbn. rewrite list_lookup_insert_eq
        by (unfold keys; rewrite length_fmap; by eapply lookup_lt_Some). split_and!; [done|done| |done].
      intros j Hj. destruct (lookup_lt_is_Some_2 (ofile p) j) as [s Es]; [lia|].
      by rewrite Es, (Forall_lookup_1 _ _ _ _ Hc1 Es).
    - intros o. rewrite Ht. unfold hold. proj_upd. lia. }
  intros ?. do 4 acc_step. destruct (_ =? _).
  - eapply acc_bind; [apply newborn_end; [done|]; intros; left; by proj_upd|]. acc_tac.
  - acc_tac.
Qed.

(** Each open file of [me] gets one more reference, that of [np]. *)
Lemma dup_files_acc me np c :
  acc (okv (newborn np 0 c)) (Proc.dup_files (E:=Y) me np) (fun _ _ => 0) (fun _ => okv (newborn np NOFILE c)).
Proof.
  unfold Proc.dup_files.
  enough (forall m n, (n + m = NOFILE)%nat ->
    acc (okv (newborn np n c)) (forM (seq n m) (fun i =>
      p <- getproc (E:=Y) me ;;
      o <- deref (ofile p !! i) ;;
      match o with
      | Some f => env (Procdef.filedup f) ;; setproc np (fun p => p <| Procdef.ofile ::= <[i := Some f]> |>)
      | None => ret tt
      end)) (fun _ _ => 0) (fun _ => okv (newborn np NOFILE c))) as Hloop by (by apply Hloop).
  induction m as [|m IH]; intros n Hm; cbn [seq forM].
  { replace n with NOFILE by lia. by apply acc_ret. }
  do 4 acc_step. eapply acc_bind with (d1 := fun _ _ => 0) (R := fun _ => okv (newborn np (S n) c)).
  - destruct a0 as [f|].
    + acc_step. eapply acc_conseq; [apply (newborn_set np n c _ (S n) c (fun o => - one (FRef f) o))|done|done|].
      * intros p Hs Hl Hn Hc. proj_upd. rewrite length_insert. split_and!; [done|done| |done|].
        -- intros j Hj. rewrite list_lookup_insert_ne by lia. apply Hn. lia.
        -- intros o. unfold hold. proj_upd. rewrite (total_insert _ _ n None) by (apply Hn; lia). cbn. lia.
      * intros. cbn. lia.
    + apply acc_ret; [done|]. intros k (Hok&fs&w&Hk&Hl&Hn&Hc). split; [done|]. exists fs, w.
      split_and!; [done|done| |done]. intros j Hj. apply Hn. lia.
  - intros ?. eapply acc_conseq; [apply IH; lia|done|done|]. intros. lia.
Qed.

(** The child's directory. *)
Lemma give_cwd np n c' g :
  (forall p, ofile (g p) = ofile p /\ cwd (g p) = Some c' /\ state (g p) = state p) ->
  acc (okv (newborn np n true)) (setproc (E:=Y) np g) (fun _ o => - one (IRef c') o) (fun _ => okv (newborn np n false)).
Proof.
  intros Hg. apply newborn_set. intros p Hs Hl Hn Hc. destruct (Hg p) as (G1&G2&G3). rewrite G1, G2, G3.
  split_and!; try done. intros o. unfold hold. rewrite G1, G2, Hc by done. cbn. lia.
Qed.

Hint Resolve dup_files_acc : acc.


(** [fork] leaves the accounts as they were: what the child refers to it has
    references for, and a failure gives back what was taken. *)
Lemma still_fork : still (Proc.fork (E:=Y)).
Proof.
  unfold Proc.fork. apply (acc_pre (okv any)); [exact okv_any|]. do 2 acc_step.
  eapply acc_bind; [apply (acc_pre okay); [by intros ? []|apply allocproc_acc]|]. intros [np|]; [|acc_tac].
  do 9 acc_step. destruct (_ =? 0).
  - acc_step. eapply acc_bind; [apply newborn_end; [done|]; intros; left; by proj_upd|]. acc_tac.
  - do 5 acc_step. eapply acc_bind; [by apply give_cwd|]. intros ?. acc_step.
    eapply acc_bind; [apply newborn_end; [done|]; intros; by right|]. acc_tac.
Qed.

Lemma switchuvm_acc i R : acc (okv R) (Sched.switchuvm (E:=Y) i) (fun _ _ => 0) (fun _ => okv R).
Proof.
  unfold Sched.switchuvm. acc_step. destruct (_ =? 0); [by apply acc_stop|]. destruct (_ =? 0); [by apply acc_stop|].
  eapply acc_bind with (d1 := fun _ _ => 0); [apply acc_env; by apply moves_ret|]. intros ?.
  eapply acc_conseq; [apply acc_env; apply mem_moves|done|done|]. intros. cbn. lia.
Qed.
Hint Resolve switchuvm_acc : acc.

Lemma still_thread_create f a : still (Proc.thread_create (E:=Y) f a).
Proof.
  unfold Proc.thread_create. apply (acc_pre (okv any)); [exact okv_any|]. do 2 acc_step.
  eapply acc_bind; [apply (acc_pre okay); [by intros ? []|apply allocproc_acc]|]. intros [np|]; [|acc_tac].
  do 5 acc_step. eapply acc_bind; [apply acc_quiet; keeps_tac|intros base]. do 2 acc_step.
  destruct (_ =? 0); [acc_tac|]. repeat acc_step. eapply acc_bind; [by apply give_cwd|]. intros ?. repeat acc_step.
  eapply acc_bind; [apply newborn_end; [done|]; intros; by right|]. acc_tac.
Qed.

(** ** Termination *)

(** The running process [me], its descriptors and its directory. *)
Definition own (me : nat) (fs : list (option nat)) (w : option nat)
    (v : option nat * list (procstate * list (option nat) * option nat)) : Prop :=
  v.1 = Some me /\ v.2 !! me = Some (RUNNING, fs, w).

Lemma own_get me fs w (k : K) : okv (own me fs w) k ->
  exists p, k_procs k !! me = Some p /\ state p = RUNNING /\ ofile p = fs /\ cwd p = w /\ length fs = NOFILE.
Proof.
  intros (Hok&_&Hk). apply lookup_key in Hk as (p&Hp&[= H1 H2 H3]). exists p. split_and!; try done.
  rewrite <- H2. apply (Forall_lookup_1 _ _ _ _ (proj1 (proj2 Hok)) Hp).
Qed.

(** An update of the caller's own slot. *)
Lemma own_set me fs w g (k : K) u k' fs' w' :
  setproc me g k = Ok u k' -> okv (own me fs w) k -> length fs' = NOFILE ->
  (forall p, ofile p = fs -> cwd p = w -> state (g p) = state p /\ ofile (g p) = fs' /\ cwd (g p) = w') ->
  okv (own me fs' w') k' /\
  forall o, tally k' o = tally k o + total (fun s => slot s o) fs + got w o - total (fun s => slot s o) fs' - got w' o.
Proof.
  intros E Hk Hl Hg. destruct (own_get _ _ _ _ Hk) as (p&Hp&Hs&Ho&Hc&_). destruct Hk as [Hok [Hm _]].
  destruct (Hg p Ho Hc) as (G1&G2&G3).
  destruct (setproc_acc _ _ _ _ _ _ E Hok Hp) as (Hok'&Ht&Hseen); [by rewrite G2|rewrite G1, Hs; by intros []|by rewrite G1|].
  split.
  - split; [done|]. rewrite Hseen. split; [done|]. cbn. unfold keys.
    rewrite list_lookup_insert_eq by (rewrite length_fmap; by eapply lookup_lt_Some).
    unfold key. by rewrite G1, G2, G3, Hs.
  - intros o. rewrite Ht. unfold hold. rewrite Ho, Hc, G2, G3. lia.
Qed.

Lemma close_files_acc me w fs :
  acc (okv (own me fs w)) (Proc.close_files (E:=Y) me) (fun _ _ => 0)
    (fun _ k => exists fs', okv (own me fs' w) k /\ Forall (fun s => s = None) fs').
Proof.
  unfold Proc.close_files.
  enough (forall m n fs, (n + m = NOFILE)%nat -> (forall j, (j < n)%nat -> fs !! j = Some None) ->
    acc (okv (own me fs w)) (forM (seq n m) (fun fd =>
      p <- getproc (E:=Y) me ;;
      o <- deref (ofile p !! fd) ;;
      match o with
      | Some f => env (Procdef.fileclose f) ;; setproc me (fun p => p <| Procdef.ofile ::= <[fd := None]> |>)
      | None => ret tt
      end)) (fun _ _ => 0)
    (fun _ k => exists fs', okv (own me fs' w) k /\ Forall (fun s => s = None) fs')) as Hloop by (apply Hloop; [done|lia]).
  clear fs. induction m as [|m IH]; intros n fs Hm Hn; cbn [seq forM].
  { apply acc_ret; [done|]. intros k Hk. exists fs. split; [done|]. destruct (own_get _ _ _ _ Hk) as (_&_&_&_&_&Hl).
    apply Forall_lookup_2. intros j s Hj. pose proof (lookup_lt_Some _ _ _ Hj). rewrite Hn in Hj by lia. by simplify_eq. }
  intros k u k' Hk (u1&k1&E1&E)%bind_inv. destruct (own_get _ _ _ _ Hk) as (p&Hp&_&Ho&_&Hl).
  apply bind_inv in E1 as (p'&?&[-> Hp']%Sched.getproc_inv&E1). rewrite Hp in Hp'. injection Hp' as <-. rewrite Ho in E1.
  destruct (fs !! n) as [[f|]|] eqn:Hf; [| |done]; rewrite bind_deref in E1.
  - apply bind_inv in E1 as (u2&k2&E2&E1). destruct (acc_env _ _ _ (env_fileclose f) _ _ _ Hk E2) as [Hk2 Ht2].
    destruct (own_set _ _ _ _ _ _ _ (<[n := None]> fs) w E1 Hk2) as [Hk1 Ht1]; [by rewrite length_insert|by intros p0 <- <-|].
    assert (forall j, (j < S n)%nat -> <[n := None]> fs !! j = Some None) as Hn'.
    { intros j Hj. destruct (decide (j = n)) as [->|]; [apply list_lookup_insert_eq; lia|].
      rewrite list_lookup_insert_ne by done. apply Hn. lia. }
    destruct (IH (S n) _ ltac:(lia) Hn' _ _ _ Hk1 E) as [HQ Ht].
    split; [done|]. intros o. rewrite Ht, Ht1, Ht2, (total_insert _ _ _ _ _ Hf). cbn. lia.
  - injection E1 as <- <-. refine (IH (S n) fs ltac:(lia) _ _ _ _ Hk E). intros j Hj.
    destruct (decide (j = n)) as [->|]; [done|]. apply Hn. lia.
Qed.

Lemma put_cwd_acc me fs w :
  acc (okv (own me fs w)) (Proc.put_cwd (E:=Y) me) (fun _ _ => 0) (fun _ => okv (own me fs None)).
Proof.
  unfold Proc.put_cwd. acc_step. intros k u k' Hk E. destruct (own_get _ _ _ _ Hk) as (p&Hp&_&Ho&Hc&Hl).
  apply bind_inv in E as (p'&?&[-> Hp']%Sched.getproc_inv&E). rewrite Hp in Hp'. injection Hp' as <-. rewrite Hc in E.
  destruct w as [c|]; [|done]. rewrite bind_deref in E.
  apply bind_inv in E as (u1&k1&E1&E). destruct (acc_env _ _ _ (env_iput c) _ _ _ Hk E1) as [Hk1 Ht1].
  apply bind_inv in E as (u2&k2&E2&E). destruct (acc_env _ _ _ env_end_op _ _ _ Hk1 E2) as [Hk2 Ht2].
  destruct (own_set _ _ _ _ _ _ _ fs None E Hk2 Hl) as [Hk3 Ht3]; [by intros p0 <- _|].
  split; [done|]. intros o. rewrite Ht3, Ht2, Ht1. cbn. lia.
Qed.

Lemma wakeup1_acc me fs w c :
  acc (okv (own me fs w)) (Proc.wakeup1 (E:=Y) c) (fun _ _ => 0) (fun _ => okv (own me fs w)).
Proof.
  unfold Proc.wakeup1. induction all_procs as [|i l IH]; cbn [forM]; [by apply acc_ret|].
  eapply acc_bind with (d1 := fun _ _ => 0) (R := fun _ => okv (own me fs w));
    [|intros ?; eapply acc_conseq; [apply IH|done|done|intros; lia]].
  intros k u k' Hk E. apply bind_inv in E as (p&?&[-> Hp]%Sched.getproc_inv&E).
  destruct (_ && _) eqn:Eb; [|injection E as <- <-; split; [done|intros; lia]]. bool_hyps. cbn [when] in E.
  destruct (own_get _ _ _ _ Hk) as (q&Hq&Hs&_). assert (i <> me) as Hne by congruence.
  destruct Hk as [Hok [Hm Hk]].
  destruct (setproc_acc _ _ _ _ _ _ E Hok Hp) as (Hok'&Ht&Hseen);
    [apply (Forall_lookup_1 _ _ _ _ (proj1 (proj2 Hok)) Hp)|by intros []|congruence|].
  split; [|intros o; rewrite Ht; unfold hold; proj_upd; lia]. split; [done|]. rewrite Hseen. split; [done|]. cbn.
  by rewrite list_lookup_insert_ne.
Qed.

Hint Resolve wakeup1_acc put_cwd_acc : acc.

Lemma abandon_acc me fs w me' :
  acc (okv (own me fs w)) (Proc.abandon_children (E:=Y) me') (fun _ _ => 0) (fun _ => okv (own me fs w)).
Proof.
  unfold Proc.abandon_children. induction all_procs as [|i l IH]; cbn [forM]; [by apply acc_ret|].
  eapply acc_bind with (d1 := fun _ _ => 0) (R := fun _ => okv (own me fs w)).
  - acc_step. unfold when. repeat case_bool_decide; [|acc_tac..].
    + do 2 acc_step. eapply acc_conseq; [apply wakeup1_acc|done|done|]. intros. cbn. lia.
  - intros ?. eapply acc_conseq; [apply IH|done|done|]. intros. lia.
Qed.
Hint Resolve abandon_acc : acc.

(** Nothing is lost, and zombies have nothing open; the caller does not run
    any more. *)
Definition settled (k : K) : Prop := files_ok (y_files (k_env k)) /\ table_ok (k_procs k).

(** The caller, with nothing open, becomes a zombie and leaves the CPU. *)
Lemma zombie_acc me fs :
  Forall (fun s => s = None) fs ->
  acc (okv (own me fs None))
    (setproc (E:=Y) me (fun p => p <| state := ZOMBIE |>) ;; Proc.sched_out ;; ret tt)
    (fun _ _ => 0) (fun _ => settled).
Proof.
  intros Hfs k u k' Hk (u1&k1&E1&E)%bind_inv. destruct (own_get _ _ _ _ Hk) as (p&Hp&Hs&Ho&Hc&Hl).
  destruct Hk as [(Hf&Ht&_) _]. apply setproc_count in E1 as (p'&Hp'&->&Hc1). rewrite Hp in Hp'. injection Hp' as <-.
  apply bind_inv in E as (ie&k2&E2&[= <- <-]). destruct (quiet_sched_out _ _ _ E2) as [Hseen He].
  injection Hseen as _ Hkeys. split.
  - split; [by rewrite He|]. apply (keys_table _ _ Hkeys). proj_upd.
    unfold table_ok. rewrite (alter_as_insert _ _ _ _ Hp). apply Forall_insert; [done|]. proj_upd.
    rewrite Ho. split; [done|]. intros _. split; [by proj_upd; rewrite Ho|by proj_upd].
  - intros o. cbn [tally kernel_tally] in *. unfold kernel_count in *. rewrite He, (keys_total _ _ o Hkeys).
    rewrite Hc1. unfold hold. proj_upd. lia.
Qed.

(** The caller's slot, from a state in which it runs. *)
Lemma own_start {A} (m : nat -> M K A) d Q :
  (forall me fs w, acc (okv (own me fs w)) (m me) d Q) ->
  (forall me k, k_procs k !! me = None -> forall a k', m me k <> Ok a k') ->
  acc okay (me <- myproc ;; me <- deref me ;; m me) d Q.
Proof.
  intros Hm Hnone k a k' Hok E. unfold myproc in E. rewrite bind_gets in E.
  destruct (k_curproc k) as [me|] eqn:Hme; [|done]. rewrite bind_deref in E.
  destruct (k_procs k !! me) as [p|] eqn:Hp; [|by destruct (Hnone _ _ Hp _ _ E)].
  apply (Hm me (ofile p) (cwd p) k a k'); [|done]. split; [done|]. split; [done|]. cbn. unfold keys.
  rewrite list_lookup_fmap, Hp. cbn. unfold key. by rewrite (proj2 (proj2 Hok) _ _ Hme Hp).
Qed.
Lemma close_files_none me (k : K) : k_procs k !! me = None -> forall a k', Proc.close_files (E:=Y) me k <> Ok a k'.
Proof.
  intros Hn a k' E. unfold Proc.close_files in E. change (seq 0 NOFILE) with (0%nat :: seq 1 15) in E. cbn [forM] in E.
  apply bind_inv in E as (?&?&E&_). apply bind_inv in E as (p&?&[_ Hp]%Sched.getproc_inv&_). congruence.
Qed.

Lemma exit_acc : acc okay (Proc.exit_finish (E:=Y)) (fun _ _ => 0) (fun _ => settled).
Proof.
  unfold Proc.exit_finish. apply own_start; [|intros me k Hn a k' E; apply bind_inv in E as (?&?&E&_); by eapply close_files_none].
  intros me fs w. eapply acc_bind; [apply close_files_acc|]. intros u1. intros k a k' (fs'&Hk&Hfs').
  revert a k'. match goal with |- forall a k', ?m k = Ok a k' -> _ =>
    enough (acc (okv (own me fs' w)) m (fun _ _ => 0) (fun _ => settled)) as Hm end.
  { intros a k' E. destruct (Hm _ _ _ Hk E) as [H1 H2]. split; [done|]. intros o. rewrite H2. lia. }
  eapply acc_bind; [apply put_cwd_acc|intros ?]. do 2 acc_step.
  eapply acc_bind with (d1 := fun _ _ => 0) (R := fun _ => okv (own me fs' None)).
  { unfold when. case_bool_decide; [apply wakeup1_acc|by apply acc_ret]. }
  intros ?. eapply acc_bind with (d1 := fun _ _ => 0) (R := fun _ => okv (own me fs' None)).
  { unfold when at 1. case_bool_decide; [|by apply acc_ret]. acc_step. acc_step.
    eapply acc_conseq; [apply wakeup1_acc|done|done|]. intros. lia. }
  intros ?. acc_step. eapply acc_conseq; [by apply zombie_acc|done|done|]. intros. cbn. lia.
Qed.

Lemma thread_exit_acc v : acc okay (Proc.thread_exit (E:=Y) v) (fun _ _ => 0) (fun _ => settled).
Proof.
  unfold Proc.thread_exit. apply own_start; [|intros me k Hn a k' E; apply bind_inv in E as (?&?&E&_); by eapply close_files_none].
  intros me fs w. eapply acc_bind; [apply close_files_acc|]. intros u1. intros k a k' (fs'&Hk&Hfs').
  revert a k'. match goal with |- forall a k', ?m k = Ok a k' -> _ =>
    enough (acc (okv (own me fs' w)) m (fun _ _ => 0) (fun _ => settled)) as Hm end.
  { intros a k' E. destruct (Hm _ _ _ Hk E) as [H1 H2]. split; [done|]. intros o. rewrite H2. lia. }
  eapply acc_bind; [apply put_cwd_acc|intros ?]. do 5 acc_step.
  eapply acc_conseq; [by apply zombie_acc|done|done|]. intros. cbn. lia.
Qed.

(** C7: Processes and threads come and go with balanced accounts: [fork] and
    [thread_create] give the child its own references to files and directory, on
    failure none; [exit] and [thread_exit] give back all of the caller's.  Free
    slots and zombies have nothing open. *)
Theorem processes_balanced (k : K) :
  kernel_ok k ->
  (forall r k', Proc.fork k = Ok r k' -> kernel_ok k' /\ balanced k k') /\
  (forall f a r k', Proc.thread_create f a k = Ok r k' -> kernel_ok k' /\ balanced k k') /\
  (forall k', Proc.exit_finish k = Ok tt k' -> settled k' /\ balanced k k') /\
  (forall v k', Proc.thread_exit v k = Ok tt k' -> settled k' /\ balanced k k').
Proof.
  intros Hk. split_and!.
  - intros r k' E. destruct (still_fork _ _ _ Hk E) as [H1 H2]. split; [exact H1|by apply balanced_tally].
  - intros f a r k' E. destruct (still_thread_create _ _ _ _ _ Hk E) as [H1 H2]. split; [exact H1|by apply balanced_tally].
  - intros k' E. destruct (exit_acc _ _ _ Hk E) as [H1 H2]. split; [exact H1|by apply balanced_tally].
  - intros v k' E. destruct (thread_exit_acc _ _ _ _ Hk E) as [H1 H2]. split; [exact H1|by apply balanced_tally].
Qed.
End procs.

(** ** [exec] by the first thread

    Thread 1 of process 0 has file 5 open.  [dealloc_other_threads], as [exec]
    calls it, frees the slot of the thread with the descriptor in it; the next
    [fork] takes that slot, and the child has file 5 open, which its parent has
    not. *)
Definition leaky : kernel Z :=
  (kernel0 (mkCpu 0 0 true true) 0x80200000)
    <| k_curproc := Some 0%nat |>
    <| k_procs := [proc0 <| state := RUNNING |> <| pid := 1 |> <| cwd := Some 0%nat |> <| next_thread := Some 1%nat |>
                         <| pgdir := 1 |> <| sz := 16384 |>;
                   proc0 <| state := SLEEPING |> <| pid := 1 |> <| cwd := Some 0%nat |> <| master := Some 0%nat |>
                         <| prev_thread := Some 0%nat |> <| kstack := 4096 |> <| originalbase := 8192 |>
                         <| ofile := Some 5%nat :: replicate 15 None |>]
                  ++ replicate 62 proc0 |>.

(** The descriptors of a thread freed by [exec] are neither closed nor
    cleared: the child of the next [fork] has a descriptor for a file its parent
    has not open and that nobody has counted. *)
Theorem exec_leaks_descriptors :
  match (Proc.dealloc_other_threads 0 ;; Proc.fork) leaky with
  | Ok _ k => map ofile (take 2 (k_procs k)) = [replicate 16 None; Some 5%nat :: replicate 15 None] /\
      map state (take 2 (k_procs k)) = [RUNNING; RUNNABLE]
  | _ => False
  end.
Proof. vm_compute. split; reflexivity. Qed.

(** ** Witness: the process of Acctsys.v exits *)
Import Ideal.
Lemma processes_balanced_witness :
  match @Proc.exit_finish _ (kernel_env acct_layout) acct_kernel with
  | Ok _ k => settled k /\ balanced acct_kernel k
  | _ => False
  end.
Proof.
  assert (match @Proc.exit_finish _ (kernel_env acct_layout) acct_kernel with Ok _ _ => true | _ => false end = true) as Hr
    by (vm_compute; reflexivity).
  destruct (@Proc.exit_finish _ (kernel_env acct_layout) acct_kernel) as [[] k|? ?|?| |] eqn:E; [|discriminate Hr..].
  exact (proj1 (proj2 (proj2 (processes_balanced acct_layout acct_kernel acct_ok))) k E).
Defined.
End Acctproc.
