(* ===== verification/Execacct.v ===== *)
(** * exec is accounted for

    The counts of Acctsys.v across [exec]: the inode of the program, its lock
    and the transaction are given back on every path; a failure leaves the
    process table in order as well. *)

From S2P Require Import Prelude Double Spinlock Dll Bytes Bufcache Log Txdisk Fs Pipes Kalloc Vm File Procdef Mlfq Sched Proc Kenv Fcntl Syscall Sysfile Exec Acct Acctsys Acctproc.

Module Execacct.
Import Fs File Kenv Syscall Sysfile Exec Acct Acctsys Acctproc.

Section exec.
Context {B : Type} `{BufCache B}.
Variable lay : layout B.
Hypothesis Hsw : devices_still (l_sw lay).
Abbreviation Y := (sysst B).
Abbreviation K := (kernel Y).
#[local] Instance kernel_env : KernelEnv Y := sys_env lay.

(** ** The image *)

Hint Extern 2 (moves _ _) => exact (mem_moves _) : moves.

Lemma still_loaduvm_loop n : forall d a ip off i sz, still (loaduvm_loop lay n d a ip off i sz).
Proof. induction n as [|n IH]; intros d a ip off i sz; cbn [loaduvm_loop]; moves_tac. Qed.
Hint Resolve still_loaduvm_loop : moves.
Lemma still_loaduvm d a ip off sz : still (loaduvm lay d a ip off sz).
Proof. unfold loaduvm. moves_tac. Qed.
Hint Resolve still_loaduvm : moves.
Lemma still_load_segments n : forall ip d off sz, still (load_segments lay n ip d off sz).
Proof. induction n as [|n IH]; intros ip d off sz; cbn [load_segments]; moves_tac. Qed.
Lemma exec_bad_moves d ip :
  moves (exec_bad lay d ip)
    (fun _ o => - match ip with Some i => one (ILock i) o + one (IRef i) o + one Ops o | None => 0 end).
Proof. unfold exec_bad. destruct d, ip; moves_tac. Qed.
Hint Resolve still_load_segments exec_bad_moves : moves.
(** The inode and the transaction are given back, whether it succeeds or not. *)
Lemma load_image_moves ip : moves (load_image lay ip) (fun _ o => - one (IRef ip) o - one Ops o).
Proof. unfold load_image. moves_tac. Qed.

(** ** What changes no account, whatever the state of the processes *)
Definition kept : relation K := fun k k' =>
  y_fs (k_env k') = y_fs (k_env k) /\ y_files (k_env k') = y_files (k_env k) /\
  (fun p => (ofile p, cwd p)) <$> k_procs k' = (fun p => (ofile p, cwd p)) <$> k_procs k.
#[local] Instance kept_po : PreOrder kept.
Proof. split; [by intros ?|]. intros ? ? ? (?&?&?) (?&?&?). split_and!; congruence. Qed.

Lemma kept_tally k k' : kept k k' -> forall o, tally k' o = tally k o.
Proof.
  intros (H1&H2&H3) o. cbn [tally kernel_tally]. unfold kernel_count. cbn [tally sys_tally]. unfold sys_count.
  rewrite H1, H2. f_equal.
  assert (forall ps : list proc, total (fun p => hold p o) ps =
    total (fun x => total (fun s => slot s o) x.1 + got x.2 o) ((fun p => (ofile p, cwd p)) <$> ps)) as Hk.
  { induction ps as [|p ps IH]; [done|]. unfold total in *. cbn [foldr fmap list_fmap]. by rewrite IH. }
  rewrite !Hk. by rewrite H3.
Qed.

Lemma kept_getproc i : keeps kept (getproc (E:=Y) i).
Proof. unfold getproc. keeps_tac. Qed.
Lemma kept_setproc i g : (forall p, ofile (g p) = ofile p /\ cwd (g p) = cwd p) -> keeps kept (setproc (E:=Y) i g).
Proof.
  intros Hg k a k' (p&Hp&->&_)%setproc_count. split_and!; [done|done|]. proj_upd. apply list_eq. intros j.
  rewrite !list_lookup_fmap. destruct (decide (i = j)) as [->|].
  - rewrite list_lookup_alter_eq. destruct (k_procs k !! j) as [q|]; [|done]. cbn. destruct (Hg q) as [-> ->]. done.
  - by rewrite list_lookup_alter_ne.
Qed.
Lemma kept_mem {A} (m : M memst A) : keeps kept (env (mem (B:=B) m)).
Proof.
  intros k a k'. unfold env, mem, zoom. destruct (m (y_mem (k_env k))); intros [= <- <-]. done.
Qed.
Lemma kept_lock {A} (proj : K -> spinlock) `{!Setter proj} (m : M view A) :
  (forall k c l, kept k (k <| k_cpu := c |> <| proj := l |>)) -> keeps kept (with_lock proj m).
Proof.
  intros Hp k a k' E. unfold with_lock in E. destruct (m _); try discriminate. injection E as <- <-. apply Hp.
Qed.
Lemma kept_acquire_ptable : keeps kept (acquire_ptable (E:=Y)).
Proof. by apply kept_lock. Qed.
Lemma kept_release_ptable : keeps kept (release_ptable (E:=Y)).
Proof. by apply kept_lock. Qed.
Lemma kept_acquire_memlock : keeps kept (acquire_memlock (E:=Y)).
Proof. by apply kept_lock. Qed.
Lemma kept_release_memlock : keeps kept (release_memlock (E:=Y)).
Proof. by apply kept_lock. Qed.
Lemma kept_holding : keeps kept (with_lock (E:=Y) k_ptlock holding).
Proof. by apply kept_lock. Qed.
Lemma kept_myproc : keeps kept (myproc (E:=Y)).
Proof. unfold myproc. keeps_tac. Qed.
Hint Resolve kept_getproc kept_mem kept_acquire_ptable kept_release_ptable kept_acquire_memlock
  kept_release_memlock kept_holding kept_myproc : keeps.
Hint Extern 1 (keeps kept (setproc _ _)) => apply kept_setproc; intros; split; reflexivity : keeps.
Hint Extern 2 (keeps kept (env _)) => exact (kept_mem _) : keeps.
Lemma kept_highest_master i : keeps kept (get_highest_master (E:=Y) i).
Proof.
  unfold get_highest_master. generalize (S NPROC). intros n. revert i.
  induction n as [|n IH]; intros i; cbn [highest_master_from]; keeps_tac.
Qed.
Hint Resolve kept_highest_master : keeps.
Lemma kept_unlink_thread w : keeps kept (Proc.unlink_thread (E:=Y) w).
Proof. unfold Proc.unlink_thread. keeps_tac. Qed.
Hint Resolve kept_unlink_thread : keeps.
Lemma kept_dealloc_thread w : keeps kept (Proc.dealloc_thread (E:=Y) w).
Proof. unfold Proc.dealloc_thread. keeps_tac. Qed.
Hint Resolve kept_dealloc_thread : keeps.
Lemma kept_dealloc_all n : forall p, keeps kept (Proc.dealloc_all (E:=Y) n p).
Proof. induction n as [|n IH]; intros [p|]; cbn [Proc.dealloc_all]; keeps_tac. Qed.
Lemma kept_sched_out : keeps kept (Proc.sched_out (E:=Y)).
Proof. unfold Proc.sched_out. keeps_tac. Qed.
Lemma kept_reap i : keeps kept (Proc.reap (E:=Y) i).
Proof. unfold Proc.reap. keeps_tac. Qed.
Hint Resolve kept_dealloc_all kept_sched_out kept_reap : keeps.
Lemma kept_wait_scan l : forall me h, keeps kept (Proc.wait_scan (E:=Y) l me h).
Proof. induction l as [|i l IH]; intros me h; cbn [Proc.wait_scan]; keeps_tac. Qed.
Hint Resolve kept_wait_scan : keeps.
Lemma kept_wait_begin : keeps kept (Proc.wait_begin (E:=Y)).
Proof. unfold Proc.wait_begin, Proc.wait_loop, Proc.sleep_out. keeps_tac. Qed.
Hint Resolve kept_wait_begin : keeps.
Lemma kept_dealloc_others t : keeps kept (Proc.dealloc_other_threads (E:=Y) t).
Proof. unfold Proc.dealloc_other_threads. keeps_tac. Qed.
Hint Resolve kept_dealloc_others : keeps.

Lemma kept_switchuvm i : keeps kept (Sched.switchuvm (E:=Y) i).
Proof.
  unfold Sched.switchuvm. keeps_tac. intros k u k' E. injection E as <- <-. by destruct k as [? ? ? ? ? ? ? ? ? ? ? ? ? []].
Qed.
Hint Resolve kept_switchuvm : keeps.
Lemma commit_image_kept me d size entry sp : keeps kept (commit_image lay me d size entry sp).
Proof. unfold commit_image. keeps_tac. Qed.
Lemma commit_image_result me d size entry sp (k : K) r k' :
  commit_image lay me d size entry sp k = Ok r k' -> r <> Proc.Done (-1).
Proof.
  unfold commit_image. intros (p&?&_&(?&?&_&(?&?&_&(r1&?&_&E)%bind_inv)%bind_inv)%bind_inv)%bind_inv.
  case_bool_decide; destruct r1; try (injection E as <- <-; discriminate).
  apply bind_inv in E as (?&?&_&[= <- <-]). discriminate.
Qed.

(** ** exec *)

Lemma put_to_sleep_acc me fs w n : forall p,
  acc (okv (own me fs w)) (put_to_sleep (B:=B) n me p) (fun _ _ => 0) (fun _ => okv (own me fs w)).
Proof.
  induction n as [|n IH]; intros [i|]; cbn [put_to_sleep]; [by apply acc_stop|by apply acc_ret| |by apply acc_ret].
  intros k u k' Hk (q&?&[-> Hq]%Sched.getproc_inv&E)%bind_inv. apply bind_inv in E as (u1&k1&E1&E).
  enough (okv (own me fs w) k1 /\ forall o, tally k1 o = tally k o) as [Hk1 Ht1].
  { destruct (IH _ _ _ _ Hk1 E) as [H1 H2]. split; [done|]. intros o. rewrite H2, Ht1. done. }
  destruct (_ && _) eqn:Eb; [|injection E1 as <- <-; done]. cbn [when] in E1. bool_hyps.
  destruct Hk as [Hok [Hm Hk]]. destruct (setproc_acc _ _ _ _ _ _ E1 Hok Hq) as (Hok'&Ht&Hseen);
    [apply (Forall_lookup_1 _ _ _ _ (proj1 (proj2 Hok)) Hq)|by intros []|congruence|].
  split; [|intros o; rewrite Ht; unfold hold; proj_upd; lia]. split; [done|]. rewrite Hseen. split; [done|]. cbn.
  by rewrite list_lookup_insert_ne.
Qed.

Lemma as_me_okv {A} (m : M Y A) d R : moves m d -> acc (okv R) (as_me m) d (fun _ => okv R).
Proof.
  intros Hm. unfold as_me. eapply acc_bind; [apply acc_quiet|intros me].
  { intros k a k' [-> _]%curproc_inv. done. }
  eapply acc_bind; [apply acc_quiet, quiet_get|intros p]. eapply acc_bind with (d1 := fun _ _ => 0).
  - apply acc_env. intros y a y' Hok [= <- <-]. split; [done|]. intros o. cbn [tally sys_tally]. unfold sys_count.
    proj_upd. cbn [tally fs_tally]. unfold fs_count. destruct o; proj_upd; lia.
  - intros ?. eapply acc_conseq; [apply acc_env, Hm|done|done|]. intros. cbn. lia.
Qed.

(** The end of [exec]: what was accounted for stays so; a failure keeps the
    table in order. *)
Definition exec_post (r : Proc.stage Z) (k : K) : Prop := r = Proc.Done (-1) -> kernel_ok k.

Lemma exec_acc path argv : acc okay (exec lay path argv) (fun _ _ => 0) exec_post.
Proof.
  unfold exec. intros k r k' Hok (me&?&[-> Hme]%curproc_inv&E)%bind_inv.
  apply bind_inv in E as (p&?&[-> Hp]%Sched.getproc_inv&E).
  destruct (killed p); [injection E as <- <-; split; [by intros _|intros; lia]|].
  assert (okv (own me (ofile p) (cwd p)) k) as Hk.
  { split; [done|]. split; [done|]. cbn. unfold keys. rewrite list_lookup_fmap, Hp. cbn. unfold key.
    by rewrite (proj2 (proj2 Hok) _ _ Hme Hp). }
  revert E. match goal with |- ?m k = Ok r k' -> _ =>
    enough (acc (okv (own me (ofile p) (cwd p))) m (fun _ _ => 0) exec_post) as Hm by exact (Hm _ _ _ Hk) end.
  assert (forall R k r, okv R k -> exec_post r k) as Hpost by (intros R k1 r1 [H1 _] _; exact H1).
  eapply acc_bind with (d1 := fun _ _ => 0) (R := fun _ => okv (own me (ofile p) (cwd p))).
  { unfold sleep_other_threads. eapply acc_bind; [apply acc_quiet, quiet_acquire_ptable|intros ?].
    eapply acc_bind; [apply acc_quiet, quiet_highest_master|intros h].
    eapply acc_bind; [apply put_to_sleep_acc|intros ?].
    eapply acc_conseq; [apply acc_quiet, quiet_release_ptable|done|done|]. intros. cbn. lia. }
  intros ?. eapply acc_bind; [apply as_me_okv, begin_op_sys|intros ?].
  eapply acc_bind; [by apply as_me_okv, fs_moves, namei_moves|intros [ip|]]; cycle 1.
  { eapply acc_bind; [apply as_me_okv, end_op_sys|intros ?]. apply acc_ret; [intros o; cbn; lia|intros ? ?; by eapply Hpost]. }
  eapply acc_bind; [apply as_me_okv; by apply load_image_moves|intros [[[d size] entry]|]]; cycle 1.
  { apply acc_ret; [intros o; cbn; lia|intros ? ?; by eapply Hpost]. }
  cbv zeta. eapply acc_bind; [apply acc_quiet, quiet_set; done|intros ?].
  eapply acc_bind; [apply acc_env; apply mem_moves|intros s].
  assert (forall R d', (forall r o, d' r o = 0) -> acc (okv R) (as_me (exec_bad lay (Some d) None) ;; ret (Proc.Done (-1))) d' exec_post) as Hbad.
  { intros R d' Hd'. eapply acc_bind; [apply as_me_okv, exec_bad_moves|intros ?].
    apply acc_ret; [intros o; rewrite Hd'; cbn; lia|intros ? ?; by eapply Hpost]. }
  destruct (s =? 0); [apply Hbad; intros; cbn; lia|].
  eapply acc_bind; [apply acc_env; apply mem_moves|intros ?].
  eapply acc_bind; [apply acc_env; apply mem_moves|intros [sp|]]; [|apply Hbad; intros; cbn; lia].
  eapply acc_bind; [apply acc_quiet, quiet_set; done|intros ?].
  intros k1 r1 k2 Hk1 E. split.
  - intros ->. by destruct (commit_image_result _ _ _ _ _ _ _ _ E).
  - intros o. rewrite (kept_tally _ _ (commit_image_kept _ _ _ _ _ _ _ _ E)). cbn. lia.
Qed.

(** C17: [exec] gives back the inode of the program, its lock and the transaction
    on every path, and whatever it does to the threads of the process no
    reference is lost or made up; when it fails the process table is in order,
    too. *)
Theorem exec_balanced path argv (k : K) r k' :
  kernel_ok k -> exec lay path argv k = Ok r k' -> balanced k k' /\ exec_post r k'.
Proof.
  intros Hk E. destruct (exec_acc path argv k r k' Hk E) as [H1 H2]. split; [by apply balanced_tally|exact H1].
Qed.
End exec.

(** ** Witness: the failing [exec] of Exec.v *)
Import Ideal.
Lemma fail_ok : kernel_ok fail_kernel.
Proof.
  split_and!.
  - apply Forall_nil_2.
  - apply Forall_cons. split; [split; [done|by intros [[=]|[=]]]|].
    apply Forall_cons. split; [split; [done|by intros [[=]|[=]]]|].
    apply Forall_replicate. split; [done|]. intros _. split; [by apply Forall_replicate|done].
  - intros me p [= <-] [= <-]. done.
Qed.
Lemma exec_balanced_witness :
  match exec fail_layout [] [] fail_kernel with
  | Ok r k => r = Proc.Done (-1) /\ balanced fail_kernel k /\ kernel_ok k
  | _ => False
  end.
Proof.
  assert (match exec fail_layout [] [] fail_kernel with Ok (Proc.Done v) _ => v =? -1 | _ => false end = true) as Hr
    by (vm_compute; reflexivity).
  destruct (exec fail_layout [] [] fail_kernel) as [[v|ie] k|? ?|?| |] eqn:E; [|discriminate Hr..].
  apply Z.eqb_eq in Hr. subst v. split; [reflexivity|].
  destruct (exec_balanced fail_layout ltac:(by split) [] [] fail_kernel _ _ fail_ok E) as [H1 H2].
  exact (conj H1 (H2 eq_refl)).
Defined.
End Execacct.
